(* ===== verification/_CoqProject ===== *)
-Q . S2P
Prelude.v
RfcDefs.v
RfcFcs.v
RfcMonad.v
RfcFrames.v
RfcUtils.v
RfcPort.v
RfcMxFsm.v
RfcPortFsm.v
RfcApi.v
RfcSystem.v
RfcInvariant.v
RfcSafety.v
RfcApiSafety.v
RfcInputs.v
RfcExample.v
RfcReach.v
RfcRoundTrip.v
RfcFlow.v
RfcTables.v
RfcScenario.v
P256Arith.v
P256Mod.v
P256Inv.v
P256Prime.v
P256Naf.v
P256Curve.v
P256Ecc.v
Aes.v
AesSpec.v
AesKey.v
AesInverse.v
AesOtf.v
Cmac.v
CryptoToolbox.v
SmpDefs.v
SmpTables.v
SmpMonad.v
SmpCrypto.v
SmpUtils.v
SmpKeys.v
SmpAct.v
SmpMain.v
SmpModel.v
SmpAgreement.v
SmpScenario.v
SmpTyped.v
SmpSafe.v
SmpSafeKeys.v
SmpSafeAct.v
SmpReach.v
SmpLive.v
SmpLiveKeys.v
SmpLiveAct.v
SmpMono.v
SmpTotal.v
