(* ===== verification/Prelude.v ===== *)
(** * Components of the Fluoride Bluetooth stack

    This library models four parts of the stack and proves their properties:
    RFCOMM ([src/system/stack/rfcomm]), the arithmetic and the points of the curve
    P-256 that pairing uses ([src/system/stack/smp/p_256_*]), the cryptographic
    toolbox ([src/system/gd/crypto_toolbox]), and the Security Manager Protocol that
    uses both ([src/system/stack/smp]).

    ** RFCOMM

    RFCOMM carries serial-port connections over one
    L2CAP channel per peer.  A multiplexer control block (MCB) stands for the
    channel to a peer, a port for one connection (a DLC, numbered by its DLCI)
    on it.  Each has a state machine; frames and multiplexer messages of GSM
    07.10 travel between the two ends; applications use ports by their handles.

    - [Prelude]: machine integers with their wrap-around, record update,
      generic lemmas, the hint database [rfc] (shared by all parts).
    - [RfcDefs]: constants ([rfcdefs.h], [port_api.h], [rfc_int.h],
      [port_int.h]), events and states ([rfc_event.h], [rfc_state.h]), the
      structures [tPORT], [tRFC_MCB], [MX_FRAME], [tRFC_CB] and their zeroed
      values.
    - [RfcFcs]: the frame check sequence ([rfc_calc_fcs], [rfc_check_fcs]).
    - [RfcMonad]: the machine the code runs on: the control block [rfc_cb], the
      trace of calls to other subsystems, and the faults (null pointer, failed
      assertion, index out of bounds).  The class [Env] is the rest of the stack:
      L2CAP, the security manager, the allocator, the application's callouts.
    - [RfcFrames]: building and parsing frames ([rfc_ts_frames.cc],
      [rfc_check_send_cmd]).
    - [RfcUtils]: timers, the LCID table, allocation, release and lookup of MCBs
      and ports ([rfc_utils.cc], [port_utils.cc]).
    - [RfcPort]: the port layer ([port_rfc.cc], [rfc_port_if.cc]) and the credits.
    - [RfcMxFsm], [RfcPortFsm]: the two state machines ([rfc_mx_fsm.cc],
      [rfc_port_fsm.cc]) and the handlers of multiplexer messages.
    - [RfcApi]: the application interface ([port_api.cc]).
    - [RfcSystem]: multiplexer messages ([rfc_process_mx_message]), the L2CAP
      callbacks ([rfc_l2cap_if.cc], [rfc_on_l2cap_error]), timers and the
      security callback; the recursion between the state machines is closed here.

    The two state machines call each other and are called by most functions; the
    class [SM] is what a function sees of them.  A pointer to a port or an MCB is
    its index in the table, a null pointer is [None]; a [BT_HDR] carries the whole
    block it was allocated with, so that every access to a buffer is checked.

    What is proved of it:

    - Memory safety ([RfcInvariant], [RfcSafety], [RfcApiSafety], [RfcInputs],
      [RfcReach]): an invariant of the control block holds in every state start-up
      and any inputs lead to, where an input is a frame with arbitrary octets, an
      L2CAP event, a timer, a security result or a call of the application.  No
      input indexes a table or a buffer out of bounds, and every input is handled
      in finitely many steps.  [RfcInvariant] has the program logic this rests on:
      [spec q m P] says that [m] keeps the invariant and how much of the state it
      leaves alone.
    - Frames ([RfcFcs], [RfcRoundTrip]): the checksum is the CRC of the
      specification; every frame and every multiplexer message one end writes is
      read back by the other end with the same contents.
    - Data and flow control ([RfcFlow]): what an application reads and writes are
      the octets of the queues in order; frames are sent exactly as far as the
      credits go, and credits from the peer release what was held back.
    - Tables and errors ([RfcTables]): allocation is round robin and complete,
      release leaves no reference, the error results of the interface change
      nothing.
    - Sessions ([RfcScenario]): two devices connect, exchange data and close, on
      every server channel.  The same file has inputs on which the code does not do
      what it means to.
    - [RfcExample] has the environment in which witnesses are evaluated.

    ** The curve P-256

    The private keys of Secure Connections are 256-bit numbers, public keys points
    of P-256.  A number is a list of eight 32-bit words, least significant first, as
    in the code; the modulus is the one of [p_256_init_curve].

    - [P256Arith], [P256Mod], [P256Inv]: [p_256_multprecision.cc].  Comparison,
      shifts, addition and subtraction with carry; addition, subtraction and
      doubling modulo p are right for all arguments below p; multiplication and
      squaring, with the column-wise reduction, are right whenever no column loses a
      borrow ([product_ok]), and a product that loses one is given; inversion ends
      and is right for every argument.
    - [P256Prime]: p is prime (a chain of Pocklington certificates), so the
      residues form a field.
    - [P256Naf]: the non-adjacent form ([ECC_NAF]): its digits, its length, its value,
      and the one number on which the code writes behind its array.
    - [P256Curve]: the chord and tangent law on affine points, and that it stays on
      the curve.
    - [P256Ecc]: [p_256_ecc_pp.cc] and [p_256_curvepara.cc].  Doubling and addition
      in Jacobian coordinates implement the law; the multiplication of a point
      performs the doublings and additions its recoded factor prescribes;
      validation accepts the points of the curve.

    The functions of [P256Ecc] return a flag with their result that says whether
    every product was exact; the theorems are about runs in which it is set.  That
    the group law is associative is not proved, so the multiplication is stated by
    the chain of operations, not as a multiple.

    ** The cryptographic toolbox

    - [Aes]: [aes.cc] in the configuration the header selects.  [AesSpec]: the cipher
      of FIPS 197 over the field of 256 elements, and that the tables and the
      rounds are those.  [AesKey]: the key schedule is the key expansion, so
      encryption is AES for the three lengths of keys.  [AesInverse]: decryption and
      chaining undo encryption.  [AesOtf]: the functions that make their round keys on
      the fly compute the same cipher and its inverse.
    - [Cmac]: [aes_cmac.cc] computes the code of RFC 4493.  Memory that the code does
      not initialise is an argument ([memory]); the theorem holds for all of it.
    - [CryptoToolbox]: the functions of [crypto_toolbox.cc] are those of the Core
      Specification, volume 3, part H, on octets in the opposite order.

    ** The Security Manager Protocol

    SMP pairs two devices: they exchange parameters, choose an association model,
    authenticate each other, agree on a key, encrypt the link and distribute keys.
    One control block, [smp_cb], drives two state machines, one for pairing over LE
    and one for deriving LE keys over BR/EDR.  An event runs the two actions of a row
    of the table of its state; the actions raise events in turn.

    - [SmpDefs]: constants and structures ([smp_int.h], [smp_api_types.h],
      [smp_status.h]).  [SmpTables]: the entry maps, state tables and association
      tables of [smp_main.cc], [smp_br_main.cc] and [smp_utils.cc].
    - [SmpMonad]: the machine the code runs on.  [Env] is the rest of the stack,
      [Crypto] the interface of the toolbox and of P-256, [Machines] what an action
      sees of the state machines.  [SmpCrypto]: the toolbox and the P-256 code of this
      library are an instance of [Crypto] and satisfy the laws SMP relies on.
    - [SmpUtils], [SmpKeys], [SmpAct]: [smp_utils.cc], [smp_keys.cc], [smp_act.cc].
      The union [tSMP_INT_DATA] is an inductive type by the member that was set
      last; reading another member gives octets of the environment, following it as
      a pointer is a fault.  A closure that waits for a random number is a value of
      [rand_callback].
    - [SmpMain]: the two dispatchers, the recursion of actions into them, the callbacks
      for L2CAP ([smp_l2c.cc]), the interface ([smp_api.cc]), and all inputs.

    What is proved of it:

    - [SmpModel]: two devices that exchanged parameters choose the same method, the
      one of the Core Specification.
    - [SmpAgreement]: on two control blocks that hold what the devices sent each other
      the two devices compute the same confirm values, check values, numbers and keys.
    - [SmpScenario]: runs on which the code does not do what it means to, and the
      environments of the witnesses.
    - Types ([SmpTyped], [SmpSafe], [SmpSafeKeys], [SmpSafeAct], [SmpReach]): from
      [SMP_Init] on, whatever inputs arrive, every buffer of the control block has its
      size, what is sent has the form that its opcode asks for, no command is read
      behind its end, and the actions find the data they need with their event.  The
      judgement [safe m Q w] carries this through the code; a check of the tables by
      evaluation ([le_fits], [br_fits]) says that the rows fit their events.  The
      faults that remain are named by [fault_ok].
    - Termination ([SmpLive], [SmpLiveKeys], [SmpLiveAct], [SmpMono], [SmpTotal]): every
      input is handled to its end in every state.  [Live n] bounds the depth of the
      recursion per event; each turn of the key distribution clears a key, and each
      change of state leads towards the end of the pairing.

    ** Bounds and fuel

    [machines 3] allows three nested events of the state machines of RFCOMM.  That is
    enough for every event: [RfcSafety] proves that [OutOfFuel] is never reached.
    The loops of the interface run with as much fuel as their queue or their data
    is long, which is enough by the same theorem.  Tables have the sizes of the
    source: 30 ports, 16 MCBs, 62 DLCIs.  The two-device link delivers up to 100
    inputs before it must be idle; every run of [RfcScenario] ends idle.

    The loops of the inversion have fuel 514 and, for the halvings inside, 257: every
    round shortens one of two 256-bit numbers, and [inv_mod_spec] proves that they end.
    The recoding has fuel 258 for its at most 257 digits.  The loop of the key
    schedule has fuel 60, the number of words of the longest schedule.

    [machines] of [SmpMain] allows as many nested events as its argument says; the
    runs of [SmpScenario] use 32.  [SmpTotal] proves that 31 are enough for every input
    in every state, and that more change nothing.  The loop that shortens a passkey has fuel 3: the
    mask leaves 20 bits, so it runs at most once.

    ** Not modelled

    Logging, metrics and [BTM_LogHistory], and functions that only make text for
    them ([PORT_GetResultString], the [_text] functions).  Locks: RFCOMM and SMP run on one
    thread.  The field [p_callback] of [tPORT_DATA] and the fields of [MX_FRAME]
    that are never read.  L2CAP, the security database, the controller, the snoop
    logger and [osi] are not part of RFCOMM or SMP: their documented behaviour is [Env]
    and the trace.
    Calls an application makes from inside a callback are separate inputs.  The
    branches of [aes.cc] that its configuration leaves out.  The other parts of the
    repository are not modelled. *)
From stdpp Require Export base tactics list numbers option gmap.
From Stdlib Require Export ZArith Lia Bool.

Declare Scope rfc_scope.
Delimit Scope rfc_scope with rfc.
Open Scope Z_scope.

(** The hint database of the development. *)
Create HintDb rfc.

(** ** Machine integers

    Unsigned C integers are [Z] values; every conversion that can lose bits is
    written with the wrap-around of its width. *)
Definition u8 (z : Z) : Z := z mod 256.
Definition u16 (z : Z) : Z := z mod 65536.
Definition u32 (z : Z) : Z := z mod 4294967296.

(** C's test of an integer as a condition, and a [bool] used as an integer. *)
Definition nz (z : Z) : bool := negb (z =? 0).
Definition b2z (b : bool) : Z := if b then 1 else 0.

Definition is_u8 (z : Z) : Prop := 0 <= z < 256.
Definition is_u16 (z : Z) : Prop := 0 <= z < 65536.
Definition is_u32 (z : Z) : Prop := 0 <= z < 4294967296.
Definition bytes_ok (l : list Z) : Prop := Forall is_u8 l.

Lemma u8_range z : is_u8 (u8 z).
Proof. unfold is_u8, u8. apply Z.mod_pos_bound. lia. Qed.

Lemma u16_range z : is_u16 (u16 z).
Proof. unfold is_u16, u16. apply Z.mod_pos_bound. lia. Qed.

Lemma u32_range z : is_u32 (u32 z).
Proof. unfold is_u32, u32. apply Z.mod_pos_bound. lia. Qed.

Lemma u8_small z : is_u8 z → u8 z = z.
Proof. unfold is_u8, u8. intros. by apply Z.mod_small. Qed.

Lemma u16_small z : is_u16 z → u16 z = z.
Proof. unfold is_u16, u16. intros. by apply Z.mod_small. Qed.

Lemma u32_small z : is_u32 z → u32 z = z.
Proof. unfold is_u32, u32. intros. by apply Z.mod_small. Qed.

Lemma nz_true z : nz z = true ↔ z ≠ 0.
Proof. unfold nz. rewrite negb_true_iff, Z.eqb_neq. done. Qed.

Lemma nz_false z : nz z = false ↔ z = 0.
Proof. unfold nz. rewrite negb_false_iff, Z.eqb_eq. done. Qed.

(** Linear arithmetic with wrap-around. *)
Ltac wrap_lia := unfold u8, u16, u32 in *; Z.div_mod_to_equations; lia.

(** All 256 octets, for facts that are decided octet by octet. *)
Definition octets : list Z := seqZ 0 256.

Lemma octets_complete z : is_u8 z → In z octets.
Proof.
  unfold is_u8, octets. intros. apply list_elem_of_In, elem_of_seqZ. lia.
Qed.

Lemma octet_forallb (P : Z → bool) :
  forallb P octets = true → ∀ z, is_u8 z → P z = true.
Proof. rewrite forallb_forall. auto using octets_complete. Qed.

(** The same for the numbers below [n]. *)
Lemma below_forallb n (P : Z → bool) :
  forallb P (seqZ 0 n) = true → ∀ z, 0 <= z < n → P z = true.
Proof.
  rewrite forallb_forall. intros H z Hz. apply H, list_elem_of_In, elem_of_seqZ. lia.
Qed.

(** A statement about an octet that [vm_compute] decides for all of them. *)
Ltac octet_cases P :=
  let H := fresh in
  assert (H : forallb P octets = true) by (vm_compute; reflexivity);
  exact (octet_forallb P H).

(** Bitwise operations stay within an octet. *)
Lemma is_u8_land z : is_u8 z ↔ Z.land z 255 = z.
Proof.
  change 255 with (Z.ones 8). rewrite Z.land_ones by lia. unfold is_u8. split.
  - intros. by apply Z.mod_small.
  - intros <-. apply Z.mod_pos_bound. lia.
Qed.

Lemma lxor_octet a b : is_u8 a → is_u8 b → is_u8 (Z.lxor a b).
Proof.
  rewrite !is_u8_land. intros Ha Hb.
  apply Z.bits_inj'. intros n _.
  apply (f_equal (fun z => Z.testbit z n)) in Ha, Hb.
  rewrite Z.land_spec in *. rewrite Z.lxor_spec.
  destruct (Z.testbit a n), (Z.testbit b n), (Z.testbit 255 n); done.
Qed.

(** ** Arrays of octets *)
Definition octs (n : nat) (l : list Z) : Prop := length l = n ∧ Forall is_u8 l.

Lemma octets_check l : forallb (fun x => (0 <=? x) && (x <? 256)) l = true → Forall is_u8 l.
Proof. intros H. apply Forall_forall. intros x Hx. rewrite forallb_forall in H. apply list_elem_of_In, H in Hx. unfold is_u8. lia. Qed.

Lemma octs_app n k a b : octs n a → octs k b → octs (n + k) (a ++ b).
Proof. intros [<- Ha] [<- Hb]. split; [apply length_app|by apply Forall_app]. Qed.

Lemma octs_one x : is_u8 x → octs 1 [x].
Proof. intros. split; [done|]. by apply Forall_singleton. Qed.

Lemma octs_take n l : octs n l → take n l = l.
Proof. intros [<- _]. apply firstn_all. Qed.

Lemma octs_check n l :
  (length l =? n)%nat && forallb (fun x => (0 <=? x) && (x <? 256)) l = true → octs n l.
Proof.
  intros H. apply andb_true_iff in H as [E H]. split; [by apply Nat.eqb_eq|by apply octets_check].
Qed.

Lemma octs_half l : octs 16 l → octs 8 (take 8 l) ∧ octs 8 (drop 8 l).
Proof.
  intros [Hl Hu]. split; split;
    [rewrite length_take; lia|by apply Forall_take|rewrite length_drop; lia|by apply Forall_drop].
Qed.

Lemma octs_rev n l : octs n l → octs n (rev l).
Proof. intros [Hl Hu]. split; [by rewrite length_rev|by apply Forall_rev]. Qed.

Lemma octs_cons n x l : is_u8 x → octs n l → octs (S n) (x :: l).
Proof. intros Hx [<- Hu]. split; [done|]. by apply Forall_cons. Qed.

Lemma octs_zero n : octs n (replicate n 0).
Proof. split; [apply length_replicate|]. apply Forall_replicate. unfold is_u8. lia. Qed.

Lemma octs_xor n a b : octs n a → octs n b → octs n (zip_with Z.lxor a b).
Proof.
  intros [<- Ha] [Hl Hb]. split; [rewrite length_zip_with; lia|].
  revert b Hl Hb. induction Ha as [|x a Hx Ha IH]; intros [|y b] Hl Hb; try done.
  apply Forall_cons in Hb as [Hy Hb]. cbn. apply Forall_cons. split; [by apply lxor_octet|].
  apply IH; [|done]. by injection Hl.
Qed.

#[export] Hint Resolve octs_app octs_one octs_rev octs_zero octs_xor octs_cons : rfc.

(** ** Record update

    [r <| f := v |>] is [r] with field [f] replaced.  A record type declares its
    eta-expansion once ([Eta]); [Setter] instances are computed from it. *)
Class Eta (R : Type) := eta : R → R.
Class Setter {R T} (proj : R → T) := modify : (T → T) → R → R.
Arguments modify {R T} proj {_} f r.

Ltac build_setter proj R :=
  let e := constr:(_ : Eta R) in
  let body := eval red in e in
  let s := lazymatch eval pattern proj in body with
           | ?s proj => s
           end in
  let t := eval cbv beta in (fun f => s (fun r => f (proj r))) in
  exact t.

#[export] Hint Extern 1 (@Setter ?R ?T ?proj) =>
  build_setter proj R : typeclass_instances.

Notation "r <| f := v |>" := (modify f (fun _ => v) r)
  (at level 12, left associativity, f at next level, v at level 200) : rfc_scope.
Notation "r <| f ::= g |>" := (modify f g r)
  (at level 12, left associativity, f at next level, g at level 200) : rfc_scope.
Open Scope rfc_scope.
