(* ===== verification/RfcDefs.v ===== *)
(** * RFCOMM data model

    The macros, enumerations and control blocks of [stack/include/rfcdefs.h],
    [stack/include/port_api.h], [stack/rfcomm/rfc_int.h],
    [stack/rfcomm/port_int.h], [stack/rfcomm/rfc_event.h] and
    [stack/rfcomm/rfc_state.h].  A C macro is an abbreviation here, as it is in
    the source: it stands for its number.  Pointers to a port or to a
    multiplexer control block are indices into the two tables of [tRFC_CB], so
    that two names for one block alias as they do in the code. *)
From S2P Require Import Prelude.

(** ** Constants of L2CAP, the buffer allocator and the service UUIDs *)
Abbreviation L2CAP_MTU_SIZE := 1691%Z (only parsing).
Abbreviation L2CAP_MIN_OFFSET := 13%Z (only parsing).
Abbreviation L2CAP_PKT_OVERHEAD := 4%Z (only parsing).
Abbreviation L2CAP_DEFAULT_MTU := 672%Z (only parsing).
Abbreviation L2CAP_CONN_INTERNAL_MASK := 0xF000%Z (only parsing).
Abbreviation L2CAP_SUCCESS := 0%Z (only parsing).
Abbreviation L2CAP_CONN_OK := 0%Z (only parsing).
Abbreviation L2CAP_CFG_FAILED_NO_REASON := 2%Z (only parsing).
Abbreviation BT_PSM_RFCOMM := 3%Z (only parsing).
Abbreviation BTM_SUCCESS := 0%Z (only parsing).
Abbreviation UUID_PROTOCOL_OBEX := 0x0008%Z (only parsing).
Abbreviation UUID_SERVCLASS_SERIAL_PORT := 0x1101%Z (only parsing).
Abbreviation UUID_SERVCLASS_LAN_ACCESS_USING_PPP := 0x1102%Z (only parsing).
Abbreviation UUID_SERVCLASS_DIALUP_NETWORKING := 0x1103%Z (only parsing).
Abbreviation UUID_SERVCLASS_FAX := 0x1111%Z (only parsing).
Abbreviation UUID_SERVCLASS_HEADSET_AUDIO_GATEWAY := 0x1112%Z (only parsing).
Abbreviation UUID_SERVCLASS_AG_HANDSFREE := 0x111F%Z (only parsing).

(** [RFCOMM_CMD_BUF_SIZE] is [BT_SMALL_BUFFER_SIZE] = 660 octets; the header
    [BT_HDR] takes 8 of them.  [RFCOMM_DATA_BUF_SIZE] is [BT_DEFAULT_BUFFER_SIZE]. *)
Abbreviation RFCOMM_CMD_BUF_SIZE := 660%Z (only parsing).
Abbreviation RFCOMM_DATA_BUF_SIZE := 4112%Z (only parsing).
Abbreviation BT_HDR_SIZE := 8%Z (only parsing).

(** ** Constants of [stack/include/rfcdefs.h] *)
Abbreviation MAX_RFC_PORTS := 30%Z (only parsing).
Abbreviation MAX_BD_CONNECTIONS := 16%Z (only parsing).
Abbreviation RFCOMM_MAX_SCN := 30%Z (only parsing).
Abbreviation RFCOMM_DEFAULT_MTU := 127%Z (only parsing).
Abbreviation RFCOMM_SABME := 0x2F%Z (only parsing).
Abbreviation RFCOMM_UA := 0x63%Z (only parsing).
Abbreviation RFCOMM_DM := 0x0F%Z (only parsing).
Abbreviation RFCOMM_DISC := 0x43%Z (only parsing).
Abbreviation RFCOMM_UIH := 0xEF%Z (only parsing).
Abbreviation RFCOMM_CTRL_FRAME_LEN := 3%Z (only parsing).
Abbreviation RFCOMM_MIN_OFFSET := 5%Z (only parsing).
Abbreviation RFCOMM_DATA_OVERHEAD := (RFCOMM_MIN_OFFSET + 1)%Z (only parsing).
Abbreviation RFCOMM_EA := 1%Z (only parsing).
Abbreviation RFCOMM_EA_MASK := 0x01%Z (only parsing).
Abbreviation RFCOMM_CR_MASK := 0x02%Z (only parsing).
Abbreviation RFCOMM_SHIFT_CR := 1%Z (only parsing).
Abbreviation RFCOMM_SHIFT_DLCI := 2%Z (only parsing).
Abbreviation RFCOMM_SHIFT_DLCI2 := 6%Z (only parsing).
Abbreviation RFCOMM_PF := 0x10%Z (only parsing).
Abbreviation RFCOMM_PF_MASK := 0x10%Z (only parsing).
Abbreviation RFCOMM_PF_OFFSET := 4%Z (only parsing).
Abbreviation RFCOMM_SHIFT_LENGTH1 := 1%Z (only parsing).
Abbreviation RFCOMM_SHIFT_LENGTH2 := 7%Z (only parsing).
Abbreviation RFCOMM_MAX_DLCI := 61%Z (only parsing).
Abbreviation RFCOMM_PN_DLCI_MASK := 0x3F%Z (only parsing).
Abbreviation RFCOMM_PN_FRAM_TYPE_UIH := 0x00%Z (only parsing).
Abbreviation RFCOMM_PN_FRAME_TYPE_MASK := 0x0F%Z (only parsing).
Abbreviation RFCOMM_PN_CONV_LAYER_MASK := 0xF0%Z (only parsing).
Abbreviation RFCOMM_PN_CONV_LAYER_TYPE_1 := 0%Z (only parsing).
Abbreviation RFCOMM_PN_CONV_LAYER_CBFC_I := 0xF0%Z (only parsing).
Abbreviation RFCOMM_PN_CONV_LAYER_CBFC_R := 0xE0%Z (only parsing).
Abbreviation RFCOMM_PN_PRIORITY_MASK := 0x3F%Z (only parsing).
Abbreviation RFCOMM_PN_PRIORITY_0 := 0%Z (only parsing).
Abbreviation RFCOMM_PN_K_MASK := 0x07%Z (only parsing).
Abbreviation RFCOMM_T1_DSEC := 0%Z (only parsing).
Abbreviation RFCOMM_N2 := 0%Z (only parsing).
Abbreviation RFCOMM_K_MAX := 7%Z (only parsing).
Abbreviation RFCOMM_MSC_FC := 0x02%Z (only parsing).
Abbreviation RFCOMM_MSC_RTC := 0x04%Z (only parsing).
Abbreviation RFCOMM_MSC_RTR := 0x08%Z (only parsing).
Abbreviation RFCOMM_MSC_IC := 0x40%Z (only parsing).
Abbreviation RFCOMM_MSC_DV := 0x80%Z (only parsing).
Abbreviation RFCOMM_MSC_SHIFT_BREAK := 4%Z (only parsing).
Abbreviation RFCOMM_MSC_BREAK_MASK := 0xF0%Z (only parsing).
Abbreviation RFCOMM_MSC_BREAK_PRESENT_MASK := 0x02%Z (only parsing).
Abbreviation RFCOMM_RPN_BITS_MASK := 0x03%Z (only parsing).
Abbreviation RFCOMM_RPN_BITS_SHIFT := 0%Z (only parsing).
Abbreviation RFCOMM_RPN_STOP_BITS_MASK := 0x01%Z (only parsing).
Abbreviation RFCOMM_RPN_STOP_BITS_SHIFT := 2%Z (only parsing).
Abbreviation RFCOMM_RPN_PARITY_MASK := 0x01%Z (only parsing).
Abbreviation RFCOMM_RPN_PARITY_SHIFT := 3%Z (only parsing).
Abbreviation RFCOMM_RPN_PARITY_TYPE_MASK := 0x03%Z (only parsing).
Abbreviation RFCOMM_RPN_PARITY_TYPE_SHIFT := 4%Z (only parsing).
Abbreviation RFCOMM_FC_OFF := 0x00%Z (only parsing).
Abbreviation RFCOMM_FC_RTR_ON_INPUT := 0x04%Z (only parsing).
Abbreviation RFCOMM_FC_RTR_ON_OUTPUT := 0x08%Z (only parsing).
Abbreviation RFCOMM_FC_RTC_ON_INPUT := 0x10%Z (only parsing).
Abbreviation RFCOMM_FC_RTC_ON_OUTPUT := 0x20%Z (only parsing).
Abbreviation RFCOMM_FC_MASK := 0x3F%Z (only parsing).
Abbreviation RFCOMM_RPN_PM_BIT_RATE := 0x0001%Z (only parsing).
Abbreviation RFCOMM_RPN_PM_DATA_BITS := 0x0002%Z (only parsing).
Abbreviation RFCOMM_RPN_PM_STOP_BITS := 0x0004%Z (only parsing).
Abbreviation RFCOMM_RPN_PM_PARITY := 0x0008%Z (only parsing).
Abbreviation RFCOMM_RPN_PM_PARITY_TYPE := 0x0010%Z (only parsing).
Abbreviation RFCOMM_RPN_PM_XON_CHAR := 0x0020%Z (only parsing).
Abbreviation RFCOMM_RPN_PM_XOFF_CHAR := 0x0040%Z (only parsing).
Abbreviation RFCOMM_RPN_PM_XONXOFF_ON_INPUT := 0x0100%Z (only parsing).
Abbreviation RFCOMM_RPN_PM_XONXOFF_ON_OUTPUT := 0x0200%Z (only parsing).
Abbreviation RFCOMM_RPN_PM_RTR_ON_INPUT := 0x0400%Z (only parsing).
Abbreviation RFCOMM_RPN_PM_RTR_ON_OUTPUT := 0x0800%Z (only parsing).
Abbreviation RFCOMM_RPN_PM_RTC_ON_INPUT := 0x1000%Z (only parsing).
Abbreviation RFCOMM_RPN_PM_RTC_ON_OUTPUT := 0x2000%Z (only parsing).
Abbreviation RFCOMM_RPN_PM_MASK := 0x3F7F%Z (only parsing).
Abbreviation RFCOMM_RLS_ERROR := 0x01%Z (only parsing).
Abbreviation RFCOMM_MX_DLCI := 0%Z (only parsing).
Abbreviation RFCOMM_MX_PN := 0x80%Z (only parsing).
Abbreviation RFCOMM_MX_PN_LEN := 8%Z (only parsing).
Abbreviation RFCOMM_MX_TEST := 0x20%Z (only parsing).
Abbreviation RFCOMM_MX_FCON := 0xA0%Z (only parsing).
Abbreviation RFCOMM_MX_FCON_LEN := 0%Z (only parsing).
Abbreviation RFCOMM_MX_FCOFF := 0x60%Z (only parsing).
Abbreviation RFCOMM_MX_FCOFF_LEN := 0%Z (only parsing).
Abbreviation RFCOMM_MX_MSC := 0xE0%Z (only parsing).
Abbreviation RFCOMM_MX_MSC_LEN_NO_BREAK := 2%Z (only parsing).
Abbreviation RFCOMM_MX_MSC_LEN_WITH_BREAK := 3%Z (only parsing).
Abbreviation RFCOMM_MX_NSC := 0x10%Z (only parsing).
Abbreviation RFCOMM_MX_NSC_LEN := 1%Z (only parsing).
Abbreviation RFCOMM_MX_RPN := 0x90%Z (only parsing).
Abbreviation RFCOMM_MX_RPN_REQ_LEN := 1%Z (only parsing).
Abbreviation RFCOMM_MX_RPN_LEN := 8%Z (only parsing).
Abbreviation RFCOMM_MX_RLS := 0x50%Z (only parsing).
Abbreviation RFCOMM_MX_RLS_LEN := 2%Z (only parsing).
Abbreviation BTA_RFC_MTU_SIZE := (L2CAP_MTU_SIZE - L2CAP_MIN_OFFSET - RFCOMM_DATA_OVERHEAD)%Z (only parsing).
Abbreviation PORT_RX_BUF_LOW_WM := 8%Z (only parsing).
Abbreviation PORT_RX_BUF_HIGH_WM := 10%Z (only parsing).
Abbreviation PORT_RX_BUF_CRITICAL_WM := 15%Z (only parsing).
Abbreviation PORT_RX_LOW_WM := (BTA_RFC_MTU_SIZE * PORT_RX_BUF_LOW_WM)%Z (only parsing).
Abbreviation PORT_RX_HIGH_WM := (BTA_RFC_MTU_SIZE * PORT_RX_BUF_HIGH_WM)%Z (only parsing).
Abbreviation PORT_RX_CRITICAL_WM := (BTA_RFC_MTU_SIZE * PORT_RX_BUF_CRITICAL_WM)%Z (only parsing).
Abbreviation PORT_TX_BUF_HIGH_WM := 10%Z (only parsing).
Abbreviation PORT_TX_BUF_CRITICAL_WM := 15%Z (only parsing).
Abbreviation PORT_TX_CRITICAL_WM := (BTA_RFC_MTU_SIZE * PORT_TX_BUF_CRITICAL_WM)%Z (only parsing).
Abbreviation PORT_TX_HIGH_WM := (BTA_RFC_MTU_SIZE * PORT_TX_BUF_HIGH_WM)%Z (only parsing).

(** ** Constants of [stack/rfcomm/rfc_int.h] *)
Abbreviation RFCOMM_SUCCESS := 0%Z (only parsing).
Abbreviation RFCOMM_ERROR := 1%Z (only parsing).
Abbreviation RFCOMM_SECURITY_ERR := 112%Z (only parsing).
Abbreviation RFCOMM_MIN_MTU := 23%Z (only parsing).
Abbreviation RFCOMM_MAX_MTU := 32767%Z (only parsing).
Abbreviation LINE_STATUS_OVERRUN := 0x02%Z (only parsing).
Abbreviation LINE_STATUS_FAILED := 0x10%Z (only parsing).
Abbreviation RFC_T1_TIMEOUT := 20%Z (only parsing).
Abbreviation RFC_PORT_T1_TIMEOUT := 60%Z (only parsing).
Abbreviation RFC_T2_TIMEOUT := 20%Z (only parsing).
Abbreviation RFC_DISC_TIMEOUT := 3%Z (only parsing).
Abbreviation RFCOMM_CONN_TIMEOUT := 120%Z (only parsing).
Abbreviation RFC_MCB_INIT_INACT_TIMER := 60%Z (only parsing).
Abbreviation RFC_MCB_RELEASE_INACT_TIMER := 20%Z (only parsing).

(** ** Constants of [stack/rfcomm/port_int.h] *)
Abbreviation PORT_FC_UNDEFINED := 0%Z (only parsing).
Abbreviation PORT_FC_TS710 := 1%Z (only parsing).
Abbreviation PORT_FC_CREDIT := 2%Z (only parsing).
Abbreviation MODEM_SIGNAL_DTRDSR := 0x01%Z (only parsing).
Abbreviation MODEM_SIGNAL_RTSCTS := 0x02%Z (only parsing).
Abbreviation MODEM_SIGNAL_RI := 0x04%Z (only parsing).
Abbreviation MODEM_SIGNAL_DCD := 0x08%Z (only parsing).
Abbreviation RFCOMM_CTRL_BREAK_IN_SEQ := 1%Z (only parsing).
Abbreviation RFC_RSP_PN := 0x01%Z (only parsing).
Abbreviation RFC_RSP_RPN_REPLY := 0x02%Z (only parsing).
Abbreviation RFC_RSP_RPN := 0x04%Z (only parsing).
Abbreviation RFC_RSP_MSC := 0x08%Z (only parsing).
Abbreviation RFC_RSP_RLS := 0x10%Z (only parsing).
Abbreviation PORT_CTRL_REQ_SENT := 0x01%Z (only parsing).
Abbreviation PORT_CTRL_REQ_CONFIRMED := 0x02%Z (only parsing).
Abbreviation PORT_CTRL_IND_RECEIVED := 0x04%Z (only parsing).
Abbreviation PORT_CTRL_IND_RESPONDED := 0x08%Z (only parsing).

(** ** Constants of [stack/include/port_api.h] *)
Abbreviation PORT_BAUD_RATE_9600 := 0x03%Z (only parsing).
Abbreviation PORT_8_BITS := 0x03%Z (only parsing).
Abbreviation PORT_ONESTOPBIT := 0x00%Z (only parsing).
Abbreviation PORT_PARITY_NO := 0x00%Z (only parsing).
Abbreviation PORT_ODD_PARITY := 0x00%Z (only parsing).
Abbreviation PORT_FC_OFF := 0x00%Z (only parsing).
Abbreviation PORT_XON_DC1 := 0x11%Z (only parsing).
Abbreviation PORT_XOFF_DC3 := 0x13%Z (only parsing).
Abbreviation PORT_EV_RXCHAR := 0x00000001%Z (only parsing).
Abbreviation PORT_EV_RXFLAG := 0x00000002%Z (only parsing).
Abbreviation PORT_EV_TXEMPTY := 0x00000004%Z (only parsing).
Abbreviation PORT_EV_CTS := 0x00000008%Z (only parsing).
Abbreviation PORT_EV_DSR := 0x00000010%Z (only parsing).
Abbreviation PORT_EV_RLSD := 0x00000020%Z (only parsing).
Abbreviation PORT_EV_BREAK := 0x00000040%Z (only parsing).
Abbreviation PORT_EV_ERR := 0x00000080%Z (only parsing).
Abbreviation PORT_EV_RING := 0x00000100%Z (only parsing).
Abbreviation PORT_EV_CTSS := 0x00000400%Z (only parsing).
Abbreviation PORT_EV_DSRS := 0x00000800%Z (only parsing).
Abbreviation PORT_EV_RLSDS := 0x00001000%Z (only parsing).
Abbreviation PORT_EV_OVERRUN := 0x00002000%Z (only parsing).
Abbreviation PORT_EV_TXCHAR := 0x00004000%Z (only parsing).
Abbreviation PORT_EV_CONNECTED := 0x00000200%Z (only parsing).
Abbreviation PORT_EV_CONNECT_ERR := 0x00008000%Z (only parsing).
Abbreviation PORT_EV_FC := 0x00010000%Z (only parsing).
Abbreviation PORT_EV_FCS := 0x00020000%Z (only parsing).
Abbreviation PORT_DTRDSR_ON := 0x01%Z (only parsing).
Abbreviation PORT_CTSRTS_ON := 0x02%Z (only parsing).
Abbreviation PORT_RING_ON := 0x04%Z (only parsing).
Abbreviation PORT_DCD_ON := 0x08%Z (only parsing).
Abbreviation PORT_ERR_BREAK := 0x01%Z (only parsing).
Abbreviation PORT_ERR_OVERRUN := 0x02%Z (only parsing).

(** The default signal states of the services. *)
Abbreviation PORT_OBEX_DEFAULT_SIGNAL_STATE := (Z.lor (Z.lor PORT_DTRDSR_ON PORT_CTSRTS_ON) PORT_DCD_ON) (only parsing).
Abbreviation PORT_SPP_DEFAULT_SIGNAL_STATE := (Z.lor (Z.lor PORT_DTRDSR_ON PORT_CTSRTS_ON) PORT_DCD_ON) (only parsing).
Abbreviation PORT_PPP_DEFAULT_SIGNAL_STATE := (Z.lor (Z.lor PORT_DTRDSR_ON PORT_CTSRTS_ON) PORT_DCD_ON) (only parsing).
Abbreviation PORT_DUN_DEFAULT_SIGNAL_STATE := (Z.lor PORT_DTRDSR_ON PORT_CTSRTS_ON) (only parsing).

(** [tPORT_RESULT] *)
Abbreviation PORT_SUCCESS := 0%Z (only parsing).
Abbreviation PORT_UNKNOWN_ERROR := 1%Z (only parsing).
Abbreviation PORT_ALREADY_OPENED := 2%Z (only parsing).
Abbreviation PORT_CMD_PENDING := 3%Z (only parsing).
Abbreviation PORT_NO_RESOURCES := 6%Z (only parsing).
Abbreviation PORT_BAD_BD_ADDR := 7%Z (only parsing).
Abbreviation PORT_BAD_HANDLE := 9%Z (only parsing).
Abbreviation PORT_NOT_OPENED := 10%Z (only parsing).
Abbreviation PORT_LINE_ERR := 11%Z (only parsing).
Abbreviation PORT_START_FAILED := 12%Z (only parsing).
Abbreviation PORT_PORT_NEG_FAILED := 14%Z (only parsing).
Abbreviation PORT_SEC_FAILED := 15%Z (only parsing).
Abbreviation PORT_PEER_CONNECTION_FAILED := 16%Z (only parsing).
Abbreviation PORT_PEER_TIMEOUT := 18%Z (only parsing).
Abbreviation PORT_CLOSED := 19%Z (only parsing).
Abbreviation PORT_TX_FULL := 20%Z (only parsing).
Abbreviation PORT_TX_QUEUE_DISABLED := 23%Z (only parsing).
Abbreviation PORT_INVALID_SCN := 25%Z (only parsing).
Abbreviation PORT_ERR_MAX := 26%Z (only parsing).

(** ** Macros with arguments ([rfcdefs.h]) *)
Definition RFCOMM_FRAME_IS_CMD (initiator : bool) (cr : Z) : bool :=
  (initiator && negb (nz cr)) || (negb initiator && nz cr).

Definition RFCOMM_FRAME_IS_RSP (initiator : bool) (cr : Z) : bool :=
  (initiator && nz cr) || (negb initiator && negb (nz cr)).

Definition RFCOMM_CR (initiator is_command : bool) : Z :=
  Z.shiftl (b2z ((initiator && is_command) || (negb initiator && negb is_command))) 1.

Definition RFCOMM_I_CR (is_command : bool) : Z := if is_command then 0x02 else 0x00.

Definition RFCOMM_VALID_DLCI (dlci : Z) : bool :=
  (dlci =? 0) || ((2 <=? dlci) && (dlci <=? RFCOMM_MAX_DLCI)).

(** ** Events and states *)
Inductive tRFC_EVENT :=
| RFC_EVENT_SABME | RFC_EVENT_UA | RFC_EVENT_DM | RFC_EVENT_DISC | RFC_EVENT_UIH
| RFC_EVENT_TIMEOUT | RFC_EVENT_BAD_FRAME.

Inductive tRFC_MX_EVENT :=
| RFC_MX_EVENT_SABME | RFC_MX_EVENT_UA | RFC_MX_EVENT_DM | RFC_MX_EVENT_DISC
| RFC_MX_EVENT_UIH | RFC_MX_EVENT_TIMEOUT | RFC_MX_EVENT_START_REQ
| RFC_MX_EVENT_START_RSP | RFC_MX_EVENT_CLOSE_REQ | RFC_MX_EVENT_CONN_CNF
| RFC_MX_EVENT_CONN_IND | RFC_MX_EVENT_CONF_CNF | RFC_MX_EVENT_CONF_IND
| RFC_MX_EVENT_QOS_VIOLATION_IND | RFC_MX_EVENT_DISC_IND.

Inductive tRFC_PORT_EVENT :=
| RFC_PORT_EVENT_SABME | RFC_PORT_EVENT_UA | RFC_PORT_EVENT_DM | RFC_PORT_EVENT_DISC
| RFC_PORT_EVENT_UIH | RFC_PORT_EVENT_TIMEOUT | RFC_PORT_EVENT_OPEN
| RFC_PORT_EVENT_ESTABLISH_RSP | RFC_PORT_EVENT_CLOSE | RFC_PORT_EVENT_CLEAR
| RFC_PORT_EVENT_DATA | RFC_PORT_EVENT_SEC_COMPLETE.

Inductive tRFC_MX_STATE :=
| RFC_MX_STATE_IDLE | RFC_MX_STATE_WAIT_CONN_CNF | RFC_MX_STATE_CONFIGURE
| RFC_MX_STATE_SABME_WAIT_UA | RFC_MX_STATE_WAIT_SABME | RFC_MX_STATE_CONNECTED
| RFC_MX_STATE_DISC_WAIT_UA.

Inductive tRFC_PORT_STATE :=
| RFC_STATE_CLOSED | RFC_STATE_SABME_WAIT_UA | RFC_STATE_ORIG_WAIT_SEC_CHECK
| RFC_STATE_TERM_WAIT_SEC_CHECK | RFC_STATE_OPENED | RFC_STATE_DISC_WAIT_UA.

Inductive tPORT_CONNECTION_STATE :=
| PORT_CONNECTION_STATE_CLOSED | PORT_CONNECTION_STATE_OPENING
| PORT_CONNECTION_STATE_OPENED | PORT_CONNECTION_STATE_CLOSING.

#[export] Instance tRFC_EVENT_eq_dec : EqDecision tRFC_EVENT.
Proof. solve_decision. Defined.
#[export] Instance tRFC_MX_EVENT_eq_dec : EqDecision tRFC_MX_EVENT.
Proof. solve_decision. Defined.
#[export] Instance tRFC_PORT_EVENT_eq_dec : EqDecision tRFC_PORT_EVENT.
Proof. solve_decision. Defined.
#[export] Instance tRFC_MX_STATE_eq_dec : EqDecision tRFC_MX_STATE.
Proof. solve_decision. Defined.
#[export] Instance tRFC_PORT_STATE_eq_dec : EqDecision tRFC_PORT_STATE.
Proof. solve_decision. Defined.
#[export] Instance tPORT_CONNECTION_STATE_eq_dec : EqDecision tPORT_CONNECTION_STATE.
Proof. solve_decision. Defined.

(** Equality of two values of an enumeration as a [bool]. *)
Definition eqb {A} `{EqDecision A} (x y : A) : bool := bool_decide (x = y).

(** [p_port->state >= PORT_CONNECTION_STATE_OPENED] compares the enumerators. *)
Definition port_state_ge_opened (s : tPORT_CONNECTION_STATE) : bool :=
  match s with
  | PORT_CONNECTION_STATE_OPENED | PORT_CONNECTION_STATE_CLOSING => true
  | _ => false
  end.

(** [static_cast] of a frame event to an event of the two state machines: the
    enumerators share their numbers.  [RFC_EVENT_BAD_FRAME] (50) is none of them. *)
Definition mx_event_of (e : tRFC_EVENT) : option tRFC_MX_EVENT :=
  match e with
  | RFC_EVENT_SABME => Some RFC_MX_EVENT_SABME
  | RFC_EVENT_UA => Some RFC_MX_EVENT_UA
  | RFC_EVENT_DM => Some RFC_MX_EVENT_DM
  | RFC_EVENT_DISC => Some RFC_MX_EVENT_DISC
  | RFC_EVENT_UIH => Some RFC_MX_EVENT_UIH
  | RFC_EVENT_TIMEOUT => Some RFC_MX_EVENT_TIMEOUT
  | RFC_EVENT_BAD_FRAME => None
  end.

Definition port_event_of (e : tRFC_EVENT) : option tRFC_PORT_EVENT :=
  match e with
  | RFC_EVENT_SABME => Some RFC_PORT_EVENT_SABME
  | RFC_EVENT_UA => Some RFC_PORT_EVENT_UA
  | RFC_EVENT_DM => Some RFC_PORT_EVENT_DM
  | RFC_EVENT_DISC => Some RFC_PORT_EVENT_DISC
  | RFC_EVENT_UIH => Some RFC_PORT_EVENT_UIH
  | RFC_EVENT_TIMEOUT => Some RFC_PORT_EVENT_TIMEOUT
  | RFC_EVENT_BAD_FRAME => None
  end.

(** ** Buffers, timers and addresses *)

(** A [BT_HDR] with the memory that follows it: [hdr_data] is the whole
    allocated block, [hdr_offset] the position of the payload in it and
    [hdr_len] the payload's length. *)
Record BT_HDR := mkBT_HDR {
  hdr_len : Z;
  hdr_offset : Z;
  hdr_layer_specific : Z;
  hdr_data : list Z;
}.
#[export] Instance eta_BT_HDR : Eta BT_HDR := fun r =>
  mkBT_HDR (hdr_len r) (hdr_offset r) (hdr_layer_specific r) (hdr_data r).

(** The payload a buffer carries. *)
Definition hdr_payload (b : BT_HDR) : list Z :=
  take (Z.to_nat (hdr_len b)) (drop (Z.to_nat (hdr_offset b)) (hdr_data b)).

(** An [alarm_t *]: no alarm, an alarm that is not scheduled, or one scheduled
    for a number of seconds. *)
Inductive alarm_t := alarm_null | alarm_idle | alarm_scheduled (secs : Z).

(** A [RawAddress] as its 48 bits. *)
Abbreviation RawAddress := Z (only parsing).
Definition kEmpty : RawAddress := 0.
Definition kAny : RawAddress := 0xFFFFFFFFFFFF.

(** A callback pointer: null or some function of the application. *)
Abbreviation callback := (option Z) (only parsing).

(** ** Port structures *)
Record PortSettings := mkPortSettings {
  baud_rate : Z;
  byte_size : Z;
  stop_bits : Z;
  parity : Z;
  parity_type : Z;
  fc_type : Z;
  rx_char1 : Z;
  xon_char : Z;
  xoff_char : Z;
}.
#[export] Instance eta_PortSettings : Eta PortSettings := fun r =>
  mkPortSettings (baud_rate r) (byte_size r) (stop_bits r) (parity r) (parity_type r)
    (fc_type r) (rx_char1 r) (xon_char r) (xoff_char r).

Record tPORT_DATA := mkPORT_DATA {
  queue : option (list BT_HDR);
  peer_fc : bool;
  user_fc : bool;
  queue_size : Z;
}.
#[export] Instance eta_tPORT_DATA : Eta tPORT_DATA := fun r =>
  mkPORT_DATA (queue r) (peer_fc r) (user_fc r) (queue_size r).

Record tPORT_CTRL := mkPORT_CTRL {
  modem_signal : Z;
  break_signal : Z;
  discard_buffers : Z;
  break_signal_seq : Z;
  ctrl_fc : bool;
}.
#[export] Instance eta_tPORT_CTRL : Eta tPORT_CTRL := fun r =>
  mkPORT_CTRL (modem_signal r) (break_signal r) (discard_buffers r) (break_signal_seq r)
    (ctrl_fc r).

(** The fields of [tL2CAP_CFG_INFO] that RFCOMM reads. *)
Record tL2CAP_CFG_INFO := mkL2CAP_CFG_INFO {
  mtu_present : bool;
  cfg_mtu : Z;
}.

Record tRFC_MCB := mkRFC_MCB {
  mcb_timer : alarm_t;
  cmd_q : option (list BT_HDR);
  port_handles : list Z;
  mcb_bd_addr : RawAddress;
  mcb_lcid : Z;
  peer_l2cap_mtu : Z;
  mcb_state : tRFC_MX_STATE;
  is_initiator : bool;
  restart_required : bool;
  peer_ready : bool;
  flow : Z;
  l2cap_congested : bool;
  is_disc_initiator : bool;
  pending_lcid : Z;
  pending_configure_complete : bool;
  pending_cfg_info : tL2CAP_CFG_INFO;
}.
#[export] Instance eta_tRFC_MCB : Eta tRFC_MCB := fun r =>
  mkRFC_MCB (mcb_timer r) (cmd_q r) (port_handles r) (mcb_bd_addr r) (mcb_lcid r)
    (peer_l2cap_mtu r) (mcb_state r) (is_initiator r) (restart_required r) (peer_ready r)
    (flow r) (l2cap_congested r) (is_disc_initiator r) (pending_lcid r)
    (pending_configure_complete r) (pending_cfg_info r).

Record tRFC_PORT := mkRFC_PORT {
  rfc_state : tRFC_PORT_STATE;
  expected_rsp : Z;
  p_mcb : option nat;
  port_timer : alarm_t;
}.
#[export] Instance eta_tRFC_PORT : Eta tRFC_PORT := fun r =>
  mkRFC_PORT (rfc_state r) (expected_rsp r) (p_mcb r) (port_timer r).

Record tPORT := mkPORT {
  handle : Z;
  in_use : bool;
  port_state : tPORT_CONNECTION_STATE;
  scn : Z;
  uuid : Z;
  port_bd_addr : RawAddress;
  is_server : bool;
  dlci : Z;
  line_status : Z;
  default_signal_state : Z;
  mtu : Z;
  peer_mtu : Z;
  tx : tPORT_DATA;
  rx : tPORT_DATA;
  user_port_settings : PortSettings;
  peer_port_settings : PortSettings;
  local_ctrl : tPORT_CTRL;
  peer_ctrl : tPORT_CTRL;
  port_ctrl : Z;
  rx_flag_ev_pending : bool;
  rfc : tRFC_PORT;
  ev_mask : Z;
  p_callback : callback;
  p_mgmt_callback : callback;
  p_data_callback : callback;
  p_data_co_callback : callback;
  credit_tx : Z;
  credit_rx : Z;
  credit_rx_max : Z;
  credit_rx_low : Z;
  rx_buf_critical : Z;
  keep_port_handle : bool;
  keep_mtu : Z;
  sec_mask : Z;
}.
#[export] Instance eta_tPORT : Eta tPORT := fun r =>
  mkPORT (handle r) (in_use r) (port_state r) (scn r) (uuid r) (port_bd_addr r)
    (is_server r) (dlci r) (line_status r) (default_signal_state r) (mtu r) (peer_mtu r)
    (tx r) (rx r) (user_port_settings r) (peer_port_settings r) (local_ctrl r)
    (peer_ctrl r) (port_ctrl r) (rx_flag_ev_pending r) (rfc r) (ev_mask r) (p_callback r)
    (p_mgmt_callback r) (p_data_callback r) (p_data_co_callback r) (credit_tx r)
    (credit_rx r) (credit_rx_max r) (credit_rx_low r) (rx_buf_critical r)
    (keep_port_handle r) (keep_mtu r) (sec_mask r).

(** ** Decoded multiplexer frames

    [MX_FRAME] with the members of its union side by side; a member holds what
    was last written to it.  Members the code never reads (the inner [dlci]s and
    [test.p_data]) are left out. *)
Record mx_pn := mk_mx_pn {
  pn_frame_type : Z;
  pn_conv_layer : Z;
  pn_priority : Z;
  pn_t1 : Z;
  pn_mtu : Z;
  pn_n2 : Z;
  pn_k : Z;
}.

Record mx_msc := mk_mx_msc {
  msc_signals : Z;
  msc_break_present : Z;
  msc_break_duration : Z;
}.

Record mx_nsc := mk_mx_nsc {
  nsc_ea : Z;
  nsc_cr : Z;
  nsc_type : Z;
}.

Record mx_rpn := mk_mx_rpn {
  rpn_is_request : bool;
  rpn_baud_rate : Z;
  rpn_byte_size : Z;
  rpn_stop_bits : Z;
  rpn_parity : Z;
  rpn_parity_type : Z;
  rpn_fc_type : Z;
  rpn_xon_char : Z;
  rpn_xoff_char : Z;
  rpn_param_mask : Z;
}.
#[export] Instance eta_mx_rpn : Eta mx_rpn := fun r =>
  mk_mx_rpn (rpn_is_request r) (rpn_baud_rate r) (rpn_byte_size r) (rpn_stop_bits r)
    (rpn_parity r) (rpn_parity_type r) (rpn_fc_type r) (rpn_xon_char r) (rpn_xoff_char r)
    (rpn_param_mask r).

Record MX_FRAME := mkMX_FRAME {
  f_dlci : Z;
  f_type : Z;
  f_cr : Z;
  f_ea : Z;
  f_pf : Z;
  f_credit : Z;
  u_pn : mx_pn;
  u_test_data_len : Z;
  u_msc : mx_msc;
  u_nsc : mx_nsc;
  u_rpn : mx_rpn;
  u_rls_line_status : Z;
}.
#[export] Instance eta_MX_FRAME : Eta MX_FRAME := fun r =>
  mkMX_FRAME (f_dlci r) (f_type r) (f_cr r) (f_ea r) (f_pf r) (f_credit r) (u_pn r)
    (u_test_data_len r) (u_msc r) (u_nsc r) (u_rpn r) (u_rls_line_status r).

(** ** The control block *)
Record tRFC_CB := mkRFC_CB {
  rx_frame : MX_FRAME;
  peer_rx_disabled : bool;
  last_mux : Z;
  last_port_index : Z;
  ports : list tPORT;
  rfc_mcb : list tRFC_MCB;
  (** [rfc_lcid_mcb]: a null pointer stored under a key reads as no entry. *)
  rfc_lcid_mcb : gmap Z nat;
}.
#[export] Instance eta_tRFC_CB : Eta tRFC_CB := fun r =>
  mkRFC_CB (rx_frame r) (peer_rx_disabled r) (last_mux r) (last_port_index r) (ports r)
    (rfc_mcb r) (rfc_lcid_mcb r).

(** ** Blocks filled with zero octets ([memset] to 0, static storage) *)
Definition zero_settings : PortSettings := mkPortSettings 0 0 0 0 0 0 0 0 0.
Definition zero_data : tPORT_DATA := mkPORT_DATA None false false 0.
Definition zero_ctrl : tPORT_CTRL := mkPORT_CTRL 0 0 0 0 false.
Definition zero_cfg : tL2CAP_CFG_INFO := mkL2CAP_CFG_INFO false 0.
Definition zero_mcb : tRFC_MCB :=
  mkRFC_MCB alarm_null None (replicate 62 0) kEmpty 0 0 RFC_MX_STATE_IDLE false false false
    PORT_FC_UNDEFINED false false 0 false zero_cfg.
Definition zero_rfc_port : tRFC_PORT := mkRFC_PORT RFC_STATE_CLOSED 0 None alarm_null.
Definition zero_port : tPORT :=
  mkPORT 0 false PORT_CONNECTION_STATE_CLOSED 0 0 kEmpty false 0 0 0 0 0 zero_data zero_data
    zero_settings zero_settings zero_ctrl zero_ctrl 0 false zero_rfc_port 0 None None None
    None 0 0 0 0 0 false 0 0.
Definition zero_frame : MX_FRAME :=
  mkMX_FRAME 0 0 0 0 0 0 (mk_mx_pn 0 0 0 0 0 0 0) 0 (mk_mx_msc 0 0 0) (mk_mx_nsc 0 0 0)
    (mk_mx_rpn false 0 0 0 0 0 0 0 0 0) 0.

(** [tRFC_CB rfc_cb;] is a global: zero at start. *)
Definition rfc_cb_init : tRFC_CB :=
  mkRFC_CB zero_frame false 0 0 (replicate 30 zero_port) (replicate 16 zero_mcb) ∅.
