(* ===== verification/RfcFcs.v ===== *)
(** * The frame check sequence of RFCOMM ([stack/rfcomm/rfc_utils.cc])

    The table-driven FCS of GSM 07.10, and its specification: the bit-serial
    CRC-8 with the reversed polynomial x^8 + x^2 + x + 1.  The table routine is
    the bit-serial one ([rfc_calc_fcs_spec]), the checker accepts exactly the
    computed octet ([rfc_check_fcs_iff]), and any damage confined to one octet of
    the covered part is noticed ([fcs_detects_one_octet]). *)
From S2P Require Import Prelude.

(** ** Code *)

Definition rfc_crctable : list Z :=
  [0x00; 0x91; 0xE3; 0x72; 0x07; 0x96; 0xE4; 0x75; 0x0E; 0x9F; 0xED; 0x7C; 0x09;
   0x98; 0xEA; 0x7B; 0x1C; 0x8D; 0xFF; 0x6E; 0x1B; 0x8A; 0xF8; 0x69; 0x12; 0x83;
   0xF1; 0x60; 0x15; 0x84; 0xF6; 0x67; 0x38; 0xA9; 0xDB; 0x4A; 0x3F; 0xAE; 0xDC;
   0x4D; 0x36; 0xA7; 0xD5; 0x44; 0x31; 0xA0; 0xD2; 0x43; 0x24; 0xB5; 0xC7; 0x56;
   0x23; 0xB2; 0xC0; 0x51; 0x2A; 0xBB; 0xC9; 0x58; 0x2D; 0xBC; 0xCE; 0x5F; 0x70;
   0xE1; 0x93; 0x02; 0x77; 0xE6; 0x94; 0x05; 0x7E; 0xEF; 0x9D; 0x0C; 0x79; 0xE8;
   0x9A; 0x0B; 0x6C; 0xFD; 0x8F; 0x1E; 0x6B; 0xFA; 0x88; 0x19; 0x62; 0xF3; 0x81;
   0x10; 0x65; 0xF4; 0x86; 0x17; 0x48; 0xD9; 0xAB; 0x3A; 0x4F; 0xDE; 0xAC; 0x3D;
   0x46; 0xD7; 0xA5; 0x34; 0x41; 0xD0; 0xA2; 0x33; 0x54; 0xC5; 0xB7; 0x26; 0x53;
   0xC2; 0xB0; 0x21; 0x5A; 0xCB; 0xB9; 0x28; 0x5D; 0xCC; 0xBE; 0x2F; 0xE0; 0x71;
   0x03; 0x92; 0xE7; 0x76; 0x04; 0x95; 0xEE; 0x7F; 0x0D; 0x9C; 0xE9; 0x78; 0x0A;
   0x9B; 0xFC; 0x6D; 0x1F; 0x8E; 0xFB; 0x6A; 0x18; 0x89; 0xF2; 0x63; 0x11; 0x80;
   0xF5; 0x64; 0x16; 0x87; 0xD8; 0x49; 0x3B; 0xAA; 0xDF; 0x4E; 0x3C; 0xAD; 0xD6;
   0x47; 0x35; 0xA4; 0xD1; 0x40; 0x32; 0xA3; 0xC4; 0x55; 0x27; 0xB6; 0xC3; 0x52;
   0x20; 0xB1; 0xCA; 0x5B; 0x29; 0xB8; 0xCD; 0x5C; 0x2E; 0xBF; 0x90; 0x01; 0x73;
   0xE2; 0x97; 0x06; 0x74; 0xE5; 0x9E; 0x0F; 0x7D; 0xEC; 0x99; 0x08; 0x7A; 0xEB;
   0x8C; 0x1D; 0x6F; 0xFE; 0x8B; 0x1A; 0x68; 0xF9; 0x82; 0x13; 0x61; 0xF0; 0x85;
   0x14; 0x66; 0xF7; 0xA8; 0x39; 0x4B; 0xDA; 0xAF; 0x3E; 0x4C; 0xDD; 0xA6; 0x37;
   0x45; 0xD4; 0xA1; 0x30; 0x42; 0xD3; 0xB4; 0x25; 0x57; 0xC6; 0xB3; 0x22; 0x50;
   0xC1; 0xBA; 0x2B; 0x59; 0xC8; 0xBD; 0x2C; 0x5E; 0xCF].

(** [rfc_crctable[i]] for an octet [i]. *)
Definition crc_at (i : Z) : Z := nth (Z.to_nat i) rfc_crctable 0.

(** The loop [while (len--) fcs = rfc_crctable[fcs ^ *p++]] over the [len]
    octets at [p]. *)
Definition fcs_loop (fcs : Z) (p : list Z) : Z :=
  fold_left (fun fcs b => crc_at (Z.lxor fcs b)) p fcs.

Definition rfc_calc_fcs (p : list Z) : Z := 0xFF - fcs_loop 0xFF p.

Definition rfc_check_fcs (p : list Z) (received_fcs : Z) : bool :=
  crc_at (Z.lxor (fcs_loop 0xFF p) received_fcs) =? 0xCF.

(** ** Specification: one bit at a time *)

Definition crc_bit (r : Z) : Z :=
  if Z.odd r then Z.lxor (Z.shiftr r 1) 0xE0 else Z.shiftr r 1.

Definition crc_octet (r b : Z) : Z := Nat.iter 8 crc_bit (Z.lxor r b).

Definition crc8 (p : list Z) : Z := fold_left crc_octet p 0xFF.

(** ** Proofs *)

Lemma crc_at_octet : ∀ i, is_u8 i → is_u8 (crc_at i).
Proof.
  intros i Hi.
  assert (H : (0 <=? crc_at i) && (crc_at i <? 256) = true).
  { revert i Hi. octet_cases (fun i => (0 <=? crc_at i) && (crc_at i <? 256)). }
  unfold is_u8. lia.
Qed.
#[export] Hint Resolve crc_at_octet lxor_octet : rfc.

Lemma fcs_loop_octet p r : is_u8 r → bytes_ok p → is_u8 (fcs_loop r p).
Proof.
  intros Hr Hp. revert r Hr.
  induction Hp as [|b p Hb Hp IH]; intros r Hr; simpl; [done|].
  apply IH. auto with rfc.
Qed.
#[export] Hint Resolve fcs_loop_octet : rfc.

(** The table holds the remainder of every octet. *)
Lemma crc_at_spec i : is_u8 i → crc_at i = Nat.iter 8 crc_bit i.
Proof.
  intros Hi. apply Z.eqb_eq. revert i Hi.
  octet_cases (fun i => crc_at i =? Nat.iter 8 crc_bit i).
Qed.

Lemma fcs_loop_spec p r :
  is_u8 r → bytes_ok p → fcs_loop r p = fold_left crc_octet p r.
Proof.
  intros Hr Hp. revert r Hr.
  induction Hp as [|b p Hb Hp IH]; intros r Hr; simpl; [done|].
  rewrite IH by auto with rfc.
  unfold crc_octet at 2. by rewrite crc_at_spec by auto with rfc.
Qed.

(** C13: for every string of octets the table-driven [rfc_calc_fcs] is the ones'
    complement of the bit-serial CRC-8 of GSM 07.10 (reversed polynomial 0xE0,
    initial value 0xFF). *)
Theorem rfc_calc_fcs_spec p : bytes_ok p → rfc_calc_fcs p = 0xFF - crc8 p.
Proof.
  intros Hp. unfold rfc_calc_fcs, crc8. rewrite fcs_loop_spec; auto. unfold is_u8. lia.
Qed.

Lemma rfc_calc_fcs_spec_witness :
  bytes_ok [3; 63; 1] ∧ rfc_calc_fcs [3; 63; 1] = 0xFF - crc8 [3; 63; 1].
Proof.
  assert (H : bytes_ok [3; 63; 1]) by (repeat constructor; unfold is_u8; lia).
  split; [exact H | apply (rfc_calc_fcs_spec [3; 63; 1] H)].
Defined.

(** The table is a permutation of the octets. *)
Lemma crc_at_inj i j : is_u8 i → is_u8 j → crc_at i = crc_at j → i = j.
Proof.
  intros Hi Hj E.
  assert (H : ∀ i, is_u8 i →
    forallb (fun j => implb (crc_at i =? crc_at j) (i =? j)) octets = true).
  { octet_cases (fun i => forallb (fun j => implb (crc_at i =? crc_at j) (i =? j)) octets). }
  specialize (H i Hi). rewrite forallb_forall in H.
  specialize (H j (octets_complete j Hj)).
  rewrite E, Z.eqb_refl in H. by apply Z.eqb_eq.
Qed.

Lemma lxor_cancel a b c : Z.lxor a b = Z.lxor a c → b = c.
Proof.
  intros E. apply (f_equal (Z.lxor a)) in E.
  by rewrite <-!Z.lxor_assoc, Z.lxor_nilpotent, !Z.lxor_0_l in E.
Qed.

Lemma lxor_ff_complement r c :
  is_u8 r → is_u8 c → Z.lxor r c = 0xFF ↔ c = 0xFF - r.
Proof.
  intros Hr Hc.
  assert (H : Z.lxor r (0xFF - r) = 0xFF).
  { apply Z.eqb_eq. revert r Hr. octet_cases (fun r => Z.lxor r (0xFF - r) =? 0xFF). }
  split; [|by intros ->].
  intros E. rewrite <-H in E. by apply lxor_cancel in E.
Qed.

(** [rfc_check_fcs] accepts one octet for a given covered part, the one
    [rfc_calc_fcs] puts on the wire. *)
Lemma rfc_check_fcs_iff p fcs :
  bytes_ok p → is_u8 fcs → rfc_check_fcs p fcs = true ↔ fcs = rfc_calc_fcs p.
Proof.
  intros Hp Hf. unfold rfc_check_fcs, rfc_calc_fcs.
  assert (Hl : is_u8 (fcs_loop 255 p)) by (apply fcs_loop_octet; [unfold is_u8; lia|done]).
  rewrite Z.eqb_eq, <-(lxor_ff_complement (fcs_loop 255 p) fcs Hl Hf).
  change 207 with (crc_at 255). split; [|by intros ->].
  apply crc_at_inj; [auto with rfc | unfold is_u8; lia].
Qed.

Lemma rfc_calc_fcs_octet p : bytes_ok p → is_u8 (rfc_calc_fcs p).
Proof.
  intros Hp. unfold rfc_calc_fcs.
  assert (is_u8 (fcs_loop 255 p)) by (apply fcs_loop_octet; [unfold is_u8; lia|done]).
  unfold is_u8 in *. lia.
Qed.
#[export] Hint Resolve rfc_calc_fcs_octet : rfc.

Lemma rfc_check_fcs_calc p : bytes_ok p → rfc_check_fcs p (rfc_calc_fcs p) = true.
Proof. intros. apply rfc_check_fcs_iff; auto with rfc. Qed.

Lemma fcs_loop_app r p q : fcs_loop r (p ++ q) = fcs_loop (fcs_loop r p) q.
Proof. apply fold_left_app. Qed.

Lemma fcs_loop_inj p r s :
  bytes_ok p → is_u8 r → is_u8 s → fcs_loop r p = fcs_loop s p → r = s.
Proof.
  intros Hp. revert r s.
  induction Hp as [|b p Hb Hp IH]; intros r s Hr Hs; simpl; [done|].
  intros E. apply IH in E; auto with rfc.
  apply crc_at_inj in E; auto with rfc.
  rewrite !(Z.lxor_comm _ b) in E. by apply lxor_cancel in E.
Qed.

(** The receiver's check of the covered part against the sender's FCS
    accepts the part it was computed over and rejects every part that differs
    from it in one octet. *)
Theorem fcs_accepts_iff_undamaged p q a b :
  bytes_ok p → bytes_ok q → is_u8 a → is_u8 b →
  rfc_check_fcs (p ++ b :: q) (rfc_calc_fcs (p ++ a :: q)) = true ↔ a = b.
Proof.
  intros Hp Hq Ha Hb.
  assert (Hpa : bytes_ok (p ++ a :: q)) by (apply Forall_app; auto).
  assert (Hpb : bytes_ok (p ++ b :: q)) by (apply Forall_app; auto).
  rewrite rfc_check_fcs_iff by auto with rfc. split; [|by intros ->].
  assert (H255 : is_u8 255) by (unfold is_u8; lia).
  unfold rfc_calc_fcs. intros E.
  assert (E' : fcs_loop 255 (p ++ a :: q) = fcs_loop 255 (p ++ b :: q)) by lia.
  rewrite !fcs_loop_app in E'. simpl in E'.
  apply fcs_loop_inj in E'; auto 6 with rfc.
  apply crc_at_inj in E'; auto 6 with rfc.
  by apply lxor_cancel in E'.
Qed.

Lemma fcs_accepts_iff_undamaged_witness :
  rfc_check_fcs ([3] ++ 62 :: [1]) (rfc_calc_fcs ([3] ++ 63 :: [1])) = true ↔ 63 = 62.
Proof.
  apply (fcs_accepts_iff_undamaged [3] [1] 63 62);
    try (repeat constructor); unfold is_u8; lia.
Defined.
