(* ===== verification/RfcMonad.v ===== *)
(** * The machine the RFCOMM layer runs on

    The layer is one thread that owns [rfc_cb] and calls L2CAP, the security
    manager, the snoop logger and the application.  A function of the code is a
    computation [M A]: it reads and writes the control block, appends the calls
    it makes to other subsystems to a trace, and stops with a [fault] where the
    C++ program would dereference a null pointer, fail an assertion or index
    outside an array or a buffer.  [OutOfFuel] is not a behaviour of the code:
    it marks a recursion bound of the model that was too small.

    [Env] is everything the layer asks of the rest of the stack; an answer may
    depend on the whole history of calls.  Calls into RFCOMM from inside such a
    call (an application closing a port from its callback, L2CAP reporting
    congestion from inside a write) are separate inputs of the model.

    [safe m Q w] is the partial-correctness triple of this machine: from [w] the
    computation ends in [Q], or stops at a null pointer or a failed assertion;
    it neither indexes out of bounds nor runs out of fuel. *)
From S2P Require Import Prelude RfcDefs.

Inductive fault := NullDeref | AssertFailed | OutOfBounds | OutOfFuel.

Inductive res (A : Type) := Ok (a : A) | Fault (f : fault).
Arguments Ok {A} a.
Arguments Fault {A} f.

(** ** Calls to other subsystems *)
Inductive output :=
| L2CA_DataWrite (lcid : Z) (payload : list Z)
| L2CA_ConnectReq (psm : Z) (bd_addr : RawAddress)
| L2CA_DisconnectReq (lcid : Z)
| btm_sec_mx_access_request (bd_addr : RawAddress) (is_originator : bool) (sec_mask : Z)
    (p_port : nat)
| btm_sec_abort_access_req (bd_addr : RawAddress)
| port_callback (cb : Z) (events handle : Z)
| mgmt_callback (cb : Z) (code handle : Z)
| data_callback (cb : Z) (handle : Z) (payload : list Z)
| data_co_callback (cb : Z) (handle : Z) (payload : list Z)
| data_co_outgoing_size (cb : Z) (handle : Z)
| data_co_outgoing (cb : Z) (handle len : Z)
| L2CA_Register (psm : Z)
| AcceptlistRfcommDlci (acl_handle lcid dlci : Z)
| SetRfcommPortOpen (acl_handle lcid dlci uuid : Z) (credit_based : bool)
| SetRfcommPortClose (acl_handle lcid dlci uuid : Z).

(** ** What the rest of the stack answers *)
Class Env := mkEnv {
  (** the LCID [L2CA_ConnectReq] returns, 0 when it fails *)
  env_ConnectReq : list output → RawAddress → Z;
  (** [BTM_GetMaxPacketSize] *)
  env_GetMaxPacketSize : list output → RawAddress → Z;
  (** the result of the application's [p_data_co_callback] *)
  env_data_co : list output → bool;
  (** the number of octets the application has to send, [None] when it cannot tell *)
  env_co_size : list output → option N;
  (** the octets the application puts into a buffer, [None] when it fails *)
  env_co_fill : list output → option (Z → Z);
  (** [time_get_os_boottime_ms] *)
  env_boottime_ms : list output → Z;
  (** the ACL handle of the link [l2cu_find_ccb_by_cid] finds a channel on *)
  env_find_ccb : list output → Z → option Z;
  (** the build flag [rfcomm_always_disc_initiator_in_disc_wait_ua] *)
  env_always_disc_initiator : bool;
  (** the octets of a block [osi_malloc] returns, which nothing has set *)
  env_heap : list output → Z → Z;
  (** the RPN member of the union in [MX_FRAME] when only its [is_request] was set *)
  env_rpn_leftover : list output → mx_rpn;
}.

Record world := mkWorld {
  cb : tRFC_CB;
  trace : list output;
}.
#[export] Instance eta_world : Eta world := fun r => mkWorld (cb r) (trace r).

Definition M (A : Type) : Type := world → res (A * world).

#[export] Instance M_ret : MRet M := fun A a w => Ok (a, w).
#[export] Instance M_bind : MBind M := fun A B f m w =>
  match m w with
  | Ok (a, w') => f a w'
  | Fault e => Fault e
  end.

Definition fail {A} (e : fault) : M A := fun _ => Fault e.
Definition gets {A} (f : tRFC_CB → A) : M A := fun w => Ok (f (cb w), w).
Definition modify_cb (f : tRFC_CB → tRFC_CB) : M unit := fun w =>
  Ok ((), w <| cb ::= f |>).
Definition emit (o : output) : M unit := fun w => Ok ((), w <| trace ::= fun t => t ++ [o] |>).
Definition history : M (list output) := fun w => Ok (trace w, w).

Definition of_option {A} (e : fault) (o : option A) : M A :=
  match o with
  | Some a => mret a
  | None => fail e
  end.

(** A pointer that is about to be dereferenced. *)
Definition deref {A} (p : option A) : M A := of_option NullDeref p.

Definition assert_that (b : bool) : M unit := if b then mret () else fail AssertFailed.

Definition when (b : bool) (m : M unit) : M unit := if b then m else mret ().

Fixpoint forM_ {A} (l : list A) (f : A → M unit) : M unit :=
  match l with
  | [] => mret ()
  | a :: l => f a ;; forM_ l f
  end.

(** ** The two tables *)
Definition get_port (i : nat) : M tPORT :=
  ps ← gets ports; of_option OutOfBounds (ps !! i).

Definition upd_port (i : nat) (f : tPORT → tPORT) : M unit :=
  p ← get_port i; modify_cb (fun c => c <| ports ::= <[i := f p]> |>).

Definition get_mcb (i : nat) : M tRFC_MCB :=
  ms ← gets rfc_mcb; of_option OutOfBounds (ms !! i).

Definition upd_mcb (i : nat) (f : tRFC_MCB → tRFC_MCB) : M unit :=
  m ← get_mcb i; modify_cb (fun c => c <| rfc_mcb ::= <[i := f m]> |>).

(** [p_port->rfc] and its fields. *)
Definition upd_rfc (i : nat) (f : tRFC_PORT → tRFC_PORT) : M unit :=
  upd_port i (fun p => p <| rfc ::= f |>).

(** Array indexing with a C index. *)
Definition at_index {A} (l : list A) (i : Z) : option A :=
  if 0 <=? i then l !! Z.to_nat i else None.

(** [p_mcb->port_handles[dlci]], read and written. *)
Definition read_handle (m : nat) (d : Z) : M Z :=
  mcb ← get_mcb m; of_option OutOfBounds (at_index (port_handles mcb) d).

Definition write_handle (m : nat) (d h : Z) : M unit :=
  _ ← read_handle m d;
  upd_mcb m (fun mcb => mcb <| port_handles ::= <[Z.to_nat d := h]> |>).

(** [&rfc_cb.port.port[handle - 1]] for a handle that is not 0. *)
Definition port_index (h : Z) : nat := Z.to_nat (h - 1).

(** ** Buffers *)
Definition load (mem : list Z) (pos : Z) : option Z := at_index mem pos.

(** [*p++ = b] for the octets [bs] at [pos]. *)
Definition store (mem : list Z) (pos : Z) (bs : list Z) : option (list Z) :=
  if (0 <=? pos) && (pos + Z.of_nat (length bs) <=? Z.of_nat (length mem)) then
    Some (take (Z.to_nat pos) mem ++ bs ++ drop (Z.to_nat pos + length bs) mem)
  else None.

(** [ p[i] ] for [p = (uint8_t * )(p_buf + 1) + pos]. *)
Definition buf_read (b : BT_HDR) (pos : Z) : M Z :=
  of_option OutOfBounds (load (hdr_data b) pos).

(** The [n] octets at [pos]. *)
Definition buf_slice (b : BT_HDR) (pos n : Z) : M (list Z) :=
  if (0 <=? pos) && (0 <=? n) && (pos + n <=? Z.of_nat (length (hdr_data b))) then
    mret (take (Z.to_nat n) (drop (Z.to_nat pos) (hdr_data b)))
  else fail OutOfBounds.

Definition buf_write (b : BT_HDR) (pos : Z) (bs : list Z) : M BT_HDR :=
  mem ← of_option OutOfBounds (store (hdr_data b) pos bs);
  mret (b <| hdr_data := mem |>).

(** [(BT_HDR * )osi_malloc(n)]: nothing in the block has been set. *)
Definition osi_malloc `{Env} (n : Z) : M BT_HDR :=
  h ← history;
  mret (mkBT_HDR (u16 (env_heap h (-6))) (u16 (env_heap h (-4))) (u16 (env_heap h (-2)))
    ((fun i => u8 (env_heap h i)) <$> seqZ 0 (n - BT_HDR_SIZE))).

(** ** Alarms ([osi/src/alarm.cc]): setting needs an alarm, cancelling does not *)
Definition alarm_set (a : alarm_t) (secs : Z) : option alarm_t :=
  match a with
  | alarm_null => None
  | _ => Some (alarm_scheduled secs)
  end.

Definition alarm_cancel (a : alarm_t) : alarm_t :=
  match a with
  | alarm_null => alarm_null
  | _ => alarm_idle
  end.

(** ** Queues ([osi/src/fixed_queue.cc]): a null queue reads as an empty one *)
Definition queue_length (q : option (list BT_HDR)) : Z :=
  match q with
  | Some l => Z.of_nat (length l)
  | None => 0
  end.

(** ** Program logic *)
Definition fault_ok (e : fault) : Prop :=
  match e with
  | NullDeref | AssertFailed => True
  | OutOfBounds | OutOfFuel => False
  end.

Definition safe {A} (m : M A) (Q : A → world → Prop) (w : world) : Prop :=
  match m w with
  | Ok (a, w') => Q a w'
  | Fault e => fault_ok e
  end.

Section logic.
Context {A B : Type}.
Implicit Types (w : world) (m : M A).

Lemma safe_ret (a : A) (Q : A → world → Prop) w : Q a w → safe (mret a) Q w.
Proof. done. Qed.

Lemma safe_bind m (f : A → M B) (Q : B → world → Prop) w :
  safe m (fun a w' => safe (f a) Q w') w → safe (m ≫= f) Q w.
Proof. unfold safe, mbind, M_bind. destruct (m w) as [[a w']|e]; done. Qed.

Lemma safe_mono m (Q Q' : A → world → Prop) w :
  safe m Q w → (∀ a w', Q a w' → Q' a w') → safe m Q' w.
Proof. unfold safe. destruct (m w) as [[a w']|e]; auto. Qed.

Lemma safe_fail e (Q : A → world → Prop) w : fault_ok e → safe (fail e) Q w.
Proof. done. Qed.

Lemma safe_deref (p : option A) (Q : A → world → Prop) w :
  (∀ a, p = Some a → Q a w) → safe (deref p) Q w.
Proof. destruct p; [intros H; by apply H | done]. Qed.

Lemma safe_of_option e (o : option A) (Q : A → world → Prop) w :
  (∃ a, o = Some a ∧ Q a w) → safe (of_option e o) Q w.
Proof. intros (a & -> & HQ). done. Qed.

Lemma safe_gets (f : tRFC_CB → A) (Q : A → world → Prop) w :
  Q (f (cb w)) w → safe (gets f) Q w.
Proof. done. Qed.
End logic.

Lemma safe_when (b : bool) (m : M unit) Q w :
  (b = true → safe m Q w) → (b = false → Q () w) → safe (when b m) Q w.
Proof. destruct b; intros H1 H2; [by apply H1 | by apply H2]. Qed.

Lemma safe_emit o Q w : Q () (w <| trace ::= fun t => t ++ [o] |>) → safe (emit o) Q w.
Proof. done. Qed.

Lemma safe_assert (b : bool) Q w : (b = true → Q () w) → safe (assert_that b) Q w.
Proof. destruct b; [by intros H; apply H | done]. Qed.

Lemma safe_history Q w : Q (trace w) w → safe history Q w.
Proof. done. Qed.

(** The operations on the tables where the entry is known. *)
Lemma safe_get_port i p Q w :
  ports (cb w) !! i = Some p → Q p w → safe (get_port i) Q w.
Proof. intros E HQ. unfold safe, get_port, mbind, M_bind, gets. by rewrite E. Qed.

Lemma safe_get_mcb m mcb Q w :
  rfc_mcb (cb w) !! m = Some mcb → Q mcb w → safe (get_mcb m) Q w.
Proof. intros E HQ. unfold safe, get_mcb, mbind, M_bind, gets. by rewrite E. Qed.

Lemma safe_modify f Q w : Q () (w <| cb ::= f |>) → safe (modify_cb f) Q w.
Proof. done. Qed.

Lemma safe_upd_port i f p Q w :
  ports (cb w) !! i = Some p →
  Q () (w <| cb ::= fun c => c <| ports ::= <[i := f p]> |> |>) → safe (upd_port i f) Q w.
Proof. intros E HQ. unfold upd_port. apply safe_bind. by eapply safe_get_port. Qed.

Lemma safe_upd_mcb m f mcb Q w :
  rfc_mcb (cb w) !! m = Some mcb →
  Q () (w <| cb ::= fun c => c <| rfc_mcb ::= <[m := f mcb]> |> |>) → safe (upd_mcb m f) Q w.
Proof. intros E HQ. unfold upd_mcb. apply safe_bind. by eapply safe_get_mcb. Qed.

Lemma safe_write_handle m d h h0 mcb Q w :
  rfc_mcb (cb w) !! m = Some mcb → at_index (port_handles mcb) d = Some h0 →
  Q () (w <| cb ::= fun c => c <| rfc_mcb ::=
    <[m := mcb <| port_handles ::= <[Z.to_nat d := h]> |>]> |> |>) →
  safe (write_handle m d h) Q w.
Proof.
  intros E Eh HQ. unfold write_handle, read_handle. do 2 apply safe_bind.
  eapply safe_get_mcb; [done|]. apply safe_of_option. exists h0. split; [done|].
  by eapply safe_upd_mcb.
Qed.

(** A loop keeps an invariant its body keeps. *)
Lemma safe_forM {A} (l : list A) (f : A → M unit) (I : world → Prop) w :
  (∀ a w, a ∈ l → I w → safe (f a) (fun _ => I) w) → I w →
  safe (forM_ l f) (fun _ => I) w.
Proof.
  revert w. induction l as [|a l IH]; intros w Hf Hw; simpl; [done|].
  apply safe_bind. eapply safe_mono; [apply Hf; [left|done]|].
  intros [] w' Hw'. apply IH; [|done].
  intros b w'' Hb Hw''. apply Hf; [by right|done].
Qed.

Lemma buf_slice_ok b pos n w :
  0 <= pos → 0 <= n → pos + n <= Z.of_nat (length (hdr_data b)) →
  buf_slice b pos n w = Ok (take (Z.to_nat n) (drop (Z.to_nat pos) (hdr_data b)), w).
Proof.
  intros. unfold buf_slice.
  by replace ((0 <=? pos) && (0 <=? n) && (pos + n <=? Z.of_nat (length (hdr_data b))))
    with true by lia.
Qed.

(** Reading back what was stored. *)
Lemma store_length mem pos bs mem' :
  store mem pos bs = Some mem' → length mem' = length mem.
Proof.
  unfold store. destruct (_ && _) eqn:E; [|done]. intros [= <-].
  rewrite !length_app, length_take, length_drop. lia.
Qed.

Lemma store_some mem pos bs :
  0 <= pos → pos + Z.of_nat (length bs) <= Z.of_nat (length mem) →
  store mem pos bs =
    Some (take (Z.to_nat pos) mem ++ bs ++ drop (Z.to_nat pos + length bs) mem).
Proof.
  intros. unfold store.
  replace ((0 <=? pos) && (pos + Z.of_nat (length bs) <=? Z.of_nat (length mem)))
    with true by lia.
  done.
Qed.
