(* ===== verification/RfcFrames.v ===== *)
(** * RFCOMM frames ([stack/rfcomm/rfc_ts_frames.cc])

    Building the TS 07.10 frames the layer sends, byte by byte in the buffer as
    the code does, and parsing the frames it receives.  [rfc_process_mx_message],
    the last function of the file, dispatches to the handlers of the port state
    machine and is in [RfcSystem]. *)
From S2P Require Import Prelude RfcDefs RfcFcs RfcMonad.

(** ** The command queue ([rfc_check_send_cmd] of [rfc_utils.cc]) *)

(** [while (!p_mcb->l2cap_congested)]: the queue shrinks in every round, so its
    length bounds the rounds. *)
Fixpoint send_cmds (fuel : nat) (m : nat) : M unit :=
  match fuel with
  | O => fail OutOfFuel
  | S fuel =>
      mcb ← get_mcb m;
      if l2cap_congested mcb then mret () else
      match cmd_q mcb with
      | None | Some [] => mret ()
      | Some (p :: q) =>
          upd_mcb m (fun mcb => mcb <| cmd_q := Some q |>);;
          emit (L2CA_DataWrite (mcb_lcid mcb) (hdr_payload p));;
          send_cmds fuel m
      end
  end.

Definition rfc_check_send_cmd (m : nat) (p_buf : option BT_HDR) : M unit :=
  match p_buf with
  | Some b =>
      mcb ← get_mcb m;
      q ← of_option AssertFailed (cmd_q mcb);
      upd_mcb m (fun mcb => mcb <| cmd_q := Some (q ++ [b]) |>)
  | None => mret ()
  end;;
  mcb ← get_mcb m;
  send_cmds (S (Z.to_nat (queue_length (cmd_q mcb)))) m.

Section frames.
Context `{Env}.

(** ** Control frames *)

(** The address, control and length octets at the start of a command buffer and
    the FCS over the three of them; the frame is 4 octets long. *)
Definition ctrl_frame (cr dlci control : Z) : M BT_HDR :=
  b ← osi_malloc RFCOMM_CMD_BUF_SIZE;
  let b := b <| hdr_offset := L2CAP_MIN_OFFSET |> in
  b ← buf_write b L2CAP_MIN_OFFSET
        [u8 (Z.lor (Z.lor RFCOMM_EA cr) (Z.shiftl dlci RFCOMM_SHIFT_DLCI));
         control;
         Z.lor RFCOMM_EA 0];
  hd ← buf_slice b L2CAP_MIN_OFFSET 3;
  b ← buf_write b (L2CAP_MIN_OFFSET + 3) [rfc_calc_fcs hd];
  mret (b <| hdr_len := 4 |>).

Definition rfc_send_sabme (m : nat) (dlci : Z) : M unit :=
  mcb ← get_mcb m;
  b ← ctrl_frame (RFCOMM_CR (is_initiator mcb) true) dlci (Z.lor RFCOMM_SABME RFCOMM_PF);
  rfc_check_send_cmd m (Some b).

Definition rfc_send_ua (m : nat) (dlci : Z) : M unit :=
  mcb ← get_mcb m;
  b ← ctrl_frame (RFCOMM_CR (is_initiator mcb) false) dlci (Z.lor RFCOMM_UA RFCOMM_PF);
  rfc_check_send_cmd m (Some b).

Definition rfc_send_dm (m : nat) (dlci : Z) (pf : bool) : M unit :=
  mcb ← get_mcb m;
  b ← ctrl_frame (RFCOMM_CR (is_initiator mcb) false) dlci
        (Z.lor RFCOMM_DM (if pf then RFCOMM_PF else 0));
  rfc_check_send_cmd m (Some b).

Definition rfc_send_disc (m : nat) (dlci : Z) : M unit :=
  mcb ← get_mcb m;
  b ← ctrl_frame (RFCOMM_CR (is_initiator mcb) true) dlci (Z.lor RFCOMM_DISC RFCOMM_PF);
  rfc_check_send_cmd m (Some b).

(** ** Information frames *)

(** The header of a UIH frame is written in front of the payload and the FCS,
    over the first two octets, behind it. *)
Definition rfc_send_buf_uih (m : nat) (dlci : Z) (b : BT_HDR) : M unit :=
  mcb ← get_mcb m;
  let cr := RFCOMM_CR (is_initiator mcb) true in
  let len := hdr_len b in
  let offset := u16 (hdr_offset b - RFCOMM_CTRL_FRAME_LEN) in
  let offset := if 127 <? len then u16 (offset - 1) else offset in
  let credits := if nz dlci then u8 (hdr_layer_specific b) else 0 in
  let offset := if nz credits then u16 (offset - 1) else offset in
  let header :=
    [u8 (Z.lor (Z.lor RFCOMM_EA cr) (Z.shiftl dlci RFCOMM_SHIFT_DLCI));
     Z.lor RFCOMM_UIH (if nz credits then RFCOMM_PF else 0)] ++
    (if len <=? 127 then [u8 (Z.lor RFCOMM_EA (Z.shiftl len 1))]
     else [u8 (Z.shiftl (Z.land len 0x7f) 1); u8 (Z.shiftr len RFCOMM_SHIFT_LENGTH2)]) ++
    (if nz credits then [credits] else []) in
  b ← buf_write b offset header;
  let len := u16 (len + Z.of_nat (length header)) in
  hd ← buf_slice b offset 2;
  b ← buf_write b (offset + len) [rfc_calc_fcs hd];
  let b := b <| hdr_offset := offset |> <| hdr_len := u16 (len + 1) |> in
  if dlci =? RFCOMM_MX_DLCI then rfc_check_send_cmd m (Some b)
  else emit (L2CA_DataWrite (mcb_lcid mcb) (hdr_payload b)).

(** A multiplexer message: its octets are put at [L2CAP_MIN_OFFSET +
    RFCOMM_CTRL_FRAME_LEN] of a command buffer and sent in a UIH frame on DLCI 0. *)
Definition send_mx (m : nat) (msg : list Z) : M unit :=
  b ← osi_malloc RFCOMM_CMD_BUF_SIZE;
  let b := b <| hdr_offset := L2CAP_MIN_OFFSET + RFCOMM_CTRL_FRAME_LEN |> in
  b ← buf_write b (hdr_offset b) msg;
  rfc_send_buf_uih m RFCOMM_MX_DLCI (b <| hdr_len := Z.of_nat (length msg) |>).

(** Type and length octets of a multiplexer message. *)
Definition mx_header (is_command : bool) (type len : Z) : list Z :=
  [Z.lor (Z.lor RFCOMM_EA (RFCOMM_I_CR is_command)) type;
   u8 (Z.lor RFCOMM_EA (Z.shiftl len 1))].

(** The address octet of MSC, RLS and RPN messages. *)
Definition mx_dlci (dlci : Z) : Z :=
  u8 (Z.lor (Z.lor RFCOMM_EA RFCOMM_CR_MASK) (Z.shiftl dlci RFCOMM_SHIFT_DLCI)).

Definition rfc_send_pn (m : nat) (dlci : Z) (is_command : bool) (mtu cl k : Z) : M unit :=
  rx ← gets rx_frame;
  send_mx m (mx_header is_command RFCOMM_MX_PN RFCOMM_MX_PN_LEN ++
    [dlci;
     Z.lor RFCOMM_PN_FRAM_TYPE_UIH cl;
     (if is_command then RFCOMM_PN_PRIORITY_0 else pn_priority (u_pn rx));
     RFCOMM_T1_DSEC;
     Z.land mtu 0xFF;
     u8 (Z.shiftr mtu 8);
     RFCOMM_N2;
     k]).

Definition rfc_send_fcon (m : nat) (is_command : bool) : M unit :=
  send_mx m (mx_header is_command RFCOMM_MX_FCON RFCOMM_MX_FCON_LEN).

Definition rfc_send_fcoff (m : nat) (is_command : bool) : M unit :=
  send_mx m (mx_header is_command RFCOMM_MX_FCOFF RFCOMM_MX_FCOFF_LEN).

(** The signal octet of an MSC message. *)
Definition msc_signal_octet (p_pars : tPORT_CTRL) : Z :=
  let signals := modem_signal p_pars in
  Z.lor (Z.lor (Z.lor (Z.lor (Z.lor RFCOMM_EA
    (if ctrl_fc p_pars then RFCOMM_MSC_FC else 0))
    (if nz (Z.land signals MODEM_SIGNAL_DTRDSR) then RFCOMM_MSC_RTC else 0))
    (if nz (Z.land signals MODEM_SIGNAL_RTSCTS) then RFCOMM_MSC_RTR else 0))
    (if nz (Z.land signals MODEM_SIGNAL_RI) then RFCOMM_MSC_IC else 0))
    (if nz (Z.land signals MODEM_SIGNAL_DCD) then RFCOMM_MSC_DV else 0).

Definition rfc_send_msc (m : nat) (dlci : Z) (is_command : bool) (p_pars : tPORT_CTRL)
    : M unit :=
  let break_duration := break_signal p_pars in
  let len := if nz break_duration then RFCOMM_MX_MSC_LEN_WITH_BREAK
             else RFCOMM_MX_MSC_LEN_NO_BREAK in
  send_mx m (mx_header is_command RFCOMM_MX_MSC len ++
    [mx_dlci dlci; msc_signal_octet p_pars] ++
    (if nz break_duration then
       [u8 (Z.lor (Z.lor RFCOMM_EA RFCOMM_MSC_BREAK_PRESENT_MASK)
                  (Z.shiftl break_duration RFCOMM_MSC_SHIFT_BREAK))]
     else [])).

Definition rfc_send_rls (m : nat) (dlci : Z) (is_command : bool) (status : Z) : M unit :=
  send_mx m (mx_header is_command RFCOMM_MX_RLS RFCOMM_MX_RLS_LEN ++
    [mx_dlci dlci; Z.lor RFCOMM_RLS_ERROR status]).

Definition rfc_send_nsc (m : nat) : M unit :=
  rx ← gets rx_frame;
  send_mx m (mx_header false RFCOMM_MX_NSC RFCOMM_MX_NSC_LEN ++
    [Z.lor (Z.lor (f_ea rx) (u8 (Z.shiftl (f_cr rx) RFCOMM_SHIFT_CR))) (f_type rx)]).

Definition rfc_send_rpn (m : nat) (dlci : Z) (is_command : bool)
    (p_settings : option PortSettings) (mask : Z) : M unit :=
  send_mx m
    match p_settings with
    | None => mx_header is_command RFCOMM_MX_RPN RFCOMM_MX_RPN_REQ_LEN ++ [mx_dlci dlci]
    | Some s =>
        mx_header is_command RFCOMM_MX_RPN RFCOMM_MX_RPN_LEN ++
        [mx_dlci dlci;
         baud_rate s;
         u8 (Z.lor (Z.lor (Z.lor (Z.shiftl (byte_size s) RFCOMM_RPN_BITS_SHIFT)
                                 (Z.shiftl (stop_bits s) RFCOMM_RPN_STOP_BITS_SHIFT))
                          (Z.shiftl (parity s) RFCOMM_RPN_PARITY_SHIFT))
                   (Z.shiftl (parity_type s) RFCOMM_RPN_PARITY_TYPE_SHIFT));
         fc_type s;
         xon_char s;
         xoff_char s;
         Z.land mask 0xFF;
         u8 (Z.shiftr mask 8)]
    end.

(** The payload of the buffer is sent back; when there is no room in front of it
    for the headers it moves to a new buffer first. *)
Definition rfc_send_test (m : nat) (is_command : bool) (b : BT_HDR) : M unit :=
  let room := L2CAP_MIN_OFFSET + RFCOMM_MIN_OFFSET + 2 in
  b ← (if hdr_offset b <? room then
         bytes ← buf_slice b (hdr_offset b) (hdr_len b);
         n ← osi_malloc (hdr_len b + (room + BT_HDR_SIZE + 1));
         let n := n <| hdr_offset := room |> <| hdr_len := hdr_len b |> in
         buf_write n (hdr_offset n) bytes
       else mret b);
  let offset := u16 (hdr_offset b - 2) in
  b ← buf_write b offset (mx_header is_command RFCOMM_MX_TEST (hdr_len b));
  let b := b <| hdr_offset := offset |> <| hdr_len := u16 (hdr_len b + 2) |> in
  rfc_send_buf_uih m RFCOMM_MX_DLCI b.

Definition rfc_send_credit (m : nat) (dlci credit : Z) : M unit :=
  mcb ← get_mcb m;
  let cr := RFCOMM_CR (is_initiator mcb) true in
  b ← osi_malloc RFCOMM_CMD_BUF_SIZE;
  let b := b <| hdr_offset := L2CAP_MIN_OFFSET |> in
  b ← buf_write b (hdr_offset b)
        [u8 (Z.lor (Z.lor RFCOMM_EA cr) (Z.shiftl dlci RFCOMM_SHIFT_DLCI));
         Z.lor RFCOMM_UIH RFCOMM_PF;
         Z.lor RFCOMM_EA 0;
         credit];
  hd ← buf_slice b (hdr_offset b) 2;
  b ← buf_write b (hdr_offset b + 4) [rfc_calc_fcs hd];
  rfc_check_send_cmd m (Some (b <| hdr_len := 5 |>)).
End frames.

(** ** Parsing *)

Definition set_rx_frame (f : MX_FRAME → MX_FRAME) : M unit :=
  modify_cb (fun c => c <| rx_frame ::= f |>).

(** The verdict on a frame whose length fields agree: [len] is the length it
    announces, [p_start] where it starts and [fcs] its last octet. *)
Definition rfc_frame_event (initiator : bool) (fr : MX_FRAME) (b : BT_HDR)
    (p_start len fcs : Z) : M tRFC_EVENT :=
  let bad : M tRFC_EVENT := mret RFC_EVENT_BAD_FRAME in
  let ctrl_fcs_ok : M bool :=
    hd ← buf_slice b p_start RFCOMM_CTRL_FRAME_LEN; mret (rfc_check_fcs hd fcs) in
  if f_type fr =? RFCOMM_SABME then
    if RFCOMM_FRAME_IS_RSP initiator (f_cr fr) || negb (nz (f_pf fr)) || nz len
       || negb (RFCOMM_VALID_DLCI (f_dlci fr)) then bad
    else ok ← ctrl_fcs_ok; if ok : bool then mret RFC_EVENT_SABME else bad
  else if f_type fr =? RFCOMM_UA then
    if RFCOMM_FRAME_IS_CMD initiator (f_cr fr) || negb (nz (f_pf fr)) || nz len
       || negb (RFCOMM_VALID_DLCI (f_dlci fr)) then bad
    else ok ← ctrl_fcs_ok; if ok : bool then mret RFC_EVENT_UA else bad
  else if f_type fr =? RFCOMM_DM then
    if RFCOMM_FRAME_IS_CMD initiator (f_cr fr) || nz len
       || negb (RFCOMM_VALID_DLCI (f_dlci fr)) then bad
    else ok ← ctrl_fcs_ok; if ok : bool then mret RFC_EVENT_DM else bad
  else if f_type fr =? RFCOMM_DISC then
    if RFCOMM_FRAME_IS_RSP initiator (f_cr fr) || negb (nz (f_pf fr)) || nz len
       || negb (RFCOMM_VALID_DLCI (f_dlci fr)) then bad
    else ok ← ctrl_fcs_ok; if ok : bool then mret RFC_EVENT_DISC else bad
  else if f_type fr =? RFCOMM_UIH then
    if negb (RFCOMM_VALID_DLCI (f_dlci fr)) then bad
    else hd ← buf_slice b p_start 2;
         if negb (rfc_check_fcs hd fcs) then bad
         else (* a UIH response is accepted too *) mret RFC_EVENT_UIH
  else bad.

(** The credit octet of a UIH frame under credit based flow control; [None] when
    the frame is too short for it. *)
Definition parse_credit (m : nat) (p_data : Z) (b : BT_HDR) : M (option (Z * BT_HDR)) :=
  mcb ← get_mcb m;
  fr ← gets rx_frame;
  if (flow mcb =? PORT_FC_CREDIT) && (f_type fr =? RFCOMM_UIH)
     && negb (f_dlci fr =? RFCOMM_MX_DLCI) && (f_pf fr =? 1) then
    if hdr_len b <? 1 then mret None else
    c ← buf_read b p_data;
    set_rx_frame (fun f => f <| f_credit := c |>);;
    mret (Some (p_data + 1, b <| hdr_len ::= fun n => n - 1 |>
                              <| hdr_offset ::= fun o => u16 (o + 1) |>))
  else
    set_rx_frame (fun f => f <| f_credit := 0 |>);;
    mret (Some (p_data, b)).

(** The part of [rfc_parse_data] behind the address, control and length octets. *)
Definition parse_body (m : nat) (p_start len p_data : Z) (b : BT_HDR)
    : M (tRFC_EVENT * BT_HDR) :=
  r ← parse_credit m p_data b;
  match r with
  | None => mret (RFC_EVENT_BAD_FRAME, b)
  | Some (p_data, b) =>
      if negb (hdr_len b =? len) then mret (RFC_EVENT_BAD_FRAME, b) else
      fcs ← buf_read b (p_data + len);
      mcb ← get_mcb m;
      fr ← gets rx_frame;
      ev ← rfc_frame_event (is_initiator mcb) fr b p_start len fcs;
      mret (ev, b)
  end.

(** [p_frame] is [&rfc_cb.rfc.rx_frame] at the only call.  The result is the
    event and the buffer with its offset and length moved to the payload. *)
Definition rfc_parse_data (m : nat) (b : BT_HDR) : M (tRFC_EVENT * BT_HDR) :=
  let p_start := hdr_offset b in
  if hdr_len b <? RFCOMM_CTRL_FRAME_LEN then mret (RFC_EVENT_BAD_FRAME, b) else
  a ← buf_read b p_start;
  set_rx_frame (fun f => f <| f_cr := Z.shiftr (Z.land a RFCOMM_CR_MASK) RFCOMM_SHIFT_CR |>
                           <| f_dlci := Z.shiftr a RFCOMM_SHIFT_DLCI |>);;
  if Z.land a RFCOMM_EA =? 0 then
    a2 ← buf_read b (p_start + 1);
    set_rx_frame (fun f => f <| f_dlci ::= fun d => u8 (d + Z.shiftl a2 RFCOMM_SHIFT_DLCI2) |>);;
    mret (RFC_EVENT_BAD_FRAME, b)
  else
  t ← buf_read b (p_start + 1);
  set_rx_frame (fun f => f <| f_type := Z.land t (Z.lxor 0xFF RFCOMM_PF_MASK) |>
                           <| f_pf := Z.shiftr (Z.land t RFCOMM_PF_MASK) RFCOMM_PF_OFFSET |>);;
  l1 ← buf_read b (p_start + 2);
  let ext := Z.land l1 RFCOMM_EA =? 0 in
  if ext && negb (RFCOMM_CTRL_FRAME_LEN <? hdr_len b) then mret (RFC_EVENT_BAD_FRAME, b) else
  len ← (if ext then
           l2 ← buf_read b (p_start + 3);
           mret (u16 (Z.shiftr l1 RFCOMM_SHIFT_LENGTH1 + Z.shiftl l2 RFCOMM_SHIFT_LENGTH2))
         else mret (Z.shiftr l1 RFCOMM_SHIFT_LENGTH1));
  if hdr_len b <? 3 + b2z ext + 1 then mret (RFC_EVENT_BAD_FRAME, b) else
  parse_body m p_start len (p_start + 3 + b2z ext)
    (b <| hdr_len ::= fun n => n - (3 + b2z ext + 1) |>
       <| hdr_offset ::= fun o => u16 (o + (3 + b2z ext)) |>).
