(* ===== verification/RfcUtils.v ===== *)
(** * Control block utilities ([rfc_utils.cc], [port_utils.cc])

    Timers, the LCID table, allocation and release of multiplexer and port
    control blocks, lookup of ports, and the flow-control decisions.  The two
    state machines call each other through these functions; [SM] is what a
    function sees of them, and [RfcSystem] closes the recursion. *)
From S2P Require Import Prelude RfcDefs RfcMonad RfcFrames.

(** ** The state machines as seen from the functions they call *)

(** What the [void* p_data] of a multiplexer event points to. *)
Inductive mx_data :=
| MX_null
| MX_u16 (result : Z)
| MX_cfg (cfg : tL2CAP_CFG_INFO).

(** What the [void* p_data] of a port event points to. *)
Inductive port_data :=
| PD_null
| PD_buf (p_buf : BT_HDR)
| PD_status (status : Z)
| PD_u16 (result : Z).

Class SM := mkSM {
  sm_mx : nat → tRFC_MX_EVENT → mx_data → M unit;
  sm_port : option nat → tRFC_PORT_EVENT → port_data → M unit;
}.

(** ** Loops over the tables *)

(** The first index whose element satisfies [f]. *)
Fixpoint find_index {A} (f : A → bool) (l : list A) : option nat :=
  match l with
  | [] => None
  | a :: l => if f a then Some 0%nat else S <$> find_index f l
  end.

(** [n] rounds over a table of [max] entries starting at [j], wrapping at its end. *)
Fixpoint scan (n : nat) (max j : Z) (free : Z → bool) : option Z :=
  match n with
  | O => None
  | S n =>
      let j := if max <=? j then 0 else j in
      if free j then Some j else scan n max (j + 1) free
  end.

Definition port_indices : list nat := seq 0 30.

(** [p == q] for pointers to multiplexer control blocks. *)
Definition mcb_eqb (p q : option nat) : bool := bool_decide (p = q).

Definition is_some {A} (o : option A) : bool :=
  match o with Some _ => true | None => false end.

(** ** Timers *)
Definition rfc_timer_start (m : nat) (timeout : Z) : M unit :=
  mcb ← get_mcb m;
  a ← of_option AssertFailed (alarm_set (mcb_timer mcb) timeout);
  upd_mcb m (fun mcb => mcb <| mcb_timer := a |>).

Definition rfc_timer_stop (m : nat) : M unit :=
  upd_mcb m (fun mcb => mcb <| mcb_timer ::= alarm_cancel |>).

Definition rfc_port_timer_start (i : nat) (timeout : Z) : M unit :=
  p ← get_port i;
  a ← of_option AssertFailed (alarm_set (port_timer (rfc p)) timeout);
  upd_rfc i (fun r => r <| port_timer := a |>).

Definition rfc_port_timer_stop (i : nat) : M unit :=
  upd_rfc i (fun r => r <| port_timer ::= alarm_cancel |>).

(** ** The LCID table *)
Definition rfc_save_lcid_mcb (p : option nat) (lcid : Z) : M unit :=
  modify_cb (fun c => c <| rfc_lcid_mcb ::= fun t =>
    match p with Some m => <[lcid := m]> t | None => delete lcid t end |>).

Definition rfc_find_lcid_mcb (lcid : Z) : M (option nat) :=
  t ← gets rfc_lcid_mcb;
  match t !! lcid with
  | Some m =>
      mcb ← get_mcb m;
      if mcb_lcid mcb =? lcid then mret (Some m) else mret None
  | None => mret None
  end.

(** ** Multiplexer control blocks *)
Definition mcb_idle (mcb : tRFC_MCB) : bool := eqb (mcb_state mcb) RFC_MX_STATE_IDLE.

(** A block that serves the peer [bd_addr]. *)
Definition mcb_for (bd_addr : RawAddress) (mcb : tRFC_MCB) : bool :=
  negb (mcb_idle mcb) && (mcb_bd_addr mcb =? bd_addr).

Definition rfc_alloc_multiplexer_channel (bd_addr : RawAddress) (initiator : bool)
    : M (option nat) :=
  ms ← gets rfc_mcb;
  match find_index (mcb_for bd_addr) ms with
  | Some i =>
      mcb ← get_mcb i;
      when (eqb (mcb_state mcb) RFC_MX_STATE_CONNECTED) (rfc_timer_stop i);;
      mret (Some i)
  | None =>
      last ← gets last_mux;
      let free j := match at_index ms j with Some mcb => mcb_idle mcb | None => false end in
      match scan 16 MAX_BD_CONNECTIONS (last + 1) free with
      | Some j =>
          let m := Z.to_nat j in
          upd_mcb m (fun _ => zero_mcb <| mcb_bd_addr := bd_addr |>
                                       <| mcb_timer := alarm_idle |>
                                       <| cmd_q := Some [] |>
                                       <| is_initiator := initiator |>);;
          rfc_timer_start m RFC_MCB_INIT_INACT_TIMER;;
          modify_cb (fun c => c <| last_mux := u8 j |>);;
          mret (Some m)
      | None => mret None
      end
  end.

Definition rfc_release_multiplexer_channel (m : nat) : M unit :=
  mcb ← get_mcb m;
  rfc_save_lcid_mcb None (mcb_lcid mcb);;
  forM_ port_indices (fun i =>
    p ← get_port i;
    when (mcb_eqb (p_mcb (rfc p)) (Some m)) (upd_rfc i (fun r => r <| p_mcb := None |>)));;
  upd_mcb m (fun _ => zero_mcb).

Section checks.
Context `{SM}.

(** The loop stops before [RFCOMM_MAX_DLCI]. *)
Definition rfc_check_mcb_active (m : nat) : M unit :=
  mcb ← get_mcb m;
  if existsb nz (take (Z.to_nat RFCOMM_MAX_DLCI) (port_handles mcb)) then
    upd_mcb m (fun mcb => mcb <| is_disc_initiator := false |>)
  else if is_disc_initiator mcb then
    upd_mcb m (fun mcb => mcb <| is_disc_initiator := false |>);;
    sm_mx m RFC_MX_EVENT_CLOSE_REQ MX_null
  else rfc_timer_start m RFC_MCB_RELEASE_INACT_TIMER.
End checks.

(** ** Port control blocks *)
Definition default_port_settings : PortSettings :=
  mkPortSettings PORT_BAUD_RATE_9600 PORT_8_BITS PORT_ONESTOPBIT PORT_PARITY_NO
    PORT_ODD_PARITY PORT_FC_OFF 0 PORT_XON_DC1 PORT_XOFF_DC3.

Definition port_set_defaults (p : tPORT) : tPORT :=
  p <| ev_mask := 0 |> <| p_callback := None |> <| port_ctrl := 0 |> <| line_status := 0 |>
    <| rx_flag_ev_pending := false |> <| peer_mtu := RFCOMM_DEFAULT_MTU |>
    <| user_port_settings := default_port_settings |>
    <| peer_port_settings := default_port_settings |>
    <| credit_tx := 0 |> <| credit_rx := 0 |>
    <| local_ctrl := zero_ctrl |> <| peer_ctrl := zero_ctrl |>
    <| rx := zero_data <| queue := Some [] |> |>
    <| tx := zero_data <| queue := Some [] |> |>.

(** The block a successful allocation leaves at [port_index]. *)
Definition fresh_port (port_index d : Z) (bd_addr : RawAddress) : tPORT :=
  port_set_defaults (zero_port <| in_use := true |> <| handle := u8 (port_index + 1) |>)
    <| rfc ::= fun r => r <| port_timer := alarm_idle |> |>
    <| dlci := d |> <| port_bd_addr := bd_addr |>.

Definition port_allocate_port (d : Z) (bd_addr : RawAddress) : M (option nat) :=
  last ← gets last_port_index;
  ps ← gets ports;
  let free j := match at_index ps j with Some p => negb (in_use p) | None => false end in
  match scan 30 MAX_RFC_PORTS (u8 (last + 1)) free with
  | Some j =>
      upd_port (Z.to_nat j) (fun _ => fresh_port j d bd_addr);;
      modify_cb (fun c => c <| last_port_index := j |>);;
      mret (Some (Z.to_nat j))
  | None => mret None
  end.

(** The MTU that fills whole baseband packets. *)
Definition mtu_for_packet_size (packet_size : Z) : Z :=
  if packet_size =? 0 then RFCOMM_DEFAULT_MTU
  else if packet_size <=? L2CAP_MTU_SIZE + L2CAP_PKT_OVERHEAD then
    u16 ((L2CAP_MTU_SIZE + L2CAP_PKT_OVERHEAD) / packet_size * packet_size
         - RFCOMM_DATA_OVERHEAD - L2CAP_PKT_OVERHEAD)
  else L2CAP_MTU_SIZE - RFCOMM_DATA_OVERHEAD.

(** The credit limits for an MTU. *)
Definition set_credit_limits (p : tPORT) : tPORT :=
  let limit wm cap := Z.min (u16 (wm / mtu p)) cap in
  p <| credit_rx_max := limit PORT_RX_HIGH_WM PORT_RX_BUF_HIGH_WM |>
    <| credit_rx_low := limit PORT_RX_LOW_WM PORT_RX_BUF_LOW_WM |>
    <| rx_buf_critical := limit PORT_RX_CRITICAL_WM PORT_RX_BUF_CRITICAL_WM |>.

Definition port_select_mtu `{Env} (i : nat) : M unit :=
  p ← get_port i;
  when (mtu p =? 0)
    (h ← history;
     let packet_size := env_GetMaxPacketSize h (port_bd_addr p) in
     upd_port i (fun p => p <| mtu := mtu_for_packet_size packet_size |>));;
  upd_port i set_credit_limits.

(** Removing every element of a queue that may be null. *)
Definition drain (d : tPORT_DATA) : tPORT_DATA :=
  d <| queue ::= fmap (fun _ => []) |> <| queue_size := 0 |>.

(** A server port goes back to listening. *)
Definition reinit_port (p : tPORT) : tPORT :=
  let q := port_set_defaults p
             <| ev_mask := ev_mask p |> <| p_callback := p_callback p |>
             <| user_port_settings := user_port_settings p |>
             <| mtu := keep_mtu p |>
             <| port_state := PORT_CONNECTION_STATE_OPENING |>
             <| rfc ::= fun r => r <| p_mcb := None |> |> in
  (if is_server q then q <| dlci ::= fun d => Z.land d 0xfe |> else q)
    <| local_ctrl ::= fun c => c <| modem_signal := default_signal_state p |> |>
    <| port_bd_addr := kAny |>.

Definition port_release_port `{SM} (i : nat) : M unit :=
  upd_port i (fun p => p <| rx ::= drain |> <| tx ::= drain |>);;
  rfc_port_timer_stop i;;
  upd_port i (fun p => p <| port_state := PORT_CONNECTION_STATE_CLOSED |>);;
  p ← get_port i;
  if eqb (rfc_state (rfc p)) RFC_STATE_CLOSED then
    match p_mcb (rfc p) with
    | Some m => write_handle m (dlci p) 0;; rfc_check_mcb_active m
    | None => mret ()
    end;;
    rfc_port_timer_stop i;;
    upd_port i (fun p => p <| tx ::= fun d => d <| queue := None |> |>
                           <| rx ::= fun d => d <| queue := None |> |>);;
    upd_port i (fun p => if keep_port_handle p then reinit_port p else zero_port)
  else mret ().

(** ** Lookup *)
Definition port_find_mcb (bd_addr : RawAddress) : M (option nat) :=
  ms ← gets rfc_mcb; mret (find_index (mcb_for bd_addr) ms).

Definition port_find_mcb_dlci_port (p_mcb : option nat) (d : Z) : M (option nat) :=
  match p_mcb with
  | None => mret None
  | Some m =>
      if RFCOMM_MAX_DLCI <? d then mret None else
      h ← read_handle m d;
      if h =? 0 then mret None else mret (Some (port_index h))
  end.

(** A port that is not on a multiplexer and has the DLCI, or the DLCI without
    the direction bit. *)
Definition unbound_port (d : Z) (p : tPORT) : bool :=
  in_use p && negb (is_some (p_mcb (rfc p))) &&
  ((dlci p =? d) || (nz (Z.land d 1) && (dlci p =? d - 1))).

Definition port_find_dlci_port (d : Z) : M (option nat) :=
  ps ← gets ports;
  match find_index (unbound_port d) ps with
  | Some i =>
      p ← get_port i;
      when (negb (dlci p =? d)) (upd_port i (fun p => p <| dlci ::= fun d => u8 (d + 1) |>));;
      mret (Some i)
  | None => mret None
  end.

Definition port_find_port (d : Z) (bd_addr : RawAddress) : M (option nat) :=
  ps ← gets ports;
  mret (find_index (fun p => in_use p && (dlci p =? d) && (port_bd_addr p =? bd_addr)) ps).

(** ** Flow control towards the user *)
Definition port_flow_control_user (i : nat) : M Z :=
  p ← get_port i;
  ready ← match p_mcb (rfc p) with
          | Some m => mcb ← get_mcb m; mret (peer_ready mcb)
          | None => mret false
          end;
  let fc := peer_fc (tx p) || negb ready || (PORT_TX_HIGH_WM <? queue_size (tx p))
            || (PORT_TX_BUF_HIGH_WM <? queue_length (queue (tx p))) in
  if eqb (user_fc (tx p)) fc then mret 0 else
  upd_port i (fun p => p <| tx ::= fun d => d <| user_fc := fc |> |>);;
  mret (if fc then PORT_EV_FC else Z.lor PORT_EV_FC PORT_EV_FCS).

Definition port_get_signal_changes (p : tPORT) (old_signals signal : Z) : Z :=
  let changed_signals := Z.lxor signal old_signals in
  let on s b e := if nz (Z.land s b) then e else 0 in
  let events :=
    Z.lor (Z.lor (Z.lor
      (on changed_signals PORT_DTRDSR_ON (Z.lor PORT_EV_DSR (on signal PORT_DTRDSR_ON PORT_EV_DSRS)))
      (on changed_signals PORT_CTSRTS_ON (Z.lor PORT_EV_CTS (on signal PORT_CTSRTS_ON PORT_EV_CTSS))))
      (on changed_signals PORT_RING_ON PORT_EV_RING))
      (on changed_signals PORT_DCD_ON (Z.lor PORT_EV_RLSD (on signal PORT_DCD_ON PORT_EV_RLSDS))) in
  Z.land (ev_mask p) events.
