(* ===== verification/RfcPort.v ===== *)
(** * The port layer ([rfc_port_if.cc], [port_rfc.cc], [port_flow_control_peer])

    The requests the port layer makes of RFCOMM ([RFCOMM_*]) and the
    indications and confirmations it gets back ([PORT_*]).  A [tRFC_MCB*] that
    may be null is an [option nat]; where the code dereferences it first thing,
    the function takes the index and its callers dereference. *)
From S2P Require Import Prelude RfcDefs RfcMonad RfcFrames RfcUtils.

(** ** Calls into the application *)
Definition call_port_callback (p : tPORT) (events : Z) : M unit :=
  match p_callback p with
  | Some f => emit (port_callback f events (handle p))
  | None => mret ()
  end.

Definition call_mgmt_callback (p : tPORT) (code : Z) : M unit :=
  match p_mgmt_callback p with
  | Some f => emit (mgmt_callback f code (handle p))
  | None => mret ()
  end.

Definition has_event (mask ev : Z) : bool := nz (Z.land mask ev).

Section port.
Context `{Env, SM}.

(** ** Requests: [rfc_port_if.cc] *)
Definition RFCOMM_StartReq (m : nat) : M unit := sm_mx m RFC_MX_EVENT_START_REQ MX_null.

Definition RFCOMM_StartRsp (m : nat) (result : Z) : M unit :=
  sm_mx m RFC_MX_EVENT_START_RSP (MX_u16 result).

Definition RFCOMM_ParameterNegotiationRequest (m : nat) (d mtu : Z) : M unit :=
  p_port ← port_find_mcb_dlci_port (Some m) d;
  match p_port with
  | None => mret ()
  | Some i =>
      mcb ← get_mcb m;
      if negb (eqb (mcb_state mcb) RFC_MX_STATE_CONNECTED) then mret () else
      let fl := if flow mcb =? PORT_FC_UNDEFINED then PORT_FC_CREDIT else flow mcb in
      p ← get_port i;
      let cl := if fl =? PORT_FC_CREDIT then RFCOMM_PN_CONV_LAYER_CBFC_I
                else RFCOMM_PN_CONV_LAYER_TYPE_1 in
      let k := if fl =? PORT_FC_CREDIT then
                 (if credit_rx_max p <? RFCOMM_K_MAX then u8 (credit_rx_max p) else RFCOMM_K_MAX)
               else 0 in
      when (fl =? PORT_FC_CREDIT) (upd_port i (fun p => p <| credit_rx := k |>));;
      upd_rfc i (fun r => r <| expected_rsp ::= Z.lor RFC_RSP_PN |>);;
      rfc_send_pn m d true mtu cl k;;
      rfc_port_timer_start i RFC_T2_TIMEOUT
  end.

Definition RFCOMM_ParameterNegotiationResponse (m : nat) (d mtu cl k : Z) : M unit :=
  mcb ← get_mcb m;
  when (eqb (mcb_state mcb) RFC_MX_STATE_CONNECTED) (rfc_send_pn m d false mtu cl k).

Definition RFCOMM_PortParameterNegotiationResponse (m : nat) (d : Z) (s : PortSettings)
    (param_mask : Z) : M unit :=
  mcb ← get_mcb m;
  when (eqb (mcb_state mcb) RFC_MX_STATE_CONNECTED)
    (rfc_send_rpn m d false (Some s) param_mask).

(** The test the three status requests below make. *)
Definition both_opened (p : tPORT) : bool :=
  eqb (port_state p) PORT_CONNECTION_STATE_OPENED && eqb (rfc_state (rfc p)) RFC_STATE_OPENED.

(** [p_pars] is [&p_port->local_ctrl] at every call. *)
Definition RFCOMM_ControlReq (pm : option nat) (d : Z) (p_pars : tPORT_CTRL) : M unit :=
  p_port ← port_find_mcb_dlci_port pm d;
  match p_port with
  | None => mret ()
  | Some i =>
      p ← get_port i;
      if negb (both_opened p) then mret () else
      upd_port i (fun p => p <| port_ctrl ::= Z.lor PORT_CTRL_REQ_SENT |>);;
      upd_rfc i (fun r => r <| expected_rsp ::= Z.lor RFC_RSP_MSC |>);;
      m ← deref pm;
      rfc_send_msc m d true p_pars;;
      rfc_port_timer_start i RFC_T2_TIMEOUT
  end.

Definition RFCOMM_FlowReq (pm : option nat) (d : Z) (enable : bool) : M unit :=
  p_port ← port_find_mcb_dlci_port pm d;
  match p_port with
  | None => mret ()
  | Some i =>
      p ← get_port i;
      if negb (both_opened p) then mret () else
      upd_port i (fun p => p <| local_ctrl ::= fun c => c <| ctrl_fc := negb enable |> |>);;
      upd_rfc i (fun r => r <| expected_rsp ::= Z.lor RFC_RSP_MSC |>);;
      m ← deref pm;
      p ← get_port i;
      rfc_send_msc m d true (local_ctrl p);;
      rfc_port_timer_start i RFC_T2_TIMEOUT
  end.

Definition RFCOMM_LineStatusReq (pm : option nat) (d status : Z) : M unit :=
  p_port ← port_find_mcb_dlci_port pm d;
  match p_port with
  | None => mret ()
  | Some i =>
      p ← get_port i;
      if negb (both_opened p) then mret () else
      upd_rfc i (fun r => r <| expected_rsp ::= Z.lor RFC_RSP_RLS |>);;
      m ← deref pm;
      rfc_send_rls m d true status;;
      rfc_port_timer_start i RFC_T2_TIMEOUT
  end.

Definition RFCOMM_DlcReleaseReq (pm : option nat) (d : Z) : M unit :=
  p_port ← port_find_mcb_dlci_port pm d;
  sm_port p_port RFC_PORT_EVENT_CLOSE PD_null.

Definition RFCOMM_DataReq (pm : option nat) (d : Z) (p_buf : BT_HDR) : M unit :=
  p_port ← port_find_mcb_dlci_port pm d;
  sm_port p_port RFC_PORT_EVENT_DATA (PD_buf p_buf).

(** ** Flow control towards the peer ([port_utils.cc]) *)
Definition set_rx_peer_fc (i : nat) (b : bool) : M unit :=
  upd_port i (fun p => p <| rx ::= fun d => d <| peer_fc := b |> |>).

(** The application takes the data itself. *)
Definition has_data_callback (p : tPORT) : bool :=
  is_some (p_data_callback p) || is_some (p_data_co_callback p).

Definition port_flow_control_peer (i : nat) (enable : bool) (count : Z) : M unit :=
  p ← get_port i;
  match p_mcb (rfc p) with
  | None => mret ()
  | Some m =>
      mcb ← get_mcb m;
      if flow mcb =? PORT_FC_CREDIT then
        if enable then
          upd_port i (fun p => p <| credit_rx ::= fun c => if c <? count then 0 else c - count |>);;
          p ← get_port i;
          when ((credit_rx p <=? credit_rx_low p) && negb (user_fc (rx p))
                && (credit_rx p <? credit_rx_max p))
            (rfc_send_credit m (dlci p) (u8 (credit_rx_max p - credit_rx p));;
             upd_port i (fun p => p <| credit_rx := credit_rx_max p |>);;
             set_rx_peer_fc i false)
        else
          when (has_data_callback p || (credit_rx_max p <=? queue_length (queue (rx p))))
            (set_rx_peer_fc i true)
      else if enable then
        when (peer_fc (rx p) && (queue_size (rx p) <? PORT_RX_LOW_WM)
              && (queue_length (queue (rx p)) <? PORT_RX_BUF_LOW_WM))
          (set_rx_peer_fc i false;;
           when (negb (user_fc (rx p))) (RFCOMM_FlowReq (Some m) (dlci p) true))
      else
        when (has_data_callback p
              || (((PORT_RX_HIGH_WM <? queue_size (rx p))
                   || (PORT_RX_BUF_HIGH_WM <? queue_length (queue (rx p))))
                  && negb (peer_fc (rx p))))
          (set_rx_peer_fc i true;; RFCOMM_FlowReq (Some m) (dlci p) false)
  end.

(** ** Closing *)

(** The signals a lost connection drops. *)
Definition drop_signals (s : Z) : Z :=
  Z.ldiff s (Z.lor (Z.lor PORT_DTRDSR_ON PORT_CTSRTS_ON) PORT_DCD_ON).

(** [PORT_EV_CONNECT_ERR] and the like, when the application asked for it. *)
Definition masked (p : tPORT) (ev : Z) : Z := if has_event (ev_mask p) ev then ev else 0.

(** Marking the line as failed and dropping the peer's signals; the events this
    makes. *)
Definition fail_line (i : nat) : M Z :=
  p ← get_port i;
  let old_signals := modem_signal (peer_ctrl p) in
  upd_port i (fun p => p <| line_status ::= Z.lor LINE_STATUS_FAILED |>
                         <| peer_ctrl ::= fun c => c <| modem_signal ::= drop_signals |> |>);;
  mret (Z.lor (port_get_signal_changes p old_signals (drop_signals old_signals))
              (masked p PORT_EV_CONNECT_ERR)).

Definition port_rfc_closed (i : nat) (res : Z) : M unit :=
  p ← get_port i;
  let pm := p_mcb (rfc p) in
  if eqb (port_state p) PORT_CONNECTION_STATE_OPENING && is_server p then
    rfc_port_timer_stop i;;
    upd_rfc i (fun r => r <| rfc_state := RFC_STATE_CLOSED |>);;
    match pm with
    | Some m =>
        write_handle m (dlci p) 0;;
        rfc_check_mcb_active m;;
        upd_rfc i (fun r => r <| p_mcb := None |>)
    | None => mret ()
    end;;
    upd_port i (fun p => p <| dlci ::= fun d => Z.land d 0xfe |>)
  else
  match pm with
  | Some m =>
      when (port_state_ge_opened (port_state p))
        (mcb ← get_mcb m;
         h ← history;
         match env_find_ccb h (mcb_lcid mcb) with
         | Some acl => emit (SetRfcommPortClose acl (mcb_lcid mcb) (dlci p) (uuid p))
         | None => mret ()
         end)
  | None => mret ()
  end;;
  events ← (if negb (eqb (port_state p) PORT_CONNECTION_STATE_CLOSING)
               && negb (eqb (port_state p) PORT_CONNECTION_STATE_CLOSED)
            then fail_line i else mret 0);
  when (nz events) (call_port_callback p events);;
  call_mgmt_callback p (if PORT_ERR_MAX <=? res then PORT_ERR_MAX else res);;
  upd_rfc i (fun r => r <| rfc_state := RFC_STATE_CLOSED |>);;
  port_release_port i.

(** [rfc_port_closed] of [rfc_utils.cc]. *)
Definition rfc_port_closed (i : nat) : M unit :=
  p ← get_port i;
  rfc_port_timer_stop i;;
  upd_rfc i (fun r => r <| rfc_state := RFC_STATE_CLOSED |>);;
  match p_mcb (rfc p) with
  | Some m => write_handle m (dlci p) 0;; rfc_check_mcb_active m
  | None => mret ()
  end;;
  port_rfc_closed i PORT_CLOSED.

Definition port_start_close (i : nat) : M unit :=
  p ← get_port i;
  let pm := p_mcb (rfc p) in
  ev ← fail_line i;
  let events := Z.lor ev (masked p PORT_EV_ERR) in
  when (nz events) (call_port_callback p events);;
  p ← get_port i;
  if negb (is_some pm) || eqb (rfc_state (rfc p)) RFC_STATE_CLOSED then
    call_mgmt_callback p PORT_CLOSED;;
    port_release_port i
  else RFCOMM_DlcReleaseReq pm (dlci p).

(** ** Sending queued data *)
Definition port_get_credits (i : nat) (k : Z) : M unit :=
  upd_port i (fun p => p <| credit_tx := k |>
                         <| tx ::= fun d => if k =? 0 then d <| peer_fc := true |> else d |>).

(** The [while] loop of [port_rfc_send_tx_data]: one buffer leaves the queue in
    every round. *)
Fixpoint send_tx_loop (fuel : nat) (i : nat) (events : Z) : M Z :=
  match fuel with
  | O => fail OutOfFuel
  | S fuel =>
      p ← get_port i;
      if peer_fc (tx p) then mret events else
      match p_mcb (rfc p) with
      | None => mret events
      | Some m =>
          mcb ← get_mcb m;
          if negb (peer_ready mcb) then mret events else
          match queue (tx p) with
          | None | Some [] => mret (Z.lor events PORT_EV_TXEMPTY)
          | Some (p_buf :: q) =>
              upd_port i (fun p => p <| tx ::= fun d =>
                d <| queue := Some q |>
                  <| queue_size ::= fun n => u32 (n - hdr_len p_buf) |> |>);;
              RFCOMM_DataReq (Some m) (dlci p) p_buf;;
              p ← get_port i;
              if queue_size (tx p) =? 0 then
                mret (Z.lor (Z.lor events PORT_EV_TXCHAR) PORT_EV_TXEMPTY)
              else send_tx_loop fuel i (Z.lor events PORT_EV_TXCHAR)
          end
      end
  end.

Definition port_rfc_send_tx_data (i : nat) : M Z :=
  p ← get_port i;
  events ← (if 0 <? queue_size (tx p) then
              ev ← send_tx_loop (S (Z.to_nat (queue_length (queue (tx p))))) i 0;
              fc ← port_flow_control_user i;
              mret (Z.lor ev fc)
            else mret 0);
  p ← get_port i;
  mret (Z.land events (ev_mask p)).

(** One port's share of [PORT_FlowInd]. *)
Definition flow_port (i : nat) : M unit :=
  ev1 ← port_flow_control_user i;
  ev2 ← port_rfc_send_tx_data i;
  p ← get_port i;
  let events := Z.land (Z.lor ev1 ev2) (ev_mask p) in
  when (nz events) (call_port_callback p events).

Definition PORT_FlowInd (m : nat) (d : Z) (enable_data : bool) : M unit :=
  if d =? 0 then
    upd_mcb m (fun mcb => mcb <| peer_ready := enable_data |>);;
    forM_ port_indices (fun i =>
      p ← get_port i;
      when (in_use p && mcb_eqb (p_mcb (rfc p)) (Some m)
            && eqb (rfc_state (rfc p)) RFC_STATE_OPENED)
        (flow_port i))
  else
    p_port ← port_find_mcb_dlci_port (Some m) d;
    match p_port with
    | None => mret ()
    | Some i =>
        upd_port i (fun p => p <| tx ::= fun t => t <| peer_fc := negb enable_data |> |>);;
        flow_port i
    end.

(** ** Credits ([rfc_utils.cc]) *)
Definition rfc_inc_credit (i : nat) (credit : Z) : M unit :=
  p ← get_port i;
  m ← deref (p_mcb (rfc p));
  mcb ← get_mcb m;
  when (flow mcb =? PORT_FC_CREDIT)
    (upd_port i (fun p => p <| credit_tx ::= fun c => u16 (c + credit) |>);;
     when (peer_fc (tx p)) (PORT_FlowInd m (dlci p) true)).

Definition rfc_dec_credit (i : nat) : M unit :=
  p ← get_port i;
  m ← deref (p_mcb (rfc p));
  mcb ← get_mcb m;
  when (flow mcb =? PORT_FC_CREDIT)
    (when (0 <? credit_tx p) (upd_port i (fun p => p <| credit_tx ::= fun c => c - 1 |>));;
     p ← get_port i;
     when (credit_tx p =? 0)
       (upd_port i (fun p => p <| tx ::= fun d => d <| peer_fc := true |> |>))).

(** ** Indications and confirmations: [port_rfc.cc] *)

(** [no_ports_up] is threaded through the loop as its result. *)
Fixpoint start_cnf_loop (l : list nat) (m : nat) (result : Z) (no_ports_up : bool) : M bool :=
  match l with
  | [] => mret no_ports_up
  | i :: l =>
      p ← get_port i;
      if mcb_eqb (p_mcb (rfc p)) (Some m) then
        (if result =? RFCOMM_SUCCESS then
           RFCOMM_ParameterNegotiationRequest m (dlci p) (mtu p)
         else
           rfc_release_multiplexer_channel m;;
           when (has_event (ev_mask p) PORT_EV_CONNECT_ERR)
             (call_port_callback p PORT_EV_CONNECT_ERR);;
           call_mgmt_callback p PORT_START_FAILED;;
           port_release_port i);;
        start_cnf_loop l m result false
      else start_cnf_loop l m result no_ports_up
  end.

Definition PORT_StartCnf (m : nat) (result : Z) : M unit :=
  no_ports_up ← start_cnf_loop port_indices m result true;
  when no_ports_up (rfc_check_mcb_active m).

Definition PORT_StartInd (m : nat) : M unit :=
  ps ← gets ports;
  if existsb (fun p => mcb_eqb (p_mcb (rfc p)) None || mcb_eqb (p_mcb (rfc p)) (Some m)) ps then
    RFCOMM_StartRsp m RFCOMM_SUCCESS
  else RFCOMM_StartRsp m RFCOMM_ERROR.

(** [p_mcb->port_handles[dlci] = p_port->handle]. *)
Definition bind_handle (m : nat) (d : Z) (i : nat) : M unit :=
  p ← get_port i; write_handle m d (handle p).

(** The lookup of a port for a first command: on the multiplexer, else an
    unbound port, whose handle is entered for the DLCI. *)
Definition find_or_bind_port (m : nat) (d : Z) : M (option nat) :=
  p_port ← port_find_mcb_dlci_port (Some m) d;
  match p_port with
  | Some i => mret (Some i)
  | None =>
      p_port ← port_find_dlci_port d;
      match p_port with
      | None => mret None
      | Some i => bind_handle m d i;; mret (Some i)
      end
  end.

Definition PORT_ParNegInd (m : nat) (d mtu0 cl k : Z) : M unit :=
  p_port ← find_or_bind_port m d;
  match p_port with
  | None => rfc_send_dm m d false;; rfc_check_mcb_active m
  | Some i =>
      mcb ← get_mcb m;
      upd_port i (fun p => p <| port_bd_addr := mcb_bd_addr mcb |>);;
      port_select_mtu i;;
      upd_rfc i (fun r => r <| p_mcb := Some m |>);;
      upd_port i (fun p => p <| mtu ::= fun n => if n <? mtu0 then n else mtu0 |>);;
      upd_port i (fun p => p <| peer_mtu := mtu p |>);;
      upd_mcb m (fun mcb => if flow mcb =? PORT_FC_UNDEFINED then
                   mcb <| flow := if cl =? RFCOMM_PN_CONV_LAYER_TYPE_1 then PORT_FC_TS710
                                  else PORT_FC_CREDIT |>
                 else mcb);;
      mcb ← get_mcb m;
      '(our_cl, our_k) ←
        (if cl =? RFCOMM_PN_CONV_LAYER_TYPE_1 then mret (RFCOMM_PN_CONV_LAYER_TYPE_1, 0)
         else if flow mcb =? PORT_FC_CREDIT then
           port_get_credits i k;;
           p ← get_port i;
           let our_k := if credit_rx_max p <? RFCOMM_K_MAX then u8 (credit_rx_max p)
                        else RFCOMM_K_MAX in
           upd_port i (fun p => p <| credit_rx := our_k |>);;
           mret (RFCOMM_PN_CONV_LAYER_CBFC_R, our_k)
         else mret (RFCOMM_PN_CONV_LAYER_TYPE_1, 0));
      p ← get_port i;
      RFCOMM_ParameterNegotiationResponse m d (mtu p) our_cl our_k
  end.

Definition PORT_PortNegInd (m : nat) (d : Z) (p_settings : PortSettings) (param_mask : Z)
    : M unit :=
  p_port ← find_or_bind_port m d;
  match p_port with
  | None => RFCOMM_PortParameterNegotiationResponse m d p_settings 0
  | Some i =>
      upd_port i (fun p => p <| peer_port_settings := p_settings |>);;
      RFCOMM_PortParameterNegotiationResponse m d p_settings param_mask
  end.

Definition PORT_PortNegCnf (m : nat) (d result : Z) : M unit :=
  p_port ← port_find_mcb_dlci_port (Some m) d;
  match p_port with
  | None => mret ()
  | Some i =>
      p ← get_port i;
      if negb (result =? RFCOMM_SUCCESS) then
        RFCOMM_DlcReleaseReq (Some m) (dlci p);;
        port_rfc_closed i PORT_PORT_NEG_FAILED
      else
        when (negb (has_event (port_ctrl p) PORT_CTRL_REQ_SENT))
          (RFCOMM_ControlReq (p_mcb (rfc p)) (dlci p) (local_ctrl p))
  end.

Definition RFCOMM_PortParameterNegotiationRequest (m : nat) (d : Z)
    (p_settings : option PortSettings) : M unit :=
  mcb ← get_mcb m;
  if negb (eqb (mcb_state mcb) RFC_MX_STATE_CONNECTED) then PORT_PortNegCnf m d RFCOMM_ERROR else
  p_port ← port_find_mcb_dlci_port (Some m) d;
  match p_port with
  | None => mret ()
  | Some i =>
      upd_rfc i (fun r => r <| expected_rsp ::=
        Z.lor (if p_settings is Some _ then RFC_RSP_RPN else RFC_RSP_RPN_REPLY) |>);;
      rfc_send_rpn m d true p_settings RFCOMM_RPN_PM_MASK;;
      rfc_port_timer_start i RFC_T2_TIMEOUT
  end.

Definition port_start_control (i : nat) : M unit :=
  p ← get_port i;
  match p_mcb (rfc p) with
  | None => mret ()
  | Some m => RFCOMM_ControlReq (Some m) (dlci p) (local_ctrl p)
  end.

Definition port_start_par_neg (i : nat) : M unit :=
  p ← get_port i;
  match p_mcb (rfc p) with
  | None => mret ()
  | Some m => RFCOMM_PortParameterNegotiationRequest m (dlci p) (Some (user_port_settings p))
  end.

(** Telling the application that the connection is up. *)
Definition notify_connected (i : nat) : M unit :=
  p ← get_port i;
  when (has_event (ev_mask p) PORT_EV_CONNECTED) (call_port_callback p PORT_EV_CONNECTED);;
  call_mgmt_callback p PORT_SUCCESS;;
  upd_port i (fun p => p <| port_state := PORT_CONNECTION_STATE_OPENED |>).

(** Taking L2CAP's MTU when it is the smaller one. *)
Definition limit_peer_mtu (i : nat) (l2cap_mtu : Z) : M unit :=
  upd_port i (fun p => if nz l2cap_mtu && (l2cap_mtu <? peer_mtu p)
                       then p <| peer_mtu := l2cap_mtu |> else p).

Definition PORT_DlcEstablishCnf (m : nat) (d l2cap_mtu result : Z) : M unit :=
  p_port ← port_find_mcb_dlci_port (Some m) d;
  match p_port with
  | None => mret ()
  | Some i =>
      if negb (result =? RFCOMM_SUCCESS) then port_rfc_closed i PORT_START_FAILED else
      limit_peer_mtu i l2cap_mtu;;
      rfc_timer_stop m;;
      notify_connected i;;
      p ← get_port i;
      if (uuid p =? UUID_SERVCLASS_DIALUP_NETWORKING) || (uuid p =? UUID_SERVCLASS_FAX) then
        m' ← deref (p_mcb (rfc p));
        RFCOMM_PortParameterNegotiationRequest m' (dlci p) None
      else RFCOMM_ControlReq (p_mcb (rfc p)) (dlci p) (local_ctrl p)
  end.

Definition RFCOMM_DlcEstablishReq (m : nat) (d : Z) : M unit :=
  mcb ← get_mcb m;
  if negb (eqb (mcb_state mcb) RFC_MX_STATE_CONNECTED) then
    PORT_DlcEstablishCnf m d 0 RFCOMM_ERROR
  else
  p_port ← port_find_mcb_dlci_port (Some m) d;
  match p_port with
  | None => mret ()
  | Some i => sm_port (Some i) RFC_PORT_EVENT_OPEN PD_null
  end.

Definition PORT_ParNegCnf (m : nat) (d mtu0 cl k : Z) : M unit :=
  p_port ← port_find_mcb_dlci_port (Some m) d;
  match p_port with
  | None => mret ()
  | Some i =>
      upd_mcb m (fun mcb => if flow mcb =? PORT_FC_UNDEFINED then
                   mcb <| flow := if cl =? RFCOMM_PN_CONV_LAYER_CBFC_R then PORT_FC_CREDIT
                                  else PORT_FC_TS710 |>
                 else mcb);;
      upd_port i (fun p => p <| mtu ::= fun n => if n <? mtu0 then n else mtu0 |>);;
      upd_port i (fun p => p <| peer_mtu := mtu p |>);;
      mcb ← get_mcb m;
      when (flow mcb =? PORT_FC_CREDIT) (port_get_credits i k);;
      p ← get_port i;
      when (eqb (port_state p) PORT_CONNECTION_STATE_OPENING)
        (RFCOMM_DlcEstablishReq m (dlci p))
  end.

Definition PORT_DlcReleaseInd (m : nat) (d : Z) : M unit :=
  p_port ← port_find_mcb_dlci_port (Some m) d;
  match p_port with
  | None => mret ()
  | Some i => port_rfc_closed i PORT_CLOSED
  end.

Definition RFCOMM_DlcEstablishRsp (m : nat) (d result : Z) : M unit :=
  mcb ← get_mcb m;
  if negb (eqb (mcb_state mcb) RFC_MX_STATE_CONNECTED) && (result =? RFCOMM_SUCCESS) then
    PORT_DlcReleaseInd m d
  else
  p_port ← port_find_mcb_dlci_port (Some m) d;
  match p_port with
  | None => mret ()
  | Some i => sm_port (Some i) RFC_PORT_EVENT_ESTABLISH_RSP (PD_u16 result)
  end.

Definition PORT_DlcEstablishInd (m : nat) (d l2cap_mtu : Z) : M unit :=
  p_port ← find_or_bind_port m d;
  match p_port with
  | None => RFCOMM_DlcEstablishRsp m d RFCOMM_ERROR
  | Some i =>
      limit_peer_mtu i l2cap_mtu;;
      rfc_timer_stop m;;
      RFCOMM_DlcEstablishRsp m d RFCOMM_SUCCESS;;
      notify_connected i
  end.

Definition PORT_ControlInd (m : nat) (d : Z) (p_pars : tPORT_CTRL) : M unit :=
  p_port ← port_find_mcb_dlci_port (Some m) d;
  match p_port with
  | None => mret ()
  | Some i =>
      p ← get_port i;
      let event := port_get_signal_changes p (modem_signal (peer_ctrl p)) (modem_signal p_pars) in
      upd_port i (fun p => p <| peer_ctrl := p_pars |>);;
      event ←
        (if negb (has_event (port_ctrl p) PORT_CTRL_REQ_SENT) then
           RFCOMM_ControlReq (p_mcb (rfc p)) (dlci p) (local_ctrl p);;
           mret event
         else
           let event := if has_event (port_ctrl p) PORT_CTRL_IND_RECEIVED then event
                        else Z.lor event (Z.land PORT_EV_CONNECTED (ev_mask p)) in
           if has_event (port_ctrl p) PORT_CTRL_REQ_CONFIRMED then
             ev ← port_rfc_send_tx_data i; mret (Z.lor event ev)
           else mret event);
      upd_port i (fun p => p <| port_ctrl ::=
        Z.lor (Z.lor PORT_CTRL_IND_RECEIVED PORT_CTRL_IND_RESPONDED) |>);;
      p ← get_port i;
      let event := if nz (break_signal p_pars)
                   then Z.lor event (Z.land PORT_EV_BREAK (ev_mask p)) else event in
      when (nz event) (call_port_callback p event)
  end.

Definition PORT_ControlCnf (pm : option nat) (d : Z) : M unit :=
  p_port ← port_find_mcb_dlci_port pm d;
  match p_port with
  | None => mret ()
  | Some i =>
      p ← get_port i;
      let event :=
        if negb (has_event (port_ctrl p) PORT_CTRL_REQ_CONFIRMED)
           && has_event (port_ctrl p) PORT_CTRL_IND_RECEIVED
        then Z.land (ev_mask p) PORT_EV_CONNECTED else 0 in
      upd_port i (fun p => p <| port_ctrl ::= Z.lor PORT_CTRL_REQ_CONFIRMED |>);;
      event ← (if has_event (port_ctrl p) PORT_CTRL_IND_RECEIVED then
                 ev ← port_rfc_send_tx_data i; mret (Z.lor event ev)
               else mret event);
      p ← get_port i;
      when (nz event) (call_port_callback p event)
  end.

Definition PORT_LineStatusInd (m : nat) (d status : Z) : M unit :=
  p_port ← port_find_mcb_dlci_port (Some m) d;
  match p_port with
  | None => mret ()
  | Some i =>
      upd_port i (fun p => p <| line_status ::= Z.lor status |>);;
      p ← get_port i;
      let event :=
        Z.lor (Z.lor (if nz (Z.land status PORT_ERR_OVERRUN) then PORT_EV_OVERRUN else 0)
                     (if nz (Z.land status PORT_ERR_BREAK) then PORT_EV_BREAK else 0))
              (if nz (Z.ldiff status (Z.lor PORT_ERR_OVERRUN PORT_ERR_BREAK))
               then PORT_EV_ERR else 0) in
      when (has_event (ev_mask p) event) (call_port_callback p (Z.land (ev_mask p) event))
  end.

Definition PORT_TimeOutCloseMux (pm : option nat) : M unit :=
  forM_ port_indices (fun i =>
    p ← get_port i;
    when (mcb_eqb (p_mcb (rfc p)) pm) (port_rfc_closed i PORT_PEER_TIMEOUT)).

Definition PORT_CloseInd (m : nat) : M unit :=
  forM_ port_indices (fun i =>
    p ← get_port i;
    when (mcb_eqb (p_mcb (rfc p)) (Some m)) (port_rfc_closed i PORT_PEER_CONNECTION_FAILED));;
  rfc_release_multiplexer_channel m.

Definition PORT_DataInd (pm : option nat) (d : Z) (p_buf : BT_HDR) : M unit :=
  p_port ← port_find_mcb_dlci_port pm d;
  match p_port with
  | None => mret ()
  | Some i =>
      p ← get_port i;
      match p_data_co_callback p, p_data_callback p with
      | Some f, _ =>
          emit (data_co_callback f (handle p) (hdr_payload p_buf));;
          h ← history;
          if env_data_co h then port_flow_control_peer i true 1
          else port_flow_control_peer i false 0
      | None, Some f =>
          port_flow_control_peer i true 1;;
          emit (data_callback f (handle p) (hdr_payload p_buf))
      | None, None =>
          if (PORT_RX_CRITICAL_WM <? queue_size (rx p) + hdr_len p_buf)
             || (rx_buf_critical p <? queue_length (queue (rx p)) + 1) then
            RFCOMM_LineStatusReq pm d LINE_STATUS_OVERRUN
          else
          let rx_char := rx_char1 (user_port_settings p) in
          found ← (if nz rx_char && has_event (ev_mask p) PORT_EV_RXFLAG then
                     bytes ← buf_slice p_buf (hdr_offset p_buf) (hdr_len p_buf);
                     mret (existsb (Z.eqb rx_char) bytes)
                   else mret false);
          let events := if found : bool then PORT_EV_RXFLAG else 0 in
          q ← of_option AssertFailed (queue (rx p));
          upd_port i (fun p => p <| rx ::= fun d =>
            d <| queue := Some (q ++ [p_buf]) |>
              <| queue_size ::= fun n => u32 (n + hdr_len p_buf) |> |>);;
          port_flow_control_peer i false 0;;
          p ← get_port i;
          if user_fc (rx p) then
            when (has_event events PORT_EV_RXFLAG)
              (upd_port i (fun p => p <| rx_flag_ev_pending := true |>))
          else
            let events := Z.land (Z.lor events PORT_EV_RXCHAR) (ev_mask p) in
            when (nz events) (call_port_callback p events)
      end
  end.

Definition port_open_continue (i : nat) : M Z :=
  p ← get_port i;
  p_mcb ← rfc_alloc_multiplexer_channel (port_bd_addr p) true;
  match p_mcb with
  | None => port_release_port i;; mret PORT_NO_RESOURCES
  | Some m =>
      upd_rfc i (fun r => r <| RfcDefs.p_mcb := Some m |>);;
      write_handle m (dlci p) (handle p);;
      port_select_mtu i;;
      mcb ← get_mcb m;
      p ← get_port i;
      match mcb_state mcb with
      | RFC_MX_STATE_CONNECTED => RFCOMM_ParameterNegotiationRequest m (dlci p) (mtu p)
      | RFC_MX_STATE_IDLE | RFC_MX_STATE_DISC_WAIT_UA => RFCOMM_StartReq m
      | _ => mret ()
      end;;
      mret PORT_SUCCESS
  end.
End port.
