(* ===== verification/RfcMxFsm.v ===== *)
(** * The multiplexer state machine ([rfc_mx_fsm.cc])

    One definition per state, as in the source; an event a state does not
    handle is logged and ignored.  [rfc_on_l2cap_error], the L2CAP error
    callback of the same file, drives the machine and is in [RfcSystem]. *)
From S2P Require Import Prelude RfcDefs RfcMonad RfcFrames RfcUtils RfcPort.

Definition set_mx_state (m : nat) (s : tRFC_MX_STATE) : M unit :=
  upd_mcb m (fun mcb => mcb <| mcb_state := s |>).

Definition disconnect (m : nat) : M unit :=
  mcb ← get_mcb m; emit (L2CA_DisconnectReq (mcb_lcid mcb)).

(** [for (i = 0; i < RFCOMM_MAX_DLCI; i += 2)]: the ports opened as initiator
    move to the odd DLCI when the other side turns out to be the initiator. *)
Definition update_direction (m : nat) : M unit :=
  forM_ (seq 0 31) (fun j =>
    let i := 2 * Z.of_nat j in
    h ← read_handle m i;
    when (nz h)
      (write_handle m i 0;;
       write_handle m (i + 1) h;;
       upd_port (port_index h) (fun p => p <| dlci ::= fun d => u8 (d + 1) |>))).

Section mx_fsm.
Context `{Env, SM}.

Definition rfc_mx_conf_cnf (m : nat) : M unit :=
  mcb ← get_mcb m;
  when (eqb (mcb_state mcb) RFC_MX_STATE_CONFIGURE)
    (if is_initiator mcb then
       set_mx_state m RFC_MX_STATE_SABME_WAIT_UA;;
       rfc_send_sabme m RFCOMM_MX_DLCI;;
       rfc_timer_start m RFC_T1_TIMEOUT
     else
       set_mx_state m RFC_MX_STATE_WAIT_SABME;;
       rfc_timer_start m RFCOMM_CONN_TIMEOUT).

Definition rfc_mx_conf_ind (m : nat) (p_cfg : tL2CAP_CFG_INFO) : M unit :=
  upd_mcb m (fun mcb => mcb <| peer_l2cap_mtu :=
    u16 ((if mtu_present p_cfg then cfg_mtu p_cfg else L2CAP_DEFAULT_MTU)
         - RFCOMM_MIN_OFFSET - 1) |>).

(** The casts of [p_data]. *)
Definition mx_u16 (d : mx_data) : M Z :=
  match d with MX_u16 r => mret r | _ => fail NullDeref end.
Definition mx_cfg (d : mx_data) : M tL2CAP_CFG_INFO :=
  match d with MX_cfg c => mret c | _ => fail NullDeref end.

(** [L2CA_ConnectReq] to the peer of the block. *)
Definition connect (m : nat) : M Z :=
  mcb ← get_mcb m;
  emit (L2CA_ConnectReq BT_PSM_RFCOMM (mcb_bd_addr mcb));;
  h ← history;
  mret (env_ConnectReq h (mcb_bd_addr mcb)).

(** What a failed [L2CA_ConnectReq] leads to. *)
Definition connect_failed (m : nat) : M unit :=
  mcb ← get_mcb m;
  rfc_save_lcid_mcb None (mcb_lcid mcb);;
  upd_mcb m (fun mcb => mcb <| mcb_lcid := 0 |>);;
  PORT_StartCnf m RFCOMM_ERROR.

(** The LCID of the block, entered in the table. *)
Definition set_lcid (m : nat) (lcid : Z) : M unit :=
  upd_mcb m (fun mcb => mcb <| mcb_lcid := lcid |>);;
  rfc_save_lcid_mcb (Some m) lcid.

Definition rfc_mx_sm_state_idle (m : nat) (event : tRFC_MX_EVENT) : M unit :=
  match event with
  | RFC_MX_EVENT_START_REQ =>
      upd_mcb m (fun mcb => mcb <| peer_l2cap_mtu := L2CAP_DEFAULT_MTU - RFCOMM_MIN_OFFSET - 1 |>);;
      lcid ← connect m;
      if lcid =? 0 then connect_failed m
      else
        set_lcid m lcid;;
        set_mx_state m RFC_MX_STATE_WAIT_CONN_CNF
  | RFC_MX_EVENT_CONN_IND =>
      rfc_timer_start m RFCOMM_CONN_TIMEOUT;;
      set_mx_state m RFC_MX_STATE_CONFIGURE
  | RFC_MX_EVENT_DISC => rfc_send_dm m RFCOMM_MX_DLCI true
  | RFC_MX_EVENT_UIH => rfc_send_dm m RFCOMM_MX_DLCI false
  | _ => mret ()
  end.

Definition rfc_mx_sm_state_wait_conn_cnf (m : nat) (event : tRFC_MX_EVENT) (d : mx_data)
    : M unit :=
  match event with
  | RFC_MX_EVENT_CONF_IND => cfg ← mx_cfg d; rfc_mx_conf_ind m cfg
  | RFC_MX_EVENT_CONN_CNF =>
      r ← mx_u16 d;
      if negb (r =? L2CAP_SUCCESS) then
        set_mx_state m RFC_MX_STATE_IDLE;;
        PORT_StartCnf m r
      else set_mx_state m RFC_MX_STATE_CONFIGURE
  | RFC_MX_EVENT_DISC_IND =>
      set_mx_state m RFC_MX_STATE_IDLE;;
      PORT_CloseInd m
  | RFC_MX_EVENT_TIMEOUT =>
      set_mx_state m RFC_MX_STATE_IDLE;;
      disconnect m;;
      mcb ← get_mcb m;
      if nz (pending_lcid mcb) then
        rfc_save_lcid_mcb None (mcb_lcid mcb);;
        set_lcid m (pending_lcid mcb);;
        upd_mcb m (fun mcb => mcb <| is_initiator := false |>);;
        update_direction m;;
        sm_mx m RFC_MX_EVENT_CONN_IND MX_null
      else PORT_CloseInd m
  | _ => mret ()
  end.

Definition rfc_mx_sm_state_configure (m : nat) (event : tRFC_MX_EVENT) (d : mx_data) : M unit :=
  match event with
  | RFC_MX_EVENT_CONF_IND => cfg ← mx_cfg d; rfc_mx_conf_ind m cfg
  | RFC_MX_EVENT_CONF_CNF => rfc_mx_conf_cnf m
  | RFC_MX_EVENT_DISC_IND =>
      set_mx_state m RFC_MX_STATE_IDLE;;
      PORT_CloseInd m
  | RFC_MX_EVENT_TIMEOUT =>
      set_mx_state m RFC_MX_STATE_IDLE;;
      disconnect m;;
      PORT_StartCnf m RFCOMM_ERROR
  | _ => mret ()
  end.

(** Giving up the multiplexer while waiting for its UA. *)
Definition mx_start_failed (m : nat) : M unit :=
  set_mx_state m RFC_MX_STATE_IDLE;;
  disconnect m;;
  PORT_StartCnf m RFCOMM_ERROR.

Definition rfc_mx_sm_sabme_wait_ua (m : nat) (event : tRFC_MX_EVENT) : M unit :=
  match event with
  | RFC_MX_EVENT_DISC_IND =>
      set_mx_state m RFC_MX_STATE_IDLE;;
      PORT_CloseInd m
  | RFC_MX_EVENT_UA =>
      rfc_timer_stop m;;
      set_mx_state m RFC_MX_STATE_CONNECTED;;
      upd_mcb m (fun mcb => mcb <| peer_ready := true |>);;
      PORT_StartCnf m RFCOMM_SUCCESS
  | RFC_MX_EVENT_DM => rfc_timer_stop m;; mx_start_failed m
  | RFC_MX_EVENT_CONF_IND | RFC_MX_EVENT_CONF_CNF | RFC_MX_EVENT_TIMEOUT => mx_start_failed m
  | _ => mret ()
  end.

Definition rfc_mx_sm_state_wait_sabme (m : nat) (event : tRFC_MX_EVENT) (d : mx_data) : M unit :=
  match event with
  | RFC_MX_EVENT_DISC_IND =>
      set_mx_state m RFC_MX_STATE_IDLE;;
      PORT_CloseInd m
  | RFC_MX_EVENT_SABME =>
      mcb ← get_mcb m;
      if nz (pending_lcid mcb) then
        upd_mcb m (fun mcb => mcb <| pending_lcid := 0 |>);;
        rfc_send_ua m RFCOMM_MX_DLCI;;
        rfc_timer_stop m;;
        set_mx_state m RFC_MX_STATE_CONNECTED;;
        upd_mcb m (fun mcb => mcb <| peer_ready := true |>);;
        PORT_StartCnf m RFCOMM_SUCCESS
      else
        rfc_timer_stop m;;
        PORT_StartInd m
  | RFC_MX_EVENT_START_RSP =>
      r ← mx_u16 d;
      if negb (r =? RFCOMM_SUCCESS) then rfc_send_dm m RFCOMM_MX_DLCI true
      else
        rfc_send_ua m RFCOMM_MX_DLCI;;
        set_mx_state m RFC_MX_STATE_CONNECTED;;
        upd_mcb m (fun mcb => mcb <| peer_ready := true |>);;
        PORT_StartCnf m RFCOMM_SUCCESS
  | RFC_MX_EVENT_CONF_IND | RFC_MX_EVENT_CONF_CNF | RFC_MX_EVENT_TIMEOUT =>
      set_mx_state m RFC_MX_STATE_IDLE;;
      disconnect m;;
      PORT_CloseInd m
  | _ => mret ()
  end.

Definition rfc_mx_sm_state_connected (m : nat) (event : tRFC_MX_EVENT) : M unit :=
  match event with
  | RFC_MX_EVENT_TIMEOUT | RFC_MX_EVENT_CLOSE_REQ =>
      rfc_timer_start m RFC_DISC_TIMEOUT;;
      set_mx_state m RFC_MX_STATE_DISC_WAIT_UA;;
      rfc_send_disc m RFCOMM_MX_DLCI
  | RFC_MX_EVENT_DISC_IND =>
      set_mx_state m RFC_MX_STATE_IDLE;;
      PORT_CloseInd m
  | RFC_MX_EVENT_DISC =>
      rfc_send_ua m RFCOMM_MX_DLCI;;
      mcb ← get_mcb m;
      when (is_initiator mcb) (disconnect m);;
      PORT_CloseInd m
  | _ => mret ()
  end.

Definition rfc_mx_sm_state_disc_wait_ua (m : nat) (event : tRFC_MX_EVENT) : M unit :=
  match event with
  | RFC_MX_EVENT_UA | RFC_MX_EVENT_DM | RFC_MX_EVENT_TIMEOUT =>
      disconnect m;;
      mcb ← get_mcb m;
      if restart_required mcb then
        lcid ← connect m;
        if lcid =? 0 then connect_failed m
        else
          set_lcid m lcid;;
          upd_mcb m (fun mcb => mcb <| cmd_q ::= fmap (fun _ => []) |>);;
          rfc_timer_start m RFC_MCB_INIT_INACT_TIMER;;
          upd_mcb m (fun mcb => mcb <| is_initiator := true |> <| restart_required := false |>);;
          set_mx_state m RFC_MX_STATE_WAIT_CONN_CNF
      else rfc_release_multiplexer_channel m
  | RFC_MX_EVENT_DISC => rfc_send_ua m RFCOMM_MX_DLCI
  | RFC_MX_EVENT_UIH => rfc_send_dm m RFCOMM_MX_DLCI false
  | RFC_MX_EVENT_START_REQ => upd_mcb m (fun mcb => mcb <| restart_required := true |>)
  | RFC_MX_EVENT_DISC_IND =>
      set_mx_state m RFC_MX_STATE_IDLE;;
      PORT_CloseInd m
  | _ => mret ()
  end.

(** The [switch] of [rfc_mx_sm_execute]. *)
Definition mx_state_handler (s : tRFC_MX_STATE) (m : nat) (event : tRFC_MX_EVENT) (d : mx_data)
    : M unit :=
  match s with
  | RFC_MX_STATE_IDLE => rfc_mx_sm_state_idle m event
  | RFC_MX_STATE_WAIT_CONN_CNF => rfc_mx_sm_state_wait_conn_cnf m event d
  | RFC_MX_STATE_CONFIGURE => rfc_mx_sm_state_configure m event d
  | RFC_MX_STATE_SABME_WAIT_UA => rfc_mx_sm_sabme_wait_ua m event
  | RFC_MX_STATE_WAIT_SABME => rfc_mx_sm_state_wait_sabme m event d
  | RFC_MX_STATE_CONNECTED => rfc_mx_sm_state_connected m event
  | RFC_MX_STATE_DISC_WAIT_UA => rfc_mx_sm_state_disc_wait_ua m event
  end.

Definition rfc_mx_sm_execute (m : nat) (event : tRFC_MX_EVENT) (d : mx_data) : M unit :=
  mcb ← get_mcb m; mx_state_handler (mcb_state mcb) m event d.
End mx_fsm.
