(* ===== verification/RfcPortFsm.v ===== *)
(** * The port state machine ([rfc_port_fsm.cc])

    One definition per state and the handlers of the multiplexer messages.  An
    event a state does not handle is logged and ignored; freeing a received
    buffer leaves no trace in the model. *)
From S2P Require Import Prelude RfcDefs RfcMonad RfcFrames RfcUtils RfcPort.

Definition uuid_logging_acceptlist : list Z :=
  [UUID_SERVCLASS_HEADSET_AUDIO_GATEWAY; UUID_SERVCLASS_AG_HANDSFREE].

Definition set_port_rfc_state (i : nat) (s : tRFC_PORT_STATE) : M unit :=
  upd_rfc i (fun r => r <| rfc_state := s |>).

(** The casts of [p_data]. *)
Definition pd_buf (d : port_data) : M BT_HDR :=
  match d with PD_buf b => mret b | _ => fail NullDeref end.
Definition pd_status (d : port_data) : M Z :=
  match d with PD_status s => mret s | _ => fail NullDeref end.
(** [*((uint8_t * )p_data)] of a 16-bit value: its low octet. *)
Definition pd_low_octet (d : port_data) : M Z :=
  match d with PD_u16 r => mret (u8 r) | _ => fail NullDeref end.

(** [p_port->rfc.p_mcb] where it is dereferenced. *)
Definition port_mcb (i : nat) : M nat :=
  p ← get_port i; deref (p_mcb (rfc p)).

(** [f(p_port->rfc.p_mcb, p_port->dlci, ...)]. *)
Definition with_mcb_dlci (i : nat) (f : nat → Z → M unit) : M unit :=
  p ← get_port i; m ← deref (p_mcb (rfc p)); f m (dlci p).

Definition set_disc_initiator (i : nat) : M unit :=
  m ← port_mcb i; upd_mcb m (fun mcb => mcb <| is_disc_initiator := true |>).

Section port_fsm.
Context `{Env, SM}.

Definition access_request (i : nat) (is_originator : bool) : M unit :=
  p ← get_port i;
  m ← deref (p_mcb (rfc p));
  mcb ← get_mcb m;
  emit (btm_sec_mx_access_request (mcb_bd_addr mcb) is_originator (sec_mask p) i).

Definition abort_access (i : nat) : M unit :=
  m ← port_mcb i; mcb ← get_mcb m; emit (btm_sec_abort_access_req (mcb_bd_addr mcb)).

(** The snoop logger's view of a port that was opened. *)
Definition log_port_open (i : nat) : M unit :=
  p ← get_port i;
  when (existsb (Z.eqb (uuid p)) uuid_logging_acceptlist)
    (m ← deref (p_mcb (rfc p));
     mcb ← get_mcb m;
     h ← history;
     match env_find_ccb h (mcb_lcid mcb) with
     | Some acl => emit (AcceptlistRfcommDlci acl (mcb_lcid mcb) (dlci p))
     | None => mret ()
     end);;
  match p_mcb (rfc p) with
  | Some m =>
      mcb ← get_mcb m;
      h ← history;
      match env_find_ccb h (mcb_lcid mcb) with
      | Some acl =>
          emit (SetRfcommPortOpen acl (mcb_lcid mcb) (dlci p) (uuid p)
                  (flow mcb =? PORT_FC_CREDIT))
      | None => mret ()
      end
  | None => mret ()
  end.

(** [PORT_DlcEstablishCnf] with the peer's L2CAP MTU. *)
Definition establish_cnf (i : nat) (result : Z) : M unit :=
  with_mcb_dlci i (fun m d =>
    mcb ← get_mcb m; PORT_DlcEstablishCnf m d (peer_l2cap_mtu mcb) result).

Definition rfc_port_sm_state_closed (i : nat) (event : tRFC_PORT_EVENT) : M unit :=
  match event with
  | RFC_PORT_EVENT_OPEN =>
      set_port_rfc_state i RFC_STATE_ORIG_WAIT_SEC_CHECK;;
      access_request i true
  | RFC_PORT_EVENT_SABME =>
      m ← port_mcb i;
      rfc_timer_stop m;;
      set_port_rfc_state i RFC_STATE_TERM_WAIT_SEC_CHECK;;
      access_request i false
  | RFC_PORT_EVENT_DM => rfc_port_closed i
  | RFC_PORT_EVENT_UIH | RFC_PORT_EVENT_DISC =>
      with_mcb_dlci i (fun m d => rfc_send_dm m d false)
  | RFC_PORT_EVENT_TIMEOUT => p ← get_port i; PORT_TimeOutCloseMux (p_mcb (rfc p))
  | _ => mret ()
  end.

(** Starting to disconnect a DLC. *)
Definition send_port_disc (i : nat) : M unit :=
  rfc_port_timer_start i RFC_DISC_TIMEOUT;;
  with_mcb_dlci i rfc_send_disc;;
  upd_rfc i (fun r => r <| expected_rsp := 0 |>);;
  set_port_rfc_state i RFC_STATE_DISC_WAIT_UA.

Definition rfc_port_sm_sabme_wait_ua (i : nat) (event : tRFC_PORT_EVENT) : M unit :=
  match event with
  | RFC_PORT_EVENT_CLOSE => send_port_disc i
  | RFC_PORT_EVENT_CLEAR => rfc_port_closed i
  | RFC_PORT_EVENT_UA =>
      rfc_port_timer_stop i;;
      set_port_rfc_state i RFC_STATE_OPENED;;
      log_port_open i;;
      establish_cnf i RFCOMM_SUCCESS
  | RFC_PORT_EVENT_DM =>
      set_disc_initiator i;;
      establish_cnf i RFCOMM_ERROR;;
      rfc_port_closed i
  | RFC_PORT_EVENT_DISC =>
      with_mcb_dlci i rfc_send_ua;;
      establish_cnf i RFCOMM_ERROR;;
      rfc_port_closed i
  | RFC_PORT_EVENT_SABME => with_mcb_dlci i rfc_send_ua
  | RFC_PORT_EVENT_TIMEOUT =>
      set_port_rfc_state i RFC_STATE_CLOSED;;
      establish_cnf i RFCOMM_ERROR
  | _ => mret ()
  end.

Definition rfc_port_sm_term_wait_sec_check (i : nat) (event : tRFC_PORT_EVENT) (d : port_data)
    : M unit :=
  match event with
  | RFC_PORT_EVENT_SEC_COMPLETE =>
      status ← pd_status d;
      if negb (status =? BTM_SUCCESS) then
        p ← get_port i;
        match p_mcb (rfc p) with
        | Some m =>
            rfc_send_dm m (dlci p) true;;
            upd_mcb m (fun mcb => mcb <| is_disc_initiator := true |>);;
            port_rfc_closed i PORT_SEC_FAILED
        | None => mret ()
        end
      else
        with_mcb_dlci i (fun m d =>
          mcb ← get_mcb m; PORT_DlcEstablishInd m d (peer_l2cap_mtu mcb))
  | RFC_PORT_EVENT_CLEAR =>
      abort_access i;;
      rfc_port_closed i
  | RFC_PORT_EVENT_DISC =>
      abort_access i;;
      set_port_rfc_state i RFC_STATE_CLOSED;;
      with_mcb_dlci i rfc_send_ua;;
      with_mcb_dlci i PORT_DlcReleaseInd
  | RFC_PORT_EVENT_ESTABLISH_RSP =>
      r ← pd_low_octet d;
      if negb (r =? RFCOMM_SUCCESS) then
        p ← get_port i;
        match p_mcb (rfc p) with
        | Some m => rfc_send_dm m (dlci p) true
        | None => mret ()
        end
      else
        with_mcb_dlci i rfc_send_ua;;
        set_port_rfc_state i RFC_STATE_OPENED;;
        log_port_open i
  | _ => mret ()
  end.

Definition rfc_port_sm_orig_wait_sec_check (i : nat) (event : tRFC_PORT_EVENT) (d : port_data)
    : M unit :=
  match event with
  | RFC_PORT_EVENT_SEC_COMPLETE =>
      status ← pd_status d;
      if negb (status =? BTM_SUCCESS) then
        set_disc_initiator i;;
        with_mcb_dlci i (fun m d => PORT_DlcEstablishCnf m d 0 RFCOMM_SECURITY_ERR);;
        rfc_port_closed i
      else
        with_mcb_dlci i rfc_send_sabme;;
        rfc_port_timer_start i RFC_PORT_T1_TIMEOUT;;
        set_port_rfc_state i RFC_STATE_SABME_WAIT_UA
  | RFC_PORT_EVENT_CLOSE =>
      abort_access i;;
      rfc_port_closed i
  | _ => mret ()
  end.

(** Credits ride on a data frame in the [layer_specific] member of its header. *)
Definition attach_credits (i : nat) (b : BT_HDR) : M BT_HDR :=
  p ← get_port i;
  m ← deref (p_mcb (rfc p));
  mcb ← get_mcb m;
  if (flow mcb =? PORT_FC_CREDIT) && (hdr_len b <? peer_mtu p) && negb (user_fc (rx p))
     && (credit_rx p <? credit_rx_max p) then
    upd_port i (fun p => p <| credit_rx := credit_rx_max p |>);;
    mret (b <| hdr_layer_specific := u8 (credit_rx_max p - credit_rx p) |>)
  else mret (b <| hdr_layer_specific := 0 |>).

Definition rfc_port_uplink_data (i : nat) (b : BT_HDR) : M unit :=
  p ← get_port i; PORT_DataInd (p_mcb (rfc p)) (dlci p) b.

Definition rfc_port_sm_opened (i : nat) (event : tRFC_PORT_EVENT) (d : port_data) : M unit :=
  match event with
  | RFC_PORT_EVENT_CLOSE => send_port_disc i
  | RFC_PORT_EVENT_CLEAR => rfc_port_closed i
  | RFC_PORT_EVENT_DATA =>
      b ← pd_buf d;
      b ← attach_credits i b;
      with_mcb_dlci i (fun m d => rfc_send_buf_uih m d b);;
      rfc_dec_credit i
  | RFC_PORT_EVENT_SABME => with_mcb_dlci i rfc_send_ua
  | RFC_PORT_EVENT_DM =>
      with_mcb_dlci i PORT_DlcReleaseInd;;
      rfc_port_closed i
  | RFC_PORT_EVENT_DISC =>
      set_port_rfc_state i RFC_STATE_CLOSED;;
      with_mcb_dlci i rfc_send_ua;;
      p ← get_port i;
      if 0 <? queue_length (queue (rx p)) then rfc_port_timer_start i RFC_DISC_TIMEOUT
      else with_mcb_dlci i PORT_DlcReleaseInd
  | RFC_PORT_EVENT_UIH => b ← pd_buf d; rfc_port_uplink_data i b
  | RFC_PORT_EVENT_TIMEOUT => p ← get_port i; PORT_TimeOutCloseMux (p_mcb (rfc p))
  | _ => mret ()
  end.

Definition rfc_port_sm_disc_wait_ua (i : nat) (event : tRFC_PORT_EVENT) : M unit :=
  match event with
  | RFC_PORT_EVENT_CLEAR => rfc_port_closed i
  | RFC_PORT_EVENT_UA | RFC_PORT_EVENT_DM =>
      when (eqb event RFC_PORT_EVENT_UA) (set_disc_initiator i);;
      when env_always_disc_initiator (set_disc_initiator i);;
      rfc_port_closed i
  | RFC_PORT_EVENT_SABME | RFC_PORT_EVENT_DISC =>
      with_mcb_dlci i (fun m d => rfc_send_dm m d true)
  | RFC_PORT_EVENT_UIH => with_mcb_dlci i (fun m d => rfc_send_dm m d false)
  | RFC_PORT_EVENT_TIMEOUT => rfc_port_closed i
  | _ => mret ()
  end.

Definition rfc_port_sm_execute (p_port : option nat) (event : tRFC_PORT_EVENT) (d : port_data)
    : M unit :=
  i ← of_option AssertFailed p_port;
  p ← get_port i;
  match rfc_state (rfc p) with
  | RFC_STATE_CLOSED => rfc_port_sm_state_closed i event
  | RFC_STATE_SABME_WAIT_UA => rfc_port_sm_sabme_wait_ua i event
  | RFC_STATE_ORIG_WAIT_SEC_CHECK => rfc_port_sm_orig_wait_sec_check i event d
  | RFC_STATE_TERM_WAIT_SEC_CHECK => rfc_port_sm_term_wait_sec_check i event d
  | RFC_STATE_OPENED => rfc_port_sm_opened i event d
  | RFC_STATE_DISC_WAIT_UA => rfc_port_sm_disc_wait_ua i event
  end.

(** ** Multiplexer messages

    [p_frame] is [&rfc_cb.rfc.rx_frame] at every call. *)
Definition rfc_set_port_settings (s : PortSettings) (u : mx_rpn) : PortSettings :=
  let on bit := nz (Z.land (rpn_param_mask u) bit) in
  let fc_bits := Z.lor (Z.lor (Z.lor (Z.lor (Z.lor RFCOMM_RPN_PM_XONXOFF_ON_INPUT
                   RFCOMM_RPN_PM_XONXOFF_ON_OUTPUT) RFCOMM_RPN_PM_RTR_ON_INPUT)
                   RFCOMM_RPN_PM_RTR_ON_OUTPUT) RFCOMM_RPN_PM_RTC_ON_INPUT)
                   RFCOMM_RPN_PM_RTC_ON_OUTPUT in
  mkPortSettings
    (if on RFCOMM_RPN_PM_BIT_RATE then rpn_baud_rate u else baud_rate s)
    (if on RFCOMM_RPN_PM_DATA_BITS then rpn_byte_size u else byte_size s)
    (if on RFCOMM_RPN_PM_STOP_BITS then rpn_stop_bits u else stop_bits s)
    (if on RFCOMM_RPN_PM_PARITY then rpn_parity u else parity s)
    (if on RFCOMM_RPN_PM_PARITY_TYPE then rpn_parity_type u else parity_type s)
    (if on fc_bits then rpn_fc_type u else fc_type s)
    (rx_char1 s)
    (if on RFCOMM_RPN_PM_XON_CHAR then rpn_xon_char u else xon_char s)
    (if on RFCOMM_RPN_PM_XOFF_CHAR then rpn_xoff_char u else xoff_char s).

Definition rfc_process_pn (m : nat) (is_command : bool) : M unit :=
  fr ← gets rx_frame;
  let d := f_dlci fr in
  let pn := u_pn fr in
  if is_command then
    mcb ← get_mcb m;
    if negb (eqb (mcb_state mcb) RFC_MX_STATE_DISC_WAIT_UA) then
      PORT_ParNegInd m d (pn_mtu pn) (pn_conv_layer pn) (pn_k pn)
    else rfc_send_dm m d false
  else
  p_port ← port_find_mcb_dlci_port (Some m) d;
  match p_port with
  | None => mret ()
  | Some i =>
      p ← get_port i;
      if negb (has_event (expected_rsp (rfc p)) RFC_RSP_PN) then mret () else
      upd_rfc i (fun r => r <| expected_rsp ::= fun e => Z.ldiff e RFC_RSP_PN |>);;
      rfc_port_timer_stop i;;
      PORT_ParNegCnf m d (pn_mtu pn) (pn_conv_layer pn) (pn_k pn)
  end.

(** Flow-control settings of RPN. *)
Abbreviation FC_RTR := (Z.lor RFCOMM_FC_RTR_ON_INPUT RFCOMM_FC_RTR_ON_OUTPUT) (only parsing).
Abbreviation FC_RTC := (Z.lor RFCOMM_FC_RTC_ON_INPUT RFCOMM_FC_RTC_ON_OUTPUT) (only parsing).
Abbreviation PM_RTR := (Z.lor RFCOMM_RPN_PM_RTR_ON_INPUT RFCOMM_RPN_PM_RTR_ON_OUTPUT) (only parsing).
Abbreviation PM_RTC := (Z.lor RFCOMM_RPN_PM_RTC_ON_INPUT RFCOMM_RPN_PM_RTC_ON_OUTPUT) (only parsing).

(** Proposing other flow-control settings to the peer. *)
Definition propose_fc (m i : nat) (d fc mask : Z) : M unit :=
  upd_port i (fun p => p <| peer_port_settings ::= fun s => s <| fc_type := fc |> |>);;
  upd_rfc i (fun r => r <| expected_rsp ::= Z.lor RFC_RSP_RPN |>);;
  p ← get_port i;
  rfc_send_rpn m d true (Some (peer_port_settings p)) mask;;
  rfc_port_timer_start i RFC_T2_TIMEOUT.

(** The end of [rfc_process_rpn]: have all suggested parameters been accepted? *)
Definition check_rpn_accepted (m i : nat) (d : Z) : M unit :=
  fr ← gets rx_frame;
  p ← get_port i;
  let mask := rpn_param_mask (u_rpn fr) in
  if (Z.land mask PM_RTR =? PM_RTR) || (Z.land mask PM_RTC =? PM_RTC) then
    PORT_PortNegCnf m (dlci p) RFCOMM_SUCCESS
  else if fc_type (peer_port_settings p) =? FC_RTR then propose_fc m i d FC_RTC PM_RTC
  else if fc_type (peer_port_settings p) =? FC_RTC then
    upd_port i (fun p => p <| peer_port_settings ::= fun s => s <| fc_type := RFCOMM_FC_OFF |> |>);;
    PORT_PortNegCnf m (dlci p) RFCOMM_SUCCESS
  else mret ().

Definition rfc_process_rpn (m : nat) (is_command is_request : bool) : M unit :=
  fr ← gets rx_frame;
  let d := f_dlci fr in
  let u := u_rpn fr in
  p_port ← port_find_mcb_dlci_port (Some m) d;
  match p_port with
  | None =>
      when is_command
        (PORT_PortNegInd m d (rfc_set_port_settings zero_settings u) (rpn_param_mask u))
  | Some i =>
      p ← get_port i;
      if is_command && is_request then
        rfc_send_rpn m d false (Some (peer_port_settings p)) 0
      else
      let port_settings := rfc_set_port_settings (peer_port_settings p) u in
      if is_command then PORT_PortNegInd m d port_settings (rpn_param_mask u)
      else if negb (has_event (expected_rsp (rfc p)) (Z.lor RFC_RSP_RPN RFC_RSP_RPN_REPLY)) then
        mret ()
      else
      rfc_port_timer_stop i;;
      if has_event (expected_rsp (rfc p)) RFC_RSP_RPN_REPLY then
        upd_rfc i (fun r => r <| expected_rsp ::= fun e => Z.ldiff e RFC_RSP_RPN_REPLY |>);;
        upd_port i (fun p => p <| peer_port_settings := port_settings |>);;
        if (fc_type port_settings =? FC_RTR) || (fc_type port_settings =? FC_RTC) then
          set_rx_frame (fun f => f <| u_rpn ::= fun u =>
                          u <| rpn_param_mask := RFCOMM_RPN_PM_MASK |> |>);;
          check_rpn_accepted m i d
        else propose_fc m i d FC_RTR PM_RTR
      else
        upd_rfc i (fun r => r <| expected_rsp ::= fun e => Z.ldiff e RFC_RSP_RPN |>);;
        check_rpn_accepted m i d
  end.

(** The parameters of a received MSC. *)
Definition msc_pars (msc : mx_msc) : tPORT_CTRL :=
  let on bit e := if nz (Z.land (msc_signals msc) bit) then e else 0 in
  mkPORT_CTRL
    (Z.lor (Z.lor (Z.lor (on RFCOMM_MSC_RTC MODEM_SIGNAL_DTRDSR)
                         (on RFCOMM_MSC_RTR MODEM_SIGNAL_RTSCTS))
                  (on RFCOMM_MSC_IC MODEM_SIGNAL_RI))
           (on RFCOMM_MSC_DV MODEM_SIGNAL_DCD))
    (if nz (msc_break_present msc) then msc_break_duration msc else 0)
    0
    RFCOMM_CTRL_BREAK_IN_SEQ
    (Z.land (msc_signals msc) RFCOMM_MSC_FC =? RFCOMM_MSC_FC).

Definition rfc_process_msc (m : nat) (is_command : bool) : M unit :=
  fr ← gets rx_frame;
  let d := f_dlci fr in
  let pars := msc_pars (u_msc fr) in
  p_port ← port_find_mcb_dlci_port (Some m) d;
  match p_port with
  | None => mret ()
  | Some i =>
      if is_command then
        rfc_send_msc m d false pars;;
        p ← get_port i;
        m' ← deref (p_mcb (rfc p));
        mcb ← get_mcb m';
        when (negb (flow mcb =? PORT_FC_CREDIT))
          (upd_port i (fun p => p <| peer_ctrl ::= fun c => c <| ctrl_fc := ctrl_fc pars |> |>);;
           when (negb (eqb (ctrl_fc pars) (peer_fc (tx p))))
             (PORT_FlowInd m d (negb (ctrl_fc pars))));;
        PORT_ControlInd m d pars
      else
      p ← get_port i;
      if negb (has_event (expected_rsp (rfc p)) RFC_RSP_MSC) then mret () else
      upd_rfc i (fun r => r <| expected_rsp ::= fun e => Z.ldiff e RFC_RSP_MSC |>);;
      rfc_port_timer_stop i;;
      PORT_ControlCnf (p_mcb (rfc p)) (dlci p)
  end.

Definition rfc_process_rls (m : nat) (is_command : bool) : M unit :=
  fr ← gets rx_frame;
  let d := f_dlci fr in
  if is_command then
    PORT_LineStatusInd m d (u_rls_line_status fr);;
    rfc_send_rls m d false (u_rls_line_status fr)
  else
  p_port ← port_find_mcb_dlci_port (Some m) d;
  match p_port with
  | None => mret ()
  | Some i =>
      p ← get_port i;
      when (has_event (expected_rsp (rfc p)) RFC_RSP_RLS)
        (upd_rfc i (fun r => r <| expected_rsp ::= fun e => Z.ldiff e RFC_RSP_RLS |>);;
         rfc_port_timer_stop i)
  end.

Definition rfc_process_nsc : M unit := mret ().

(** The response to a TEST command is dropped. *)
Definition rfc_process_test_rsp (p_buf : BT_HDR) : M unit := mret ().

Definition set_peer_rx_disabled (b : bool) : M unit :=
  modify_cb (fun c => c <| peer_rx_disabled := b |>).

Definition rfc_process_fcon (m : nat) (is_command : bool) : M unit :=
  when is_command
    (set_peer_rx_disabled false;;
     rfc_send_fcon m false;;
     mcb ← get_mcb m;
     when (negb (l2cap_congested mcb)) (PORT_FlowInd m 0 true)).

Definition rfc_process_fcoff (m : nat) (is_command : bool) : M unit :=
  when is_command
    (set_peer_rx_disabled true;;
     mcb ← get_mcb m;
     when (negb (l2cap_congested mcb)) (PORT_FlowInd m 0 false);;
     rfc_send_fcoff m false).

Definition rfc_process_l2cap_congestion (m : nat) (is_congested : bool) : M unit :=
  upd_mcb m (fun mcb => mcb <| l2cap_congested := is_congested |>);;
  when (negb is_congested) (rfc_check_send_cmd m None);;
  dis ← gets peer_rx_disabled;
  when (negb dis) (PORT_FlowInd m 0 (negb is_congested)).
End port_fsm.
