(* ===== verification/RfcApi.v ===== *)
(** * The application interface ([port_api.cc])

    The functions an application calls with a port handle.  An [int] result with
    OUT parameters is a pair of the code and their values; log output and
    [BTM_LogHistory] are not modelled. *)
From S2P Require Import Prelude RfcDefs RfcMonad RfcFrames RfcUtils RfcPort.

(** ** Handles *)
Definition get_port_from_handle (h : Z) : option nat :=
  if (h =? 0) || (MAX_RFC_PORTS <? h) then None else Some (port_index h).

(** [!p_port->in_use || (p_port->state == PORT_CONNECTION_STATE_CLOSED)], negated. *)
Definition is_open (p : tPORT) : bool :=
  in_use p && negb (eqb (port_state p) PORT_CONNECTION_STATE_CLOSED).

(** The preamble of most functions: [PORT_BAD_HANDLE] for a handle out of range. *)
Definition with_port {A} (h : Z) (bad : A) (k : nat → tPORT → M A) : M A :=
  match get_port_from_handle h with
  | None => mret bad
  | Some i => p ← get_port i; k i p
  end.

(** The same with [PORT_NOT_OPENED] for a port that is not open. *)
Definition with_open_port {A} (h : Z) (bad not_opened : A) (k : nat → tPORT → M A) : M A :=
  with_port h bad (fun i p => if is_open p then k i p else mret not_opened).

(** The length of the payload a data buffer has room for. *)
Definition data_buf_len : Z :=
  RFCOMM_DATA_BUF_SIZE - (BT_HDR_SIZE + L2CAP_MIN_OFFSET + RFCOMM_DATA_OVERHEAD).

(** The last buffer of a queue that may be null. *)
Definition peek_last (q : option (list BT_HDR)) : option BT_HDR :=
  match q with Some l => last l | None => None end.

(** Writing through the pointer [peek_last] returned. *)
Definition set_last (b : BT_HDR) (q : option (list BT_HDR)) : option (list BT_HDR) :=
  (fun l => <[(length l - 1)%nat := b]> l) <$> q.

Section api.
Context `{Env, SM}.

(** ** Opening *)
Definition default_signals (uuid : Z) : Z :=
  if uuid =? UUID_PROTOCOL_OBEX then PORT_OBEX_DEFAULT_SIGNAL_STATE
  else if uuid =? UUID_SERVCLASS_SERIAL_PORT then PORT_SPP_DEFAULT_SIGNAL_STATE
  else if uuid =? UUID_SERVCLASS_LAN_ACCESS_USING_PPP then PORT_PPP_DEFAULT_SIGNAL_STATE
  else if (uuid =? UUID_SERVCLASS_DIALUP_NETWORKING) || (uuid =? UUID_SERVCLASS_FAX)
  then PORT_DUN_DEFAULT_SIGNAL_STATE
  else Z.lor (Z.lor PORT_DTRDSR_ON PORT_CTSRTS_ON) PORT_DCD_ON.

(** The block of a port that was just allocated, filled in. *)
Definition setup_port (uuid0 scn0 : Z) (server : bool) (mtu0 : Z) (bd_addr : RawAddress)
    (mgmt : callback) (sec : Z) (p : tPORT) : tPORT :=
  let rfcomm_mtu := L2CAP_MTU_SIZE - RFCOMM_DATA_OVERHEAD in
  let m := if nz mtu0 then (if mtu0 <? rfcomm_mtu then mtu0 else rfcomm_mtu) else rfcomm_mtu in
  let p := p <| sec_mask := sec |> <| default_signal_state := default_signals uuid0 |>
             <| port_state := PORT_CONNECTION_STATE_OPENING |> <| uuid := uuid0 |>
             <| is_server := server |> <| scn := scn0 |> <| ev_mask := 0 |> <| mtu := m |> in
  let p := if server then p <| keep_port_handle := true |> <| keep_mtu := m |> else p in
  p <| local_ctrl ::= fun c => c <| modem_signal := default_signals uuid0 |>
                                 <| ctrl_fc := false |> |>
    <| p_mgmt_callback := mgmt |> <| port_bd_addr := bd_addr |>.

(** The result code and [*p_handle]. *)
Definition RFCOMM_CreateConnectionWithSecurity (uuid0 scn0 : Z) (server : bool) (mtu0 : Z)
    (bd_addr : RawAddress) (mgmt : callback) (sec : Z) : M (Z * Z) :=
  if (scn0 =? 0) || (RFCOMM_MAX_SCN <? scn0) then mret (PORT_INVALID_SCN, 0) else
  pm ← port_find_mcb bd_addr;
  odd ← match pm with
        | Some m => mcb ← get_mcb m; mret (negb (is_initiator mcb) && negb server)
        | None => mret false
        end;
  let d := u8 (Z.shiftl scn0 1 + b2z odd) in
  same ← (if server then mret None else port_find_port d bd_addr);
  already ← match same with
            | Some i => p ← get_port i;
                        mret (if is_server p then None else Some (handle p))
            | None => mret None
            end;
  match already with
  | Some h => mret (PORT_ALREADY_OPENED, h)
  | None =>
      p_port ← port_allocate_port d bd_addr;
      match p_port with
      | None => mret (PORT_NO_RESOURCES, 0)
      | Some i =>
          upd_port i (setup_port uuid0 scn0 server mtu0 bd_addr mgmt sec);;
          p ← get_port i;
          if server then mret (PORT_SUCCESS, handle p)
          else rc ← port_open_continue i; mret (rc, handle p)
      end
  end.

Definition RFCOMM_ControlReqFromBTSOCK (d : Z) (bd_addr : RawAddress) (pars : tPORT_CTRL) : M Z :=
  pm ← port_find_mcb bd_addr;
  match pm with
  | None => mret PORT_BAD_BD_ADDR
  | Some m =>
      p_port ← port_find_mcb_dlci_port (Some m) d;
      match p_port with
      | None => mret PORT_NOT_OPENED
      | Some i =>
          upd_port i (fun p => p <| local_ctrl := pars |>);;
          RFCOMM_ControlReq (Some m) d pars;;
          mret PORT_SUCCESS
      end
  end.

(** ** Closing *)
Definition RFCOMM_RemoveConnection (h : Z) : M Z :=
  with_port h PORT_BAD_HANDLE (fun i p =>
    when (is_open p)
      (upd_port i (fun p => p <| port_state := PORT_CONNECTION_STATE_CLOSING |>);;
       port_start_close i);;
    mret PORT_SUCCESS).

Definition RFCOMM_RemoveServer (h : Z) : M Z :=
  with_port h PORT_BAD_HANDLE (fun i p =>
    upd_port i (fun p => p <| p_mgmt_callback := None |>);;
    when (is_open p)
      (upd_port i (fun p => p <| keep_port_handle := false |>
                              <| port_state := PORT_CONNECTION_STATE_CLOSING |>);;
       port_start_close i);;
    mret PORT_SUCCESS).

(** ** Settings and status *)
Definition PORT_SetEventMaskAndCallback (h mask : Z) (f : callback) : M Z :=
  with_open_port h PORT_BAD_HANDLE PORT_NOT_OPENED (fun i _ =>
    upd_port i (fun p => p <| ev_mask := mask |> <| p_callback := f |>);;
    mret PORT_SUCCESS).

Definition PORT_ClearKeepHandleFlag (h : Z) : M Z :=
  with_port h PORT_BAD_HANDLE (fun i _ =>
    upd_port i (fun p => p <| keep_port_handle := false |>);;
    mret PORT_SUCCESS).

Definition PORT_SetDataCOCallback (h : Z) (f : callback) : M Z :=
  with_open_port h PORT_BAD_HANDLE PORT_NOT_OPENED (fun i _ =>
    upd_port i (fun p => p <| p_data_co_callback := f |>);;
    mret PORT_SUCCESS).

(** On success the peer's address and the LCID. *)
Definition PORT_CheckConnection (h : Z) : M (Z * option (RawAddress * Z)) :=
  with_open_port h (PORT_BAD_HANDLE, None) (PORT_NOT_OPENED, None) (fun _ p =>
    match p_mcb (rfc p) with
    | Some m =>
        mcb ← get_mcb m;
        mret (if peer_ready mcb && eqb (rfc_state (rfc p)) RFC_STATE_OPENED
              then (PORT_SUCCESS, Some (mcb_bd_addr mcb, mcb_lcid mcb))
              else (PORT_LINE_ERR, None))
    | None => mret (PORT_LINE_ERR, None)
    end).

(** The states compare by their numbers. *)
Definition mx_opening (s : tRFC_MX_STATE) : bool :=
  match s with
  | RFC_MX_STATE_WAIT_CONN_CNF | RFC_MX_STATE_CONFIGURE | RFC_MX_STATE_SABME_WAIT_UA
  | RFC_MX_STATE_WAIT_SABME => true
  | _ => false
  end.

Definition below_opened (s : tRFC_PORT_STATE) : bool :=
  match s with RFC_STATE_OPENED | RFC_STATE_DISC_WAIT_UA => false | _ => true end.

Definition get_port_from_mcb (c : tRFC_CB) (m : nat) : option tPORT :=
  List.find (fun p => mcb_eqb (p_mcb (rfc p)) (Some m)) (ports c).

(** A multiplexer on its way up, or up without an established port. *)
Definition mcb_is_opening (c : tRFC_CB) (m : nat) (mcb : tRFC_MCB) : bool :=
  mx_opening (mcb_state mcb) ||
  (eqb (mcb_state mcb) RFC_MX_STATE_CONNECTED &&
   match get_port_from_mcb c m with
   | None => true
   | Some p => below_opened (rfc_state (rfc p))
   end).

(** [*bd_addr] when the result is true. *)
Definition PORT_IsOpening : M (option RawAddress) :=
  gets (fun c => snd <$> List.find (fun e => fst e)
    (imap (fun m mcb => (mcb_is_opening c m mcb, mcb_bd_addr mcb)) (rfc_mcb c))).

Definition PORT_IsCollisionDetected (bd_addr : RawAddress) : M bool :=
  gets (fun c => existsb id (imap (fun m mcb =>
    ((mcb_bd_addr mcb =? kEmpty) || (mcb_bd_addr mcb =? bd_addr)) && is_initiator mcb
    && mcb_is_opening c m mcb) (rfc_mcb c))).

Definition PORT_SetSettings (h : Z) (s : PortSettings) : M Z :=
  with_open_port h PORT_BAD_HANDLE PORT_NOT_OPENED (fun i p =>
    if nz (line_status p) then mret PORT_LINE_ERR else
    upd_port i (fun p => p <| user_port_settings := s |>);;
    when (negb (baud_rate (user_port_settings p) =? baud_rate s)) (port_start_par_neg i);;
    mret PORT_SUCCESS).

Definition PORT_GetSettings (h : Z) : M (Z * option PortSettings) :=
  with_open_port h (PORT_BAD_HANDLE, None) (PORT_NOT_OPENED, None) (fun _ p =>
    mret (if nz (line_status p) then (PORT_LINE_ERR, None)
          else (PORT_SUCCESS, Some (user_port_settings p)))).

Definition PORT_GetSecurityMask (h : Z) : M (Z * option Z) :=
  with_port h (PORT_BAD_HANDLE, None) (fun _ p => mret (PORT_SUCCESS, Some (sec_mask p))).

(** ** Flow control *)
Definition PORT_FlowControl_MaxCredit (h : Z) (enable : bool) : M Z :=
  with_open_port h PORT_BAD_HANDLE PORT_NOT_OPENED (fun i p =>
    match p_mcb (rfc p) with
    | None => mret PORT_NOT_OPENED
    | Some m =>
        upd_port i (fun p => p <| rx ::= fun d => d <| user_fc := negb enable |> |>);;
        mcb ← get_mcb m;
        (if flow mcb =? PORT_FC_CREDIT then
           when enable (port_flow_control_peer i true (credit_rx p))
         else
           let fc := negb enable || peer_fc (rx p) in
           upd_port i (fun p => p <| local_ctrl ::= fun c => c <| ctrl_fc := fc |> |>);;
           when (negb (eqb fc (ctrl_fc (local_ctrl p)))) (port_start_control i));;
        p ← get_port i;
        when (enable && nz (queue_size (rx p)))
          (let events := Z.lor PORT_EV_RXCHAR
                           (if rx_flag_ev_pending p then PORT_EV_RXFLAG else 0) in
           upd_port i (fun p => p <| rx_flag_ev_pending := false |>);;
           let events := Z.land events (ev_mask p) in
           when (nz events) (call_port_callback p events));;
        mret PORT_SUCCESS
    end).

(** ** Reading *)

(** The [while (max_len)] loop: what was read and the buffers it took. *)
Fixpoint read_loop (fuel : nat) (i : nat) (max_len : Z) (got : list Z) (count : Z)
    : M (list Z * Z) :=
  match fuel with
  | O => fail OutOfFuel
  | S fuel =>
      if max_len =? 0 then mret (got, count) else
      p ← get_port i;
      match queue (rx p) with
      | None | Some [] => mret (got, count)
      | Some (b :: q) =>
          if max_len <? hdr_len b then
            bytes ← buf_slice b (hdr_offset b) max_len;
            let b' := b <| hdr_offset ::= fun o => u16 (o + max_len) |>
                        <| hdr_len ::= fun n => n - max_len |> in
            upd_port i (fun p => p <| rx ::= fun d =>
              d <| queue := Some (b' :: q) |> <| queue_size ::= fun n => u32 (n - max_len) |> |>);;
            mret (got ++ bytes, count)
          else
            bytes ← buf_slice b (hdr_offset b) (hdr_len b);
            upd_port i (fun p => p <| rx ::= fun d =>
              d <| queue := Some q |> <| queue_size ::= fun n => u32 (n - hdr_len b) |> |>);;
            read_loop fuel i (max_len - hdr_len b) (got ++ bytes) (u16 (count + 1))
      end
  end.

Definition PORT_ReadData (h max_len : Z) : M (Z * list Z) :=
  with_open_port h (PORT_BAD_HANDLE, []) (PORT_NOT_OPENED, []) (fun i p =>
    if nz (line_status p) then mret (PORT_LINE_ERR, []) else
    if queue_length (queue (rx p)) =? 0 then mret (PORT_SUCCESS, []) else
    '(got, count) ← read_loop (S (Z.to_nat (queue_length (queue (rx p))))) i max_len [] 0;
    port_flow_control_peer i true count;;
    mret (PORT_SUCCESS, got)).

(** ** Writing *)
Definition ctrl_exchanged (p : tPORT) : bool :=
  let bits := Z.lor PORT_CTRL_REQ_SENT PORT_CTRL_IND_RECEIVED in
  Z.land (port_ctrl p) bits =? bits.

Definition port_write (i : nat) (b : BT_HDR) : M Z :=
  p ← get_port i;
  if is_server p && negb (eqb (rfc_state (rfc p)) RFC_STATE_OPENED) then mret PORT_CLOSED else
  ready ← match p_mcb (rfc p) with
          | Some m => mcb ← get_mcb m; mret (peer_ready mcb)
          | None => mret false
          end;
  if peer_fc (tx p) || negb ready || negb (eqb (rfc_state (rfc p)) RFC_STATE_OPENED)
     || negb (ctrl_exchanged p) then
    if (PORT_TX_CRITICAL_WM <? queue_size (tx p))
       || (PORT_TX_BUF_CRITICAL_WM <? queue_length (queue (tx p))) then
      when (has_event (ev_mask p) PORT_EV_ERR) (call_port_callback p PORT_EV_ERR);;
      mret PORT_TX_FULL
    else
      q ← of_option AssertFailed (queue (tx p));
      upd_port i (fun p => p <| tx ::= fun d =>
        d <| queue := Some (q ++ [b]) |> <| queue_size ::= fun n => u32 (n + hdr_len b) |> |>);;
      mret PORT_CMD_PENDING
  else
    RFCOMM_DataReq (p_mcb (rfc p)) (dlci p) b;;
    mret PORT_SUCCESS.

(** A buffer for [len] octets of data, before they are copied in. *)
Definition new_data_buf (h len : Z) : M BT_HDR :=
  b ← osi_malloc RFCOMM_DATA_BUF_SIZE;
  mret (b <| hdr_offset := L2CAP_MIN_OFFSET + RFCOMM_MIN_OFFSET |>
          <| hdr_layer_specific := h |> <| hdr_len := len |>).

Definition tx_queue_high (p : tPORT) : bool :=
  (PORT_TX_HIGH_WM <? queue_size (tx p))
  || (PORT_TX_BUF_HIGH_WM <? queue_length (queue (tx p))).

Record write_state := mkWrite {
  w_left : Z;
  w_len : Z;
  w_rc : Z;
  w_event : Z;
}.

(** Sending one buffer and accounting for it; the result says whether the loop
    goes on. *)
Definition write_one (i : nat) (b : BT_HDR) (st : write_state) : M (write_state * bool) :=
  rc ← port_write i b;
  fc ← port_flow_control_user i;
  let event := Z.lor (Z.lor (w_event st) fc) (if rc =? PORT_SUCCESS then PORT_EV_TXCHAR else 0) in
  if negb (rc =? PORT_SUCCESS) && negb (rc =? PORT_CMD_PENDING) then
    mret (mkWrite (w_left st) (w_len st) rc event, false)
  else mret (mkWrite (w_left st - hdr_len b) (w_len st + hdr_len b) rc event, true).

(** The [while (max_len)] loop of [PORT_WriteData]. *)
Fixpoint write_loop (fuel : nat) (i : nat) (h : Z) (data : list Z) (length : Z) (st : write_state)
    : M write_state :=
  match fuel with
  | O => fail OutOfFuel
  | S fuel =>
      if w_left st =? 0 then mret st else
      p ← get_port i;
      if tx_queue_high p then mret st else
      let length := Z.min length (peer_mtu p) in
      let length := if w_left st <? length then w_left st else length in
      b ← new_data_buf h length;
      b ← buf_write b (hdr_offset b) (take (Z.to_nat length) data);
      '(st, go) ← write_one i b st;
      if go : bool then write_loop fuel i h (drop (Z.to_nat length) data) length st else mret st
  end.

(** The events at the end of the two write functions. *)
Definition write_done (i : nat) (st : write_state) : M Z :=
  let event := if (w_left st =? 0) && negb (w_rc st =? PORT_CMD_PENDING)
                  && negb (w_rc st =? PORT_TX_QUEUE_DISABLED)
               then Z.lor (w_event st) PORT_EV_TXEMPTY else w_event st in
  p ← get_port i;
  let event := Z.land event (ev_mask p) in
  when (nz event) (call_port_callback p event);;
  mret (w_len st).

(** Data that fits behind the last buffer of the queue. *)
Definition fits_last (p : tPORT) (n : Z) : option BT_HDR :=
  match peek_last (queue (tx p)) with
  | Some b => if (hdr_len b + n <=? peer_mtu p) && (hdr_len b + n <=? data_buf_len)
              then Some b else None
  | None => None
  end.

Definition append_last (i : nat) (b : BT_HDR) (bytes : list Z) : M unit :=
  b ← buf_write b (hdr_offset b + hdr_len b) bytes;
  let n := Z.of_nat (length bytes) in
  upd_port i (fun p => p <| tx ::= fun d =>
    d <| queue ::= set_last (b <| hdr_len ::= fun l => u16 (l + n) |>) |>
      <| queue_size ::= fun s => u32 (s + n) |> |>).

(** [data] is what [p_data] points to, [max_len] octets long. *)
Definition PORT_WriteData (h : Z) (data : list Z) : M (Z * Z) :=
  let max_len := Z.of_nat (length data) in
  with_open_port h (PORT_BAD_HANDLE, 0) (PORT_NOT_OPENED, 0) (fun i p =>
    if (max_len =? 0) || (peer_mtu p =? 0) then mret (PORT_UNKNOWN_ERROR, 0) else
    match fits_last p max_len with
    | Some b => append_last i b data;; mret (PORT_SUCCESS, max_len)
    | None =>
        st ← write_loop (S (length data)) i h data data_buf_len (mkWrite max_len 0 0 0);
        n ← write_done i st;
        mret (PORT_SUCCESS, n)
    end).

(** [n] octets from the application's callout; a null callback is called. *)
Definition co_fill (p : tPORT) (h n : Z) : M (option (list Z)) :=
  f ← deref (p_data_co_callback p);
  emit (data_co_outgoing f h n);;
  hist ← history;
  mret ((fun g => (fun k => u8 (g k)) <$> seqZ 0 n) <$> env_co_fill hist).

(** The [while (available)] loop of [PORT_WriteDataCO]; the flag is false when
    the callout fails. *)
Fixpoint write_co_loop (fuel : nat) (i : nat) (h : Z) (length : Z) (st : write_state)
    : M (write_state * bool) :=
  match fuel with
  | O => fail OutOfFuel
  | S fuel =>
      if w_left st =? 0 then mret (st, true) else
      p ← get_port i;
      if tx_queue_high p then
        _ ← port_flow_control_user i;
        mret (mkWrite (w_left st) (w_len st) (w_rc st) (Z.lor (w_event st) PORT_EV_FC), true)
      else
      let length := Z.min length (peer_mtu p) in
      let length := if w_left st <? length then w_left st else length in
      b ← new_data_buf h length;
      bytes ← co_fill p h length;
      match bytes with
      | None => mret (st, false)
      | Some bytes =>
          b ← buf_write b (hdr_offset b) bytes;
          '(st, go) ← write_one i b st;
          if go : bool then write_co_loop fuel i h length st else mret (st, true)
      end
  end.

Definition PORT_WriteDataCO (h : Z) : M (Z * Z) :=
  with_open_port h (PORT_BAD_HANDLE, 0) (PORT_NOT_OPENED, 0) (fun i p =>
    if peer_mtu p =? 0 then mret (PORT_UNKNOWN_ERROR, 0) else
    f ← deref (p_data_co_callback p);
    emit (data_co_outgoing_size f h);;
    hist ← history;
    match env_co_size hist with
    | None => mret (PORT_UNKNOWN_ERROR, 0)
    | Some available =>
        let available := Z.of_N available in
        if available =? 0 then mret (PORT_SUCCESS, 0) else
        match fits_last p available with
        | Some b =>
            bytes ← co_fill p h available;
            match bytes with
            | None => mret (PORT_UNKNOWN_ERROR, 0)
            | Some bytes => append_last i b bytes;; mret (PORT_SUCCESS, available)
            end
        | None =>
            '(st, ok) ← write_co_loop (S (Z.to_nat available)) i h data_buf_len
                          (mkWrite available 0 0 0);
            if ok : bool then n ← write_done i st; mret (PORT_SUCCESS, n)
            else mret (PORT_UNKNOWN_ERROR, w_len st)
        end
    end).

(** ** Start-up *)
Definition RFCOMM_Init : M unit :=
  modify_cb (fun _ => rfc_cb_init <| last_mux := MAX_BD_CONNECTIONS |>);;
  emit (L2CA_Register BT_PSM_RFCOMM).
End api.
