(* ===== verification/RfcSystem.v ===== *)
(** * RFCOMM as a whole ([rfc_l2cap_if.cc], [rfc_process_mx_message],
    [rfc_on_l2cap_error], the timer and security callbacks)

    What L2CAP, the timers and the security manager call.  [machines] closes the
    recursion between the two state machines: a call made from inside an event
    is made with one level of fuel less, and three levels are enough for every
    event ([RfcSafety] proves that none of them runs out). *)
From S2P Require Import Prelude RfcDefs RfcMonad RfcFrames RfcUtils RfcPort RfcMxFsm.
From S2P Require Import RfcPortFsm.

(** ** Multiplexer messages ([rfc_process_mx_message])

    The branches of the [switch] return [false] where the code breaks out of it,
    so that an unsupported or malformed command is answered with NSC. *)
Section messages.
Context `{Env, SM}.

(** The address octet of MSC, RPN and RLS messages: the DLCI is stored, the
    result says whether it is a valid one with EA and C/R set. *)
Definition parse_mx_dlci (b : BT_HDR) (p : Z) : M bool :=
  o ← buf_read b p;
  let ea := Z.land o RFCOMM_EA in
  let cr := Z.shiftr (Z.land o RFCOMM_CR_MASK) RFCOMM_SHIFT_CR in
  let d := Z.shiftr o RFCOMM_SHIFT_DLCI in
  set_rx_frame (fun f => f <| f_dlci := d |>);;
  mret (nz ea && nz cr && nz d && RFCOMM_VALID_DLCI d).

Definition mx_msg_pn (m : nat) (b : BT_HDR) (is_command : bool) (p length : Z) : M bool :=
  if negb (length =? RFCOMM_MX_PN_LEN) then mret false else
  o0 ← buf_read b p;
  o1 ← buf_read b (p + 1);
  o2 ← buf_read b (p + 2);
  o3 ← buf_read b (p + 3);
  o4 ← buf_read b (p + 4);
  o5 ← buf_read b (p + 5);
  o6 ← buf_read b (p + 6);
  o7 ← buf_read b (p + 7);
  let d := Z.land o0 RFCOMM_PN_DLCI_MASK in
  let mtu := o4 + Z.shiftl o5 8 in
  set_rx_frame (fun f => f <| f_dlci := d |>
    <| u_pn := mk_mx_pn (Z.land o1 RFCOMM_PN_FRAME_TYPE_MASK) (Z.land o1 RFCOMM_PN_CONV_LAYER_MASK)
                 (Z.land o2 RFCOMM_PN_PRIORITY_MASK) o3 mtu o6 (Z.land o7 RFCOMM_PN_K_MASK) |>);;
  if (d =? 0) || negb (RFCOMM_VALID_DLCI d) || (mtu <? RFCOMM_MIN_MTU) || (RFCOMM_MAX_MTU <? mtu)
  then mret false
  else rfc_process_pn m is_command;; mret true.

Definition mx_msg_test (m : nat) (b : BT_HDR) (is_command : bool) (length : Z) : M bool :=
  if length =? 0 then mret false else
  set_rx_frame (fun f => f <| u_test_data_len := length |>);;
  let b := b <| hdr_offset ::= fun o => u16 (o + 2) |> <| hdr_len ::= fun n => n - 2 |> in
  (if is_command then rfc_send_test m false b else rfc_process_test_rsp b);;
  mret true.

Definition mx_msg_msc (m : nat) (b : BT_HDR) (is_command : bool) (p length mx_len : Z) : M bool :=
  if negb (length =? RFCOMM_MX_MSC_LEN_WITH_BREAK) && negb (length =? RFCOMM_MX_MSC_LEN_NO_BREAK)
  then mret true (* freed without an answer *) else
  ok ← parse_mx_dlci b p;
  if negb ok then mret false else
  signals ← buf_read b (p + 1);
  '(present, duration) ←
    (if mx_len =? RFCOMM_MX_MSC_LEN_WITH_BREAK then
       o ← buf_read b (p + 2);
       mret (Z.land o RFCOMM_MSC_BREAK_PRESENT_MASK,
             Z.shiftr (Z.land o RFCOMM_MSC_BREAK_MASK) RFCOMM_MSC_SHIFT_BREAK)
     else mret (0, 0));
  set_rx_frame (fun f => f <| u_msc := mk_mx_msc signals present duration |>);;
  rfc_process_msc m is_command;;
  mret true.

Definition mx_msg_nsc (b : BT_HDR) (is_command : bool) (p length : Z) : M bool :=
  if negb (length =? RFCOMM_MX_NSC_LEN) || negb is_command then mret false else
  o ← buf_read b p;
  set_rx_frame (fun f => f <| u_nsc := mk_mx_nsc (Z.land o RFCOMM_EA)
    (Z.shiftr (Z.land o RFCOMM_CR_MASK) RFCOMM_SHIFT_CR) (Z.shiftr o RFCOMM_SHIFT_DLCI) |>);;
  rfc_process_nsc;;
  mret true.

(** The seven octets of port settings and mask behind the DLCI. *)
Definition parse_rpn (b : BT_HDR) (p : Z) : M mx_rpn :=
  o1 ← buf_read b (p + 1);
  o2 ← buf_read b (p + 2);
  o3 ← buf_read b (p + 3);
  o4 ← buf_read b (p + 4);
  o5 ← buf_read b (p + 5);
  o6 ← buf_read b (p + 6);
  o7 ← buf_read b (p + 7);
  mret (mk_mx_rpn false o1
    (Z.land (Z.shiftr o2 RFCOMM_RPN_BITS_SHIFT) RFCOMM_RPN_BITS_MASK)
    (Z.land (Z.shiftr o2 RFCOMM_RPN_STOP_BITS_SHIFT) RFCOMM_RPN_STOP_BITS_MASK)
    (Z.land (Z.shiftr o2 RFCOMM_RPN_PARITY_SHIFT) RFCOMM_RPN_PARITY_MASK)
    (Z.land (Z.shiftr o2 RFCOMM_RPN_PARITY_TYPE_SHIFT) RFCOMM_RPN_PARITY_TYPE_MASK)
    (Z.land o3 RFCOMM_FC_MASK) o4 o5
    (Z.land (o6 + Z.shiftl o7 8) RFCOMM_RPN_PM_MASK)).

Definition mx_msg_rpn (m : nat) (b : BT_HDR) (is_command : bool) (p length : Z) : M bool :=
  if negb (length =? RFCOMM_MX_RPN_REQ_LEN) && negb (length =? RFCOMM_MX_RPN_LEN)
  then mret false else
  ok ← parse_mx_dlci b p;
  if negb ok then mret false else
  let is_request := length =? RFCOMM_MX_RPN_REQ_LEN in
  u ← (if is_request then
         h ← history; mret (env_rpn_leftover h <| rpn_is_request := true |>)
       else parse_rpn b p);
  set_rx_frame (fun f => f <| u_rpn := u |>);;
  rfc_process_rpn m is_command is_request;;
  mret true.

Definition mx_msg_rls (m : nat) (b : BT_HDR) (is_command : bool) (p length : Z) : M bool :=
  if negb (length =? RFCOMM_MX_RLS_LEN) then mret false else
  ok ← parse_mx_dlci b p;
  s ← buf_read b (p + 1);
  set_rx_frame (fun f => f <| u_rls_line_status := Z.land s 0xFE |>);;
  if negb ok then mret false else
  rfc_process_rls m is_command;;
  mret true.

Definition mx_message_switch (m : nat) (b : BT_HDR) (type : Z) (is_command : bool)
    (p length mx_len : Z) : M bool :=
  if type =? RFCOMM_MX_PN then mx_msg_pn m b is_command p length
  else if type =? RFCOMM_MX_TEST then mx_msg_test m b is_command length
  else if type =? RFCOMM_MX_FCON then
    if negb (length =? RFCOMM_MX_FCON_LEN) then mret false
    else rfc_process_fcon m is_command;; mret true
  else if type =? RFCOMM_MX_FCOFF then
    if negb (length =? RFCOMM_MX_FCOFF_LEN) then mret false
    else rfc_process_fcoff m is_command;; mret true
  else if type =? RFCOMM_MX_MSC then mx_msg_msc m b is_command p length mx_len
  else if type =? RFCOMM_MX_NSC then mx_msg_nsc b is_command p length
  else if type =? RFCOMM_MX_RPN then mx_msg_rpn m b is_command p length
  else if type =? RFCOMM_MX_RLS then mx_msg_rls m b is_command p length
  else mret false.

Definition rfc_process_mx_message (m : nat) (b : BT_HDR) : M unit :=
  let p := hdr_offset b in
  let length := hdr_len b in
  if length <? 2 then mret () else
  o ← buf_read b p;
  let fea := Z.land o RFCOMM_EA in
  let cr := Z.shiftr (Z.land o RFCOMM_CR_MASK) RFCOMM_SHIFT_CR in
  let type := Z.land o (Z.lxor 0xFF (Z.lor RFCOMM_CR_MASK RFCOMM_EA_MASK)) in
  set_rx_frame (fun f => f <| f_ea := fea |> <| f_cr := cr |> <| f_type := type |>);;
  if fea =? 0 then mret () else
  let is_command := nz cr in
  l1 ← buf_read b (p + 1);
  let ext := Z.land l1 RFCOMM_EA =? 0 in
  let length := length - 2 in
  if ext && (length <? 1) then mret () else
  mx_len ← (if ext then
              l2 ← buf_read b (p + 2);
              mret (u8 (Z.shiftr l1 RFCOMM_SHIFT_LENGTH1 + Z.shiftl l2 RFCOMM_SHIFT_LENGTH2))
            else mret (Z.shiftr l1 RFCOMM_SHIFT_LENGTH1));
  let length := length - b2z ext in
  let p := p + 2 + b2z ext in
  if negb (mx_len =? length) then mret () else
  handled ← mx_message_switch m b type is_command p length mx_len;
  when (negb handled && is_command) (rfc_send_nsc m).
End messages.

(** ** Closing the recursion *)
Fixpoint machines `{Env} (fuel : nat) : SM :=
  match fuel with
  | O => mkSM (fun _ _ _ => fail OutOfFuel) (fun _ _ _ => fail OutOfFuel)
  | S fuel =>
      mkSM (@rfc_mx_sm_execute _ (machines fuel)) (@rfc_port_sm_execute _ (machines fuel))
  end.

(** ** L2CAP callbacks ([rfc_l2cap_if.cc]) *)
Section l2cap.
Context `{Env}.

#[local] Instance rfc_machines : SM := machines 3.

Definition RFCOMM_ConnectInd (bd_addr : RawAddress) (lcid : Z) : M unit :=
  p_mcb ← rfc_alloc_multiplexer_channel bd_addr false;
  match p_mcb with
  | None =>
      rfc_save_lcid_mcb None lcid;;
      emit (L2CA_DisconnectReq lcid)
  | Some m =>
      mcb ← get_mcb m;
      if negb (mcb_idle mcb) then
        if is_initiator mcb && eqb (mcb_state mcb) RFC_MX_STATE_WAIT_CONN_CNF then
          upd_mcb m (fun mcb => mcb <| pending_lcid := lcid |>);;
          h ← history;
          rfc_timer_start m (u16 (env_boottime_ms h mod 10 + 2))
        else emit (L2CA_DisconnectReq lcid)
      else
        rfc_save_lcid_mcb (Some m) lcid;;
        upd_mcb m (fun mcb => mcb <| mcb_lcid := lcid |>);;
        sm_mx m RFC_MX_EVENT_CONN_IND MX_null
  end.

Definition RFCOMM_ConnectCnf (lcid result : Z) : M unit :=
  p_mcb ← rfc_find_lcid_mcb lcid;
  match p_mcb with
  | None => mret ()
  | Some m =>
      mcb ← get_mcb m;
      if nz (pending_lcid mcb) && negb (result =? L2CAP_CONN_OK) then mret () else
      when (nz (pending_lcid mcb))
        (emit (L2CA_DisconnectReq (pending_lcid mcb));;
         upd_mcb m (fun mcb => mcb <| pending_lcid := 0 |>));;
      upd_mcb m (fun mcb => mcb <| mcb_lcid := lcid |>);;
      sm_mx m RFC_MX_EVENT_CONN_CNF (MX_u16 result)
  end.

(** The first block of the LCID table that waits for the pending channel. *)
Definition find_pending (c : tRFC_CB) (lcid : Z) : option nat :=
  let waits e := match rfc_mcb c !! snd e with
                 | Some mcb => pending_lcid mcb =? lcid
                 | None => false
                 end in
  snd <$> head (List.filter waits (map_to_list (rfc_lcid_mcb c))).

Definition RFCOMM_ConfigInd (lcid : Z) (p_cfg : option tL2CAP_CFG_INFO) : M unit :=
  match p_cfg with
  | None => mret ()
  | Some cfg =>
      p_mcb ← rfc_find_lcid_mcb lcid;
      match p_mcb with
      | None =>
          pending ← gets (fun c => find_pending c lcid);
          match pending with
          | Some m => upd_mcb m (fun mcb => mcb <| pending_configure_complete := true |>
                                                <| pending_cfg_info := cfg |>)
          | None => mret ()
          end
      | Some m => sm_mx m RFC_MX_EVENT_CONF_IND (MX_cfg cfg)
      end
  end.

Definition RFCOMM_ConfigCnf (lcid : Z) (p_cfg : option tL2CAP_CFG_INFO) : M unit :=
  RFCOMM_ConfigInd lcid p_cfg;;
  p_mcb ← rfc_find_lcid_mcb lcid;
  match p_mcb with
  | None => mret ()
  | Some m => sm_mx m RFC_MX_EVENT_CONF_CNF MX_null
  end.

Definition RFCOMM_DisconnectInd (lcid : Z) : M unit :=
  p_mcb ← rfc_find_lcid_mcb lcid;
  match p_mcb with
  | None => mret ()
  | Some m => sm_mx m RFC_MX_EVENT_DISC_IND MX_null
  end.

(** A frame on a data DLCI that has a port on the multiplexer. *)
Definition port_frame (i : nat) (event : tRFC_EVENT) (b : BT_HDR) : M unit :=
  match event, port_event_of event with
  | RFC_EVENT_UIH, _ =>
      when (0 <? hdr_len b) (sm_port (Some i) RFC_PORT_EVENT_UIH (PD_buf b));;
      fr ← gets rx_frame;
      when (nz (f_credit fr)) (rfc_inc_credit i (f_credit fr))
  | _, Some ev => sm_port (Some i) ev PD_null
  | _, None => mret ()
  end.

(** A frame on a data DLCI without a port on the multiplexer. *)
Definition unbound_frame (m : nat) (event : tRFC_EVENT) (b : BT_HDR) : M unit :=
  fr ← gets rx_frame;
  mcb ← get_mcb m;
  if negb (eqb event RFC_EVENT_SABME) then
    when ((is_initiator mcb && negb (nz (f_cr fr))) || (negb (is_initiator mcb) && nz (f_cr fr)))
      (rfc_send_dm m (f_dlci fr) (nz (f_pf fr)))
  else
  p_port ← port_find_dlci_port (f_dlci fr);
  match p_port with
  | None => rfc_send_dm m (f_dlci fr) true
  | Some i =>
      bind_handle m (f_dlci fr) i;;
      upd_rfc i (fun r => r <| p_mcb := Some m |>);;
      port_frame i event b
  end.

Definition RFCOMM_BufDataInd (lcid : Z) (b : BT_HDR) : M unit :=
  p_mcb ← rfc_find_lcid_mcb lcid;
  match p_mcb with
  | None => mret ()
  | Some m =>
      '(event, b) ← rfc_parse_data m b;
      fr ← gets rx_frame;
      if eqb event RFC_EVENT_BAD_FRAME then mret ()
      else if f_dlci fr =? RFCOMM_MX_DLCI then
        match event, mx_event_of event with
        | RFC_EVENT_UIH, _ => rfc_process_mx_message m b
        | _, Some ev => sm_mx m ev MX_null
        | _, None => mret ()
        end
      else
        p_port ← port_find_mcb_dlci_port (Some m) (f_dlci fr);
        match p_port with
        | None => unbound_frame m event b
        | Some i =>
            p ← get_port i;
            if is_some (RfcDefs.p_mcb (rfc p)) then port_frame i event b
            else unbound_frame m event b
        end
  end.

Definition RFCOMM_CongestionStatusInd (lcid : Z) (is_congested : bool) : M unit :=
  p_mcb ← rfc_find_lcid_mcb lcid;
  match p_mcb with
  | None => mret ()
  | Some m => rfc_process_l2cap_congestion m is_congested
  end.

(** Retrying as acceptor on the channel the peer opened meanwhile. *)
Definition retry_as_acceptor (m : nat) : M unit :=
  mcb ← get_mcb m;
  rfc_save_lcid_mcb None (mcb_lcid mcb);;
  upd_mcb m (fun mcb => mcb <| mcb_lcid := pending_lcid mcb |> <| is_initiator := false |>
                            <| mcb_state := RFC_MX_STATE_IDLE |>);;
  rfc_save_lcid_mcb (Some m) (pending_lcid mcb);;
  update_direction m;;
  sm_mx m RFC_MX_EVENT_CONN_IND MX_null;;
  mcb ← get_mcb m;
  when (pending_configure_complete mcb)
    (upd_mcb m (fun mcb => mcb <| pending_configure_complete := false |>);;
     sm_mx m RFC_MX_EVENT_CONF_IND (MX_cfg (pending_cfg_info mcb));;
     sm_mx m RFC_MX_EVENT_CONF_CNF MX_null).

(** [rfc_on_l2cap_error] of [rfc_mx_fsm.cc]. *)
Definition rfc_on_l2cap_error (lcid result : Z) : M unit :=
  p_mcb ← rfc_find_lcid_mcb lcid;
  match p_mcb with
  | None => mret ()
  | Some m =>
      mcb ← get_mcb m;
      if nz (Z.land result L2CAP_CONN_INTERNAL_MASK) then
        if nz (pending_lcid mcb) then retry_as_acceptor m
        else
          upd_mcb m (fun mcb => mcb <| mcb_lcid := lcid |>);;
          sm_mx m RFC_MX_EVENT_CONN_CNF (MX_u16 result)
      else if result =? L2CAP_CFG_FAILED_NO_REASON then
        when (is_initiator mcb)
          (PORT_StartCnf m result;;
           disconnect m);;
        rfc_release_multiplexer_channel m
      else mret ()
  end.

(** ** Timers and the security manager ([rfc_utils.cc]) *)
Definition rfcomm_port_timer_timeout (i : nat) : M unit :=
  sm_port (Some i) RFC_PORT_EVENT_TIMEOUT PD_null.

Definition rfcomm_mcb_timer_timeout (m : nat) : M unit :=
  sm_mx m RFC_MX_EVENT_TIMEOUT MX_null.

Definition rfc_sec_check_complete (p_ref_data : option nat) (res : Z) : M unit :=
  i ← of_option AssertFailed p_ref_data;
  p ← get_port i;
  if negb (in_use p)
     || (negb (eqb (rfc_state (rfc p)) RFC_STATE_ORIG_WAIT_SEC_CHECK)
         && negb (eqb (rfc_state (rfc p)) RFC_STATE_TERM_WAIT_SEC_CHECK))
  then mret ()
  else sm_port (Some i) RFC_PORT_EVENT_SEC_COMPLETE (PD_status res).
End l2cap.
