(* ===== verification/RfcInvariant.v ===== *)
(** * Memory safety of RFCOMM

    [Inv] bounds every index the code takes from its own state.  [spec q m φ]
    says that [m] keeps [Inv], neither indexes out of bounds nor runs out of
    fuel, and returns a value in [φ]; [q] says what else it keeps of every port.
    The lemmas follow the call graph from the primitive operations up to the
    inputs. *)
From S2P Require Import Prelude RfcDefs RfcFcs RfcMonad RfcFrames RfcUtils RfcPort.
From S2P Require Import RfcMxFsm RfcPortFsm RfcApi RfcSystem.

(** ** The invariant *)

(** A received buffer: its payload lies inside its block.  Blocks are far smaller
    than the bound, which keeps the 16-bit lengths from wrapping around. *)
Record rx_ok (b : BT_HDR) : Prop := {
  rx_offset : 0 <= hdr_offset b;
  rx_len : 0 <= hdr_len b;
  rx_end : hdr_offset b + hdr_len b <= Z.of_nat (length (hdr_data b));
  rx_block : Z.of_nat (length (hdr_data b)) <= 65000;
  rx_bytes : bytes_ok (hdr_data b);
}.

(** A buffer with room for an RFCOMM header in front of its payload and for the
    FCS behind it. *)
Record tx_ok (b : BT_HDR) : Prop := {
  tx_offset : RFCOMM_MIN_OFFSET <= hdr_offset b;
  tx_len : 0 <= hdr_len b;
  tx_end : hdr_offset b + hdr_len b + 1 <= Z.of_nat (length (hdr_data b));
  tx_block : Z.of_nat (length (hdr_data b)) <= 65535;
}.

(** A buffer on a transmit queue: a data buffer of the application interface. *)
Record txq_ok (b : BT_HDR) : Prop := {
  txq_offset : hdr_offset b = L2CAP_MIN_OFFSET + RFCOMM_MIN_OFFSET;
  txq_len : 0 <= hdr_len b <= data_buf_len;
  txq_block : Z.of_nat (length (hdr_data b)) = RFCOMM_DATA_BUF_SIZE - BT_HDR_SIZE;
}.

Lemma txq_tx_ok b : txq_ok b → tx_ok b.
Proof. intros [Ho Hl Hb]. unfold data_buf_len in Hl. constructor; lia. Qed.

Definition queue_ok (P : BT_HDR → Prop) (q : option (list BT_HDR)) : Prop :=
  match q with Some l => Forall P l | None => True end.

Record port_ok (p : tPORT) : Prop := {
  ok_dlci : 0 <= dlci p <= 61;
  ok_handle : 0 <= handle p <= 30;
  ok_p_mcb : ∀ m, p_mcb (rfc p) = Some m → (m < 16)%nat;
  ok_mtu : 0 <= mtu p;
  ok_peer_mtu : 0 <= peer_mtu p;
  ok_keep_mtu : 0 <= keep_mtu p;
  ok_tx : queue_ok txq_ok (queue (tx p));
  ok_rx : queue_ok rx_ok (queue (rx p));
  ok_rx_size : is_u32 (queue_size (rx p));
}.

Record mcb_ok (mcb : tRFC_MCB) : Prop := {
  ok_handles_len : length (port_handles mcb) = 62%nat;
  ok_handles : Forall (fun h => 0 <= h <= 30) (port_handles mcb);
  ok_l2cap_mtu : 0 <= peer_l2cap_mtu mcb;
}.

(** The fields of the frame being processed that become indices or lengths. *)
Record frame_ok (fr : MX_FRAME) : Prop := {
  ok_f_dlci : 0 <= f_dlci fr;
  ok_pn_mtu : 0 <= pn_mtu (u_pn fr);
}.

Record Inv (c : tRFC_CB) : Prop := {
  inv_nports : length (ports c) = 30%nat;
  inv_nmcbs : length (rfc_mcb c) = 16%nat;
  inv_ports : Forall port_ok (ports c);
  inv_mcbs : Forall mcb_ok (rfc_mcb c);
  inv_lcids : map_Forall (fun _ m => (m < 16)%nat) (rfc_lcid_mcb c);
  inv_frame : frame_ok (rx_frame c);
}.

(** A pointer that is null or points into its table. *)
Definition valid_mcb (pm : option nat) : Prop := ∀ m, pm = Some m → (m < 16)%nat.
Definition valid_port (p : option nat) : Prop := ∀ i, p = Some i → (i < 30)%nat.

(** What a computation keeps of a port: nothing more, its MTU, or its MTU and its
    transmit queue. *)
Inductive keep := Loose | KeepMtu | KeepQueue.

Definition kept (q : keep) (p p' : tPORT) : Prop :=
  match q with
  | Loose => True
  | KeepMtu => peer_mtu p' = peer_mtu p
  | KeepQueue => peer_mtu p' = peer_mtu p ∧ queue (tx p') = queue (tx p)
  end.

Definition kept_all (q : keep) (c c' : tRFC_CB) : Prop :=
  ∀ i p, ports c !! i = Some p → ∃ p', ports c' !! i = Some p' ∧ kept q p p'.

Definition spec {A} (q : keep) (m : M A) (φ : A → Prop) : Prop :=
  ∀ w, Inv (cb w) →
    safe m (fun a w' => Inv (cb w') ∧ kept_all q (cb w) (cb w') ∧ φ a) w.

Definition any {A} (_ : A) : Prop := True.

Lemma kept_refl q p : kept q p p.
Proof. by destruct q. Qed.

Lemma kept_all_refl q c c' : ports c' = ports c → kept_all q c c'.
Proof. intros E i p Hp. exists p. rewrite E. auto using kept_refl. Qed.

Lemma kept_all_trans q c1 c2 c3 : kept_all q c1 c2 → kept_all q c2 c3 → kept_all q c1 c3.
Proof.
  intros H1 H2 i p Hp. destruct (H1 i p Hp) as (p2 & Hp2 & Hk2).
  destruct (H2 i p2 Hp2) as (p3 & Hp3 & Hk3). exists p3. split; [done|].
  destruct q; simpl in *; [done|congruence|]. destruct Hk2, Hk3. split; congruence.
Qed.

Lemma kept_all_insert q c c' i p p' :
  ports c !! i = Some p → kept q p p' → ports c' = <[i := p']> (ports c) → kept_all q c c'.
Proof.
  intros Hp Hk E j r Hr. rewrite E. destruct (decide (i = j)) as [->|Hne].
  - exists p'. rewrite list_lookup_insert_eq by (by eapply lookup_lt_Some).
    rewrite Hp in Hr. by injection Hr as <-.
  - exists r. rewrite list_lookup_insert_ne by done. auto using kept_refl.
Qed.

(** Between states with all their ports nothing more is to be kept. *)
Lemma kept_all_loose c c' : Inv c → Inv c' → kept_all Loose c c'.
Proof.
  intros H H' i p Hp. apply lookup_lt_Some in Hp.
  destruct (lookup_lt_is_Some_2 (ports c') i) as [p' E]; [|by exists p'].
  rewrite (inv_nports _ H'). by rewrite (inv_nports _ H) in Hp.
Qed.

Lemma loose_safe {A} (m : M A) :
  (∀ w, Inv (cb w) → safe m (fun _ w' => Inv (cb w')) w) → spec Loose m any.
Proof.
  intros Hm w Hw. eapply safe_mono; [by apply Hm|]. intros a w' Hw'.
  split_and!; [done|by apply kept_all_loose|done].
Qed.

(** The end of a step that changes no port. *)
Ltac keep_tac := split_and!; [auto | by apply kept_all_refl | first [done | by auto]].

Create HintDb spec discriminated.
#[export] Hint Constants Opaque : spec.

(** ** Rules *)
Lemma spec_safe {A} q (m : M A) φ w :
  spec q m φ → Inv (cb w) → safe m (fun _ w' => Inv (cb w')) w.
Proof. intros H Hw. eapply safe_mono; [by apply H|]. by intros ? ? (? & _ & _). Qed.

Lemma spec_ret {A} q (a : A) (φ : A → Prop) : φ a → spec q (mret a) φ.
Proof. intros Ha w Hw. apply safe_ret. keep_tac. Qed.

Lemma spec_bind {A B} q (m : M A) (f : A → M B) φ ψ :
  spec q m φ → (∀ a, φ a → spec q (f a) ψ) → spec q (m ≫= f) ψ.
Proof.
  intros Hm Hf w Hw. apply safe_bind. eapply safe_mono; [by apply Hm|].
  intros a w' (Hw' & Hq & Ha). eapply safe_mono; [by apply (Hf a)|].
  intros b w'' (Hw'' & Hq' & Hb). eauto using kept_all_trans.
Qed.

Lemma spec_mono {A} q (m : M A) (φ ψ : A → Prop) :
  spec q m φ → (∀ a, φ a → ψ a) → spec q m ψ.
Proof. intros H Hi w Hw. eapply safe_mono; [by apply H|]. intros a w' (? & ? & ?). auto. Qed.

Lemma spec_any {A} q (m : M A) φ : spec q m φ → spec q m any.
Proof. intros H. by eapply spec_mono. Qed.

Lemma spec_fail {A} q e (φ : A → Prop) : fault_ok e → spec q (fail e) φ.
Proof. intros He w Hw. by apply safe_fail. Qed.

Lemma spec_deref {A} q (p : option A) : spec q (deref p) (fun a => p = Some a).
Proof. intros w Hw. apply safe_deref; intros. keep_tac. Qed.

Lemma spec_assert_some {A} q (p : option A) :
  spec q (of_option AssertFailed p) (fun a => p = Some a).
Proof. intros w Hw. destruct p; [|done]. apply safe_ret. keep_tac. Qed.

Lemma spec_of_option {A} q e (o : option A) (φ : A → Prop) :
  (∃ a, o = Some a ∧ φ a) → spec q (of_option e o) φ.
Proof. intros (a & -> & Ha). by apply spec_ret. Qed.

Lemma spec_when q b m : (b = true → spec q m any) → spec q (when b m) any.
Proof. destruct b; intros H; [by apply H | by apply spec_ret]. Qed.

Lemma spec_emit q o : spec q (emit o) any.
Proof. intros w Hw. apply safe_emit. keep_tac. Qed.

Lemma spec_history q : spec q history any.
Proof. intros w Hw. apply safe_history. keep_tac. Qed.

Lemma spec_gets {A} q (f : tRFC_CB → A) φ : (∀ c, Inv c → φ (f c)) → spec q (gets f) φ.
Proof. intros H w Hw. apply safe_gets. keep_tac. Qed.

Lemma spec_modify q f :
  (∀ c, Inv c → Inv (f c) ∧ ports (f c) = ports c) → spec q (modify_cb f) any.
Proof.
  intros H w Hw. apply safe_modify. destruct (H _ Hw). keep_tac.
Qed.

Lemma spec_forM {A} q (l : list A) f :
  (∀ a, a ∈ l → spec q (f a) any) → spec q (forM_ l f) any.
Proof.
  induction l as [|a l IH]; intros Hf; simpl; [by apply spec_ret|].
  eapply spec_bind; [apply Hf; left|]. intros [] _. apply IH. intros. apply Hf. by right.
Qed.

(** ** The tables *)
Lemma inv_port_lookup c i p : Inv c → ports c !! i = Some p → port_ok p.
Proof. intros Hc Hp. eapply Forall_lookup_1; [apply Hc|done]. Qed.

Lemma inv_mcb_lookup c m mcb : Inv c → rfc_mcb c !! m = Some mcb → mcb_ok mcb.
Proof. intros Hc Hp. eapply Forall_lookup_1; [apply Hc|done]. Qed.

Lemma inv_port_ex c i : Inv c → (i < 30)%nat → ∃ p, ports c !! i = Some p ∧ port_ok p.
Proof.
  intros Hc Hi. destruct (lookup_lt_is_Some_2 (ports c) i) as [p Hp].
  { rewrite (inv_nports c); done. }
  eauto using inv_port_lookup.
Qed.

Lemma inv_mcb_ex c m : Inv c → (m < 16)%nat → ∃ mcb, rfc_mcb c !! m = Some mcb ∧ mcb_ok mcb.
Proof.
  intros Hc Hi. destruct (lookup_lt_is_Some_2 (rfc_mcb c) m) as [p Hp].
  { rewrite (inv_nmcbs c); done. }
  eauto using inv_mcb_lookup.
Qed.

Lemma Inv_port c i p : Inv c → port_ok p → Inv (c <| ports ::= <[i := p]> |>).
Proof.
  intros [] Hp. constructor; simpl; auto.
  - by rewrite length_insert.
  - by apply Forall_insert.
Qed.

Lemma Inv_mcb c m mcb : Inv c → mcb_ok mcb → Inv (c <| rfc_mcb ::= <[m := mcb]> |>).
Proof.
  intros [] Hp. constructor; simpl; auto.
  - by rewrite length_insert.
  - by apply Forall_insert.
Qed.

Lemma spec_get_port q i : (i < 30)%nat → spec q (get_port i) port_ok.
Proof.
  intros Hi w Hw. destruct (inv_port_ex (cb w) i Hw Hi) as (p & Hp & Hok).
  eapply safe_get_port; [done|]. keep_tac.
Qed.

Lemma spec_get_mcb q m : (m < 16)%nat → spec q (get_mcb m) mcb_ok.
Proof.
  intros Hi w Hw. destruct (inv_mcb_ex (cb w) m Hw Hi) as (p & Hp & Hok).
  eapply safe_get_mcb; [done|]. keep_tac.
Qed.

(** Updates of one block that stay within its bounds. *)
Definition keeps_port (q : keep) (f : tPORT → tPORT) : Prop :=
  ∀ p, port_ok p → port_ok (f p) ∧ kept q p (f p).
Definition keeps_mcb (f : tRFC_MCB → tRFC_MCB) : Prop := ∀ mcb, mcb_ok mcb → mcb_ok (f mcb).
Definition keeps_binding (f : tRFC_PORT → tRFC_PORT) : Prop := ∀ r, p_mcb (f r) = p_mcb r.

Lemma spec_upd_port q i f : (i < 30)%nat → keeps_port q f → spec q (upd_port i f) any.
Proof.
  intros Hi Hf w Hw. destruct (inv_port_ex (cb w) i Hw Hi) as (p & Hp & Hok).
  destruct (Hf p Hok) as [Hok' Hq].
  eapply safe_upd_port; [done|]. simpl. split_and!; [by apply Inv_port| |done].
  by eapply kept_all_insert.
Qed.

Lemma spec_upd_mcb q m f :
  (m < 16)%nat → keeps_mcb f → spec q (upd_mcb m f) any.
Proof.
  intros Hi Hf w Hw. destruct (inv_mcb_ex (cb w) m Hw Hi) as (p & Hp & Hok).
  eapply safe_upd_mcb; [done|]. simpl. split_and!; [by apply Inv_mcb; auto | by apply kept_all_refl | done].
Qed.

Lemma elem_of_port_indices i : i ∈ port_indices → (i < 30)%nat.
Proof. unfold port_indices. rewrite elem_of_seq. lia. Qed.

(** ** Automation *)

(** An update that leaves the bounded fields alone. *)
Ltac upd_tac :=
  lazymatch goal with
  | |- keeps_port _ _ =>
      let p := fresh "p" in let H := fresh "H" in
      intros p H; destruct H; simpl; repeat case_match;
      (split; [constructor; simpl; repeat case_match; auto with spec | lazymatch goal with
                                          | |- kept ?q _ _ => destruct q; done
                                          | |- _ => done
                                          end])
  | |- keeps_mcb _ =>
      let p := fresh "mcb" in let H := fresh "H" in
      intros p H; destruct H; simpl; repeat case_match; constructor; simpl; auto with spec
  end.

(** A bound on an index or a DLCI. *)
Ltac bound_tac :=
  try done;
  repeat match goal with
  | H : port_ok ?p |- _ => learn_hyp (ok_dlci p H)
  | H : port_ok ?p |- _ => learn_hyp (ok_handle p H)
  | H : port_ok ?p |- _ => learn_hyp (ok_peer_mtu p H)
  | H : mcb_ok ?m |- _ => learn_hyp (ok_l2cap_mtu m H)
  | H : frame_ok ?fr |- _ => learn_hyp (ok_f_dlci fr H)
  | H : frame_ok ?fr |- _ => learn_hyp (ok_pn_mtu fr H)
  | H : port_ok ?p, E : p_mcb (rfc ?p) = Some ?m |- _ => learn_hyp (ok_p_mcb p H m E)
  | H : ?i ∈ port_indices |- _ => learn_hyp (elem_of_port_indices i H)
  | H : valid_port (Some ?i) |- _ => learn_hyp (H i eq_refl)
  | H : valid_mcb (Some ?m) |- _ => learn_hyp (H m eq_refl)
  | H : valid_port ?p, E : ?p = Some ?i |- _ => learn_hyp (H i E)
  | H : valid_mcb ?p, E : ?p = Some ?m |- _ => learn_hyp (H m E)
  end;
  first [done | lia | congruence].

Ltac spec_leaf :=
  first
    [ solve [ eauto 3 with spec nocore ]
    | solve [ eapply spec_any; eauto 3 with spec nocore ] ].

Ltac spec_go :=
  lazymatch goal with
  | |- spec _ (mbind _ _) _ =>
      first [ eapply spec_bind; [spec_leaf|] | eapply (spec_bind _ _ _ any) ];
      lazymatch goal with
      | |- spec _ _ _ => spec_go
      | |- _ =>
          let a := fresh "a" in let Ha := fresh "Ha" in
          intros a Ha; cbv beta in Ha |- *;
          try (lazymatch type of a with (_ * _)%type => destruct a end); spec_go
      end
  | |- spec _ (mret _) _ => apply spec_ret; try done
  | |- spec _ (when _ _) _ =>
      first [ spec_leaf | apply spec_when; let E := fresh "E" in intros E; spec_go ]
  | |- spec _ (forM_ _ _) _ =>
      apply spec_forM; let x := fresh "x" in let Hx := fresh "Hx" in intros x Hx; spec_go
  | |- spec _ (fail _) _ => first [ by apply spec_fail | idtac ]
  | |- spec _ (match ?x with _ => _ end) _ =>
      let E := fresh "E" in destruct x eqn:E; spec_go
  | |- spec _ (let x := _ in _) _ => cbv zeta; spec_go
  | |- _ => try spec_leaf
  end.

#[export] Hint Extern 1 (_ < _)%nat => bound_tac : spec.
#[export] Hint Extern 1 (_ <= _) => bound_tac : spec.
#[export] Hint Extern 1 (_ <= _ <= _) => bound_tac : spec.
#[export] Hint Extern 1 (keeps_port _ _) => upd_tac : spec.
#[export] Hint Extern 1 (keeps_mcb _) => upd_tac : spec.
#[export] Hint Resolve u32_range : spec.
#[export] Hint Resolve spec_deref spec_assert_some spec_emit spec_history spec_get_port
  spec_get_mcb spec_upd_port spec_upd_mcb : spec.

Lemma valid_some_mcb m : (m < 16)%nat → valid_mcb (Some m).
Proof. by intros ? ? [= <-]. Qed.
Lemma valid_port_mcb p : port_ok p → valid_mcb (p_mcb (rfc p)).
Proof. intros [] m. auto. Qed.
Lemma valid_some_port i : (i < 30)%nat → valid_port (Some i).
Proof. by intros ? ? [= <-]. Qed.
Lemma valid_none_mcb : valid_mcb None.
Proof. done. Qed.
#[export] Hint Resolve valid_none_mcb valid_some_mcb valid_port_mcb valid_some_port : spec.

(** ** Handles, timers and the LCID table *)
Lemma handles_lookup mcb d :
  mcb_ok mcb → 0 <= d <= 61 → ∃ h, at_index (port_handles mcb) d = Some h ∧ 0 <= h <= 30.
Proof.
  intros [Hl Hh] Hd. unfold at_index. replace (0 <=? d) with true by lia.
  destruct (lookup_lt_is_Some_2 (port_handles mcb) (Z.to_nat d)) as [h E]; [lia|].
  exists h. split; [done|]. exact (Forall_lookup_1 _ _ _ _ Hh E).
Qed.

Lemma spec_read_handle q m d :
  (m < 16)%nat → 0 <= d <= 61 → spec q (read_handle m d) (fun h => 0 <= h <= 30).
Proof.
  intros Hm Hd. unfold read_handle. eapply spec_bind; [eauto with spec|].
  intros mcb Hmcb. apply spec_of_option. by apply handles_lookup.
Qed.
#[export] Hint Resolve spec_read_handle : spec.

Lemma spec_write_handle q m d h :
  (m < 16)%nat → 0 <= d <= 61 → 0 <= h <= 30 → spec q (write_handle m d h) any.
Proof.
  intros Hm Hd Hh. unfold write_handle. eapply spec_bind; [eauto with spec|].
  intros _ _. apply spec_upd_mcb; [done|]. intros mcb []. constructor; simpl.
  - by rewrite length_insert.
  - by apply Forall_insert.
  - done.
Qed.
#[export] Hint Resolve spec_write_handle : spec.

Lemma spec_upd_rfc q i f :
  (i < 30)%nat → keeps_binding f → spec q (upd_rfc i f) any.
Proof.
  intros Hi Hf. apply spec_upd_port; [done|]. intros p []. split; [|by destruct q].
  constructor; simpl; auto. intros m. rewrite Hf. auto.
Qed.

Lemma spec_bind_mcb q i pm :
  (i < 30)%nat → valid_mcb pm →
  spec q (upd_rfc i (fun r => r <| p_mcb := pm |>)) any.
Proof.
  intros Hi Hf. apply spec_upd_port; [done|]. intros p []. split; [|by destruct q].
  constructor; simpl; auto.
Qed.
#[export] Hint Resolve spec_upd_rfc : spec.
#[export] Hint Extern 2 (spec _ (upd_rfc _ _) _) =>
  (apply spec_bind_mcb; [bound_tac | eauto with spec]) : spec.
#[export] Hint Extern 1 (keeps_binding _) => (intro; reflexivity) : spec.

Lemma spec_rfc_timer_start q m t : (m < 16)%nat → spec q (rfc_timer_start m t) any.
Proof. intros Hm. unfold rfc_timer_start. spec_go. Qed.

Lemma spec_rfc_timer_stop q m : (m < 16)%nat → spec q (rfc_timer_stop m) any.
Proof. intros Hm. unfold rfc_timer_stop. spec_go. Qed.

Lemma spec_rfc_port_timer_start q i t : (i < 30)%nat → spec q (rfc_port_timer_start i t) any.
Proof. intros Hm. unfold rfc_port_timer_start. spec_go. Qed.

Lemma spec_rfc_port_timer_stop q i : (i < 30)%nat → spec q (rfc_port_timer_stop i) any.
Proof. intros Hm. unfold rfc_port_timer_stop. spec_go. Qed.
#[export] Hint Resolve spec_rfc_timer_start spec_rfc_timer_stop spec_rfc_port_timer_start
  spec_rfc_port_timer_stop : spec.

Lemma spec_save_lcid q p lcid :
  valid_mcb p → spec q (rfc_save_lcid_mcb p lcid) any.
Proof.
  intros Hp. apply spec_modify. intros c []. split; [|done]. constructor; simpl; auto.
  destruct p as [m|]; [apply map_Forall_insert_2; auto | by apply map_Forall_delete].
Qed.

Lemma spec_find_lcid q lcid :
  spec q (rfc_find_lcid_mcb lcid) valid_mcb.
Proof.
  unfold rfc_find_lcid_mcb. eapply spec_bind.
  { apply (spec_gets q rfc_lcid_mcb (map_Forall (fun _ m => (m < 16)%nat))). by intros c []. }
  intros t Ht. destruct (t !! lcid) as [m|] eqn:E; [|by apply spec_ret].
  assert (Hm : (m < 16)%nat) by exact (Ht _ _ E).
  eapply spec_bind; [eauto with spec|]. intros mcb _.
  case_match; apply spec_ret; [|done]. by intros ? [= <-].
Qed.
#[export] Hint Resolve spec_save_lcid spec_find_lcid : spec.

(** ** Buffers *)
Abbreviation block_len b := (Z.of_nat (length (hdr_data b))).

Lemma spec_osi_malloc `{Env} q n :
  BT_HDR_SIZE <= n → spec q (osi_malloc n) (fun b => block_len b = n - BT_HDR_SIZE).
Proof.
  intros Hn. unfold osi_malloc. eapply spec_bind; [eauto with spec|]. intros h _.
  apply spec_ret; simpl. rewrite length_fmap, length_seqZ. lia.
Qed.

Lemma spec_buf_write q b pos bs :
  0 <= pos → pos + Z.of_nat (length bs) <= block_len b →
  spec q (buf_write b pos bs)
    (fun b' => block_len b' = block_len b ∧ hdr_offset b' = hdr_offset b ∧
               hdr_len b' = hdr_len b).
Proof.
  intros H1 H2. unfold buf_write. eapply spec_bind.
  { apply (spec_of_option q _ _ (fun mem => Z.of_nat (length mem) = block_len b)).
    eexists. split; [by apply store_some|].
    rewrite !length_app, length_take, length_drop. lia. }
  intros mem Hmem. by apply spec_ret.
Qed.

Lemma spec_buf_slice q b pos n :
  0 <= pos → 0 <= n → pos + n <= block_len b → spec q (buf_slice b pos n) any.
Proof.
  intros. unfold buf_slice.
  replace ((0 <=? pos) && (0 <=? n) && (pos + n <=? block_len b)) with true by lia.
  by apply spec_ret.
Qed.

Lemma spec_buf_read q b pos :
  bytes_ok (hdr_data b) → 0 <= pos → pos < block_len b → spec q (buf_read b pos) is_u8.
Proof.
  intros Hb H1 H2. unfold buf_read, load, at_index. replace (0 <=? pos) with true by lia.
  destruct (lookup_lt_is_Some_2 (hdr_data b) (Z.to_nat pos)) as [o E]; [lia|].
  rewrite E. apply spec_of_option. exists o. split; [done|].
  exact (Forall_lookup_1 _ _ _ _ Hb E).
Qed.

(** ** The command queue *)
Lemma safe_send_cmds fuel m w :
  (m < 16)%nat → Inv (cb w) →
  (∀ mcb, rfc_mcb (cb w) !! m = Some mcb → queue_length (cmd_q mcb) < Z.of_nat fuel) →
  safe (send_cmds fuel m) (fun _ w' => Inv (cb w') ∧ ports (cb w') = ports (cb w)) w.
Proof.
  intros Hm. revert w. induction fuel as [|fuel IH]; intros w Hw Hq.
  { destruct (inv_mcb_ex (cb w) m Hw Hm) as (mcb & E & _). specialize (Hq _ E).
    unfold queue_length in Hq. destruct (cmd_q mcb); lia. }
  destruct (inv_mcb_ex (cb w) m Hw Hm) as (mcb & E & Hok). specialize (Hq _ E). simpl.
  apply safe_bind. eapply safe_get_mcb; [done|]. destruct (l2cap_congested mcb); [by apply safe_ret|].
  destruct (cmd_q mcb) as [[|p q]|] eqn:Ec; [by apply safe_ret| |by apply safe_ret].
  apply safe_bind. eapply safe_upd_mcb; [done|]. apply safe_bind, safe_emit.
  eapply safe_mono; [apply IH|].
  - simpl. apply Inv_mcb; [done|]. destruct Hok. by constructor.
  - simpl. intros mcb'. rewrite list_lookup_insert_eq by (eapply lookup_lt_Some; exact E).
    intros [= <-]; simpl in *. lia.
  - intros [] w' [Hw' Ht]. done.
Qed.

Lemma spec_send_cmd q m pb : (m < 16)%nat → spec q (rfc_check_send_cmd m pb) any.
Proof.
  intros Hm. unfold rfc_check_send_cmd. eapply spec_bind with (φ := any); [spec_go|].
  intros [] _ w Hw. destruct (inv_mcb_ex (cb w) m Hw Hm) as (mcb & E & Hok).
  apply safe_bind. eapply safe_get_mcb; [done|].
  eapply safe_mono; [apply safe_send_cmds; [done|done|]|].
  - intros mcb'. rewrite E. intros [= <-]. unfold queue_length. destruct (cmd_q mcb); lia.
  - intros [] w' [Hw' Ht]. keep_tac.
Qed.
#[export] Hint Resolve spec_send_cmd : spec.

(** ** Frames *)
Section frames_safe.
Context `{Env}.

Lemma spec_ctrl_frame q cr d control : spec q (ctrl_frame cr d control) any.
Proof.
  unfold ctrl_frame. eapply spec_bind; [apply spec_osi_malloc; lia|]. intros b Hb; simpl in *.
  eapply spec_bind; [apply spec_buf_write; simpl; lia|]. intros b1 (Hb1 & _); simpl in *.
  eapply spec_bind; [apply spec_buf_slice; lia|]. intros hd _.
  eapply spec_bind; [apply spec_buf_write; simpl; lia|]. intros b2 _.
  by apply spec_ret.
Qed.
#[local] Hint Resolve spec_ctrl_frame : spec.

Lemma spec_rfc_send_sabme q m d : (m < 16)%nat → spec q (rfc_send_sabme m d) any.
Proof. intros Hm. unfold rfc_send_sabme. spec_go. Qed.

Lemma spec_rfc_send_ua q m d : (m < 16)%nat → spec q (rfc_send_ua m d) any.
Proof. intros Hm. unfold rfc_send_ua. spec_go. Qed.

Lemma spec_rfc_send_dm q m d pf : (m < 16)%nat → spec q (rfc_send_dm m d pf) any.
Proof. intros Hm. unfold rfc_send_dm. spec_go. Qed.

Lemma spec_rfc_send_disc q m d : (m < 16)%nat → spec q (rfc_send_disc m d) any.
Proof. intros Hm. unfold rfc_send_disc. spec_go. Qed.

Lemma spec_rfc_send_credit q m d k : (m < 16)%nat → spec q (rfc_send_credit m d k) any.
Proof.
  intros Hm. unfold rfc_send_credit. eapply spec_bind; [eauto with spec|]. intros mcb _.
  eapply spec_bind; [apply spec_osi_malloc; lia|]. intros b Hb; simpl in *.
  eapply spec_bind; [apply spec_buf_write; simpl; lia|]. intros b1 (Hb1 & Ho & _); simpl in *.
  eapply spec_bind; [apply spec_buf_slice; lia|]. intros hd _.
  eapply spec_bind; [apply spec_buf_write; simpl; lia|]. intros b2 _.
  eauto with spec.
Qed.

(** A UIH header takes [RFCOMM_MIN_OFFSET] octets at most, and ends where the
    payload starts. *)
Lemma spec_rfc_send_buf_uih q m d b :
  (m < 16)%nat → tx_ok b → spec q (rfc_send_buf_uih m d b) any.
Proof.
  intros Hm []. unfold rfc_send_buf_uih. eapply spec_bind; [eauto with spec|]. intros mcb _.
  cbv zeta. set (ext := 127 <? hdr_len b).
  set (credits := if nz d then _ else _).
  assert (Eext : (hdr_len b <=? 127) = negb ext) by (unfold ext; lia). rewrite Eext.
  match goal with |- context [buf_write b ?o ?h] => set (offset := o); set (header := h) end.
  assert (Ho : offset + Z.of_nat (length header) = hdr_offset b ∧ 0 <= offset).
  { unfold offset, header. destruct ext, (nz credits); simpl; wrap_lia. }
  eapply spec_bind; [apply spec_buf_write; lia|]. intros b1 (Hb1 & Ho1 & Hl1).
  assert (El : u16 (hdr_len b + Z.of_nat (length header)) = hdr_len b + Z.of_nat (length header))
    by wrap_lia.
  assert (2 <= Z.of_nat (length header)) by (unfold header; rewrite length_app; cbn [length]; lia).
  clearbody offset header.
  eapply spec_bind; [apply spec_buf_slice; lia|]. intros hd _.
  eapply spec_bind; [rewrite El; apply spec_buf_write; cbn [length]; lia|]. intros b2 _.
  spec_go.
Qed.

Lemma spec_send_mx q m msg :
  (m < 16)%nat → Z.of_nat (length msg) <= 100 → spec q (send_mx m msg) any.
Proof.
  intros Hm Hl. unfold send_mx.
  eapply spec_bind; [apply spec_osi_malloc; lia|]. intros b Hb; simpl in *.
  eapply spec_bind; [apply spec_buf_write; simpl; lia|]. intros b1 (Hb1 & Ho & _); simpl in *.
  apply spec_rfc_send_buf_uih; [done|]. constructor; simpl; lia.
Qed.
#[local] Hint Resolve spec_send_mx : spec.

Lemma spec_rfc_send_pn q m d c mtu cl k : (m < 16)%nat → spec q (rfc_send_pn m d c mtu cl k) any.
Proof.
  intros Hm. unfold rfc_send_pn. eapply spec_bind; [by apply (spec_gets q _ any)|].
  intros rx _. apply spec_send_mx; [done|]. simpl. lia.
Qed.

Lemma spec_rfc_send_fcon q m c : (m < 16)%nat → spec q (rfc_send_fcon m c) any.
Proof. intros Hm. apply spec_send_mx; [done|]. simpl. lia. Qed.

Lemma spec_rfc_send_fcoff q m c : (m < 16)%nat → spec q (rfc_send_fcoff m c) any.
Proof. intros Hm. apply spec_send_mx; [done|]. simpl. lia. Qed.

Lemma spec_rfc_send_msc q m d c pars : (m < 16)%nat → spec q (rfc_send_msc m d c pars) any.
Proof. intros Hm. apply spec_send_mx; [done|]. simpl. case_match; simpl; lia. Qed.

Lemma spec_rfc_send_rls q m d c s : (m < 16)%nat → spec q (rfc_send_rls m d c s) any.
Proof. intros Hm. apply spec_send_mx; [done|]. simpl. lia. Qed.

Lemma spec_rfc_send_nsc q m : (m < 16)%nat → spec q (rfc_send_nsc m) any.
Proof.
  intros Hm. unfold rfc_send_nsc. eapply spec_bind; [by apply (spec_gets q _ any)|].
  intros rx _. apply spec_send_mx; [done|]. simpl. lia.
Qed.

Lemma spec_rfc_send_rpn q m d c s mask : (m < 16)%nat → spec q (rfc_send_rpn m d c s mask) any.
Proof. intros Hm. apply spec_send_mx; [done|]. case_match; simpl; lia. Qed.

(** The FCS of a received frame leaves room for the FCS of the answer. *)
Lemma spec_rfc_send_test q m c b :
  (m < 16)%nat → rx_ok b → hdr_offset b + hdr_len b + 1 <= block_len b →
  spec q (rfc_send_test m c b) any.
Proof.
  intros Hm [] Hend. unfold rfc_send_test. cbv zeta.
  eapply spec_bind with (φ := fun n => hdr_len n = hdr_len b ∧ 20 <= hdr_offset n ∧
    hdr_offset n + hdr_len b + 1 <= block_len n ∧ block_len n <= 65200).
  { destruct (hdr_offset b <? _) eqn:E.
    2: { apply spec_ret. lia. }
    eapply spec_bind with (φ := fun l => Z.of_nat (length l) = hdr_len b).
    { unfold buf_slice. replace (_ && _ && _) with true by lia. apply spec_ret.
      rewrite length_take, length_drop. lia. }
    intros bytes Hbytes.
    eapply spec_bind; [apply spec_osi_malloc; lia|]. intros n Hn; simpl in *.
    eapply spec_mono; [apply spec_buf_write; simpl; lia|]. simpl. intros n' (? & ? & ?). lia. }
  intros n (Hl & Ho & He & Hblk).
  eapply spec_bind; [apply spec_buf_write; simpl; wrap_lia|]. intros n1 (Hb1 & _ & Hl1); simpl in *.
  apply spec_rfc_send_buf_uih; [done|]. constructor; simpl; wrap_lia.
Qed.
End frames_safe.
#[export] Hint Resolve spec_rfc_send_sabme spec_rfc_send_ua spec_rfc_send_dm spec_rfc_send_disc
  spec_rfc_send_credit spec_rfc_send_buf_uih spec_rfc_send_pn spec_rfc_send_fcon
  spec_rfc_send_fcoff spec_rfc_send_msc spec_rfc_send_rls spec_rfc_send_nsc spec_rfc_send_rpn
  spec_rfc_send_test : spec.

(** ** Multiplexer and port control blocks *)
Lemma port_ok_zero : port_ok zero_port.
Proof. constructor; simpl; try done; lia. Qed.

Lemma mcb_ok_zero : mcb_ok zero_mcb.
Proof.
  constructor; [done| |done]. apply (Forall_replicate (fun h => 0 <= h <= 30) 62 0). lia.
Qed.
#[export] Hint Resolve port_ok_zero mcb_ok_zero : spec.

Lemma find_index_Some {A} (f : A → bool) l i :
  find_index f l = Some i → ∃ a, l !! i = Some a ∧ f a = true.
Proof.
  revert i. induction l as [|a l IH]; intros i; simpl; [done|].
  destruct (f a) eqn:E; [intros [= <-]; eauto|].
  destruct (find_index f l); [|done]. intros [= <-]. simpl. by apply IH.
Qed.

Lemma scan_Some n max j free k : scan n max j free = Some k → free k = true.
Proof.
  revert j. induction n as [|n IH]; intros j; simpl; [done|].
  destruct (free (if max <=? j then 0 else j)) eqn:E; [congruence | apply IH].
Qed.

Lemma at_index_Some {A} (l : list A) j a :
  at_index l j = Some a → 0 <= j ∧ l !! Z.to_nat j = Some a.
Proof. unfold at_index. destruct (0 <=? j) eqn:E; [|done]. intros. split; [lia|done]. Qed.

Lemma spec_alloc_mux q bd init :
  spec q (rfc_alloc_multiplexer_channel bd init) valid_mcb.
Proof.
  unfold rfc_alloc_multiplexer_channel.
  eapply spec_bind; [apply (spec_gets q rfc_mcb (fun l => length l = 16%nat)); apply inv_nmcbs|].
  intros ms Hms; simpl in Hms. destruct (find_index _ ms) as [i|] eqn:Ei.
  { apply find_index_Some in Ei as (mcb & Hi & _). apply lookup_lt_Some in Hi.
    rewrite Hms in Hi. eapply spec_bind; [eauto with spec|]. intros mcb' _.
    eapply spec_bind; [spec_go|]. intros _ _. apply spec_ret. by intros ? [= <-]. }
  eapply spec_bind; [by apply (spec_gets q _ any)|]. intros last _. cbv zeta.
  destruct (scan _ _ _ _) as [j|] eqn:Ej; [|by apply spec_ret].
  apply scan_Some in Ej. destruct (at_index ms j) as [mcb|] eqn:Ea; [|done].
  apply at_index_Some in Ea as [Hj Ea]. apply lookup_lt_Some in Ea. rewrite Hms in Ea.
  eapply spec_bind.
  { apply spec_upd_mcb; [done|]. intros ? _. destruct mcb_ok_zero. by constructor. }
  intros _ _. eapply spec_bind; [eauto with spec|]. intros _ _.
  eapply spec_bind.
  { apply spec_modify. intros c []. split; [by constructor | done]. }
  intros _ _. apply spec_ret. by intros ? [= <-].
Qed.

Lemma spec_release_mux q m : (m < 16)%nat → spec q (rfc_release_multiplexer_channel m) any.
Proof.
  intros Hm. unfold rfc_release_multiplexer_channel. spec_go.
  apply spec_upd_mcb; [done|]. intros ? _. apply mcb_ok_zero.
Qed.
#[export] Hint Resolve spec_alloc_mux spec_release_mux : spec.

(** ** Ports *)
Lemma port_ok_defaults p : port_ok p → port_ok (port_set_defaults p).
Proof. intros []. constructor; simpl; auto using Forall_nil_2; [lia|done]. Qed.

Lemma land_0xfe_range d : 0 <= d <= 61 → 0 <= Z.land d 0xfe <= 61.
Proof.
  intros Hd. pose proof (below_forallb 62
    (fun d => (0 <=? Z.land d 0xfe) && (Z.land d 0xfe <=? 61)) eq_refl d ltac:(lia)) as H.
  simpl in H. lia.
Qed.

Lemma keeps_clear_dlci q : keeps_port q (fun p => p <| dlci ::= fun d => Z.land d 0xfe |>).
Proof.
  intros p []. split; [|by destruct q]. constructor; simpl; auto. by apply land_0xfe_range.
Qed.

Lemma port_ok_reinit p : port_ok p → port_ok (reinit_port p).
Proof.
  intros []. unfold reinit_port. simpl.
  destruct (is_server p); constructor; simpl; auto using Forall_nil_2, land_0xfe_range.
  all: first [done | lia].
Qed.

Lemma port_ok_drain p : port_ok p → port_ok (p <| rx ::= drain |> <| tx ::= drain |>).
Proof.
  intros []. constructor; simpl; auto.
  - destruct (queue (tx p)); simpl; auto using Forall_nil_2.
  - destruct (queue (rx p)); simpl; auto using Forall_nil_2.
  - done.
Qed.

Section utils_safe.
Context `{Env}.

Lemma keeps_credit_limits q : keeps_port q set_credit_limits.
Proof. unfold set_credit_limits. intros p []. split; [by constructor | by destruct q]. Qed.

Lemma mtu_for_packet_size_nonneg n : 0 <= mtu_for_packet_size n.
Proof.
  unfold mtu_for_packet_size. repeat case_match; [lia|apply u16_range|lia].
Qed.
#[local] Hint Resolve mtu_for_packet_size_nonneg : spec.
#[local] Hint Resolve keeps_credit_limits : spec.

Lemma spec_port_select_mtu q i : (i < 30)%nat → spec q (port_select_mtu i) any.
Proof. intros Hi. unfold port_select_mtu. spec_go. Qed.

Lemma spec_find_mcb_dlci_port q pm d :
  valid_mcb pm → 0 <= d →
  spec q (port_find_mcb_dlci_port pm d) valid_port.
Proof.
  intros Hm Hd. unfold port_find_mcb_dlci_port. destruct pm as [m|]; [|by apply spec_ret].
  case_match; [by apply spec_ret|].
  eapply spec_bind; [apply spec_read_handle; [by apply Hm|lia]|]. intros h Hh; simpl in Hh.
  case_match; apply spec_ret; [done|]. intros i [= <-]. unfold port_index. lia.
Qed.

(** The DLCI a port is found for is one it may have: it either has it already or
    gets the direction bit added to an even one. *)
Lemma unbound_port_dlci d p :
  port_ok p → unbound_port d p = true → 0 <= d <= 61.
Proof.
  intros [Hd _ _ _ _]. unfold unbound_port. rewrite !andb_true_iff, orb_true_iff, andb_true_iff.
  intros (_ & [E|[Ho E]]); [lia|]. apply Z.eqb_eq in E. apply nz_true in Ho.
  change 1 with (Z.ones 1) in Ho. rewrite Z.land_ones in Ho by lia.
  change (2 ^ 1) with 2 in Ho. Z.div_mod_to_equations. lia.
Qed.

Lemma unbound_port_next d p : unbound_port d p = true → dlci p = d ∨ dlci p + 1 = d.
Proof. unfold unbound_port. intros. lia. Qed.

Lemma spec_find_dlci_port q d :
  spec q (port_find_dlci_port d) (fun r => ∀ i, r = Some i → (i < 30)%nat ∧ 0 <= d <= 61).
Proof.
  intros w Hw. unfold port_find_dlci_port. apply safe_bind, safe_gets.
  destruct (find_index _ _) as [i|] eqn:E; [|apply safe_ret; keep_tac].
  apply find_index_Some in E as (p & Hi & Hu).
  pose proof (inv_port_lookup _ _ _ Hw Hi) as Hp.
  pose proof (unbound_port_dlci d p Hp Hu) as Hd.
  assert (Hlt : (i < 30)%nat) by (rewrite <-(inv_nports _ Hw); by eapply lookup_lt_Some).
  apply safe_bind. eapply safe_get_port; [done|]. apply safe_bind.
  apply safe_mono with (Q := fun _ w' => Inv (cb w') ∧ kept_all q (cb w) (cb w')).
  2: { intros [] w' [Hw' Ht]. apply safe_ret. split_and!; [done|done|]. by intros ? [= <-]. }
  apply safe_when; [|by auto using kept_all_refl].
  intros En. eapply safe_upd_port; [done|]. simpl. split.
  - apply Inv_port; [done|]. destruct Hp. constructor; simpl; auto.
    pose proof (unbound_port_next d p Hu). rewrite negb_true_iff in En.
    rewrite u8_small; unfold is_u8; lia.
  - eapply kept_all_insert; [done| |done]. by destruct q.
Qed.
End utils_safe.
#[export] Hint Resolve spec_port_select_mtu spec_find_mcb_dlci_port spec_find_dlci_port
  keeps_clear_dlci : spec.

(** ** The recursion between the state machines

    An event raised from inside another one has a rank: handling it raises
    events of smaller rank only.  [SMsafe n] is what is known of the machines
    when events of rank below [n] may be raised; events that are never raised
    from inside get a rank that is not used. *)
Definition mx_rank (ev : tRFC_MX_EVENT) : nat :=
  match ev with
  | RFC_MX_EVENT_CLOSE_REQ | RFC_MX_EVENT_CONN_IND => 0
  | RFC_MX_EVENT_START_RSP | RFC_MX_EVENT_START_REQ => 1
  | _ => 2
  end.

Definition port_rank (ev : tRFC_PORT_EVENT) : nat :=
  match ev with
  | RFC_PORT_EVENT_DATA | RFC_PORT_EVENT_OPEN | RFC_PORT_EVENT_ESTABLISH_RSP => 0
  | RFC_PORT_EVENT_CLOSE => 1
  | _ => 2
  end.

(** The buffer an event carries. *)
Definition pd_ok (ev : tRFC_PORT_EVENT) (d : port_data) : Prop :=
  match ev, d with
  | RFC_PORT_EVENT_DATA, PD_buf b => tx_ok b
  | RFC_PORT_EVENT_UIH, PD_buf b => rx_ok b
  | _, _ => True
  end.

Class SMsafe (n : nat) `{SM} : Prop := {
  safe_mx q m ev d :
    (m < 16)%nat → (mx_rank ev < n)%nat → (q ≠ Loose → mx_rank ev = 0%nat) →
    spec q (sm_mx m ev d) any;
  safe_port q p ev d :
    valid_port p → (port_rank ev < n)%nat → (q ≠ Loose → ev = RFC_PORT_EVENT_DATA) →
    pd_ok ev d → spec q (sm_port p ev d) any;
}.

Section port_safe.
Context `{Env, !SM} {n : nat} {Hsafe : SMsafe n}.

Lemma spec_close_req q m : (m < 16)%nat → (0 < n)%nat →
  spec q (sm_mx m RFC_MX_EVENT_CLOSE_REQ MX_null) any.
Proof. intros. by apply safe_mx. Qed.
#[local] Hint Resolve spec_close_req : spec.

Lemma spec_check_mcb_active q m : (m < 16)%nat → (0 < n)%nat →
  spec q (rfc_check_mcb_active m) any.
Proof. intros Hm Hn. unfold rfc_check_mcb_active. spec_go. Qed.
#[local] Hint Resolve spec_check_mcb_active : spec.

Lemma spec_port_release_port i : (i < 30)%nat → (0 < n)%nat →
  spec Loose (port_release_port i) any.
Proof.
  intros Hi Hn. unfold port_release_port.
  eapply spec_bind.
  { apply spec_upd_port; [done|]. intros p Hp. split; [by apply port_ok_drain | done]. }
  intros [] _. spec_go.
  apply spec_upd_port; [done|]. intros p Hp. split; [|done].
  destruct (keep_port_handle p); [by apply port_ok_reinit | apply port_ok_zero].
Qed.
#[local] Hint Resolve spec_port_release_port : spec.

End port_safe.
#[export] Hint Resolve spec_close_req spec_check_mcb_active spec_port_release_port : spec.
