(* ===== verification/RfcSafety.v ===== *)
(** * Memory safety of the port layer, the state machines and the inputs

    The lemmas of [RfcInvariant] carried up the call graph. *)
From S2P Require Import Prelude RfcDefs RfcFcs RfcMonad RfcFrames RfcUtils RfcPort.
From S2P Require Import RfcMxFsm RfcPortFsm RfcApi RfcSystem RfcInvariant.

Section port_layer.
Context `{Env, !SM} {n : nat} {Hsafe : SMsafe n}.

(** ** Requests *)
Lemma spec_call_port_callback q p ev : spec q (call_port_callback p ev) any.
Proof. unfold call_port_callback. spec_go. Qed.

Lemma spec_call_mgmt_callback q p c : spec q (call_mgmt_callback p c) any.
Proof. unfold call_mgmt_callback. spec_go. Qed.
#[local] Hint Resolve spec_call_port_callback spec_call_mgmt_callback : spec.

Lemma spec_par_neg_request q m d mtu : (m < 16)%nat → 0 <= d →
  spec q (RFCOMM_ParameterNegotiationRequest m d mtu) any.
Proof. intros Hm Hd. unfold RFCOMM_ParameterNegotiationRequest. spec_go. Qed.

Lemma spec_par_neg_response q m d mtu cl k : (m < 16)%nat →
  spec q (RFCOMM_ParameterNegotiationResponse m d mtu cl k) any.
Proof. intros Hm. unfold RFCOMM_ParameterNegotiationResponse. spec_go. Qed.

Lemma spec_port_par_neg_response q m d s mask : (m < 16)%nat →
  spec q (RFCOMM_PortParameterNegotiationResponse m d s mask) any.
Proof. intros Hm. unfold RFCOMM_PortParameterNegotiationResponse. spec_go. Qed.

Lemma spec_control_req q pm d pars : valid_mcb pm → 0 <= d →
  spec q (RFCOMM_ControlReq pm d pars) any.
Proof. intros Hm Hd. unfold RFCOMM_ControlReq. spec_go. Qed.

Lemma spec_flow_req q pm d en : valid_mcb pm → 0 <= d →
  spec q (RFCOMM_FlowReq pm d en) any.
Proof. intros Hm Hd. unfold RFCOMM_FlowReq. spec_go. Qed.

Lemma spec_line_status_req q pm d s : valid_mcb pm → 0 <= d →
  spec q (RFCOMM_LineStatusReq pm d s) any.
Proof. intros Hm Hd. unfold RFCOMM_LineStatusReq. spec_go. Qed.
#[local] Hint Resolve spec_par_neg_request spec_par_neg_response spec_port_par_neg_response
  spec_control_req spec_flow_req spec_line_status_req : spec.

Lemma spec_dlc_release_req pm d : valid_mcb pm → 0 <= d → (1 < n)%nat →
  spec Loose (RFCOMM_DlcReleaseReq pm d) any.
Proof.
  intros Hm Hd Hn. unfold RFCOMM_DlcReleaseReq. eapply spec_bind; [eauto with spec|].
  intros p Hp. by apply safe_port.
Qed.

Lemma spec_data_req q pm d b : valid_mcb pm → 0 <= d → tx_ok b → (0 < n)%nat →
  spec q (RFCOMM_DataReq pm d b) any.
Proof.
  intros Hm Hd Hb Hn. unfold RFCOMM_DataReq. eapply spec_bind; [eauto with spec|].
  intros p Hp. by apply safe_port.
Qed.

Lemma spec_start_req m : (m < 16)%nat → (1 < n)%nat → spec Loose (RFCOMM_StartReq m) any.
Proof. intros. by apply safe_mx. Qed.

Lemma spec_start_rsp m r : (m < 16)%nat → (1 < n)%nat → spec Loose (RFCOMM_StartRsp m r) any.
Proof. intros. by apply safe_mx. Qed.
#[local] Hint Resolve spec_dlc_release_req spec_data_req spec_start_req spec_start_rsp : spec.

(** ** Flow control and closing *)
Lemma spec_flow_control_user q i : (i < 30)%nat → spec q (port_flow_control_user i) any.
Proof. intros Hi. unfold port_flow_control_user. spec_go. Qed.

Lemma spec_flow_control_peer q i en c : (i < 30)%nat →
  spec q (port_flow_control_peer i en c) any.
Proof. intros Hi. unfold port_flow_control_peer, set_rx_peer_fc. spec_go. Qed.

Lemma spec_fail_line q i : (i < 30)%nat → spec q (fail_line i) any.
Proof. intros Hi. unfold fail_line. spec_go. Qed.
#[local] Hint Resolve spec_flow_control_user spec_flow_control_peer spec_fail_line : spec.

Lemma spec_port_rfc_closed i res : (i < 30)%nat → (0 < n)%nat →
  spec Loose (port_rfc_closed i res) any.
Proof. intros Hi Hn. unfold port_rfc_closed. spec_go. Qed.
#[local] Hint Resolve spec_port_rfc_closed : spec.

Lemma spec_rfc_port_closed i : (i < 30)%nat → (0 < n)%nat → spec Loose (rfc_port_closed i) any.
Proof. intros Hi Hn. unfold rfc_port_closed. spec_go. Qed.

Lemma spec_port_start_close i : (i < 30)%nat → (1 < n)%nat →
  spec Loose (port_start_close i) any.
Proof. intros Hi Hn. unfold port_start_close. spec_go. Qed.

Lemma spec_get_credits q i k : (i < 30)%nat → spec q (port_get_credits i k) any.
Proof. intros Hi. unfold port_get_credits. spec_go. Qed.
#[local] Hint Resolve spec_rfc_port_closed spec_get_credits : spec.

(** ** Sending queued data

    Every round takes a buffer from the queue and the data event puts none
    back, so a fuel above the length of the queue is enough. *)
Lemma safe_send_tx_loop fuel i ev w :
  (i < 30)%nat → (0 < n)%nat → Inv (cb w) →
  (∀ p, ports (cb w) !! i = Some p → queue_length (queue (tx p)) < Z.of_nat fuel) →
  safe (send_tx_loop fuel i ev) (fun _ w' => Inv (cb w')) w.
Proof.
  intros Hi Hn. revert ev w. induction fuel as [|fuel IH]; intros ev w Hw Hq.
  { destruct (inv_port_ex (cb w) i Hw Hi) as (p & E & _). specialize (Hq _ E).
    unfold queue_length in Hq. destruct (queue (tx p)); lia. }
  destruct (inv_port_ex (cb w) i Hw Hi) as (p & E & Hok). specialize (Hq _ E). simpl.
  apply safe_bind. eapply safe_get_port; [done|].
  destruct (peer_fc (tx p)); [by apply safe_ret|].
  destruct (p_mcb (rfc p)) as [m|] eqn:Em; [|by apply safe_ret].
  assert (Hm : (m < 16)%nat) by bound_tac.
  destruct (inv_mcb_ex (cb w) m Hw Hm) as (mcb & Emcb & _).
  apply safe_bind. eapply safe_get_mcb; [done|].
  destruct (negb (peer_ready mcb)); [by apply safe_ret|].
  destruct (queue (tx p)) as [[|b q]|] eqn:Eq; [by apply safe_ret| |by apply safe_ret].
  destruct Hok. rewrite Eq in ok_tx. apply Forall_cons in ok_tx as [Hb Htx].
  apply safe_bind. eapply safe_upd_port; [done|]. apply safe_bind.
  eapply safe_mono.
  { apply (spec_data_req KeepQueue (Some m) (dlci p) b); auto using txq_tx_ok with spec.
    simpl. apply Inv_port; [done|]. by constructor. }
  intros [] w1 (Hw1 & Ht & _).
  destruct (Ht i _ ltac:(apply list_lookup_insert_eq; by eapply lookup_lt_Some))
    as (p1 & E1 & _ & Eq1). simpl in Eq1.
  apply safe_bind. eapply safe_get_port; [done|].
  destruct (queue_size (tx p1) =? 0); [by apply safe_ret|].
  apply IH; [done|]. intros p2 E2. rewrite E1 in E2. injection E2 as <-.
  rewrite Eq1. simpl in *. lia.
Qed.

Lemma spec_send_tx_data i : (i < 30)%nat → (0 < n)%nat →
  spec Loose (port_rfc_send_tx_data i) any.
Proof.
  intros Hi Hn. apply loose_safe. unfold port_rfc_send_tx_data. intros w Hw.
  destruct (inv_port_ex (cb w) i Hw Hi) as (p & E & Hok).
  apply safe_bind. eapply safe_get_port; [done|]. apply safe_bind.
  apply safe_mono with (Q := fun _ w' => Inv (cb w')).
  2: { intros ev w' Hw'. assert (Hs : spec Loose
         (p ← get_port i; mret (Z.land ev (ev_mask p))) any) by spec_go.
       by eapply spec_safe. }
  destruct (0 <? queue_size (tx p)); [|by apply safe_ret].
  apply safe_bind. eapply safe_mono.
  { apply safe_send_tx_loop; [done..|]. intros p'. rewrite E. intros [= <-].
    unfold queue_length. destruct (queue (tx p)); lia. }
  intros ev w' Hw'. assert (Hs : spec Loose
    (fc ← port_flow_control_user i; mret (Z.lor ev fc)) any) by spec_go.
  by eapply spec_safe.
Qed.
#[local] Hint Resolve spec_send_tx_data : spec.

Lemma spec_flow_port i : (i < 30)%nat → (0 < n)%nat → spec Loose (flow_port i) any.
Proof. intros Hi Hn. unfold flow_port. spec_go. Qed.
#[local] Hint Resolve spec_flow_port : spec.

Lemma spec_flow_ind m d en : (m < 16)%nat → 0 <= d → (0 < n)%nat →
  spec Loose (PORT_FlowInd m d en) any.
Proof. intros Hm Hd Hn. unfold PORT_FlowInd. spec_go. Qed.
#[local] Hint Resolve spec_flow_ind : spec.

Lemma spec_inc_credit i c : (i < 30)%nat → (0 < n)%nat → spec Loose (rfc_inc_credit i c) any.
Proof. intros Hi Hn. unfold rfc_inc_credit. spec_go. Qed.

Lemma spec_dec_credit q i : (i < 30)%nat → spec q (rfc_dec_credit i) any.
Proof. intros Hi. unfold rfc_dec_credit. spec_go. Qed.
#[local] Hint Resolve spec_dec_credit : spec.

(** ** Indications and confirmations *)
Lemma spec_start_cnf m r : (m < 16)%nat → (0 < n)%nat → spec Loose (PORT_StartCnf m r) any.
Proof.
  intros Hm Hn. unfold PORT_StartCnf.
  assert (Hl : ∀ l b, (∀ i, i ∈ l → (i < 30)%nat) →
    spec Loose (start_cnf_loop l m r b) any).
  { induction l as [|i l IH]; intros b Hl; simpl; [by apply spec_ret|].
    assert (Hi : (i < 30)%nat) by (apply Hl; left).
    assert (IH' : ∀ b, spec Loose (start_cnf_loop l m r b) any).
    { intros b'. apply IH. intros. apply Hl. by right. }
    spec_go; auto. }
  eapply spec_bind; [apply Hl, elem_of_port_indices|]. intros b _. spec_go.
Qed.

Lemma spec_start_ind m : (m < 16)%nat → (1 < n)%nat → spec Loose (PORT_StartInd m) any.
Proof.
  intros Hm Hn. unfold PORT_StartInd. eapply spec_bind; [by apply (spec_gets _ _ any)|].
  intros ps _. spec_go.
Qed.

Lemma spec_bind_handle q m d i : (m < 16)%nat → (i < 30)%nat → 0 <= d <= 61 →
  spec q (bind_handle m d i) any.
Proof. intros Hm Hi Hd. unfold bind_handle. spec_go. Qed.

Lemma spec_find_or_bind q m d : (m < 16)%nat → 0 <= d →
  spec q (find_or_bind_port m d) valid_port.
Proof.
  intros Hm Hd. unfold find_or_bind_port. eapply spec_bind; [eauto with spec|].
  intros [i|] Hi; [by apply spec_ret|]. eapply spec_bind; [eauto with spec|].
  intros [i|] Hi'; [|by apply spec_ret]. destruct (Hi' i eq_refl) as [Hlt Hd'].
  eapply spec_bind; [by apply spec_bind_handle|]. intros _ _. apply spec_ret. by intros ? [= <-].
Qed.
#[local] Hint Resolve spec_start_cnf spec_start_ind spec_bind_handle spec_find_or_bind : spec.

Lemma spec_par_neg_ind m d mtu cl k : (m < 16)%nat → 0 <= d → 0 <= mtu → (0 < n)%nat →
  spec Loose (PORT_ParNegInd m d mtu cl k) any.
Proof. intros Hm Hd Hmtu Hn. unfold PORT_ParNegInd. spec_go. Qed.

Lemma spec_port_neg_ind q m d s mask : (m < 16)%nat → 0 <= d →
  spec q (PORT_PortNegInd m d s mask) any.
Proof. intros Hm Hd. unfold PORT_PortNegInd. spec_go. Qed.

Lemma spec_port_neg_cnf m d r : (m < 16)%nat → 0 <= d → (1 < n)%nat →
  spec Loose (PORT_PortNegCnf m d r) any.
Proof. intros Hm Hd Hn. unfold PORT_PortNegCnf. spec_go. Qed.
#[local] Hint Resolve spec_port_neg_cnf : spec.

Lemma spec_port_par_neg_request m d s : (m < 16)%nat → 0 <= d → (1 < n)%nat →
  spec Loose (RFCOMM_PortParameterNegotiationRequest m d s) any.
Proof. intros Hm Hd Hn. unfold RFCOMM_PortParameterNegotiationRequest. spec_go. Qed.
#[local] Hint Resolve spec_port_par_neg_request : spec.

Lemma spec_port_start_control i : (i < 30)%nat → spec Loose (port_start_control i) any.
Proof. intros Hi. unfold port_start_control. spec_go. Qed.

Lemma spec_port_start_par_neg i : (i < 30)%nat → (1 < n)%nat →
  spec Loose (port_start_par_neg i) any.
Proof. intros Hi Hn. unfold port_start_par_neg. spec_go. Qed.

Lemma spec_notify_connected q i : (i < 30)%nat → spec q (notify_connected i) any.
Proof. intros Hi. unfold notify_connected. spec_go. Qed.

Lemma spec_limit_peer_mtu i l : (i < 30)%nat → 0 <= l → spec Loose (limit_peer_mtu i l) any.
Proof. intros Hi Hl. unfold limit_peer_mtu. spec_go. Qed.
#[local] Hint Resolve spec_notify_connected spec_limit_peer_mtu : spec.

Lemma spec_establish_error m d l r : (m < 16)%nat → 0 <= d → (0 < n)%nat →
  r ≠ RFCOMM_SUCCESS → spec Loose (PORT_DlcEstablishCnf m d l r) any.
Proof.
  intros Hm Hd Hn Hr. unfold PORT_DlcEstablishCnf.
  replace (r =? RFCOMM_SUCCESS) with false by lia. simpl negb. cbv iota. spec_go.
Qed.

Lemma spec_establish_cnf m d l r : (m < 16)%nat → 0 <= d → 0 <= l → (1 < n)%nat →
  spec Loose (PORT_DlcEstablishCnf m d l r) any.
Proof. intros Hm Hd Hl Hn. unfold PORT_DlcEstablishCnf. spec_go. Qed.
#[local] Hint Resolve spec_establish_cnf spec_establish_error : spec.
#[local] Hint Extern 1 (_ ≠ RFCOMM_SUCCESS) => lia : spec.

Lemma spec_establish_req m d : (m < 16)%nat → 0 <= d → (0 < n)%nat →
  spec Loose (RFCOMM_DlcEstablishReq m d) any.
Proof.
  intros Hm Hd Hn. unfold RFCOMM_DlcEstablishReq. spec_go. by apply safe_port.
Qed.
#[local] Hint Resolve spec_establish_req : spec.

Lemma spec_par_neg_cnf m d mtu cl k : (m < 16)%nat → 0 <= d → 0 <= mtu → (0 < n)%nat →
  spec Loose (PORT_ParNegCnf m d mtu cl k) any.
Proof. intros Hm Hd Hmtu Hn. unfold PORT_ParNegCnf. spec_go. Qed.

Lemma spec_dlc_release_ind m d : (m < 16)%nat → 0 <= d → (0 < n)%nat →
  spec Loose (PORT_DlcReleaseInd m d) any.
Proof. intros Hm Hd Hn. unfold PORT_DlcReleaseInd. spec_go. Qed.
#[local] Hint Resolve spec_dlc_release_ind : spec.

Lemma spec_establish_rsp m d r : (m < 16)%nat → 0 <= d → (0 < n)%nat →
  spec Loose (RFCOMM_DlcEstablishRsp m d r) any.
Proof.
  intros Hm Hd Hn. unfold RFCOMM_DlcEstablishRsp. spec_go. by apply safe_port.
Qed.
#[local] Hint Resolve spec_establish_rsp : spec.

Lemma spec_establish_ind m d l : (m < 16)%nat → 0 <= d → 0 <= l → (0 < n)%nat →
  spec Loose (PORT_DlcEstablishInd m d l) any.
Proof. intros Hm Hd Hl Hn. unfold PORT_DlcEstablishInd. spec_go. Qed.

Lemma spec_control_ind m d pars : (m < 16)%nat → 0 <= d → (0 < n)%nat →
  spec Loose (PORT_ControlInd m d pars) any.
Proof. intros Hm Hd Hn. unfold PORT_ControlInd. spec_go. Qed.

Lemma spec_control_cnf pm d : valid_mcb pm → 0 <= d → (0 < n)%nat →
  spec Loose (PORT_ControlCnf pm d) any.
Proof. intros Hm Hd Hn. unfold PORT_ControlCnf. spec_go. Qed.

Lemma spec_line_status_ind q m d s : (m < 16)%nat → 0 <= d →
  spec q (PORT_LineStatusInd m d s) any.
Proof. intros Hm Hd. unfold PORT_LineStatusInd. spec_go. Qed.

Lemma spec_timeout_close_mux pm : (0 < n)%nat → spec Loose (PORT_TimeOutCloseMux pm) any.
Proof. intros Hn. unfold PORT_TimeOutCloseMux. spec_go. Qed.

Lemma spec_close_ind m : (m < 16)%nat → (0 < n)%nat → spec Loose (PORT_CloseInd m) any.
Proof. intros Hm Hn. unfold PORT_CloseInd. spec_go. Qed.

Lemma spec_data_ind q pm d b : valid_mcb pm → 0 <= d → rx_ok b →
  spec q (PORT_DataInd pm d b) any.
Proof.
  intros Hm Hd Hb. unfold PORT_DataInd. spec_go.
  - destruct Hb. by apply spec_buf_slice.
  - pose proof (ok_rx _ Ha0) as Hrx.
    apply spec_upd_port; [bound_tac|]. intros p' []. split; [|by destruct q].
    constructor; simpl; auto using u32_range. apply Forall_app. split; [|by constructor].
    match goal with E : queue (rx _) = Some _ |- _ => by rewrite E in Hrx end.
Qed.

Lemma spec_port_open_continue i : (i < 30)%nat → (1 < n)%nat →
  spec Loose (port_open_continue i) any.
Proof. intros Hi Hn. unfold port_open_continue. spec_go. Qed.
End port_layer.
#[export] Hint Resolve spec_par_neg_request spec_par_neg_response spec_port_par_neg_response
  spec_control_req spec_flow_req spec_line_status_req spec_flow_control_peer
  spec_port_rfc_closed spec_rfc_port_closed spec_flow_ind spec_inc_credit spec_dec_credit
  spec_start_cnf spec_start_ind spec_bind_handle spec_par_neg_ind spec_port_neg_ind
  spec_port_neg_cnf spec_establish_cnf spec_establish_error spec_par_neg_cnf
  spec_dlc_release_ind spec_establish_ind spec_control_ind spec_control_cnf
  spec_line_status_ind spec_timeout_close_mux spec_close_ind spec_data_ind : spec.
#[export] Hint Extern 1 (_ ≠ RFCOMM_SUCCESS) => lia : spec.

(** ** The multiplexer state machine *)

(** The ports entered at even DLCIs of a multiplexer have these DLCIs: what
    [update_direction] relies on when it adds the direction bit.  [from] says
    where the loop is. *)
Definition direction_ok (from m : nat) (c : tRFC_CB) : Prop :=
  ∀ mcb j h, rfc_mcb c !! m = Some mcb → (from <= j < 31)%nat →
    port_handles mcb !! (2 * j)%nat = Some h → h ≠ 0 →
    ∃ p, ports c !! port_index h = Some p ∧ dlci p = Z.of_nat (2 * j).

Lemma direction_ok_weaken j m c : direction_ok j m c → direction_ok (S j) m c.
Proof. intros Hd mcb k h ? ? ? ?. eapply Hd; eauto with lia. Qed.

(** One round of the loop. *)
Lemma direction_ok_step j m c c' mcb h p p' :
  rfc_mcb c !! m = Some mcb → direction_ok j m c →
  ports c !! port_index h = Some p → dlci p = Z.of_nat (2 * j) →
  (∀ mcb' k, rfc_mcb c' !! m = Some mcb' → (j < k)%nat →
     port_handles mcb' !! (2 * k)%nat = port_handles mcb !! (2 * k)%nat) →
  ports c' = <[port_index h := p']> (ports c) →
  direction_ok (S j) m c'.
Proof.
  intros Em Hd Ep Edlci Hsame Eports mcb' k h' Emcb Hk Eh Hne.
  rewrite (Hsame _ k Emcb) in Eh by lia.
  destruct (Hd mcb k h' Em ltac:(lia) Eh Hne) as (q & Eq & Ed').
  exists q. split; [|done]. rewrite Eports, list_lookup_insert_ne; [done|].
  intros E. rewrite <-E, Ep in Eq. injection Eq as <-. lia.
Qed.

Lemma handles_lookup_insert mcb d k h :
  mcb_ok mcb → 0 <= d <= 61 →
  ∃ h0, at_index (port_handles (mcb <| port_handles ::= <[k := h]> |>)) d = Some h0.
Proof.
  intros [Hl _ _] Hd. simpl. unfold at_index. replace (0 <=? d) with true by lia.
  apply lookup_lt_is_Some_2. rewrite length_insert. lia.
Qed.

Lemma safe_update_direction m w :
  (m < 16)%nat → Inv (cb w) → direction_ok 0 m (cb w) →
  safe (update_direction m) (fun _ w' => Inv (cb w')) w.
Proof.
  intros Hm. unfold update_direction.
  assert (Hgen : ∀ k j w, (j + k = 31)%nat → Inv (cb w) → direction_ok j m (cb w) →
    safe (forM_ (seq j k) (fun j => let i := 2 * Z.of_nat j in
      h ← read_handle m i;
      when (nz h) (write_handle m i 0;; write_handle m (i + 1) h;;
        upd_port (port_index h) (fun p => p <| dlci ::= fun d => u8 (d + 1) |>))))
      (fun _ w' => Inv (cb w')) w); [|by apply Hgen].
  induction k as [|k IH]; intros j w' Hjk Hw Hd; cbn [seq forM_]; [by apply safe_ret|].
  destruct (inv_mcb_ex (cb w') m Hw Hm) as (mcb & Emcb & Hok).
  destruct (handles_lookup mcb (2 * Z.of_nat j) Hok ltac:(lia)) as (h & Eh & Hh).
  pose proof (at_index_Some _ _ _ Eh) as [_ Eh'].
  replace (Z.to_nat (2 * Z.of_nat j)) with (2 * j)%nat in Eh' by lia.
  apply safe_bind. cbv zeta. apply safe_bind. unfold read_handle at 1.
  apply safe_bind. eapply safe_get_mcb; [done|]. apply safe_of_option.
  exists h. split; [done|]. apply safe_mono with
    (Q := fun _ w' => Inv (cb w') ∧ direction_ok (S j) m (cb w')).
  2: { intros [] w2 [Hw2 Hd2]. apply IH; [lia|done|done]. }
  apply safe_when.
  2: { intros _. split; [done|]. by apply direction_ok_weaken. }
  intros Hnz. apply nz_true in Hnz.
  destruct (Hd mcb j h Emcb ltac:(lia) Eh' Hnz) as (p & Ep & Edlci).
  pose proof (inv_port_lookup _ _ _ Hw Ep) as Hp.
  assert (Hlt : (m < length (rfc_mcb (cb w')))%nat) by (by eapply lookup_lt_Some).
  destruct Hok as [Hlen Hall Hmtu].
  apply safe_bind. eapply safe_write_handle; [done..|].
  destruct (handles_lookup_insert mcb (2 * Z.of_nat j + 1) (Z.to_nat (2 * Z.of_nat j)) 0)
    as [h0 Eh0]; [by constructor | lia|].
  apply safe_bind. eapply safe_write_handle; [by apply list_lookup_insert_eq | exact Eh0|].
  eapply safe_upd_port; [done|]. simpl cb. split.
  - apply Inv_port; [apply Inv_mcb; [apply Inv_mcb; [done|]|]|].
    + constructor; simpl; [by rewrite length_insert | apply Forall_insert; [done|lia] | done].
    + constructor; simpl; [by rewrite !length_insert | apply Forall_insert; [|done] | done].
      apply Forall_insert; [done|lia].
    + destruct Hp. constructor; simpl; auto. wrap_lia.
  - eapply direction_ok_step; [done..| |done].
    simpl. intros mcb' k0. rewrite list_lookup_insert_eq by (by rewrite length_insert).
    intros [= <-] Hk. simpl. by rewrite !list_lookup_insert_ne by lia.
Qed.

(** Steps before the loop that leave ports and handles alone. *)
Definition keeps_direction {A} (m : nat) (k : M A) : Prop :=
  ∀ w, Inv (cb w) → direction_ok 0 m (cb w) →
    safe k (fun _ w' => Inv (cb w') ∧ direction_ok 0 m (cb w')) w.

Lemma direction_ok_same m c c' :
  ports c' = ports c → port_handles <$> (rfc_mcb c' !! m) = port_handles <$> (rfc_mcb c !! m) →
  direction_ok 0 m c → direction_ok 0 m c'.
Proof.
  intros Ep Em Hd mcb' j h Emcb Hj Eh Hne. rewrite Emcb in Em. simpl in Em.
  destruct (rfc_mcb c !! m) as [mcb|] eqn:E; [|done]. injection Em as Em.
  rewrite Ep. eapply Hd; eauto. by rewrite <-Em.
Qed.

Lemma direction_emit m o : keeps_direction m (emit o).
Proof. intros w Hw Hd. by apply safe_emit. Qed.

Lemma direction_get m : (m < 16)%nat → keeps_direction m (get_mcb m).
Proof.
  intros Hm w Hw Hd. destruct (inv_mcb_ex (cb w) m Hw Hm) as (mcb & E & Hok).
  by eapply safe_get_mcb.
Qed.

Lemma direction_upd m f :
  (m < 16)%nat → keeps_mcb f → (∀ mcb, port_handles (f mcb) = port_handles mcb) →
  keeps_direction m (upd_mcb m f).
Proof.
  intros Hm Hk Hf w Hw Hd. destruct (inv_mcb_ex (cb w) m Hw Hm) as (mcb & E & Hok).
  eapply safe_upd_mcb; [done|]. simpl. split.
  - apply Inv_mcb; [done|]. by apply Hk.
  - apply (direction_ok_same m (cb w)); [done| |done]. simpl.
    rewrite list_lookup_insert_eq by (by eapply lookup_lt_Some). by rewrite E; simpl; rewrite Hf.
Qed.

Lemma direction_save_lcid m p lcid : valid_mcb p → keeps_direction m (rfc_save_lcid_mcb p lcid).
Proof.
  intros Hp w Hw Hd. destruct (spec_save_lcid Loose p lcid Hp w Hw) as (Hw' & _ & _).
  apply safe_modify. split; [exact Hw'|].
  by apply (direction_ok_same m (cb w)).
Qed.

Lemma direction_bind {A B} m (k : M A) (f : A → M B) Q w :
  Inv (cb w) → direction_ok 0 m (cb w) → keeps_direction m k →
  (∀ a w', Inv (cb w') → direction_ok 0 m (cb w') → safe (f a) Q w') → safe (k ≫= f) Q w.
Proof.
  intros Hw Hd Hk Hf. apply safe_bind. eapply safe_mono; [by apply Hk|].
  intros a w' [Hw' Hd']. by apply Hf.
Qed.

(** A block with a channel of the peer pending has its ports entered where
    [update_direction] expects them. *)
Definition collision_ok (m : nat) (c : tRFC_CB) : Prop :=
  ∀ mcb, rfc_mcb c !! m = Some mcb → pending_lcid mcb ≠ 0 → direction_ok 0 m c.

Section mx_machine.
Context `{Env, !SM} {n : nat} {Hsafe : SMsafe n}.

Lemma spec_set_mx_state q m s : (m < 16)%nat → spec q (set_mx_state m s) any.
Proof. intros Hm. unfold set_mx_state. spec_go. Qed.

Lemma spec_disconnect q m : (m < 16)%nat → spec q (disconnect m) any.
Proof. intros Hm. unfold disconnect. spec_go. Qed.

Lemma spec_connect q m : (m < 16)%nat → spec q (connect m) any.
Proof. intros Hm. unfold connect. spec_go. Qed.

Lemma spec_set_lcid q m l : (m < 16)%nat → spec q (set_lcid m l) any.
Proof. intros Hm. unfold set_lcid. spec_go. Qed.
#[local] Hint Resolve spec_set_mx_state spec_disconnect spec_connect spec_set_lcid : spec.

Lemma spec_conf_cnf q m : (m < 16)%nat → spec q (rfc_mx_conf_cnf m) any.
Proof. intros Hm. unfold rfc_mx_conf_cnf. spec_go. Qed.

Lemma u16_nonneg x : 0 <= u16 x.
Proof. apply u16_range. Qed.
#[local] Hint Resolve u16_nonneg : spec.

Lemma spec_conf_ind q m c : (m < 16)%nat → spec q (rfc_mx_conf_ind m c) any.
Proof. intros Hm. unfold rfc_mx_conf_ind. spec_go. Qed.

Lemma spec_mx_u16 q d : spec q (mx_u16 d) any.
Proof. unfold mx_u16. spec_go. Qed.

Lemma spec_mx_cfg q d : spec q (mx_cfg d) any.
Proof. unfold mx_cfg. spec_go. Qed.

Lemma spec_connect_failed m : (m < 16)%nat → (0 < n)%nat → spec Loose (connect_failed m) any.
Proof. intros Hm Hn. unfold connect_failed. spec_go. Qed.

Lemma spec_mx_start_failed m : (m < 16)%nat → (0 < n)%nat → spec Loose (mx_start_failed m) any.
Proof. intros Hm Hn. unfold mx_start_failed. spec_go. Qed.
#[local] Hint Resolve spec_conf_cnf spec_conf_ind spec_mx_u16 spec_mx_cfg spec_connect_failed
  spec_mx_start_failed : spec.

Ltac unfold_mx :=
  unfold mx_state_handler, rfc_mx_sm_state_idle, rfc_mx_sm_state_wait_conn_cnf,
    rfc_mx_sm_state_configure, rfc_mx_sm_sabme_wait_ua, rfc_mx_sm_state_wait_sabme,
    rfc_mx_sm_state_connected, rfc_mx_sm_state_disc_wait_ua.

(** The events of rank 0 do not call back and leave the ports alone. *)
Lemma spec_mx_rank0 q m ev d :
  (m < 16)%nat → mx_rank ev = 0%nat → spec q (rfc_mx_sm_execute m ev d) any.
Proof.
  intros Hm Hr. unfold rfc_mx_sm_execute. eapply spec_bind; [eauto with spec|]. intros mcb _.
  destruct ev; simpl in Hr; try lia; unfold_mx; spec_go.
Qed.

(** Every event but the timeout of [RFC_MX_STATE_WAIT_CONN_CNF]. *)
Lemma spec_mx_handler s m ev d :
  (m < 16)%nat → (0 < n)%nat → (ev = RFC_MX_EVENT_SABME → (1 < n)%nat) →
  ev ≠ RFC_MX_EVENT_TIMEOUT ∨ s ≠ RFC_MX_STATE_WAIT_CONN_CNF →
  spec Loose (mx_state_handler s m ev d) any.
Proof.
  intros Hm Hn Hs Ht.
  destruct s, ev; try (by destruct Ht); try specialize (Hs eq_refl); unfold_mx; spec_go.
Qed.

Lemma spec_mx_exec m ev d :
  (m < 16)%nat → (0 < n)%nat → (ev = RFC_MX_EVENT_SABME → (1 < n)%nat) →
  ev ≠ RFC_MX_EVENT_TIMEOUT → spec Loose (rfc_mx_sm_execute m ev d) any.
Proof.
  intros. eapply spec_bind; [eauto with spec|]. intros mcb _. apply spec_mx_handler; auto.
Qed.

(** The timeout, where a collision is resolved in favour of the peer. *)
Lemma safe_mx_timeout m d w :
  (m < 16)%nat → (0 < n)%nat → Inv (cb w) → collision_ok m (cb w) →
  safe (rfc_mx_sm_execute m RFC_MX_EVENT_TIMEOUT d) (fun _ w' => Inv (cb w')) w.
Proof.
  intros Hm Hn Hw Hc. destruct (inv_mcb_ex (cb w) m Hw Hm) as (mcb & Emcb & Hok).
  unfold rfc_mx_sm_execute. apply safe_bind. eapply safe_get_mcb; [done|].
  destruct (decide (mcb_state mcb = RFC_MX_STATE_WAIT_CONN_CNF)) as [Es|Es].
  2: { eapply spec_safe; [apply spec_mx_handler|]; auto; done. }
  rewrite Es. simpl mx_state_handler. unfold set_mx_state.
  assert (Hlt : (m < length (rfc_mcb (cb w)))%nat) by (by eapply lookup_lt_Some).
  apply safe_bind. eapply safe_upd_mcb; [done|].
  set (w1 := w <| cb ::= _ |>).
  assert (E1 : rfc_mcb (cb w1) !! m = Some (mcb <| mcb_state := RFC_MX_STATE_IDLE |>))
    by (by apply list_lookup_insert_eq).
  assert (Hw1 : Inv (cb w1)) by (apply Inv_mcb; [done|]; destruct Hok; by constructor).
  apply safe_bind. unfold disconnect. apply safe_bind. eapply safe_get_mcb; [done|].
  apply safe_emit. apply safe_bind. eapply safe_get_mcb; [done|]. simpl pending_lcid.
  destruct (nz (pending_lcid mcb)) eqn:Ep.
  2: { eapply spec_safe; [by apply spec_close_ind | done]. }
  apply nz_true in Ep. specialize (Hc mcb Emcb Ep).
  assert (Hd1 : direction_ok 0 m (cb w1)).
  { apply (direction_ok_same m (cb w)); [done| |done]. by rewrite E1, Emcb. }
  eapply direction_bind; [done|done|by apply direction_save_lcid|]. clear w1 E1 Hw1 Hd1.
  intros [] w1 Hw1 Hd1. unfold set_lcid. apply safe_bind.
  eapply direction_bind; [done|done|by apply direction_upd; auto with spec|].
  intros [] w2 Hw2 Hd2. eapply safe_mono;
    [by apply (direction_save_lcid m (Some m)); auto with spec|].
  intros [] w3 [Hw3 Hd3]. eapply direction_bind; [done|done|by apply direction_upd; auto with spec|].
  intros [] w4 Hw4 Hd4. apply safe_bind.
  eapply safe_mono; [by apply safe_update_direction|]. intros [] w5 Hw5.
  eapply spec_safe; [by apply (safe_mx Loose)|done].
Qed.
End mx_machine.

(** ** The port state machine *)
Section port_machine.
Context `{Env, !SM} {n : nat} {Hsafe : SMsafe n}.

Lemma spec_set_port_rfc_state q i s : (i < 30)%nat → spec q (set_port_rfc_state i s) any.
Proof. intros Hi. unfold set_port_rfc_state. spec_go. Qed.

Lemma spec_port_mcb q i : (i < 30)%nat → spec q (port_mcb i) (fun m => (m < 16)%nat).
Proof.
  intros Hi. unfold port_mcb. eapply spec_bind; [eauto with spec|]. intros p Hp.
  eapply spec_mono; [apply spec_deref|]. intros m Em. by destruct Hp; auto.
Qed.
#[local] Hint Resolve spec_set_port_rfc_state spec_port_mcb : spec.

Lemma spec_with_mcb_dlci q i f :
  (i < 30)%nat → (∀ m d, (m < 16)%nat → 0 <= d → spec q (f m d) any) →
  spec q (with_mcb_dlci i f) any.
Proof.
  intros Hi Hf. unfold with_mcb_dlci. eapply spec_bind; [eauto with spec|]. intros p Hp.
  eapply spec_bind; [apply spec_deref|]. intros m Em; simpl in Em.
  destruct Hp. apply Hf; [auto|lia].
Qed.
#[local] Hint Extern 1 (spec _ (with_mcb_dlci _ _) _) =>
  (apply spec_with_mcb_dlci; [bound_tac | intros; spec_go]) : spec.

Lemma spec_set_disc_initiator q i : (i < 30)%nat → spec q (set_disc_initiator i) any.
Proof. intros Hi. unfold set_disc_initiator. spec_go. Qed.

Lemma spec_access_request q i o : (i < 30)%nat → spec q (access_request i o) any.
Proof. intros Hi. unfold access_request. spec_go. Qed.

Lemma spec_abort_access q i : (i < 30)%nat → spec q (abort_access i) any.
Proof. intros Hi. unfold abort_access. spec_go. Qed.

Lemma spec_log_port_open q i : (i < 30)%nat → spec q (log_port_open i) any.
Proof. intros Hi. unfold log_port_open. spec_go. Qed.

Lemma spec_send_port_disc q i : (i < 30)%nat → spec q (send_port_disc i) any.
Proof. intros Hi. unfold send_port_disc. spec_go. Qed.
#[local] Hint Resolve spec_set_disc_initiator spec_access_request spec_abort_access
  spec_log_port_open spec_send_port_disc : spec.

Lemma spec_establish_failed i r : (i < 30)%nat → (0 < n)%nat → r ≠ RFCOMM_SUCCESS →
  spec Loose (establish_cnf i r) any.
Proof. intros Hi Hn Hr. unfold establish_cnf. spec_go. Qed.

Lemma spec_establish_done i r : (i < 30)%nat → (1 < n)%nat → spec Loose (establish_cnf i r) any.
Proof. intros Hi Hn. unfold establish_cnf. spec_go. Qed.

Lemma spec_pd_status q d : spec q (pd_status d) any.
Proof. unfold pd_status. spec_go. Qed.

Lemma spec_pd_low_octet q d : spec q (pd_low_octet d) any.
Proof. unfold pd_low_octet. spec_go. Qed.

Lemma spec_pd_buf_tx q d :
  pd_ok RFC_PORT_EVENT_DATA d → spec q (pd_buf d) tx_ok.
Proof. unfold pd_buf. destruct d; simpl; intros; [|by apply spec_ret|..]; by apply spec_fail. Qed.

Lemma spec_pd_buf_rx q d :
  pd_ok RFC_PORT_EVENT_UIH d → spec q (pd_buf d) rx_ok.
Proof. unfold pd_buf. destruct d; simpl; intros; [|by apply spec_ret|..]; by apply spec_fail. Qed.

Lemma spec_attach_credits q i b : (i < 30)%nat → tx_ok b → spec q (attach_credits i b) tx_ok.
Proof.
  intros Hi []. unfold attach_credits. spec_go; by constructor.
Qed.

Lemma spec_uplink_data q i b : (i < 30)%nat → rx_ok b → spec q (rfc_port_uplink_data i b) any.
Proof. intros Hi Hb. unfold rfc_port_uplink_data. spec_go. Qed.
#[local] Hint Resolve spec_establish_failed spec_establish_done spec_pd_status
  spec_pd_low_octet spec_pd_buf_tx spec_pd_buf_rx spec_attach_credits spec_uplink_data : spec.

Ltac unfold_port :=
  unfold rfc_port_sm_state_closed, rfc_port_sm_sabme_wait_ua, rfc_port_sm_term_wait_sec_check,
    rfc_port_sm_orig_wait_sec_check, rfc_port_sm_opened, rfc_port_sm_disc_wait_ua.

(** The events of rank 0 do not call back; a data event leaves the queues alone. *)
Lemma spec_port_rank0 q p ev d :
  valid_port p → port_rank ev = 0%nat → pd_ok ev d → spec q (rfc_port_sm_execute p ev d) any.
Proof.
  intros Hp Hr Hd. unfold rfc_port_sm_execute.
  eapply spec_bind; [eauto with spec|]. intros i Ei; simpl in Ei. assert (i < 30)%nat by auto.
  eapply spec_bind; [eauto with spec|]. intros p' _.
  destruct ev; simpl in Hr; try lia; unfold_port; spec_go.
Qed.

Lemma spec_port_exec p ev d :
  valid_port p → (0 < n)%nat → (ev = RFC_PORT_EVENT_UA → (1 < n)%nat) → pd_ok ev d →
  spec Loose (rfc_port_sm_execute p ev d) any.
Proof.
  intros Hp Hn Hu Hd. unfold rfc_port_sm_execute.
  eapply spec_bind; [eauto with spec|]. intros i Ei; simpl in Ei. assert (i < 30)%nat by auto.
  eapply spec_bind; [eauto with spec|]. intros p' _.
  destruct ev; try specialize (Hu eq_refl); unfold_port; spec_go.
Qed.
End port_machine.

(** ** Closing the recursion

    Handling an event of rank [r] raises events of rank below [r] only, so the
    machines with [k] levels serve every event of rank below [k]. *)
Lemma machines_safe `{Env} k n :
  (n <= 2)%nat → (n <= k)%nat → @SMsafe n (machines k).
Proof.
  revert n. induction k as [|k IH]; intros n Hn Hk.
  { constructor; intros; lia. }
  constructor; simpl.
  - intros q m ev d Hm Hr Hq. destruct (mx_rank ev) as [|r] eqn:Er.
    { by apply spec_mx_rank0. }
    destruct q; [|by specialize (Hq ltac:(done))..].
    pose proof (IH 1%nat ltac:(lia) ltac:(lia)).
    apply spec_mx_exec; [done|lia|..]; destruct ev; simpl in *; try done; lia.
  - intros q p ev d Hp Hr Hq Hd. destruct (port_rank ev) as [|r] eqn:Er.
    { by apply spec_port_rank0. }
    destruct q; [|by rewrite (Hq ltac:(done)) in Er..].
    pose proof (IH 1%nat ltac:(lia) ltac:(lia)).
    apply spec_port_exec; [done|lia| |done]; destruct ev; simpl in *; try done; lia.
Qed.

(** ** Frames received *)
Definition keeps_frame (f : MX_FRAME → MX_FRAME) : Prop := ∀ fr, frame_ok fr → frame_ok (f fr).

Lemma spec_set_rx_frame q f : keeps_frame f → spec q (set_rx_frame f) any.
Proof.
  intros Hf. apply spec_modify. intros c []. split; [|done]. constructor; simpl; auto.
Qed.

Lemma spec_get_frame q : spec q (gets rx_frame) frame_ok.
Proof. apply spec_gets. by intros c []. Qed.
#[export] Hint Resolve spec_set_rx_frame spec_get_frame : spec.
#[export] Hint Extern 1 (keeps_frame _) => (intros ? []; constructor; simpl; assumption) : spec.

Lemma shiftr_nonneg o k : is_u8 o → 0 <= Z.shiftr o k.
Proof. intros []. by apply Z.shiftr_nonneg. Qed.

Lemma land_nonneg_l o k : is_u8 o → 0 <= Z.land o k.
Proof. intros []. apply Z.land_nonneg. by left. Qed.

(** What [rfc_parse_data] hands on: the event of a frame with a payload inside
    the block, with the FCS behind it. *)
Definition parsed_ok (r : tRFC_EVENT * BT_HDR) : Prop :=
  r.1 ≠ RFC_EVENT_BAD_FRAME →
  r.1 ≠ RFC_EVENT_TIMEOUT ∧ rx_ok r.2 ∧ hdr_offset r.2 + hdr_len r.2 + 1 <= block_len r.2.

Lemma spec_frame_event q init fr b p len fcs :
  0 <= p → p + 3 <= block_len b → spec q (rfc_frame_event init fr b p len fcs) (fun ev => ev ≠ RFC_EVENT_TIMEOUT).
Proof.
  intros Hp Hb. unfold rfc_frame_event. spec_go; apply spec_buf_slice; lia.
Qed.

(** What is left of a frame: the payload and the FCS, up to [e]. *)
Definition rest_ok (b : BT_HDR) (p_start e p_data : Z) (b' : BT_HDR) : Prop :=
  hdr_data b' = hdr_data b ∧ 0 <= hdr_len b' ∧ p_data = hdr_offset b' ∧
  hdr_offset b' + hdr_len b' + 1 = e ∧ p_start + 3 <= hdr_offset b'.

Lemma spec_parse_credit q m b p_start e p b1 :
  (m < 16)%nat → rx_ok b → 0 <= p_start → e <= block_len b → rest_ok b p_start e p b1 →
  spec q (parse_credit m p b1) (fun r => ∀ p2 b2, r = Some (p2, b2) → rest_ok b p_start e p2 b2).
Proof.
  intros Hm [_ _ _ Hblk Hbytes] Hs He (Hd & Hl & Ep & Hend & Ho). unfold parse_credit.
  eapply spec_bind; [eauto with spec|]. intros mcb _.
  eapply spec_bind; [by apply (spec_gets q _ any)|]. intros fr _.
  destruct (_ && (f_pf fr =? 1)).
  - destruct (hdr_len b1 <? 1) eqn:E; [by apply spec_ret|].
    eapply spec_bind; [apply spec_buf_read; rewrite ?Hd; [done|lia|lia]|]. intros c _.
    eapply spec_bind; [eauto with spec|]. intros [] _. apply spec_ret.
    intros p2 b2 [= <- <-]. unfold rest_ok; simpl. split_and!; [done|wrap_lia..].
  - eapply spec_bind; [eauto with spec|]. intros [] _. apply spec_ret.
    by intros p2 b2 [= <- <-].
Qed.

Lemma spec_parse_body q m b p_start e len p b1 :
  (m < 16)%nat → rx_ok b → 0 <= p_start → e <= block_len b → rest_ok b p_start e p b1 →
  spec q (parse_body m p_start len p b1) parsed_ok.
Proof.
  intros Hm Hb Hs He Hr. unfold parse_body.
  eapply spec_bind; [by eapply spec_parse_credit|]. intros [[p2 b2]|] Hr2; [|by apply spec_ret].
  destruct (Hr2 p2 b2 eq_refl) as (Hd & Hl & Ep & Hend & Ho). clear Hr2.
  destruct Hb as [_ _ _ Hblk Hbytes].
  destruct (hdr_len b2 =? len) eqn:E; simpl negb; cbv iota; [|by apply spec_ret].
  eapply spec_bind; [apply spec_buf_read; rewrite ?Hd; [done|lia|lia]|]. intros fcs _.
  eapply spec_bind; [eauto with spec|]. intros mcb _.
  eapply spec_bind; [by apply (spec_gets q _ any)|]. intros fr _.
  eapply spec_bind; [apply spec_frame_event; rewrite ?Hd; lia|]. intros ev Hev.
  apply spec_ret. intros _. simpl. rewrite Hd. split_and!; [done| |lia].
  constructor; rewrite ?Hd; [lia..|done].
Qed.

Lemma spec_parse_data q m b :
  (m < 16)%nat → rx_ok b → spec q (rfc_parse_data m b) parsed_ok.
Proof.
  intros Hm Hb. destruct (Hb) as [Ho Hl He Hblk Hbytes]. unfold rfc_parse_data. cbv zeta.
  assert (Hread : ∀ pos, hdr_offset b <= pos → pos < hdr_offset b + hdr_len b →
    spec q (buf_read b pos) is_u8) by (intros; apply spec_buf_read; [done|lia|lia]).
  destruct (hdr_len b <? _) eqn:E3; [by apply spec_ret|].
  eapply spec_bind; [apply Hread; lia|]. intros a Ha.
  eapply spec_bind.
  { apply spec_set_rx_frame. intros fr []. constructor; simpl; [by apply shiftr_nonneg | done]. }
  intros [] _. destruct (Z.land a _ =? 0) eqn:Eea.
  { eapply spec_bind; [apply Hread; lia|]. intros a2 Ha2.
    eapply spec_bind; [|intros [] _; by apply spec_ret].
    apply spec_set_rx_frame. intros fr []. constructor; simpl; [apply u8_range | done]. }
  eapply spec_bind; [apply Hread; lia|]. intros t Ht.
  eapply spec_bind; [eauto with spec|]. intros [] _.
  eapply spec_bind; [apply Hread; lia|]. intros l1 _.
  destruct (Z.land l1 _ =? 0) eqn:El; simpl andb.
  - destruct (3 <? hdr_len b) eqn:E4; simpl negb; cbv iota; [|by apply spec_ret].
    eapply spec_bind; [|intros len _].
    { eapply spec_bind; [apply Hread; lia|]. intros l2 _. by apply (spec_ret _ _ any). }
    destruct (hdr_len b <? 3 + _ + 1) eqn:E5; [by apply spec_ret|]. simpl b2z in *.
    eapply (spec_parse_body _ _ b _ (hdr_offset b + hdr_len b)); [done..|].
    unfold rest_ok; simpl. split_and!; [done|wrap_lia..].
  - eapply spec_bind; [by apply (spec_ret _ _ any)|]. intros len _.
    destruct (hdr_len b <? 3 + _ + 1) eqn:E5; [by apply spec_ret|]. simpl b2z in *.
    eapply (spec_parse_body _ _ b _ (hdr_offset b + hdr_len b)); [done..|].
    unfold rest_ok; simpl. split_and!; [done|wrap_lia..].
Qed.
