(* ===== verification/RfcApiSafety.v ===== *)
(** * Memory safety of the application interface

    The functions of [RfcApi] keep the invariant; their loops end because a read
    takes a buffer from the queue in every round, and a write sends at least one
    octet while the peer's MTU is not zero. *)
From S2P Require Import Prelude RfcDefs RfcFcs RfcMonad RfcFrames RfcUtils RfcPort.
From S2P Require Import RfcMxFsm RfcPortFsm RfcApi RfcSystem RfcInvariant RfcSafety.

Section api_safe.
Context `{Env, !SM} {Hsafe : SMsafe 2}.

(** ** Handles *)
Lemma port_from_handle h i : 0 <= h → get_port_from_handle h = Some i → (i < 30)%nat.
Proof.
  unfold get_port_from_handle, port_index. intros Hh. case_match; [done|]. intros [= <-]. lia.
Qed.

Lemma spec_with_port {A} q h (bad : A) k :
  0 <= h → (∀ i p, (i < 30)%nat → port_ok p → spec q (k i p) any) → spec q (with_port h bad k) any.
Proof.
  intros Hh Hk. unfold with_port. destruct (get_port_from_handle h) as [i|] eqn:E;
    [|by apply spec_ret].
  pose proof (port_from_handle h i Hh E) as Hi. eapply spec_bind; [eauto with spec|].
  intros p Hp. by apply Hk.
Qed.

Lemma spec_with_open_port {A} q h (bad no : A) k :
  0 <= h → (∀ i p, (i < 30)%nat → port_ok p → spec q (k i p) any) →
  spec q (with_open_port h bad no k) any.
Proof.
  intros Hh Hk. apply spec_with_port; [done|]. intros i p Hi Hp.
  case_match; [by apply Hk | by apply spec_ret].
Qed.

#[local] Hint Extern 1 (spec _ (with_port _ _ _) _) =>
  (apply spec_with_port; [done | intros; spec_go]) : spec.
#[local] Hint Extern 1 (spec _ (with_open_port _ _ _ _) _) =>
  (apply spec_with_open_port; [done | intros; spec_go]) : spec.
#[local] Hint Resolve spec_call_port_callback spec_flow_control_user spec_port_start_close
  spec_port_start_control spec_port_start_par_neg spec_port_open_continue : spec.
#[local] Hint Extern 0 (SMsafe _) => exact Hsafe : spec.

(** ** Opening and closing *)
Lemma spec_find_mcb q bd : spec q (port_find_mcb bd) valid_mcb.
Proof.
  unfold port_find_mcb. eapply spec_bind.
  { apply (spec_gets q rfc_mcb (fun l => length l = 16%nat)). apply inv_nmcbs. }
  intros ms Hms; simpl in Hms. apply spec_ret. intros m E.
  apply find_index_Some in E as (? & E & _). apply lookup_lt_Some in E. lia.
Qed.

Lemma spec_find_port q d bd : spec q (port_find_port d bd) valid_port.
Proof.
  unfold port_find_port. eapply spec_bind.
  { apply (spec_gets q ports (fun l => length l = 30%nat)). apply inv_nports. }
  intros ps Hps; simpl in Hps. apply spec_ret. intros m E.
  apply find_index_Some in E as (? & E & _). apply lookup_lt_Some in E. lia.
Qed.

Lemma port_ok_fresh j d bd : 0 <= j < 30 → 0 <= d <= 61 → port_ok (fresh_port j d bd).
Proof.
  intros Hj Hd. assert (u8 (j + 1) = j + 1) by wrap_lia.
  constructor; simpl; try done; try lia; auto using Forall_nil_2.
Qed.

Lemma spec_allocate_port d bd : 0 <= d <= 61 →
  spec Loose (port_allocate_port d bd) valid_port.
Proof.
  intros Hd. unfold port_allocate_port. eapply spec_bind; [by apply (spec_gets _ _ any)|].
  intros last _. eapply spec_bind.
  { apply (spec_gets _ ports (fun l => length l = 30%nat)). apply inv_nports. }
  intros ps Hps; simpl in Hps. cbv zeta.
  destruct (scan _ _ _ _) as [j|] eqn:Ej; [|by apply spec_ret]. apply scan_Some in Ej.
  destruct (at_index ps j) as [p|] eqn:Ea; [|done].
  apply at_index_Some in Ea as [Hj Ea]. apply lookup_lt_Some in Ea. rewrite Hps in Ea.
  eapply spec_bind.
  { apply spec_upd_port; [done|]. intros ? _. split; [|done]. apply port_ok_fresh; lia. }
  intros [] _. eapply spec_bind.
  { apply spec_modify. intros c []. split; [by constructor | done]. }
  intros [] _. apply spec_ret. by apply valid_some_port.
Qed.
#[local] Hint Resolve spec_find_mcb spec_find_port spec_allocate_port : spec.

Lemma keeps_setup u s server mtu0 bd mgmt sec :
  0 <= mtu0 → keeps_port Loose (setup_port u s server mtu0 bd mgmt sec).
Proof.
  intros Hm p []. split; [|done]. unfold setup_port, nz.
  destruct server; constructor; simpl; auto; repeat case_match; lia.
Qed.

Lemma spec_create_connection u s server mtu0 bd mgmt sec :
  0 <= s → 0 <= mtu0 →
  spec Loose (RFCOMM_CreateConnectionWithSecurity u s server mtu0 bd mgmt sec) any.
Proof.
  intros Hs Hm. unfold RFCOMM_CreateConnectionWithSecurity.
  destruct (_ || _) eqn:Escn; [by apply spec_ret|].
  eapply spec_bind; [eauto with spec|]. intros pm Hpm.
  eapply (spec_bind _ _ _ any); [spec_go|]. intros odd _. cbv zeta.
  assert (Hd : 0 <= u8 (Z.shiftl s 1 + b2z odd) <= 61).
  { rewrite Z.shiftl_mul_pow2 by lia. destruct odd; simpl b2z; wrap_lia. }
  set (d := u8 _) in *. clearbody d.
  eapply (spec_bind _ _ _ valid_port); [case_match; [by apply spec_ret | eauto with spec]|].
  intros same Hsame. eapply (spec_bind _ _ _ any); [spec_go|]. intros [h|] _; [by apply spec_ret|].
  eapply spec_bind; [eauto with spec|]. intros [i|] Hi; [|by apply spec_ret].
  specialize (Hi i eq_refl). eapply spec_bind; [by apply spec_upd_port, keeps_setup|].
  intros [] _. spec_go.
Qed.

Lemma spec_control_from_sock d bd pars : 0 <= d →
  spec Loose (RFCOMM_ControlReqFromBTSOCK d bd pars) any.
Proof. intros Hd. unfold RFCOMM_ControlReqFromBTSOCK. spec_go. Qed.

Lemma spec_remove_connection h : 0 <= h → spec Loose (RFCOMM_RemoveConnection h) any.
Proof. intros Hh. unfold RFCOMM_RemoveConnection. spec_go. Qed.

Lemma spec_remove_server h : 0 <= h → spec Loose (RFCOMM_RemoveServer h) any.
Proof. intros Hh. unfold RFCOMM_RemoveServer. spec_go. Qed.

(** ** Settings and status *)
Lemma spec_set_event_mask h mask f : 0 <= h → spec Loose (PORT_SetEventMaskAndCallback h mask f) any.
Proof. intros Hh. unfold PORT_SetEventMaskAndCallback. spec_go. Qed.

Lemma spec_clear_keep h : 0 <= h → spec Loose (PORT_ClearKeepHandleFlag h) any.
Proof. intros Hh. unfold PORT_ClearKeepHandleFlag. spec_go. Qed.

Lemma spec_set_data_co h f : 0 <= h → spec Loose (PORT_SetDataCOCallback h f) any.
Proof. intros Hh. unfold PORT_SetDataCOCallback. spec_go. Qed.

Lemma spec_check_connection h : 0 <= h → spec Loose (PORT_CheckConnection h) any.
Proof. intros Hh. unfold PORT_CheckConnection. spec_go. Qed.

Lemma spec_set_settings h s : 0 <= h → spec Loose (PORT_SetSettings h s) any.
Proof. intros Hh. unfold PORT_SetSettings. spec_go. Qed.

Lemma spec_get_settings h : 0 <= h → spec Loose (PORT_GetSettings h) any.
Proof. intros Hh. unfold PORT_GetSettings. spec_go. Qed.

Lemma spec_max_credit h en : 0 <= h → spec Loose (PORT_FlowControl_MaxCredit h en) any.
Proof. intros Hh. unfold PORT_FlowControl_MaxCredit. spec_go. Qed.

(** ** Reading

    The receive queue is a stream of octets cut into buffers. *)
Definition stream (q : list BT_HDR) : list Z := concat (hdr_payload <$> q).

Lemma length_payload b : rx_ok b → Z.of_nat (length (hdr_payload b)) = hdr_len b.
Proof. intros []. unfold hdr_payload. rewrite length_take, length_drop. lia. Qed.

(** A port after [n] octets were read from its queue, which is [q] now. *)
Definition port_read (q : list BT_HDR) (n : Z) (p : tPORT) : tPORT :=
  p <| rx ::= fun d => d <| queue := Some q |> <| queue_size ::= fun s => u32 (s - n) |> |>.

Lemma port_read_read q q' n n' p : port_read q' n' (port_read q n p) = port_read q' (n + n') p.
Proof.
  assert (E : ∀ s, u32 (u32 (s - n) - n') = u32 (s - (n + n'))).
  { intros s. unfold u32. rewrite Zminus_mod_idemp_l. f_equal. lia. }
  unfold port_read. destruct p, rx. unfold modify; simpl. by rewrite E.
Qed.

Definition set_port (i : nat) (p : tPORT) (w : world) : world :=
  w <| cb ::= fun c => c <| ports ::= <[i := p]> |> |>.

(** The first buffer cut off in the middle. *)
Definition read_head (n : Z) (b : BT_HDR) : BT_HDR :=
  b <| hdr_offset ::= fun o => u16 (o + n) |> <| hdr_len ::= fun l => l - n |>.

Lemma rx_ok_read_head n b : rx_ok b → 0 <= n <= hdr_len b → rx_ok (read_head n b).
Proof. intros [] Hn. constructor; simpl; [wrap_lia..|done]. Qed.

Lemma payload_read_head n b :
  rx_ok b → 0 <= n <= hdr_len b → hdr_payload (read_head n b) = drop (Z.to_nat n) (hdr_payload b).
Proof.
  intros [] Hn. unfold hdr_payload, read_head. simpl. rewrite u16_small by (unfold is_u16; lia).
  rewrite skipn_firstn_comm, drop_drop. f_equal; [|f_equal]; lia.
Qed.

Lemma set_port_same i p w : ports (cb w) !! i = Some p → set_port i p w = w.
Proof.
  intros E. destruct w as [c t]. unfold set_port, modify. simpl in *. destruct c; simpl in *.
  by rewrite list_insert_id.
Qed.

Lemma set_port_set i p p' w : set_port i p' (set_port i p w) = set_port i p' w.
Proof.
  destruct w as [c t]. unfold set_port, modify. simpl. by rewrite list_insert_insert_eq.
Qed.

Lemma upd_port_ok i f p w :
  ports (cb w) !! i = Some p → upd_port i f w = Ok ((), set_port i (f p) w).
Proof. intros E. unfold upd_port, get_port, mbind, M_bind, gets. by rewrite E. Qed.

Lemma get_port_ok i p w : ports (cb w) !! i = Some p → get_port i w = Ok (p, w).
Proof. intros E. unfold get_port, mbind, M_bind, gets. by rewrite E. Qed.

Lemma port_read_none p q :
  queue (rx p) = Some q → is_u32 (queue_size (rx p)) → port_read q 0 p = p.
Proof.
  intros Eq Hs. unfold port_read, modify. destruct p, rx; simpl in *.
  by rewrite Eq, Z.sub_0_r, u32_small.
Qed.

Lemma bind_ok {A B} (m : M A) (f : A → M B) w a w' :
  m w = Ok (a, w') → (m ≫= f) w = f a w'.
Proof. intros E. unfold mbind, M_bind. by rewrite E. Qed.

(** Reading [n] octets from the port [p] with the queue [q]: the octets come in
    order, the rest stays, [k] goes up by the number of buffers used up. *)
Definition reads (i : nat) (n : Z) (got : list Z) (k : Z) (p : tPORT) (q : list BT_HDR)
    (w : world) (r : res (list Z * Z * world)) : Prop :=
  let bytes := take (Z.to_nat n) (stream q) in
  ∃ q', Forall rx_ok q' ∧ stream q' = drop (Z.to_nat n) (stream q) ∧
    (length q' <= length q)%nat ∧
    r = Ok (got ++ bytes, u16 (k + Z.of_nat (length q - length q')),
            set_port i (port_read q' (Z.of_nat (length bytes)) p) w).

Section read.
Variables (i : nat) (p : tPORT) (w : world).
Hypotheses (Ep : ports (cb w) !! i = Some p) (Hsz : is_u32 (queue_size (rx p))).

Lemma reads_none n got k q :
  queue (rx p) = Some q → Forall rx_ok q → is_u16 k →
  take (Z.to_nat n) (stream q) = [] → drop (Z.to_nat n) (stream q) = stream q →
  reads i n got k p q w (Ok (got, k, w)).
Proof.
  intros Eq Hq Hk Et Ed. exists q. rewrite Et, Ed. split_and!; [done|done|lia|]. simpl.
  rewrite Nat.sub_diag, Z.add_0_r, app_nil_r, u16_small, port_read_none, set_port_same; auto.
Qed.

(** The first buffer is not used up. *)
Lemma reads_part n got k b q :
  rx_ok b → Forall rx_ok q → is_u16 k → 0 <= n < hdr_len b →
  reads i n got k p (b :: q) w
    (Ok (got ++ take (Z.to_nat n) (hdr_payload b), k, set_port i (port_read (read_head n b :: q) n p) w)).
Proof.
  intros Hb Hq Hk Hn. pose proof (length_payload b Hb) as Hpay. exists (read_head n b :: q).
  change (stream (?b :: q)) with (hdr_payload b ++ stream q).
  change (stream (read_head n b :: q)) with (hdr_payload (read_head n b) ++ stream q).
  rewrite take_app_le, drop_app_le, payload_read_head by (done || lia). split_and!.
  - apply Forall_cons. split; [apply rx_ok_read_head; [done|lia] | done].
  - done.
  - simpl. lia.
  - simpl length. rewrite Nat.sub_diag, Z.add_0_r, u16_small by done.
    do 4 f_equal. rewrite length_take. lia.
Qed.

(** The first buffer is used up. *)
Lemma reads_whole n got k b q r :
  rx_ok b → hdr_len b <= n →
  reads i (n - hdr_len b) (got ++ hdr_payload b) (u16 (k + 1)) (port_read q (hdr_len b) p) q
    (set_port i (port_read q (hdr_len b) p) w) r →
  reads i n got k p (b :: q) w r.
Proof.
  intros Hb Hn (q' & Hq' & Es & Hl & ->). pose proof (length_payload b Hb) as Hpay.
  exists q'. change (stream (b :: q)) with (hdr_payload b ++ stream q). split_and!.
  - done.
  - rewrite drop_app_ge, Es by lia. f_equal. lia.
  - simpl. lia.
  - rewrite take_app_ge, <-app_assoc, length_app, set_port_set, port_read_read by lia.
    replace (Z.to_nat n - length (hdr_payload b))%nat with (Z.to_nat (n - hdr_len b)) by lia.
    rewrite Nat2Z.inj_add, Hpay. do 3 f_equal.
    unfold u16. rewrite Zplus_mod_idemp_l. simpl length. f_equal. lia.
Qed.
End read.

Lemma read_loop_spec fuel i n got k p q w :
  ports (cb w) !! i = Some p → queue (rx p) = Some q → is_u32 (queue_size (rx p)) →
  Forall rx_ok q → 0 <= n → is_u16 k → (length q < fuel)%nat →
  reads i n got k p q w (read_loop fuel i n got k w).
Proof.
  revert n got k p q w. induction fuel as [|fuel IH]; [lia|].
  intros n got k p q w Ep Eq Hsz Hq Hn Hk Hlen. cbn [read_loop].
  destruct (n =? 0) eqn:En.
  { apply Z.eqb_eq in En as ->. by apply reads_none. }
  erewrite bind_ok by (by apply get_port_ok). rewrite Eq. destruct q as [|b q].
  { apply reads_none; auto; [apply take_nil | apply drop_nil]. }
  apply Forall_cons in Hq as [Hb Hq]. destruct (Hb) as [Ho Hl He Hblk Hbytes].
  destruct (n <? hdr_len b) eqn:Elt.
  - erewrite bind_ok by (apply buf_slice_ok; lia). erewrite bind_ok by (by apply upd_port_ok).
    replace (take (Z.to_nat n) _) with (take (Z.to_nat n) (hdr_payload b)).
    { apply reads_part; auto; lia. }
    unfold hdr_payload. rewrite take_take. f_equal. lia.
  - erewrite bind_ok by (apply buf_slice_ok; lia). erewrite bind_ok by (by apply upd_port_ok).
    apply reads_whole; [done|lia|]. change (_ <| rx ::= _ |>) with (port_read q (hdr_len b) p).
    apply IH; auto; [|apply u32_range|lia|apply u16_range|simpl in *; lia].
    unfold set_port. simpl. apply list_lookup_insert_eq. by eapply lookup_lt_Some.
Qed.

(** The port a function works on is the one in the table. *)
Lemma safe_with_open_port {A} h (bad no : A) k w :
  0 <= h → Inv (cb w) →
  (∀ i p, (i < 30)%nat → ports (cb w) !! i = Some p → port_ok p →
     safe (k i p) (fun _ w' => Inv (cb w')) w) →
  safe (with_open_port h bad no k) (fun _ w' => Inv (cb w')) w.
Proof.
  intros Hh Hw Hk. unfold with_open_port, with_port.
  destruct (get_port_from_handle h) as [i|] eqn:E; [|by apply safe_ret].
  pose proof (port_from_handle h i Hh E) as Hi.
  destruct (inv_port_ex (cb w) i Hw Hi) as (p & Ep & Hp).
  apply safe_bind. eapply safe_get_port; [done|]. case_match; [by apply Hk | by apply safe_ret].
Qed.

Lemma Inv_set_port i p w : Inv (cb w) → port_ok p → Inv (cb (set_port i p w)).
Proof. intros Hw Hp. by apply Inv_port. Qed.

Lemma port_ok_read q n p : port_ok p → Forall rx_ok q → port_ok (port_read q n p).
Proof. intros [] Hq. constructor; simpl; auto using u32_range. Qed.

Lemma spec_read_data h n : 0 <= h → 0 <= n → spec Loose (PORT_ReadData h n) any.
Proof.
  intros Hh Hn. apply loose_safe. intros w Hw. unfold PORT_ReadData.
  apply safe_with_open_port; [done..|]. intros i p Hi Ep Hp.
  case_match; [by apply safe_ret|]. case_match; [by apply safe_ret|].
  destruct (queue (rx p)) as [q|] eqn:Eq; [|done].
  pose proof (ok_rx _ Hp) as Hq. rewrite Eq in Hq. apply safe_bind.
  destruct (read_loop_spec (S (Z.to_nat (queue_length (Some q)))) i n [] 0 p q w)
    as (q' & Hq' & _ & _ & Er); auto using ok_rx_size; [done|simpl; lia|].
  unfold safe at 1. rewrite Er. cbv iota beta.
  eapply (spec_safe Loose _ any); [spec_go|].
  by apply Inv_set_port, port_ok_read.
Qed.

(** ** Writing *)
Lemma spec_port_write i b : (i < 30)%nat → txq_ok b → spec KeepMtu (port_write i b) any.
Proof.
  intros Hi Hb. unfold port_write. pose proof (txq_tx_ok b Hb). spec_go.
  - pose proof (ok_tx _ Ha) as Htx. rewrite Ha1 in Htx.
    apply spec_upd_port; [done|]. intros p []. split; [|done]. constructor; simpl; auto.
    apply Forall_app. split; [done | by constructor].
  - apply (spec_data_req (n := 2)); auto with spec lia.
Qed.

Lemma spec_new_data_buf q h len : 0 <= len <= data_buf_len →
  spec q (new_data_buf h len) (fun b => txq_ok b ∧ hdr_len b = len).
Proof.
  intros Hl. unfold new_data_buf. eapply spec_bind; [apply spec_osi_malloc; lia|].
  intros b Hb; simpl in Hb. apply spec_ret. split; [|done]. by constructor.
Qed.

Lemma txq_ok_write q b bs : txq_ok b → Z.of_nat (length bs) = hdr_len b →
  spec q (buf_write b (hdr_offset b) bs) (fun b' => txq_ok b' ∧ hdr_len b' = hdr_len b).
Proof.
  intros [Ho Hl Hb] Hbs. unfold data_buf_len in Hl.
  eapply spec_mono; [apply spec_buf_write; lia|]. intros b' (E1 & E2 & E3).
  split; [|done]. constructor; rewrite ?E1, ?E2, ?E3; done.
Qed.

Lemma spec_write_one i b st : (i < 30)%nat → txq_ok b →
  spec KeepMtu (write_one i b st)
    (fun r => r.2 = true → w_left r.1 = w_left st - hdr_len b).
Proof.
  intros Hi Hb. unfold write_one. eapply spec_bind; [by apply spec_port_write|]. intros rc _.
  eapply spec_bind; [by apply spec_flow_control_user|]. intros fc _. cbv zeta.
  case_match; apply spec_ret; done.
Qed.

(** The port exists and the peer takes octets. *)
Definition can_write (i : nat) (w : world) : Prop :=
  Inv (cb w) ∧ ∃ p, ports (cb w) !! i = Some p ∧ 0 < peer_mtu p.

Lemma can_write_kept {A} i (m : M A) φ w :
  can_write i w → spec KeepMtu m φ → safe m (fun a w' => can_write i w' ∧ φ a) w.
Proof.
  intros [Hw (p & Ep & Hp)] Hm. eapply safe_mono; [by apply Hm|].
  intros a w' (Hw' & Hk & Ha). destruct (Hk i p Ep) as (p' & Ep' & E).
  split; [|done]. split; [done|]. exists p'. split; [done|]. simpl in E. lia.
Qed.

Lemma safe_write_loop fuel i h data len st w :
  (i < 30)%nat → can_write i w → 0 < len <= data_buf_len →
  w_left st = Z.of_nat (length data) → (length data < fuel)%nat →
  safe (write_loop fuel i h data len st) (fun _ w' => Inv (cb w')) w.
Proof.
  intros Hi. revert data len st w. induction fuel as [|fuel IH]; [lia|].
  intros data len st w Hw Hlen Hst Hfuel. cbn [write_loop].
  destruct (w_left st =? 0) eqn:E0; [by apply safe_ret; destruct Hw|].
  destruct (Hw) as [HI (p & Ep & Hp)]. apply safe_bind. eapply safe_get_port; [done|].
  case_match; [by apply safe_ret|]. cbv zeta.
  set (n := if _ <? _ then _ else _).
  assert (Hn : 0 < n <= data_buf_len ∧ n <= w_left st) by (unfold n; case_match; lia).
  apply safe_bind. eapply safe_mono; [apply can_write_kept; [done|apply spec_new_data_buf; lia]|].
  intros b w1 (Hw1 & Hb & Eb). apply safe_bind.
  eapply safe_mono; [apply can_write_kept; [done|apply txq_ok_write; [done|rewrite length_take; lia]]|].
  intros b2 w2 (Hw2 & Hb2 & Eb2). apply safe_bind.
  eapply safe_mono; [apply can_write_kept; [done|by apply spec_write_one]|].
  intros [st' go] w3 (Hw3 & Hgo). cbv beta iota. destruct go; [|by apply safe_ret; destruct Hw3].
  specialize (Hgo eq_refl). simpl in Hgo. apply IH; [done|lia| |rewrite length_drop; lia].
  rewrite length_drop. lia.
Qed.

Lemma spec_write_done i st : (i < 30)%nat → spec Loose (write_done i st) any.
Proof. intros Hi. unfold write_done. spec_go. Qed.

(** Data appended to the last buffer stays inside its block. *)
Lemma set_last_ok b q : txq_ok b → queue_ok txq_ok q → queue_ok txq_ok (set_last b q).
Proof. intros Hb. destruct q as [l|]; [|done]. simpl. intros Hl. by apply Forall_insert. Qed.

Lemma fits_last_ok p n b :
  port_ok p → fits_last p n = Some b → txq_ok b ∧ hdr_len b + n <= data_buf_len.
Proof.
  intros [] E. unfold fits_last, peek_last in E.
  destruct (queue (tx p)) as [l|]; [|done]. destruct (last l) as [b'|] eqn:El; [|done].
  destruct (_ && _) eqn:Eb; [|done]. injection E as <-. split; [|lia].
  apply last_Some in El as (l' & ->). by apply Forall_app in ok_tx as [_ [? _]%Forall_cons].
Qed.

Lemma spec_append_last i b bytes :
  (i < 30)%nat → txq_ok b → hdr_len b + Z.of_nat (length bytes) <= data_buf_len →
  spec KeepMtu (append_last i b bytes) any.
Proof.
  intros Hi [Ho Hl Hb] Hn. unfold append_last. pose proof Hn as Hn'. unfold data_buf_len in Hn'.
  eapply spec_bind; [apply spec_buf_write; lia|]. intros b' (E1 & E2 & E3). cbv zeta.
  apply spec_upd_port; [done|]. intros p []. split; [|done]. constructor; simpl; auto.
  apply set_last_ok; [|done]. constructor; simpl; rewrite ?E1, ?E2, ?E3; [done| |done].
  rewrite u16_small; unfold is_u16; lia.
Qed.

Lemma spec_write_data h data : 0 <= h → spec Loose (PORT_WriteData h data) any.
Proof.
  intros Hh. apply loose_safe. intros w Hw. unfold PORT_WriteData.
  apply safe_with_open_port; [done..|]. intros i p Hi Ep Hp.
  destruct (_ || _) eqn:E0; [by apply safe_ret|].
  destruct (fits_last _ _) as [b|] eqn:Ef.
  { apply fits_last_ok in Ef as [Hb Hn]; [|done].
    eapply (spec_safe KeepMtu _ any); [|done].
    eapply spec_bind; [by apply spec_append_last|]. intros [] _. by apply spec_ret. }
  apply safe_bind. eapply safe_mono.
  { apply safe_write_loop; [done| |by unfold data_buf_len; lia|done|lia].
    split; [done|]. exists p. split; [done|]. pose proof (ok_peer_mtu _ Hp). lia. }
  intros st w' Hw'. eapply (spec_safe Loose _ any); [|done].
  eapply spec_bind; [by apply spec_write_done|]. intros n _. by apply spec_ret.
Qed.

(** ** Writing through the callout *)
Lemma spec_co_fill q p h n : 0 <= n →
  spec q (co_fill p h n) (fun r => ∀ bs, r = Some bs → Z.of_nat (length bs) = n).
Proof.
  intros Hn. unfold co_fill. eapply spec_bind; [apply spec_deref|]. intros f _.
  eapply spec_bind; [apply spec_emit|]. intros [] _.
  eapply spec_bind; [apply spec_history|]. intros hist _. apply spec_ret.
  intros bs. destruct (env_co_fill hist); simpl; [|done]. intros [= <-].
  rewrite length_fmap, length_seqZ. lia.
Qed.

Lemma safe_write_co_loop fuel i h len st w :
  (i < 30)%nat → can_write i w → 0 < len <= data_buf_len →
  0 <= w_left st < Z.of_nat fuel →
  safe (write_co_loop fuel i h len st) (fun _ w' => Inv (cb w')) w.
Proof.
  intros Hi. revert len st w. induction fuel as [|fuel IH]; [lia|].
  intros len st w Hw Hlen Hst. cbn [write_co_loop].
  destruct (w_left st =? 0) eqn:E0; [by apply safe_ret; destruct Hw|].
  destruct (Hw) as [HI (p & Ep & Hp)]. apply safe_bind. eapply safe_get_port; [done|].
  case_match.
  { eapply (spec_safe Loose _ any); [|done].
    eapply spec_bind; [by apply spec_flow_control_user|]. intros fc _. by apply spec_ret. }
  cbv zeta. set (n := if _ <? _ then _ else _).
  assert (Hn : 0 < n <= data_buf_len ∧ n <= w_left st) by (unfold n; case_match; lia).
  apply safe_bind. eapply safe_mono; [apply can_write_kept; [done|apply spec_new_data_buf; lia]|].
  intros b w1 (Hw1 & Hb & Eb). apply safe_bind.
  eapply safe_mono; [apply can_write_kept; [done|apply spec_co_fill; lia]|].
  intros [bs|] wf (Hwf & Hbs); [|by apply safe_ret; destruct Hwf].
  specialize (Hbs bs eq_refl). apply safe_bind.
  eapply safe_mono; [apply can_write_kept; [done|apply txq_ok_write; [done|lia]]|].
  intros b2 w2 (Hw2 & Hb2 & Eb2). apply safe_bind.
  eapply safe_mono; [apply can_write_kept; [done|by apply spec_write_one]|].
  intros [st' go] w3 (Hw3 & Hgo). cbv beta iota. destruct go; [|by apply safe_ret; destruct Hw3].
  specialize (Hgo eq_refl). simpl in Hgo. apply IH; [done|lia|lia].
Qed.

Lemma spec_write_data_co h : 0 <= h → spec Loose (PORT_WriteDataCO h) any.
Proof.
  intros Hh. apply loose_safe. intros w Hw. unfold PORT_WriteDataCO.
  apply safe_with_open_port; [done..|]. intros i p Hi Ep Hp.
  destruct (peer_mtu p =? 0) eqn:E0; [by apply safe_ret|].
  apply safe_bind, safe_deref. intros f Ef. apply safe_bind, safe_emit.
  apply safe_bind, safe_history. set (w1 := w <| trace ::= _ |>).
  assert (Hw1 : Inv (cb w1)) by done.
  destruct (env_co_size _) as [size|]; [|by apply safe_ret].
  destruct (Z.of_N size =? 0) eqn:Es; [by apply safe_ret|].
  destruct (fits_last _ _) as [b|] eqn:Efl.
  { apply fits_last_ok in Efl as [Hb Hn]; [|done].
    eapply (spec_safe KeepMtu _ any); [|done].
    eapply spec_bind; [apply spec_co_fill; lia|]. intros [bs|] Hbs; [|by apply spec_ret].
    specialize (Hbs bs eq_refl).
    eapply spec_bind; [apply spec_append_last; [done..|lia]|]. intros [] _. by apply spec_ret. }
  apply safe_bind. eapply safe_mono.
  { apply safe_write_co_loop; [done| |by unfold data_buf_len; lia|simpl; lia].
    split; [done|]. exists p. split; [done|]. pose proof (ok_peer_mtu _ Hp). lia. }
  intros [st ok] w' Hw'. cbv beta iota. destruct ok; [|by apply safe_ret].
  eapply (spec_safe Loose _ any); [|done].
  eapply spec_bind; [by apply spec_write_done|]. intros n _. by apply spec_ret.
Qed.

(** ** Start-up *)
Lemma Inv_init : Inv rfc_cb_init.
Proof.
  constructor; simpl; try done.
  - apply (Forall_replicate port_ok 30 zero_port), port_ok_zero.
  - apply (Forall_replicate mcb_ok 16 zero_mcb), mcb_ok_zero.
Qed.

Lemma spec_rfcomm_init : spec Loose RFCOMM_Init any.
Proof.
  apply loose_safe. intros w _. unfold RFCOMM_Init. apply safe_bind, safe_modify, safe_emit.
  simpl. destruct Inv_init. by constructor.
Qed.
End api_safe.
