(* ===== verification/RfcInputs.v ===== *)
(** * Memory safety of the inputs of RFCOMM

    Whatever the peer sends, L2CAP, the timers and the security manager report
    or the application calls, RFCOMM stays inside its tables and buffers and
    every loop ends. *)
From S2P Require Import Prelude RfcDefs RfcFcs RfcMonad RfcFrames RfcUtils RfcPort.
From S2P Require Import RfcMxFsm RfcPortFsm RfcApi RfcSystem RfcInvariant RfcSafety.

(** ** Multiplexer messages *)
Section messages_safe.
Context `{Env, !SM} {Hsafe : SMsafe 2}.

Lemma spec_propose_fc q m i d fc mask : (m < 16)%nat → (i < 30)%nat →
  spec q (propose_fc m i d fc mask) any.
Proof. intros Hm Hi. unfold propose_fc. spec_go. Qed.
#[local] Hint Resolve spec_propose_fc : spec.

Lemma spec_check_rpn m i d : (m < 16)%nat → (i < 30)%nat →
  spec Loose (check_rpn_accepted m i d) any.
Proof. intros Hm Hi. unfold check_rpn_accepted. spec_go. Qed.
#[local] Hint Resolve spec_check_rpn : spec.

Lemma spec_process_pn m c : (m < 16)%nat → spec Loose (rfc_process_pn m c) any.
Proof. intros Hm. unfold rfc_process_pn. spec_go. Qed.

Lemma spec_process_rpn m c r : (m < 16)%nat → spec Loose (rfc_process_rpn m c r) any.
Proof. intros Hm. unfold rfc_process_rpn. spec_go. Qed.

Lemma spec_process_msc m c : (m < 16)%nat → spec Loose (rfc_process_msc m c) any.
Proof. intros Hm. unfold rfc_process_msc. spec_go. Qed.

Lemma spec_process_rls m c : (m < 16)%nat → spec Loose (rfc_process_rls m c) any.
Proof. intros Hm. unfold rfc_process_rls. spec_go. Qed.

Lemma spec_set_disabled q b : spec q (set_peer_rx_disabled b) any.
Proof. apply spec_modify. intros c []. split; [by constructor | done]. Qed.

Lemma spec_get_disabled q : spec q (gets peer_rx_disabled) any.
Proof. by apply spec_gets. Qed.
#[local] Hint Resolve spec_set_disabled spec_get_disabled : spec.

Lemma spec_process_fcon m c : (m < 16)%nat → spec Loose (rfc_process_fcon m c) any.
Proof. intros Hm. unfold rfc_process_fcon. spec_go. Qed.

Lemma spec_process_fcoff m c : (m < 16)%nat → spec Loose (rfc_process_fcoff m c) any.
Proof. intros Hm. unfold rfc_process_fcoff. spec_go. Qed.

Lemma spec_process_congestion m c : (m < 16)%nat →
  spec Loose (rfc_process_l2cap_congestion m c) any.
Proof. intros Hm. unfold rfc_process_l2cap_congestion. spec_go. Qed.
#[local] Hint Resolve spec_process_pn spec_process_rpn spec_process_msc spec_process_rls
  spec_process_fcon spec_process_fcoff : spec.

(** A message of [length] octets at [p], inside the block. *)
Section message.
Variables (m : nat) (b : BT_HDR) (p length : Z).
Hypotheses (Hm : (m < 16)%nat) (Hb : rx_ok b) (Hp : hdr_offset b <= p)
  (Hend : p + length <= hdr_offset b + hdr_len b).

Lemma spec_msg_octet q k : 0 <= k < length → spec q (buf_read b (p + k)) is_u8.
Proof. destruct Hb. intros Hk. apply spec_buf_read; [done|lia|lia]. Qed.

Lemma spec_msg_octet0 q : 0 < length → spec q (buf_read b p) is_u8.
Proof. destruct Hb. intros Hk. apply spec_buf_read; [done|lia|lia]. Qed.

Lemma keeps_frame_dlci d : 0 <= d → keeps_frame (fun f => f <| f_dlci := d |>).
Proof. intros Hd fr []. by constructor. Qed.

Lemma spec_parse_mx_dlci q : 0 < length → spec q (parse_mx_dlci b p) any.
Proof.
  intros Hl. unfold parse_mx_dlci. eapply spec_bind; [by apply spec_msg_octet0|].
  intros o Ho. cbv zeta. eapply spec_bind; [|intros [] _; by apply spec_ret].
  by apply spec_set_rx_frame, keeps_frame_dlci, shiftr_nonneg.
Qed.

Lemma spec_msg_pn c : spec Loose (mx_msg_pn m b c p length) any.
Proof.
  unfold mx_msg_pn. destruct (length =? _) eqn:El; simpl negb; cbv iota; [|by apply spec_ret].
  eapply spec_bind; [apply spec_msg_octet0; lia|]. intros o0 Ho0.
  do 3 (eapply spec_bind; [apply spec_msg_octet; lia|]; intros ? _).
  eapply spec_bind; [apply spec_msg_octet; lia|]. intros o4 [Ho4 _].
  eapply spec_bind; [apply spec_msg_octet; lia|]. intros o5 [Ho5 _].
  do 2 (eapply spec_bind; [apply spec_msg_octet; lia|]; intros ? _).
  cbv zeta. eapply spec_bind.
  { apply spec_set_rx_frame. intros fr []. constructor; simpl.
    - by apply land_nonneg_l.
    - apply Z.add_nonneg_nonneg; [done|]. by apply Z.shiftl_nonneg. }
  intros [] _. spec_go.
Qed.

#[local] Hint Resolve spec_parse_mx_dlci spec_msg_octet spec_msg_octet0 : spec.
#[local] Hint Extern 1 (_ < _) => lia : spec.
#[local] Hint Extern 1 (_ <= _ < _) => lia : spec.

Lemma spec_msg_msc c : spec Loose (mx_msg_msc m b c p length length) any.
Proof.
  unfold mx_msg_msc.
  destruct (_ && negb (length =? _)) eqn:El; [by apply spec_ret|]. spec_go.
Qed.

Lemma spec_msg_nsc c : spec Loose (mx_msg_nsc b c p length) any.
Proof.
  unfold mx_msg_nsc, rfc_process_nsc.
  destruct (negb (length =? _) || _) eqn:El; [by apply spec_ret|]. spec_go.
Qed.

Lemma spec_parse_rpn q : length = RFCOMM_MX_RPN_LEN → spec q (parse_rpn b p) any.
Proof. intros El. unfold parse_rpn. spec_go. Qed.

Lemma spec_msg_rpn c : spec Loose (mx_msg_rpn m b c p length) any.
Proof.
  unfold mx_msg_rpn. destruct (_ && negb (length =? _)) eqn:El; [by apply spec_ret|]. spec_go.
  apply spec_parse_rpn. lia.
Qed.

Lemma spec_msg_rls c : spec Loose (mx_msg_rls m b c p length) any.
Proof.
  unfold mx_msg_rls. destruct (length =? _) eqn:El; simpl negb; cbv iota; [|by apply spec_ret].
  spec_go.
Qed.

Lemma spec_msg_test c :
  2 <= hdr_len b → hdr_offset b + hdr_len b + 1 <= block_len b →
  spec Loose (mx_msg_test m b c length) any.
Proof.
  intros Hlen Hfcs. unfold mx_msg_test. destruct (length =? 0); [by apply spec_ret|].
  destruct Hb. spec_go; [|by apply spec_ret].
  apply spec_rfc_send_test; [done| |simpl; wrap_lia]. constructor; simpl; [wrap_lia..|done].
Qed.
#[local] Hint Resolve spec_msg_pn spec_msg_msc spec_msg_nsc spec_msg_rpn spec_msg_rls
  spec_msg_test : spec.

Lemma spec_mx_switch type c :
  2 <= hdr_len b → hdr_offset b + hdr_len b + 1 <= block_len b →
  spec Loose (mx_message_switch m b type c p length length) any.
Proof. intros Hlen Hfcs. unfold mx_message_switch. spec_go. Qed.
End message.

Lemma spec_process_mx_message m b :
  (m < 16)%nat → rx_ok b → hdr_offset b + hdr_len b + 1 <= block_len b →
  spec Loose (rfc_process_mx_message m b) any.
Proof.
  intros Hm Hb Hfcs. destruct (Hb) as [Ho Hl He Hblk Hbytes].
  unfold rfc_process_mx_message. cbv zeta.
  assert (Hread : ∀ pos, hdr_offset b <= pos → pos < hdr_offset b + hdr_len b →
    spec Loose (buf_read b pos) is_u8) by (intros; apply spec_buf_read; [done|lia|lia]).
  destruct (hdr_len b <? 2) eqn:E2; [by apply spec_ret|].
  eapply spec_bind; [apply Hread; lia|]. intros o _.
  eapply spec_bind; [eauto with spec|]. intros [] _.
  destruct (Z.land o _ =? 0); [by apply spec_ret|].
  eapply spec_bind; [apply Hread; lia|]. intros l1 _. set (ext := Z.land l1 _ =? 0).
  destruct (ext && _) eqn:Eext; [by apply spec_ret|].
  eapply spec_bind with (φ := any).
  { destruct ext; [|by apply spec_ret]. eapply spec_bind; [apply Hread; lia|]. intros l2 _.
    by apply spec_ret. }
  intros mx_len _. destruct (mx_len =? _) eqn:El; simpl negb; cbv iota; [|by apply spec_ret].
  apply Z.eqb_eq in El as ->. eapply spec_bind.
  { destruct ext; simpl b2z in *; apply spec_mx_switch; lia || done. }
  intros handled _. spec_go.
Qed.
End messages_safe.
#[export] Hint Resolve spec_process_mx_message spec_process_congestion : spec.

(** ** L2CAP, the timers and the security manager *)
Section l2cap_safe.
Context `{Env}.
#[local] Existing Instance rfc_machines.

#[local] Instance top_safe : @SMsafe 2 rfc_machines.
Proof. apply machines_safe; lia. Qed.

Lemma spec_top_mx m ev d :
  (m < 16)%nat → ev ≠ RFC_MX_EVENT_TIMEOUT → spec Loose (sm_mx m ev d) any.
Proof.
  intros Hm Hev. pose proof (machines_safe 2 2 ltac:(lia) ltac:(lia)).
  apply (spec_mx_exec (n := 2)); [done|lia|lia|done].
Qed.

Lemma spec_top_port p ev d :
  valid_port p → pd_ok ev d → spec Loose (sm_port p ev d) any.
Proof.
  intros Hp Hd. pose proof (machines_safe 2 2 ltac:(lia) ltac:(lia)).
  apply (spec_port_exec (n := 2)); [done|lia|lia|done].
Qed.
#[local] Hint Resolve spec_top_mx spec_top_port : spec.
#[local] Hint Extern 0 (SMsafe _) => exact top_safe : spec.
#[local] Hint Extern 1 (_ ≠ RFC_MX_EVENT_TIMEOUT) => done : spec.
#[local] Hint Extern 1 (pd_ok _ _) => exact I : spec.

Lemma spec_connect_ind bd lcid : spec Loose (RFCOMM_ConnectInd bd lcid) any.
Proof. unfold RFCOMM_ConnectInd. spec_go. Qed.

Lemma spec_connect_cnf lcid r : spec Loose (RFCOMM_ConnectCnf lcid r) any.
Proof. unfold RFCOMM_ConnectCnf. spec_go. Qed.

Lemma spec_find_pending q lcid : spec q (gets (fun c => find_pending c lcid)) valid_mcb.
Proof.
  apply spec_gets. intros c [] m. unfold find_pending.
  destruct (List.filter _ _) as [|e l] eqn:E; [done|]. simpl. intros [= <-].
  assert (He : In e (map_to_list (rfc_lcid_mcb c))).
  { assert (Hin : In e (e :: l)) by (by left). rewrite <-E in Hin.
    by apply filter_In in Hin as []. }
  destruct e as [k m]. apply list_elem_of_In, elem_of_map_to_list in He.
  exact (inv_lcids _ _ He).
Qed.
#[local] Hint Resolve spec_find_pending : spec.

Lemma spec_config_ind lcid cfg : spec Loose (RFCOMM_ConfigInd lcid cfg) any.
Proof. unfold RFCOMM_ConfigInd. spec_go. Qed.
#[local] Hint Resolve spec_config_ind : spec.

Lemma spec_config_cnf lcid cfg : spec Loose (RFCOMM_ConfigCnf lcid cfg) any.
Proof. unfold RFCOMM_ConfigCnf. spec_go. Qed.

Lemma spec_disconnect_ind lcid : spec Loose (RFCOMM_DisconnectInd lcid) any.
Proof. unfold RFCOMM_DisconnectInd. spec_go. Qed.

Lemma spec_congestion_ind lcid c : spec Loose (RFCOMM_CongestionStatusInd lcid c) any.
Proof. unfold RFCOMM_CongestionStatusInd. spec_go. Qed.

Lemma spec_port_frame i ev b : (i < 30)%nat → rx_ok b → spec Loose (port_frame i ev b) any.
Proof.
  intros Hi Hb. unfold port_frame.
  destruct ev; cbn [port_event_of]; try by apply spec_ret.
  all: try by (apply spec_top_port; [by apply valid_some_port|]).
  spec_go.
Qed.
#[local] Hint Resolve spec_port_frame : spec.

Lemma spec_unbound_frame m ev b : (m < 16)%nat → rx_ok b →
  spec Loose (unbound_frame m ev b) any.
Proof.
  intros Hm Hb. unfold unbound_frame. eapply spec_bind; [eauto with spec|]. intros fr Hfr.
  eapply spec_bind; [eauto with spec|]. intros mcb _. case_match; [spec_go|].
  eapply spec_bind; [eauto with spec|]. intros [i|] Hi; [|spec_go].
  destruct (Hi i eq_refl) as [Hlt Hd]. spec_go.
Qed.
#[local] Hint Resolve spec_unbound_frame : spec.

Lemma spec_buf_data_ind lcid b : rx_ok b → spec Loose (RFCOMM_BufDataInd lcid b) any.
Proof.
  intros Hb. unfold RFCOMM_BufDataInd. eapply spec_bind; [eauto with spec|].
  intros [m|] Hm; [|by apply spec_ret]. specialize (Hm m eq_refl).
  eapply spec_bind; [by apply spec_parse_data|]. intros [ev b'] Hparsed. cbv beta iota.
  eapply spec_bind; [eauto with spec|]. intros fr Hfr.
  destruct (eqb ev RFC_EVENT_BAD_FRAME) eqn:Ebad; [by apply spec_ret|].
  assert (Hev : ev ≠ RFC_EVENT_BAD_FRAME) by (by intros ->).
  destruct (Hparsed Hev) as (Ht & Hb' & Hfcs). cbn [fst snd] in *.
  destruct (f_dlci fr =? _); [|spec_go].
  destruct ev; cbn [mx_event_of]; try by apply spec_ret.
  all: try by apply spec_top_mx. by apply spec_process_mx_message.
Qed.

Lemma spec_sec_check p r : valid_port p → spec Loose (rfc_sec_check_complete p r) any.
Proof. intros Hp. unfold rfc_sec_check_complete. spec_go. Qed.

Lemma spec_port_timeout i : (i < 30)%nat → spec Loose (rfcomm_port_timer_timeout i) any.
Proof. intros Hi. unfold rfcomm_port_timer_timeout. spec_go. Qed.

Lemma safe_mcb_timeout m w :
  (m < 16)%nat → Inv (cb w) → collision_ok m (cb w) →
  safe (rfcomm_mcb_timer_timeout m) (fun _ w' => Inv (cb w')) w.
Proof.
  intros Hm Hw Hc. pose proof (machines_safe 2 2 ltac:(lia) ltac:(lia)).
  change (rfcomm_mcb_timer_timeout m) with
    (@rfc_mx_sm_execute _ (machines 2) m RFC_MX_EVENT_TIMEOUT MX_null).
  apply safe_mx_timeout; [done|lia|done|done].
Qed.

Lemma safe_retry m w :
  (m < 16)%nat → Inv (cb w) → direction_ok 0 m (cb w) →
  safe (retry_as_acceptor m) (fun _ w' => Inv (cb w')) w.
Proof.
  intros Hm Hw Hd. unfold retry_as_acceptor.
  eapply direction_bind; [done|done|by apply direction_get|]. clear w Hw Hd. intros mcb w Hw Hd.
  eapply direction_bind; [done|done|by apply direction_save_lcid|].
  clear w Hw Hd. intros [] w Hw Hd.
  eapply direction_bind; [done|done|by apply direction_upd; auto with spec|].
  clear w Hw Hd. intros [] w Hw Hd.
  eapply direction_bind; [done|done|apply direction_save_lcid; by apply valid_some_mcb|].
  clear w Hw Hd. intros [] w Hw Hd.
  apply safe_bind. eapply safe_mono; [by apply safe_update_direction|]. clear w Hw Hd.
  intros [] w Hw. eapply spec_safe; [|exact Hw]. spec_go.
Qed.

Lemma safe_find_lcid lcid w :
  Inv (cb w) → safe (rfc_find_lcid_mcb lcid) (fun p w' => w' = w ∧ valid_mcb p) w.
Proof.
  intros Hw. unfold rfc_find_lcid_mcb. apply safe_bind, safe_gets.
  destruct (rfc_lcid_mcb (cb w) !! lcid) as [m|] eqn:E; [|by apply safe_ret].
  assert (Hm : (m < 16)%nat) by exact (inv_lcids _ Hw _ _ E).
  destruct (inv_mcb_ex (cb w) m Hw Hm) as (mcb & Em & _).
  apply safe_bind. eapply safe_get_mcb; [done|].
  case_match; apply safe_ret; [by auto using valid_some_mcb | by split].
Qed.

Lemma safe_l2cap_error lcid r w :
  Inv (cb w) → (∀ m, collision_ok m (cb w)) →
  safe (rfc_on_l2cap_error lcid r) (fun _ w' => Inv (cb w')) w.
Proof.
  intros Hw Hc. unfold rfc_on_l2cap_error. apply safe_bind.
  eapply safe_mono; [by apply safe_find_lcid|]. intros [m|] w' [-> Hm]; [|by apply safe_ret].
  specialize (Hm m eq_refl). destruct (inv_mcb_ex (cb w) m Hw Hm) as (mcb & E & Hok).
  apply safe_bind. eapply safe_get_mcb; [done|].
  destruct (nz (Z.land _ _)), (nz (pending_lcid mcb)) eqn:Ep.
  { apply nz_true in Ep. apply safe_retry; [done|done|]. by eapply Hc. }
  all: eapply spec_safe; [spec_go; by apply spec_disconnect|exact Hw].
Qed.
End l2cap_safe.
