(* ===== verification/RfcExample.v ===== *)
(** * A concrete environment and concrete runs

    An instance of [Env] that answers every request in the simplest way, and the
    means to run a list of inputs on it.  The witnesses of the other files and
    the scenarios of [RfcScenario] are evaluated in this environment. *)
From S2P Require Import Prelude RfcDefs RfcMonad.

(** Channel 64 for every connection, 1-DH5 packets, an application that takes
    all data and has nothing to send, fresh blocks filled with zero octets. *)
#[export] Instance example_env : Env := {|
  env_ConnectReq _ _ := 64;
  env_GetMaxPacketSize _ _ := 339;
  env_data_co _ := true;
  env_co_size _ := Some 0%N;
  env_co_fill _ := Some (fun _ => 0);
  env_boottime_ms _ := 0;
  env_find_ccb _ _ := Some 1;
  env_always_disc_initiator := false;
  env_heap _ _ := 0;
  env_rpn_leftover _ := mk_mx_rpn false 0 0 0 0 0 0 0 0 0;
|}.

(** The program before start-up. *)
Definition power_on : world := mkWorld rfc_cb_init [].

(** A buffer as L2CAP delivers it: some headroom, the frame, nothing behind. *)
Definition rx_buf (frame : list Z) : BT_HDR :=
  mkBT_HDR (Z.of_nat (length frame)) 9 0 (replicate 9 0 ++ frame).
