(* ===== verification/RfcReach.v ===== *)
(** * RFCOMM as an event-driven program

    One constructor of [input] per entry point of the module.  A reachable state
    is one that start-up followed by any sequence of inputs leads to; the
    memory-safety invariant holds in all of them, and no input indexes a table
    or a buffer out of bounds or runs a loop without end. *)
From S2P Require Import Prelude RfcDefs RfcFcs RfcMonad RfcFrames RfcUtils RfcPort.
From S2P Require Import RfcMxFsm RfcPortFsm RfcApi RfcSystem RfcInvariant RfcSafety.
From S2P Require Import RfcApiSafety RfcInputs RfcExample.

Inductive input :=
  (* L2CAP *)
  | I_ConnectInd (bd_addr : RawAddress) (lcid : Z)
  | I_ConnectCnf (lcid result : Z)
  | I_ConfigInd (lcid : Z) (cfg : option tL2CAP_CFG_INFO)
  | I_ConfigCnf (lcid : Z) (cfg : option tL2CAP_CFG_INFO)
  | I_DisconnectInd (lcid : Z)
  | I_BufDataInd (lcid : Z) (b : BT_HDR)
  | I_CongestionStatusInd (lcid : Z) (congested : bool)
  | I_l2cap_error (lcid result : Z)
  (* timers and the security manager *)
  | I_port_timer (i : nat)
  | I_mcb_timer (m : nat)
  | I_sec_check_complete (i : nat) (res : Z)
  (* the application *)
  | I_CreateConnection (uuid scn : Z) (server : bool) (mtu : Z) (bd_addr : RawAddress)
      (mgmt : callback) (sec : Z)
  | I_ControlReqFromBTSOCK (dlci : Z) (bd_addr : RawAddress) (pars : tPORT_CTRL)
  | I_RemoveConnection (handle : Z)
  | I_RemoveServer (handle : Z)
  | I_SetEventMaskAndCallback (handle mask : Z) (f : callback)
  | I_ClearKeepHandleFlag (handle : Z)
  | I_SetDataCOCallback (handle : Z) (f : callback)
  | I_CheckConnection (handle : Z)
  | I_SetSettings (handle : Z) (s : PortSettings)
  | I_GetSettings (handle : Z)
  | I_FlowControl_MaxCredit (handle : Z) (enable : bool)
  | I_ReadData (handle max_len : Z)
  | I_WriteData (handle : Z) (data : list Z)
  | I_WriteDataCO (handle : Z).

Section inputs.
Context `{Env}.
#[local] Existing Instance rfc_machines.

Definition ignore {A} (m : M A) : M unit := _ ← m; mret ().

Definition handle_input (x : input) : M unit :=
  match x with
  | I_ConnectInd bd lcid => RFCOMM_ConnectInd bd lcid
  | I_ConnectCnf lcid r => RFCOMM_ConnectCnf lcid r
  | I_ConfigInd lcid cfg => RFCOMM_ConfigInd lcid cfg
  | I_ConfigCnf lcid cfg => RFCOMM_ConfigCnf lcid cfg
  | I_DisconnectInd lcid => RFCOMM_DisconnectInd lcid
  | I_BufDataInd lcid b => RFCOMM_BufDataInd lcid b
  | I_CongestionStatusInd lcid c => RFCOMM_CongestionStatusInd lcid c
  | I_l2cap_error lcid r => rfc_on_l2cap_error lcid r
  | I_port_timer i => rfcomm_port_timer_timeout i
  | I_mcb_timer m => rfcomm_mcb_timer_timeout m
  | I_sec_check_complete i r => rfc_sec_check_complete (Some i) r
  | I_CreateConnection u s srv mtu bd mgmt sec =>
      ignore (RFCOMM_CreateConnectionWithSecurity u s srv mtu bd mgmt sec)
  | I_ControlReqFromBTSOCK d bd pars => ignore (RFCOMM_ControlReqFromBTSOCK d bd pars)
  | I_RemoveConnection h => ignore (RFCOMM_RemoveConnection h)
  | I_RemoveServer h => ignore (RFCOMM_RemoveServer h)
  | I_SetEventMaskAndCallback h mask f => ignore (PORT_SetEventMaskAndCallback h mask f)
  | I_ClearKeepHandleFlag h => ignore (PORT_ClearKeepHandleFlag h)
  | I_SetDataCOCallback h f => ignore (PORT_SetDataCOCallback h f)
  | I_CheckConnection h => ignore (PORT_CheckConnection h)
  | I_SetSettings h s => ignore (PORT_SetSettings h s)
  | I_GetSettings h => ignore (PORT_GetSettings h)
  | I_FlowControl_MaxCredit h en => ignore (PORT_FlowControl_MaxCredit h en)
  | I_ReadData h n => ignore (PORT_ReadData h n)
  | I_WriteData h data => ignore (PORT_WriteData h data)
  | I_WriteDataCO h => ignore (PORT_WriteDataCO h)
  end.

(** What the types of the arguments and the callers promise: numbers are
    unsigned, buffers are well formed, timers and security requests are those of
    a port or a multiplexer.  Where a collision of connections is resolved, the
    ports must be entered at their DLCIs. *)
Definition input_ok (c : tRFC_CB) (x : input) : Prop :=
  match x with
  | I_BufDataInd _ b => rx_ok b
  | I_l2cap_error _ _ => ∀ m, collision_ok m c
  | I_port_timer i | I_sec_check_complete i _ => (i < 30)%nat
  | I_mcb_timer m => (m < 16)%nat ∧ collision_ok m c
  | I_CreateConnection _ s _ mtu _ _ _ => 0 <= s ∧ 0 <= mtu
  | I_ControlReqFromBTSOCK d _ _ => 0 <= d
  | I_RemoveConnection h | I_RemoveServer h | I_SetEventMaskAndCallback h _ _
  | I_ClearKeepHandleFlag h | I_SetDataCOCallback h _ | I_CheckConnection h
  | I_SetSettings h _ | I_GetSettings h | I_FlowControl_MaxCredit h _
  | I_WriteData h _ | I_WriteDataCO h => 0 <= h
  | I_ReadData h n => 0 <= h ∧ 0 <= n
  | _ => True
  end.

(** A state after start-up and some inputs that were handled without a fault. *)
Inductive reachable : world → Prop :=
  | reach_init w w' : RFCOMM_Init w = Ok ((), w') → reachable w'
  | reach_input x w w' :
      reachable w → input_ok (cb w) x → handle_input x w = Ok ((), w') → reachable w'.

(** ** The theorems *)
Lemma spec_ignore {A} q (m : M A) : spec q m any → spec q (ignore m) any.
Proof. intros Hm. eapply spec_bind; [exact Hm|]. intros a _. by apply spec_ret. Qed.

#[local] Hint Resolve spec_connect_ind spec_connect_cnf spec_config_ind spec_config_cnf
  spec_disconnect_ind spec_buf_data_ind spec_congestion_ind spec_port_timeout spec_sec_check
  spec_ignore spec_create_connection spec_control_from_sock spec_remove_connection
  spec_remove_server spec_set_event_mask spec_clear_keep spec_set_data_co spec_check_connection
  spec_set_settings spec_get_settings spec_max_credit spec_read_data spec_write_data
  spec_write_data_co : spec.
#[local] Hint Extern 0 (SMsafe _) => exact top_safe : spec.

Lemma handle_input_safe x w :
  Inv (cb w) → input_ok (cb w) x → safe (handle_input x) (fun _ w' => Inv (cb w')) w.
Proof.
  intros Hw Hx. destruct x; simpl in Hx.
  all: try (eapply (spec_safe Loose _ any); [simpl|exact Hw]; solve [eauto with spec nocore]).
  - by apply safe_l2cap_error.
  - destruct Hx. by apply safe_mcb_timeout.
Qed.

Lemma reachable_inv w : reachable w → Inv (cb w).
Proof.
  induction 1 as [w w' E|x w w' _ IH Hx E].
  - unfold RFCOMM_Init in E. injection E as <-. destruct Inv_init. by constructor.
  - pose proof (handle_input_safe x w IH Hx) as Hs. unfold safe in Hs. by rewrite E in Hs.
Qed.


End inputs.

(** ** Runs *)
Definition run `{Env} (l : list input) : M unit := forM_ l handle_input.

Lemma reach_run `{Env} l w w' :
  reachable w → Forall (fun x => ∀ c, input_ok c x) l → run l w = Ok ((), w') → reachable w'.
Proof.
  unfold run. revert w. induction l as [|x l IH]; intros w Hw Hl E.
  - by injection E as <-.
  - apply Forall_cons in Hl as [Hx Hl]. simpl in E. unfold mbind, M_bind in E.
    destruct (handle_input x w) as [[[] w1]|] eqn:E1; [|done].
    by apply (IH w1); [eapply reach_input|..].
Qed.

(** The state a run from start-up ends in. *)
Definition after (l : list input) : world :=
  match (RFCOMM_Init;; run l) power_on with
  | Ok (_, w) => w
  | Fault _ => power_on
  end.

Lemma reach_after l :
  Forall (fun x => ∀ c, input_ok c x) l →
  (RFCOMM_Init;; run l) power_on = Ok ((), after l) → reachable (after l).
Proof.
  intros Hl E. eapply reach_run; [by apply (reach_init power_on)|exact Hl|exact E].
Qed.

(** A server on channel 3, the peer's channel, and its SABM on DLCI 0. *)
Definition example_inputs : list input :=
  [I_CreateConnection UUID_SERVCLASS_SERIAL_PORT 3 true 0 0 (Some 1) 0; I_ConnectInd 7 64;
   I_ConfigInd 64 (Some zero_cfg); I_ConfigCnf 64 (Some zero_cfg)].
Definition example_sabm : input := I_BufDataInd 64 (rx_buf [3; 0x3F; 1; 0x1C]).

Lemma reach_example : reachable (after example_inputs).
Proof.
  apply reach_after; [|by vm_compute]. repeat constructor; simpl; lia.
Qed.

Lemma rx_ok_example : rx_ok (rx_buf [3; 0x3F; 1; 0x1C]).
Proof. constructor; simpl; try lia. repeat constructor; simpl; lia. Qed.


