(* ===== verification/RfcRoundTrip.v ===== *)
(** * What one side sends the other side understands

    The octets the sending functions of [RfcFrames] hand to L2CAP, and what
    [rfc_parse_data] and [rfc_process_mx_message] of the peer make of them.  The
    two sides of a multiplexer differ in [is_initiator], which decides the C/R
    bit of a command. *)
From S2P Require Import Prelude RfcDefs RfcFcs RfcMonad RfcFrames RfcUtils RfcPort.
From S2P Require Import RfcPortFsm RfcSystem RfcInvariant RfcApiSafety RfcExample.

(** ** Buffers in pieces *)
Lemma store_app pre old new post :
  length old = length new →
  store (pre ++ old ++ post) (Z.of_nat (length pre)) new = Some (pre ++ new ++ post).
Proof.
  intros El. rewrite store_some by (rewrite ?length_app; lia).
  rewrite Nat2Z.id, take_app_length, drop_app_ge, drop_app_ge by lia.
  do 3 f_equal. replace (length pre + length new - length pre - length old)%nat with 0%nat by lia.
  done.
Qed.

Lemma buf_write_app b pre old new post w :
  hdr_data b = pre ++ old ++ post → length old = length new →
  buf_write b (Z.of_nat (length pre)) new w = Ok (b <| hdr_data := pre ++ new ++ post |>, w).
Proof.
  intros Eb El. unfold buf_write. rewrite Eb, store_app by done. done.
Qed.

Lemma buf_slice_app b pre mid post n w :
  hdr_data b = pre ++ mid ++ post → n = Z.of_nat (length mid) →
  buf_slice b (Z.of_nat (length pre)) n w = Ok (mid, w).
Proof.
  intros Eb ->. rewrite buf_slice_ok by (rewrite ?Eb, ?length_app; lia).
  by rewrite Eb, !Nat2Z.id, drop_app_length, take_app_length.
Qed.

(** A buffer is the octets in front of its payload, the payload and the rest. *)
Lemma buf_split b :
  0 <= hdr_offset b → 0 <= hdr_len b → hdr_offset b + hdr_len b <= block_len b →
  ∃ pre post, hdr_data b = pre ++ hdr_payload b ++ post ∧
    Z.of_nat (length pre) = hdr_offset b ∧ Z.of_nat (length (hdr_payload b)) = hdr_len b.
Proof.
  intros Ho Hl He. exists (take (Z.to_nat (hdr_offset b)) (hdr_data b)),
    (drop (Z.to_nat (hdr_len b)) (drop (Z.to_nat (hdr_offset b)) (hdr_data b))).
  unfold hdr_payload. rewrite take_drop, take_drop, !length_take, length_drop. split_and!; [done|lia..].
Qed.

(** Reading a received buffer by the position in its payload. *)
Lemma buf_read_payload b k o w :
  rx_ok b → hdr_payload b !! k = Some o → buf_read b (hdr_offset b + Z.of_nat k) w = Ok (o, w).
Proof.
  intros [] E. unfold buf_read, load, at_index. rewrite (proj2 (Z.leb_le _ _)) by lia.
  unfold hdr_payload in E. apply lookup_take_Some in E as [E Hk].
  rewrite lookup_drop in E. replace (Z.to_nat _) with (Z.to_nat (hdr_offset b) + k)%nat by lia.
  by rewrite E.
Qed.

Lemma buf_slice_payload b n w :
  rx_ok b → 0 <= n <= hdr_len b →
  buf_slice b (hdr_offset b) n w = Ok (take (Z.to_nat n) (hdr_payload b), w).
Proof.
  intros [] Hn. rewrite buf_slice_ok by lia. unfold hdr_payload. rewrite take_take.
  by replace (Z.to_nat n `min` Z.to_nat (hdr_len b))%nat with (Z.to_nat n) by lia.
Qed.

(** ** The command queue *)
Definition set_mcb (m : nat) (mcb : tRFC_MCB) (w : world) : world :=
  w <| cb ::= fun c => c <| rfc_mcb ::= <[m := mcb]> |> |>.
Definition add_trace (l : list output) (w : world) : world := w <| trace ::= fun t => t ++ l |>.

Lemma get_mcb_ok m mcb w : rfc_mcb (cb w) !! m = Some mcb → get_mcb m w = Ok (mcb, w).
Proof. intros E. unfold get_mcb, mbind, M_bind, gets. by rewrite E. Qed.

Lemma upd_mcb_ok m f mcb w :
  rfc_mcb (cb w) !! m = Some mcb → upd_mcb m f w = Ok ((), set_mcb m (f mcb) w).
Proof. intros E. unfold upd_mcb, get_mcb, mbind, M_bind, gets. by rewrite E. Qed.

Lemma set_mcb_set m mcb mcb' w : set_mcb m mcb' (set_mcb m mcb w) = set_mcb m mcb' w.
Proof. destruct w as [c t]. unfold set_mcb, modify. simpl. by rewrite list_insert_insert_eq. Qed.

Lemma set_mcb_same m mcb w : rfc_mcb (cb w) !! m = Some mcb → set_mcb m mcb w = w.
Proof.
  intros E. destruct w as [c t]. unfold set_mcb, modify. simpl in *. destruct c; simpl in *.
  by rewrite list_insert_id.
Qed.

Lemma set_mcb_lookup m mcb mcb' w :
  rfc_mcb (cb w) !! m = Some mcb → rfc_mcb (cb (set_mcb m mcb' w)) !! m = Some mcb'.
Proof. intros E. simpl. apply list_lookup_insert_eq. by eapply lookup_lt_Some. Qed.

Lemma add_trace_app l l' w : add_trace l' (add_trace l w) = add_trace (l ++ l') w.
Proof. unfold add_trace, modify. simpl. by rewrite app_assoc. Qed.

Lemma add_trace_nil w : add_trace [] w = w.
Proof. destruct w. unfold add_trace, modify. simpl. by rewrite app_nil_r. Qed.

Lemma set_mcb_trace m mcb l w : set_mcb m mcb (add_trace l w) = add_trace l (set_mcb m mcb w).
Proof. done. Qed.

(** The frames queued for a multiplexer as L2CAP gets them. *)
Definition writes (lcid : Z) (q : list BT_HDR) : list output :=
  (fun b => L2CA_DataWrite lcid (hdr_payload b)) <$> q.

Lemma send_cmds_all fuel m mcb q w :
  rfc_mcb (cb w) !! m = Some mcb → l2cap_congested mcb = false → cmd_q mcb = Some q →
  (length q < fuel)%nat →
  send_cmds fuel m w =
    Ok ((), add_trace (writes (mcb_lcid mcb) q) (set_mcb m (mcb <| cmd_q := Some [] |>) w)).
Proof.
  revert mcb q w. induction fuel as [|fuel IH]; [lia|]. intros mcb q w Em Ec Eq Hlen.
  cbn [send_cmds]. erewrite bind_ok by (by apply get_mcb_ok). rewrite Ec, Eq.
  destruct q as [|b q].
  - assert (E : mcb <| cmd_q := Some [] |> = mcb)
      by (destruct mcb; unfold modify; simpl in *; by rewrite Eq).
    by rewrite E, set_mcb_same, add_trace_nil by done.
  - erewrite bind_ok by (by apply upd_mcb_ok). erewrite bind_ok by done.
    simpl in Hlen. rewrite (IH (mcb <| cmd_q := Some q |>) q); [|by eapply set_mcb_lookup|done|done|lia].
    change (?w <| trace ::= fun t => t ++ [?o] |>) with (add_trace [o] w).
    by rewrite set_mcb_trace, set_mcb_set, add_trace_app.
Qed.

Lemma check_send_cmd_ok m mcb q b w :
  rfc_mcb (cb w) !! m = Some mcb → cmd_q mcb = Some q →
  rfc_check_send_cmd m (Some b) w =
    Ok ((), if l2cap_congested mcb then set_mcb m (mcb <| cmd_q := Some (q ++ [b]) |>) w
            else add_trace (writes (mcb_lcid mcb) (q ++ [b]))
                   (set_mcb m (mcb <| cmd_q := Some [] |>) w)).
Proof.
  intros Em Eq. unfold rfc_check_send_cmd.
  set (mcb1 := mcb <| cmd_q := Some (q ++ [b]) |>).
  assert (E1 : rfc_mcb (cb (set_mcb m mcb1 w)) !! m = Some mcb1) by (by eapply set_mcb_lookup).
  erewrite bind_ok.
  2: { erewrite bind_ok by (by apply get_mcb_ok). rewrite Eq. by apply upd_mcb_ok. }
  fold mcb1. erewrite bind_ok by (by apply get_mcb_ok).
  destruct (l2cap_congested mcb) eqn:Ec.
  - cbn [send_cmds]. erewrite bind_ok by (by apply get_mcb_ok). simpl. by rewrite Ec.
  - rewrite (send_cmds_all _ m mcb1 (q ++ [b])); [|done..|simpl; lia].
    by rewrite set_mcb_set.
Qed.

(** The command queue.  A frame handed to [rfc_check_send_cmd] goes behind
    the ones waiting; all of them are written to L2CAP at once and in order when
    the channel is not congested, and all of them stay queued when it is. *)
Theorem rfc_check_send_cmd_fifo m mcb q b w :
  rfc_mcb (cb w) !! m = Some mcb → cmd_q mcb = Some q →
  rfc_check_send_cmd m (Some b) w =
    Ok ((), if l2cap_congested mcb then set_mcb m (mcb <| cmd_q := Some (q ++ [b]) |>) w
            else add_trace (writes (mcb_lcid mcb) (q ++ [b]))
                   (set_mcb m (mcb <| cmd_q := Some [] |>) w)).
Proof. apply check_send_cmd_ok. Qed.

(** A multiplexer with two frames waiting for an end of congestion. *)
Definition example_mcb : tRFC_MCB :=
  zero_mcb <| mcb_lcid := 64 |> <| cmd_q := Some [rx_buf [1]; rx_buf [2]] |>
           <| mcb_state := RFC_MX_STATE_CONNECTED |>.

Lemma rfc_check_send_cmd_fifo_witness :
  ∃ w', rfc_check_send_cmd 0 (Some (rx_buf [3])) (set_mcb 0 example_mcb power_on) = Ok ((), w') ∧
    trace w' = [L2CA_DataWrite 64 [1]; L2CA_DataWrite 64 [2]; L2CA_DataWrite 64 [3]].
Proof.
  eexists. split.
  - exact (rfc_check_send_cmd_fifo 0 example_mcb [rx_buf [1]; rx_buf [2]] (rx_buf [3])
             (set_mcb 0 example_mcb power_on) eq_refl eq_refl).
  - reflexivity.
Defined.

(** ** Receiving *)
Definition set_frame (g : MX_FRAME → MX_FRAME) (w : world) : world :=
  w <| cb ::= fun c => c <| rx_frame ::= g |> |>.

Lemma set_frame_ok g w : set_rx_frame g w = Ok ((), set_frame g w).
Proof. done. Qed.

(** The frame after the address and control octets. *)
Definition frame_header (a t : Z) (f : MX_FRAME) : MX_FRAME :=
  f <| f_cr := Z.shiftr (Z.land a RFCOMM_CR_MASK) RFCOMM_SHIFT_CR |>
    <| f_dlci := Z.shiftr a RFCOMM_SHIFT_DLCI |>
    <| f_type := Z.land t (Z.lxor 0xFF RFCOMM_PF_MASK) |>
    <| f_pf := Z.shiftr (Z.land t RFCOMM_PF_MASK) RFCOMM_PF_OFFSET |>.

(** The length octets for [len]: one up to 127, two above. *)
Definition length_octets (len : Z) : list Z :=
  if len <=? 127 then [u8 (Z.lor RFCOMM_EA (Z.shiftl len 1))]
  else [u8 (Z.shiftl (Z.land len 0x7f) 1); u8 (Z.shiftr len RFCOMM_SHIFT_LENGTH2)].

Lemma short_length len : 0 <= len <= 127 →
  (Z.land (u8 (Z.lor RFCOMM_EA (Z.shiftl len 1))) RFCOMM_EA =? 0) = false ∧
  Z.shiftr (u8 (Z.lor RFCOMM_EA (Z.shiftl len 1))) RFCOMM_SHIFT_LENGTH1 = len.
Proof.
  intros Hl. pose proof (below_forallb 128 (fun len =>
    negb (Z.land (u8 (Z.lor RFCOMM_EA (Z.shiftl len 1))) RFCOMM_EA =? 0) &&
    (Z.shiftr (u8 (Z.lor RFCOMM_EA (Z.shiftl len 1))) RFCOMM_SHIFT_LENGTH1 =? len))
    eq_refl len ltac:(lia)) as H. apply andb_true_iff in H as [H1 H2].
  split; [by apply negb_true_iff | by apply Z.eqb_eq].
Qed.

Lemma long_length len : 128 <= len < 32768 →
  (Z.land (u8 (Z.shiftl (Z.land len 0x7f) 1)) RFCOMM_EA =? 0) = true ∧
  u16 (Z.shiftr (u8 (Z.shiftl (Z.land len 0x7f) 1)) RFCOMM_SHIFT_LENGTH1 +
       Z.shiftl (u8 (Z.shiftr len RFCOMM_SHIFT_LENGTH2)) RFCOMM_SHIFT_LENGTH2) = len.
Proof.
  intros Hl.
  assert (E1 : ∀ a, Z.land a 1 = a mod 2) by (intros a; apply (Z.land_ones a 1); lia).
  assert (E7 : Z.land len 0x7f = len mod 128) by (apply (Z.land_ones len 7); lia).
  rewrite E7, E1, !Z.shiftl_mul_pow2, !Z.shiftr_div_pow2 by lia.
  change (2 ^ 7) with 128; change (2 ^ 1) with 2. unfold u8.
  rewrite (Z.mod_small (len mod 128 * 2)) by (Z.div_mod_to_equations; lia).
  rewrite (Z.mod_small (len / 128)) by (Z.div_mod_to_equations; lia).
  split; [apply Z.eqb_eq; apply Z_mod_mult|]. rewrite Z.div_mul by lia.
  rewrite u16_small; [|unfold is_u16]; Z.div_mod_to_equations; lia.
Qed.

(** A frame of [len] octets of information, behind [ls] and in front of the FCS. *)
Definition payload_at (b : BT_HDR) (k len : Z) : BT_HDR :=
  b <| hdr_len := len |> <| hdr_offset := hdr_offset b + k |>.

Lemma payload_at_step b k n :
  is_u16 (hdr_offset b + k) → hdr_len b - (k + 1) = n →
  b <| hdr_len ::= fun n => n - (k + 1) |> <| hdr_offset ::= fun o => u16 (o + k) |> =
  payload_at b k n.
Proof. intros Ho <-. unfold payload_at, modify. simpl. by rewrite u16_small. Qed.

Lemma parse_header m b w a t len (body : list Z) fcs :
  rx_ok b → hdr_payload b = [a; t] ++ length_octets len ++ body ++ [fcs] →
  (Z.land a RFCOMM_EA =? 0) = false → 0 <= len < 32768 →
  let k := 2 + Z.of_nat (length (length_octets len)) in
  rfc_parse_data m b w =
    parse_body m (hdr_offset b) len (hdr_offset b + k)
      (payload_at b k (Z.of_nat (length body))) (set_frame (frame_header a t) w).
Proof.
  intros Hb Ep Hea Hlen. destruct (Hb).
  assert (El : hdr_len b = Z.of_nat (length (hdr_payload b)))
    by (rewrite length_payload; done).
  rewrite Ep, !length_app in El. simpl length in El.
  unfold rfc_parse_data. rewrite (proj2 (Z.ltb_ge _ _)) by lia. cbv zeta.
  assert (Hrd : ∀ k o w, hdr_payload b !! k = Some o →
    buf_read b (hdr_offset b + Z.of_nat k) w = Ok (o, w)) by (intros; by apply buf_read_payload).
  rewrite Ep in Hrd. simpl app in Hrd.
  rewrite <-(Z.add_0_r (hdr_offset b)) at 1.
  erewrite bind_ok by (by apply (Hrd 0%nat)). erewrite bind_ok by apply set_frame_ok.
  rewrite Hea. erewrite bind_ok by (by apply (Hrd 1%nat)).
  erewrite bind_ok by apply set_frame_ok.
  unfold length_octets in *. destruct (len <=? 127) eqn:Es; simpl app in *; simpl length in *.
  - destruct (short_length len ltac:(lia)) as [E1 E2].
    erewrite bind_ok by (by apply (Hrd 2%nat)). rewrite E1. cbn [andb negb].
    erewrite bind_ok by done. rewrite E2. cbn [b2z].
    rewrite (proj2 (Z.ltb_ge _ _)) by lia. rewrite !Z.add_0_r.
    rewrite (payload_at_step b 3 (Z.of_nat (length body))); [done|unfold is_u16; lia|lia].
  - destruct (long_length len ltac:(lia)) as [E1 E2].
    erewrite bind_ok by (by apply (Hrd 2%nat)). rewrite E1. cbn [andb].
    rewrite (proj2 (Z.ltb_lt _ _)) by lia. cbn [negb].
    erewrite bind_ok by (erewrite bind_ok by (by apply (Hrd 3%nat)); done). rewrite E2. cbn [b2z].
    rewrite (proj2 (Z.ltb_ge _ _)) by lia. change (3 + 1) with 4. rewrite <-Z.add_assoc.
    rewrite (payload_at_step b 4 (Z.of_nat (length body))); [done|unfold is_u16; lia|lia].
Qed.

(** Does a frame carry a credit octet? *)
Definition with_credit (mcb : tRFC_MCB) (f : MX_FRAME) : bool :=
  (flow mcb =? PORT_FC_CREDIT) && (f_type f =? RFCOMM_UIH)
  && negb (f_dlci f =? RFCOMM_MX_DLCI) && (f_pf f =? 1).

(** The last part of the parser, behind an optional credit octet. *)
Definition judge (mcb : tRFC_MCB) (b : BT_HDR) (k len fcs : Z) : M (tRFC_EVENT * BT_HDR) :=
  fr ← gets rx_frame;
  ev ← rfc_frame_event (is_initiator mcb) fr (payload_at b k len) (hdr_offset b) len fcs;
  mret (ev, payload_at b k len).

Section body.
Variables (m : nat) (b : BT_HDR) (w : world) (mcb : tRFC_MCB).
Hypotheses (Hb : rx_ok b) (Em : rfc_mcb (cb w) !! m = Some mcb).

Lemma buf_read_fcs pre body fcs k len w' :
  hdr_payload b = pre ++ body ++ [fcs] → k = Z.of_nat (length pre) → len = Z.of_nat (length body) →
  buf_read (payload_at b k len) (hdr_offset b + k + len) w' = Ok (fcs, w').
Proof.
  intros Ep -> ->. change (buf_read (payload_at b ?k ?l)) with (buf_read b).
  replace (_ + _ + _) with (hdr_offset b + Z.of_nat (length (pre ++ body)))
    by (rewrite length_app; lia).
  apply buf_read_payload; [done|]. rewrite Ep, app_assoc. by apply list_lookup_middle.
Qed.

Lemma parse_body_plain pre body fcs k len :
  hdr_payload b = pre ++ body ++ [fcs] → k = Z.of_nat (length pre) → len = Z.of_nat (length body) →
  with_credit mcb (rx_frame (cb w)) = false →
  parse_body m (hdr_offset b) len (hdr_offset b + k) (payload_at b k len) w =
    judge mcb b k len fcs (set_frame (fun f => f <| f_credit := 0 |>) w).
Proof.
  intros Ep Ek El Hc. unfold parse_body, parse_credit.
  erewrite bind_ok.
  2: { erewrite bind_ok by (by apply get_mcb_ok). erewrite bind_ok by done.
       unfold with_credit in Hc. rewrite Hc. by erewrite bind_ok by done. }
  cbv beta iota. simpl hdr_len. rewrite Z.eqb_refl. cbn [negb].
  erewrite bind_ok by (by eapply buf_read_fcs).
  by erewrite bind_ok by (by apply get_mcb_ok).
Qed.

Lemma parse_body_credit pre c body fcs k len :
  hdr_payload b = pre ++ [c] ++ body ++ [fcs] → k = Z.of_nat (length pre) →
  len = Z.of_nat (length body) → with_credit mcb (rx_frame (cb w)) = true →
  parse_body m (hdr_offset b) len (hdr_offset b + k) (payload_at b k (len + 1)) w =
    judge mcb b (k + 1) len fcs (set_frame (fun f => f <| f_credit := c |>) w).
Proof.
  intros Ep Ek El Hc. unfold parse_body, parse_credit.
  assert (Hlen : hdr_offset b + k + 1 < 65536).
  { pose proof (length_payload b Hb) as Hl. rewrite Ep, !length_app in Hl. destruct Hb. simpl in Hl. lia. }
  erewrite bind_ok.
  2: { erewrite bind_ok by (by apply get_mcb_ok). erewrite bind_ok by done.
       unfold with_credit in Hc. rewrite Hc.
       change (hdr_len (payload_at b k (len + 1))) with (len + 1).
       replace (len + 1 <? 1) with false by lia.
       erewrite bind_ok.
       2: { change (buf_read (payload_at b ?k ?l)) with (buf_read b). rewrite Ek.
            apply buf_read_payload; [done|]. rewrite Ep. by apply list_lookup_middle. }
       by erewrite bind_ok by done. }
  cbv beta iota.
  replace (payload_at b k (len + 1) <| hdr_len ::= _ |> <| hdr_offset ::= _ |>)
    with (payload_at b (k + 1) len).
  2: { destruct Hb. unfold payload_at, modify. simpl. rewrite u16_small by (unfold is_u16; lia).
       f_equal; lia. }
  simpl hdr_len. rewrite Z.eqb_refl. cbn [negb]. rewrite <-(Z.add_assoc _ k 1).
  erewrite bind_ok.
  2: { apply (buf_read_fcs (pre ++ [c]) body); [by rewrite Ep, <-app_assoc|rewrite length_app; simpl; lia|done]. }
  by erewrite bind_ok by (by apply get_mcb_ok).
Qed.
End body.

(** ** Addresses *)
Definition address_octet (initiator is_command : bool) (d : Z) : Z :=
  u8 (Z.lor (Z.lor RFCOMM_EA (RFCOMM_CR initiator is_command)) (Z.shiftl d RFCOMM_SHIFT_DLCI)).

Record address_spec (i cmd : bool) (d a : Z) : Prop := {
  addr_octet : is_u8 a;
  addr_ea : (Z.land a RFCOMM_EA =? 0) = false;
  addr_cr : Z.shiftr (Z.land a RFCOMM_CR_MASK) RFCOMM_SHIFT_CR = b2z (eqb i cmd);
  addr_dlci : Z.shiftr a RFCOMM_SHIFT_DLCI = d;
}.

Lemma address_octet_spec i cmd d :
  0 <= d <= RFCOMM_MAX_DLCI → address_spec i cmd d (address_octet i cmd d).
Proof.
  intros Hd. pose proof (below_forallb 62 (fun d => let a := address_octet i cmd d in
    (0 <=? a) && (a <? 256) && negb (Z.land a RFCOMM_EA =? 0) &&
    (Z.shiftr (Z.land a RFCOMM_CR_MASK) RFCOMM_SHIFT_CR =? b2z (eqb i cmd)) &&
    (Z.shiftr a RFCOMM_SHIFT_DLCI =? d)) ltac:(by destruct i, cmd) d ltac:(lia)) as H.
  cbv beta zeta in H. rewrite !andb_true_iff in H.
  destruct H as [[[[H1 H2] H3] H4] H5]. constructor; [unfold is_u8; lia| |lia|lia].
  by apply negb_true_iff.
Qed.

Lemma valid_dlci_range d : RFCOMM_VALID_DLCI d = true → 0 <= d <= RFCOMM_MAX_DLCI.
Proof. unfold RFCOMM_VALID_DLCI. lia. Qed.

(** ** Control frames *)
Definition ctrl_wire (initiator is_command : bool) (d control : Z) : list Z :=
  let hd := [address_octet initiator is_command d; control; Z.lor RFCOMM_EA 0] in
  hd ++ [rfc_calc_fcs hd].

Lemma list_pieces {A} (l : list A) a n :
  (a + n <= length l)%nat →
  ∃ pre mid post, l = pre ++ mid ++ post ∧ length pre = a ∧ length mid = n.
Proof.
  intros Hl. exists (take a l), (take n (drop a l)), (drop n (drop a l)).
  rewrite take_drop, take_drop, !length_take, length_drop. split_and!; [done|lia..].
Qed.

Lemma payload_app b pre mid post :
  hdr_data b = pre ++ mid ++ post → hdr_offset b = Z.of_nat (length pre) →
  hdr_len b = Z.of_nat (length mid) → hdr_payload b = mid.
Proof.
  intros Ed Eo El. unfold hdr_payload.
  by rewrite Ed, Eo, El, !Nat2Z.id, drop_app_length, take_app_length.
Qed.

Lemma osi_malloc_ok `{Env} n w :
  BT_HDR_SIZE <= n → ∃ b, osi_malloc n w = Ok (b, w) ∧ block_len b = n - BT_HDR_SIZE.
Proof.
  intros Hn. unfold osi_malloc. erewrite bind_ok by done. eexists. split; [done|].
  cbn [hdr_data]. rewrite length_fmap, length_seqZ. lia.
Qed.

Lemma ctrl_frame_ok `{Env} i cmd d control w :
  ∃ b, ctrl_frame (RFCOMM_CR i cmd) d control w = Ok (b, w) ∧
    hdr_payload b = ctrl_wire i cmd d control.
Proof.
  destruct (osi_malloc_ok RFCOMM_CMD_BUF_SIZE w) as (b0 & E0 & Hb0); [lia|].
  unfold ctrl_frame. erewrite bind_ok by exact E0. cbv zeta.
  destruct (list_pieces (hdr_data b0) 13 4) as (pre & mid & post & E & Hpre & Hmid); [lia|].
  destruct mid as [|x0 [|x1 [|x2 [|x3 [|]]]]]; simpl in Hmid; try lia.
  change ([x0; x1; x2; x3] ++ post) with ([x0; x1; x2] ++ x3 :: post) in E.
  change L2CAP_MIN_OFFSET with (Z.of_nat 13). rewrite <-Hpre.
  erewrite bind_ok by (by apply (buf_write_app _ pre [x0; x1; x2])).
  fold (address_octet i cmd d).
  erewrite bind_ok by (by apply (buf_slice_app _ pre [address_octet i cmd d; control; 1] (x3 :: post))).
  set (hd := [address_octet i cmd d; control; 1]).
  replace (Z.of_nat (length pre) + 3) with (Z.of_nat (length (pre ++ hd)))
    by (rewrite length_app; simpl; lia).
  erewrite bind_ok.
  2: { apply (buf_write_app _ (pre ++ hd) [x3] [rfc_calc_fcs hd] post); [|done].
       simpl. by rewrite <-app_assoc. }
  eexists. split; [done|]. apply (payload_app _ pre _ post); simpl; [|by rewrite Hpre|done].
  by rewrite <-app_assoc.
Qed.

(** The four control frames, as their event at the receiver names them. *)
Inductive ctrl_event := Ctrl_SABME | Ctrl_UA | Ctrl_DM (pf : bool) | Ctrl_DISC.

Definition send_ctrl `{Env} (e : ctrl_event) : nat → Z → M unit :=
  match e with
  | Ctrl_SABME => rfc_send_sabme
  | Ctrl_UA => rfc_send_ua
  | Ctrl_DM pf => fun m d => rfc_send_dm m d pf
  | Ctrl_DISC => rfc_send_disc
  end.

Definition ctrl_event_of (e : ctrl_event) : tRFC_EVENT :=
  match e with
  | Ctrl_SABME => RFC_EVENT_SABME
  | Ctrl_UA => RFC_EVENT_UA
  | Ctrl_DM _ => RFC_EVENT_DM
  | Ctrl_DISC => RFC_EVENT_DISC
  end.

Definition ctrl_is_command (e : ctrl_event) : bool :=
  match e with Ctrl_SABME | Ctrl_DISC => true | _ => false end.

Definition ctrl_octet (e : ctrl_event) : Z :=
  match e with
  | Ctrl_SABME => Z.lor RFCOMM_SABME RFCOMM_PF
  | Ctrl_UA => Z.lor RFCOMM_UA RFCOMM_PF
  | Ctrl_DM pf => Z.lor RFCOMM_DM (if pf then RFCOMM_PF else 0)
  | Ctrl_DISC => Z.lor RFCOMM_DISC RFCOMM_PF
  end.

Definition ctrl_pf (e : ctrl_event) : Z := match e with Ctrl_DM false => 0 | _ => 1 end.

Lemma cmd_q_same mcb q : cmd_q mcb = Some q → mcb <| cmd_q := Some q |> = mcb.
Proof. intros E. destruct mcb; unfold modify; simpl in *. by rewrite E. Qed.

Lemma send_ctrl_ok `{Env} e m mcb d w :
  rfc_mcb (cb w) !! m = Some mcb → cmd_q mcb = Some [] → l2cap_congested mcb = false →
  send_ctrl e m d w = Ok ((), add_trace [L2CA_DataWrite (mcb_lcid mcb)
    (ctrl_wire (is_initiator mcb) (ctrl_is_command e) d (ctrl_octet e))] w).
Proof.
  intros Em Eq Ec.
  destruct (ctrl_frame_ok (is_initiator mcb) (ctrl_is_command e) d (ctrl_octet e) w)
    as (b & Eb & <-).
  replace (send_ctrl e m d w) with (rfc_check_send_cmd m (Some b) w).
  - rewrite (check_send_cmd_ok m mcb []), Ec by done. by rewrite cmd_q_same, set_mcb_same.
  - unfold send_ctrl, rfc_send_sabme, rfc_send_ua, rfc_send_dm, rfc_send_disc.
    destruct e; simpl in *; symmetry; erewrite bind_ok by (by apply get_mcb_ok);
      by erewrite bind_ok by exact Eb.
Qed.

(** The frame the receiver has decoded. *)
Lemma ctrl_decoded e i d f :
  0 <= d <= RFCOMM_MAX_DLCI →
  let f' := frame_header (address_octet i (ctrl_is_command e) d) (ctrl_octet e) f in
  f_dlci f' = d ∧ f_pf f' = ctrl_pf e ∧ f_cr f' = b2z (eqb i (ctrl_is_command e)) ∧
  f_type f' = Z.land (ctrl_octet e) 0xEF.
Proof.
  intros Hd. destruct (address_octet_spec i (ctrl_is_command e) d Hd). simpl.
  split_and!; [done| |done|done]. by destruct e as [| |[]|].
Qed.

Lemma ctrl_judged e i fr b p hd fcs w :
  f_type fr = Z.land (ctrl_octet e) 0xEF → f_pf fr = ctrl_pf e →
  f_cr fr = b2z (eqb i (ctrl_is_command e)) → RFCOMM_VALID_DLCI (f_dlci fr) = true →
  buf_slice b p RFCOMM_CTRL_FRAME_LEN w = Ok (hd, w) → rfc_check_fcs hd fcs = true →
  rfc_frame_event (negb i) fr b p 0 fcs w = Ok (ctrl_event_of e, w).
Proof.
  intros Et Epf Ecr Hv Es Ef. unfold rfc_frame_event. rewrite Et, Epf, Ecr, Hv. cbv zeta.
  assert (Hok : (hd ← buf_slice b p RFCOMM_CTRL_FRAME_LEN; mret (rfc_check_fcs hd fcs)) w =
    Ok (true, w)) by (erewrite bind_ok by exact Es; by rewrite Ef).
  destruct e as [| |[]|], i; cbn; exact (bind_ok _ _ _ _ _ Hok).
Qed.

Lemma parse_ctrl e i m mcb b d w :
  rfc_mcb (cb w) !! m = Some mcb → is_initiator mcb = negb i → RFCOMM_VALID_DLCI d = true →
  rx_ok b → hdr_payload b = ctrl_wire i (ctrl_is_command e) d (ctrl_octet e) →
  ∃ f b', rfc_parse_data m b w = Ok ((ctrl_event_of e, b'), set_frame (fun _ => f) w) ∧
    f_dlci f = d ∧ f_pf f = ctrl_pf e ∧ hdr_payload b' = [].
Proof.
  intros Em Ei Hv Hb Ep. pose proof (valid_dlci_range d Hv) as Hd.
  destruct (address_octet_spec i (ctrl_is_command e) d Hd) as [Ha Hea _ _].
  destruct (ctrl_decoded e i d (rx_frame (cb w)) Hd) as (Ed & Epf & Ecr & Et).
  unfold ctrl_wire in Ep. set (a := address_octet i (ctrl_is_command e) d) in *.
  set (hd := [a; ctrl_octet e; Z.lor RFCOMM_EA 0]) in *.
  rewrite (parse_header m b w a (ctrl_octet e) 0 [] (rfc_calc_fcs hd)); [|done|done|done|lia].
  rewrite (parse_body_plain m b (set_frame (frame_header a (ctrl_octet e)) w) mcb Hb Em
             hd [] (rfc_calc_fcs hd)); [|done..|].
  2: { unfold with_credit. change (rx_frame (cb (set_frame ?g w))) with (g (rx_frame (cb w))).
       rewrite Et. by destruct (flow mcb =? _), e as [| |[]|]. }
  unfold judge. erewrite bind_ok by done. rewrite Ei.
  erewrite bind_ok.
  2: { eapply (ctrl_judged e i _ _ _ (take 3 (hdr_payload b))); [done..| | |].
       - by rewrite <-Ed in Hv.
       - change (buf_slice (payload_at b ?k ?l)) with (buf_slice b).
         apply buf_slice_payload; [done|]. rewrite <-(length_payload b Hb), Ep. simpl. lia.
       - rewrite Ep. apply rfc_check_fcs_calc. apply Forall_cons. split; [done|].
         destruct e as [| |[]|]; repeat constructor; done. }
  do 2 eexists. split; [done|]. simpl. split_and!; [exact Ed | exact Epf | done].
Qed.

(** C6: a SABM, UA, DM or DISC frame arrives as what was sent.  The frame one side
    builds, delivered in any buffer to the other side (whose C/R role is the
    opposite one), passes the FCS and C/R checks, is recognised as the same kind
    of frame for the same DLCI with the same P/F bit, and carries no data. *)
Theorem control_frame_roundtrip `{Env} e m mcb ws m' mcb' wr d :
  rfc_mcb (cb ws) !! m = Some mcb → cmd_q mcb = Some [] → l2cap_congested mcb = false →
  rfc_mcb (cb wr) !! m' = Some mcb' → is_initiator mcb' = negb (is_initiator mcb) →
  RFCOMM_VALID_DLCI d = true →
  ∃ frame,
    send_ctrl e m d ws = Ok ((), add_trace [L2CA_DataWrite (mcb_lcid mcb) frame] ws) ∧
    ∀ b, rx_ok b → hdr_payload b = frame →
      ∃ f b', rfc_parse_data m' b wr = Ok ((ctrl_event_of e, b'), set_frame (fun _ => f) wr) ∧
        f_dlci f = d ∧ f_pf f = ctrl_pf e ∧ hdr_payload b' = [].
Proof.
  intros Em Eq Ec Em' Ei Hv. eexists. split; [by apply send_ctrl_ok|].
  intros b Hb Ep. by eapply parse_ctrl.
Qed.

(** Two sides of a multiplexer, nothing queued, credit based flow control. *)
Definition example_side (initiator : bool) : tRFC_MCB :=
  zero_mcb <| mcb_lcid := 64 |> <| cmd_q := Some [] |> <| is_initiator := initiator |>
           <| flow := PORT_FC_CREDIT |> <| mcb_state := RFC_MX_STATE_CONNECTED |>.
Definition side (initiator : bool) : world := set_mcb 0 (example_side initiator) power_on.

Lemma control_frame_roundtrip_witness :
  ∃ frame,
    send_ctrl Ctrl_SABME 0 6 (side true) =
      Ok ((), add_trace [L2CA_DataWrite 64 frame] (side true)) ∧
    ∀ b, rx_ok b → hdr_payload b = frame →
      ∃ f b', rfc_parse_data 0 b (side false) =
          Ok ((RFC_EVENT_SABME, b'), set_frame (fun _ => f) (side false)) ∧
        f_dlci f = 6 ∧ f_pf f = 1 ∧ hdr_payload b' = [].
Proof.
  exact (control_frame_roundtrip Ctrl_SABME 0 (example_side true) (side true) 0
           (example_side false) (side false) 6 eq_refl eq_refl eq_refl eq_refl eq_refl eq_refl).
Defined.

(** ** Information frames *)
Definition uih_header (initiator : bool) (d credits : Z) : list Z :=
  [address_octet initiator true d; Z.lor RFCOMM_UIH (if nz credits then RFCOMM_PF else 0)].

Definition uih_wire (initiator : bool) (d credits : Z) (bytes : list Z) : list Z :=
  uih_header initiator d credits ++ length_octets (Z.of_nat (length bytes)) ++
  (if nz credits then [credits] else []) ++ bytes ++
  [rfc_calc_fcs (uih_header initiator d credits)].

Lemma send_uih_ok `{Env} m mcb d b w :
  rfc_mcb (cb w) !! m = Some mcb → tx_ok b →
  ∃ b', hdr_payload b' = uih_wire (is_initiator mcb) d (if nz d then u8 (hdr_layer_specific b) else 0)
                           (hdr_payload b) ∧
    rfc_send_buf_uih m d b w =
      (if d =? RFCOMM_MX_DLCI then rfc_check_send_cmd m (Some b') w
       else Ok ((), add_trace [L2CA_DataWrite (mcb_lcid mcb) (hdr_payload b')] w)).
Proof.
  intros Em []. unfold rfc_send_buf_uih. erewrite bind_ok by (by apply get_mcb_ok). cbv zeta.
  destruct (buf_split b) as (pre0 & post0 & Ed & Epre & Epay); [lia..|].
  fold (address_octet (is_initiator mcb) true d) (length_octets (hdr_len b)).
  set (credits := if nz d then _ else _). set (cs := if nz credits then [credits] else []).
  fold (uih_header (is_initiator mcb) d credits). set (hd := uih_header _ _ _).
  set (header := hd ++ length_octets (hdr_len b) ++ cs).
  match goal with |- context [buf_write b ?o _] => set (offset := o) end.
  assert (Hoff : offset = hdr_offset b - Z.of_nat (length header) ∧ (2 <= length header <= 5)%nat).
  { unfold offset, header, cs, length_octets. rewrite !length_app.
    change (length hd) with 2%nat.
    replace (hdr_len b <=? 127) with (negb (127 <? hdr_len b)) by lia.
    destruct (127 <? hdr_len b), (nz credits); simpl length; simpl negb; cbv iota; split; wrap_lia. }
  destruct Hoff as [Eoff Hhl].
  destruct (list_pieces pre0 (Z.to_nat offset) (length header))
    as (pre & gap & nil & Epre0 & Hpre & Hgap); [lia|].
  assert (nil = []) as -> by (apply length_zero_iff_nil; subst pre0; rewrite !length_app in Epre; lia).
  destruct post0 as [|x post].
  { rewrite Ed, !length_app in tx_end. simpl in tx_end. lia. }
  subst pre0. rewrite app_nil_r, <-!app_assoc in Ed.
  replace offset with (Z.of_nat (length pre)) by lia.
  erewrite bind_ok by (by apply (buf_write_app _ pre gap)).
  erewrite bind_ok.
  2: { apply (buf_slice_app _ pre hd (length_octets (hdr_len b) ++ cs ++ hdr_payload b ++ x :: post)).
       - simpl. unfold header. by rewrite <-!app_assoc.
       - done. }
  rewrite (u16_small (hdr_len b + Z.of_nat (length header))) by (unfold is_u16; lia).
  erewrite bind_ok.
  2: { replace (_ + (hdr_len b + _)) with (Z.of_nat (length (pre ++ header ++ hdr_payload b)))
         by (rewrite !length_app; lia).
       apply (buf_write_app _ (pre ++ header ++ hdr_payload b) [x] [rfc_calc_fcs hd] post); [|done].
       by rewrite <-!app_assoc. }
  rewrite (u16_small (_ + 1)) by (unfold is_u16; lia).
  match goal with |- context [rfc_check_send_cmd m (Some ?b)] => exists b; set (b' := b) end.
  assert (E : hdr_payload b' = uih_wire (is_initiator mcb) d credits (hdr_payload b)).
  { assert (Ew : uih_wire (is_initiator mcb) d credits (hdr_payload b) =
      header ++ hdr_payload b ++ [rfc_calc_fcs hd]).
    { unfold uih_wire, header. rewrite Epay. by rewrite <-!app_assoc. }
    rewrite Ew. apply (payload_app _ pre _ post).
    - unfold b'. by rewrite <-!app_assoc.
    - done.
    - change (hdr_len b') with (hdr_len b + Z.of_nat (length header) + 1).
      rewrite !length_app, !Nat2Z.inj_add, Epay. cbn [length]. lia. }
  split; [exact E|]. by case_match.
Qed.

Lemma payload_at_payload b pre bytes post k len :
  rx_ok b → hdr_payload b = pre ++ bytes ++ post → k = Z.of_nat (length pre) →
  len = Z.of_nat (length bytes) →
  hdr_payload (payload_at b k len) = bytes ∧ rx_ok (payload_at b k len) ∧
  hdr_offset (payload_at b k len) + len + Z.of_nat (length post) <= block_len b.
Proof.
  intros Hb Ep -> ->. pose proof (length_payload b Hb) as Hl. rewrite Ep, !length_app in Hl.
  destruct Hb. destruct (buf_split b) as (p0 & q0 & Ed & E0 & _); [lia..|].
  split; [|split; [constructor; simpl; (done || lia)|simpl; lia]].
  apply (payload_app _ (p0 ++ pre) _ (post ++ q0)).
  - simpl. by rewrite Ed, Ep, <-!app_assoc.
  - simpl. rewrite length_app. lia.
  - done.
Qed.

Lemma uih_judged init fr b p hd len fcs w :
  f_type fr = RFCOMM_UIH → RFCOMM_VALID_DLCI (f_dlci fr) = true →
  buf_slice b p 2 w = Ok (hd, w) → rfc_check_fcs hd fcs = true →
  rfc_frame_event init fr b p len fcs w = Ok (RFC_EVENT_UIH, w).
Proof.
  intros Et Hv Es Ef. unfold rfc_frame_event. rewrite Et, Hv. cbn [Z.eqb Pos.eqb negb].
  erewrite bind_ok by exact Es. by rewrite Ef.
Qed.

Lemma uih_header_ok i d credits f :
  0 <= d <= RFCOMM_MAX_DLCI →
  let a := address_octet i true d in
  let t := Z.lor RFCOMM_UIH (if nz credits then RFCOMM_PF else 0) in
  bytes_ok [a; t] ∧ f_type (frame_header a t f) = RFCOMM_UIH ∧
  f_dlci (frame_header a t f) = d ∧ (f_pf (frame_header a t f) =? 1) = nz credits.
Proof.
  intros Hd. destruct (address_octet_spec i true d Hd). simpl.
  destruct (nz credits); split_and!; try done; apply Forall_cons; split; try done;
    by repeat constructor.
Qed.

Lemma judge_uih mcb b hd pre bytes k w :
  rx_ok b → hdr_payload b = (hd ++ pre) ++ bytes ++ [rfc_calc_fcs hd] → length hd = 2%nat →
  bytes_ok hd → f_type (rx_frame (cb w)) = RFCOMM_UIH →
  RFCOMM_VALID_DLCI (f_dlci (rx_frame (cb w))) = true →
  judge mcb b k (Z.of_nat (length bytes)) (rfc_calc_fcs hd) w =
    Ok (RFC_EVENT_UIH, payload_at b k (Z.of_nat (length bytes)), w).
Proof.
  intros Hb Ep Hhd Hbytes Et Hv. unfold judge. erewrite bind_ok by done.
  erewrite bind_ok; [done|]. apply (uih_judged _ _ _ _ hd); [done|done| |].
  - change (buf_slice (payload_at b ?k ?l)) with (buf_slice b).
    rewrite buf_slice_payload; [|done|].
    + change (Z.to_nat 2) with 2%nat. rewrite <-Hhd, Ep, <-app_assoc. by rewrite take_app_length.
    + rewrite <-(length_payload b Hb), Ep, !length_app. lia.
  - by apply rfc_check_fcs_calc.
Qed.

Lemma parse_uih i m mcb b d credits bytes w :
  rfc_mcb (cb w) !! m = Some mcb → RFCOMM_VALID_DLCI d = true →
  (nz credits = true → flow mcb = PORT_FC_CREDIT ∧ d ≠ 0) →
  Z.of_nat (length bytes) < 32768 → rx_ok b → hdr_payload b = uih_wire i d credits bytes →
  ∃ f b', rfc_parse_data m b w = Ok ((RFC_EVENT_UIH, b'), set_frame (fun _ => f) w) ∧
    f_dlci f = d ∧ f_credit f = credits ∧ hdr_payload b' = bytes ∧ rx_ok b' ∧
    hdr_offset b' + hdr_len b' + 1 <= block_len b'.
Proof.
  intros Em Hv Hc Hlen Hb Ep. pose proof (valid_dlci_range d Hv) as Hd.
  destruct (address_octet_spec i true d Hd) as [_ Hea _ _].
  destruct (uih_header_ok i d credits (rx_frame (cb w)) Hd) as (Hbytes & Et & Ed & Epf).
  set (a := address_octet i true d) in *. set (t := Z.lor RFCOMM_UIH _) in *.
  set (hd := [a; t]) in *. set (ls := length_octets (Z.of_nat (length bytes))).
  set (cs := if nz credits then [credits] else []).
  change (uih_wire i d credits bytes) with (hd ++ ls ++ cs ++ bytes ++ [rfc_calc_fcs hd]) in Ep.
  rewrite (parse_header m b w a t (Z.of_nat (length bytes)) (cs ++ bytes) (rfc_calc_fcs hd));
    [|done|by rewrite Ep, <-app_assoc|done|lia]. cbv zeta. fold ls.
  set (k := 2 + Z.of_nat (length ls)). set (w1 := set_frame (frame_header a t) w).
  assert (Ewc : with_credit mcb (rx_frame (cb w1)) = nz credits).
  { unfold with_credit. change (rx_frame (cb w1)) with (frame_header a t (rx_frame (cb w))).
    rewrite Et, Ed, Epf. destruct (nz credits); [|by rewrite !andb_false_r].
    destruct Hc as [-> Hne]; [done|]. destruct (d =? 0) eqn:E0; [lia|done]. }
  unfold cs in *. clear cs. destruct (nz credits) eqn:Enz.
  - replace (Z.of_nat (length ([credits] ++ bytes))) with (Z.of_nat (length bytes) + 1)
      by (rewrite length_app; simpl; lia).
    rewrite (parse_body_credit m b w1 mcb Hb Em (hd ++ ls) credits bytes (rfc_calc_fcs hd) k
      (Z.of_nat (length bytes))); [|by rewrite Ep, <-!app_assoc|unfold k; rewrite length_app; simpl; lia|done|done].
    rewrite (judge_uih mcb b hd (ls ++ [credits]) bytes);
      [|done|by rewrite Ep, <-!app_assoc|done|done|done|by rewrite <-Ed in Hv].
    destruct (payload_at_payload b (hd ++ ls ++ [credits]) bytes [rfc_calc_fcs hd] (k + 1)
      (Z.of_nat (length bytes))) as (E1 & E2 & E3);
      [done|by rewrite Ep, <-!app_assoc|unfold k; rewrite !length_app; simpl; lia|done|].
    do 2 eexists. split; [done|]. simpl in *. split_and!; try done; lia.
  - rewrite app_nil_l.
    rewrite (parse_body_plain m b w1 mcb Hb Em (hd ++ ls) bytes (rfc_calc_fcs hd) k
      (Z.of_nat (length bytes))); [|by rewrite Ep, <-!app_assoc|unfold k; rewrite length_app; simpl; lia|done|done].
    rewrite (judge_uih mcb b hd ls bytes);
      [|done|by rewrite Ep, <-!app_assoc|done|done|done|by rewrite <-Ed in Hv].
    destruct (payload_at_payload b (hd ++ ls) bytes [rfc_calc_fcs hd] k
      (Z.of_nat (length bytes))) as (E1 & E2 & E3);
      [done|by rewrite Ep, <-!app_assoc|unfold k; rewrite !length_app; simpl; lia|done|].
    apply nz_false in Enz as ->.
    do 2 eexists. split; [done|]. simpl in *. split_and!; try done; lia.
Qed.

(** C5: a data frame arrives as what was sent.  [rfc_send_buf_uih] puts the header
    in front of the payload and the FCS behind it, in the buffer of the payload;
    the peer, with credit based flow control, gets the same payload on the same
    DLCI and the credits attached to it, for every length up to the 15 bits of
    the length field. *)
Theorem data_frame_roundtrip `{Env} m mcb ws m' mcb' wr d b :
  rfc_mcb (cb ws) !! m = Some mcb → rfc_mcb (cb wr) !! m' = Some mcb' →
  flow mcb' = PORT_FC_CREDIT → RFCOMM_VALID_DLCI d = true → d ≠ 0 →
  tx_ok b → hdr_len b < 32768 →
  ∃ frame,
    rfc_send_buf_uih m d b ws =
      Ok ((), add_trace [L2CA_DataWrite (mcb_lcid mcb) frame] ws) ∧
    ∀ br, rx_ok br → hdr_payload br = frame →
      ∃ f b', rfc_parse_data m' br wr = Ok ((RFC_EVENT_UIH, b'), set_frame (fun _ => f) wr) ∧
        f_dlci f = d ∧ f_credit f = u8 (hdr_layer_specific b) ∧ hdr_payload b' = hdr_payload b.
Proof.
  intros Em Em' Ef Hv Hne Hb Hlen. destruct (send_uih_ok m mcb d b ws Em Hb) as (bw & Ew & Es).
  replace (d =? RFCOMM_MX_DLCI) with false in Es by lia.
  rewrite (proj2 (nz_true d) Hne) in Ew. eexists. split; [exact Es|].
  intros br Hbr Ep. rewrite Ew in Ep.
  destruct (parse_uih (is_initiator mcb) m' mcb' br d (u8 (hdr_layer_specific b)) (hdr_payload b) wr)
    as (f & b' & E1 & E2 & E3 & E4 & _); [done|done| | |done|done|].
  - by intros _.
  - destruct Hb. unfold hdr_payload. rewrite length_take, length_drop. lia.
  - by exists f, b'.
Qed.

(** 200 octets of data and 5 credits on DLCI 6: a frame with a length field of
    two octets. *)
Definition example_data : BT_HDR :=
  mkBT_HDR 200 18 5 (replicate 18 0 ++ replicate 200 65 ++ replicate 10 0).

Lemma data_frame_roundtrip_witness :
  ∃ frame,
    rfc_send_buf_uih 0 6 example_data (side true) =
      Ok ((), add_trace [L2CA_DataWrite 64 frame] (side true)) ∧
    ∀ br, rx_ok br → hdr_payload br = frame →
      ∃ f b', rfc_parse_data 0 br (side false) =
          Ok ((RFC_EVENT_UIH, b'), set_frame (fun _ => f) (side false)) ∧
        f_dlci f = 6 ∧ f_credit f = 5 ∧ hdr_payload b' = replicate 200 65.
Proof.
  assert (Hok : tx_ok example_data) by (constructor; simpl; lia).
  exact (data_frame_roundtrip 0 (example_side true) (side true) 0 (example_side false)
           (side false) 6 example_data eq_refl eq_refl eq_refl eq_refl ltac:(lia) Hok
           ltac:(simpl; lia)).
Defined.

(** ** Multiplexer messages *)
Lemma send_mx_ok `{Env} m mcb msg w :
  rfc_mcb (cb w) !! m = Some mcb → cmd_q mcb = Some [] → l2cap_congested mcb = false →
  (length msg <= 100)%nat →
  send_mx m msg w = Ok ((), add_trace
    [L2CA_DataWrite (mcb_lcid mcb) (uih_wire (is_initiator mcb) 0 0 msg)] w).
Proof.
  intros Em Eq Ec Hl. unfold send_mx.
  destruct (osi_malloc_ok RFCOMM_CMD_BUF_SIZE w) as (b0 & E0 & Hb0); [lia|].
  erewrite bind_ok by exact E0. cbv zeta.
  destruct (list_pieces (hdr_data b0) 16 (length msg)) as (pre & old & post & Ed & Hpre & Hold); [lia|].
  change (hdr_offset (b0 <| hdr_offset := _ |>)) with (Z.of_nat 16). rewrite <-Hpre.
  erewrite bind_ok by (by apply (buf_write_app _ pre old msg post)).
  set (b1 := _ <| hdr_len := _ |>).
  assert (Hdata : hdr_data b1 = pre ++ msg ++ post) by done.
  assert (Hb1 : tx_ok b1).
  { rewrite Ed, !length_app in Hb0.
    constructor; rewrite ?Hdata, ?length_app; simpl; lia. }
  destruct (send_uih_ok m mcb RFCOMM_MX_DLCI b1 w Em Hb1) as (b' & Eb' & ->). cbn [Z.eqb].
  rewrite (check_send_cmd_ok m mcb []), Ec, cmd_q_same, set_mcb_same by done. simpl.
  rewrite Eb'. rewrite (payload_app b1 pre msg post); [done|done| |done].
  by rewrite Hpre.
Qed.

(** The type octet of a message and what the receiver reads from it. *)
Definition mx_type_ok (cmd : bool) (type : Z) : bool :=
  let o := Z.lor (Z.lor RFCOMM_EA (RFCOMM_I_CR cmd)) type in
  negb (Z.land o RFCOMM_EA =? 0) && (Z.shiftr (Z.land o RFCOMM_CR_MASK) RFCOMM_SHIFT_CR =? b2z cmd)
  && (Z.land o (Z.lxor 0xFF (Z.lor RFCOMM_CR_MASK RFCOMM_EA_MASK)) =? type).

(** The frame after the type octet. *)
Definition mx_frame (cmd : bool) (type : Z) (f : MX_FRAME) : MX_FRAME :=
  f <| f_ea := Z.land (Z.lor (Z.lor RFCOMM_EA (RFCOMM_I_CR cmd)) type) RFCOMM_EA |>
    <| f_cr := b2z cmd |> <| f_type := type |>.

Lemma nz_b2z c : nz (b2z c) = c.
Proof. by destruct c. Qed.

Lemma process_mx_header `{Env, !SM} m b cmd type len body w :
  rx_ok b → hdr_payload b = mx_header cmd type len ++ body → len = Z.of_nat (length body) →
  len <= 127 → mx_type_ok cmd type = true →
  rfc_process_mx_message m b w =
    (handled ← mx_message_switch m b type cmd (hdr_offset b + 2) len len;
     when (negb handled && cmd) (rfc_send_nsc m)) (set_frame (mx_frame cmd type) w).
Proof.
  intros Hb Ep El Hlen Ht. unfold mx_type_ok in Ht. rewrite !andb_true_iff, negb_true_iff in Ht.
  destruct Ht as [[Hea Hcr] Hty]. apply Z.eqb_eq in Hcr, Hty.
  pose proof (length_payload b Hb) as Hl. rewrite Ep, length_app in Hl. cbn [length mx_header] in Hl.
  assert (Hrd : ∀ k o w, hdr_payload b !! k = Some o →
    buf_read b (hdr_offset b + Z.of_nat k) w = Ok (o, w)) by (intros; by apply buf_read_payload).
  rewrite Ep in Hrd. unfold mx_header in Hrd. simpl app in Hrd.
  unfold rfc_process_mx_message. rewrite (proj2 (Z.ltb_ge _ _)) by lia. cbv zeta.
  rewrite <-(Z.add_0_r (hdr_offset b)) at 1.
  erewrite bind_ok by (by apply (Hrd 0%nat)). erewrite bind_ok by apply set_frame_ok.
  rewrite Hea, Hcr, Hty, nz_b2z. erewrite bind_ok by (by apply (Hrd 1%nat)).
  destruct (short_length len ltac:(lia)) as [E1 E2]. rewrite E1. cbn [andb b2z].
  erewrite bind_ok by done. rewrite E2.
  replace (hdr_len b - 2 - 0) with len by lia. rewrite Z.eqb_refl. cbn [negb].
  by rewrite Z.add_0_r.
Qed.

Section received.
Context `{Env}.
#[local] Existing Instance rfc_machines.

(** A multiplexer and its channel at the receiver. *)
Record receives (w : world) (lcid : Z) (m : nat) : Prop := {
  rcv_lcid : rfc_lcid_mcb (cb w) !! lcid = Some m;
  rcv_mcb : ∃ mcb, rfc_mcb (cb w) !! m = Some mcb ∧ mcb_lcid mcb = lcid;
}.

(** A sender whose frames go out at once. *)
Record sends (w : world) (m : nat) (mcb : tRFC_MCB) : Prop := {
  snd_mcb : rfc_mcb (cb w) !! m = Some mcb;
  snd_queue : cmd_q mcb = Some [];
  snd_open : l2cap_congested mcb = false;
}.

Lemma mx_received i lcid m b msg w :
  receives w lcid m → Z.of_nat (length msg) < 32768 →
  rx_ok b → hdr_payload b = uih_wire i 0 0 msg →
  ∃ f b', RFCOMM_BufDataInd lcid b w = rfc_process_mx_message m b' (set_frame (fun _ => f) w) ∧
    hdr_payload b' = msg ∧ rx_ok b'.
Proof.
  intros [El (mcb & Em & Elc)] Hlen Hb Ep.
  destruct (parse_uih i m mcb b 0 0 msg w) as (f & b' & E & Ed & _ & Epay & Hb' & _); auto; [done|].
  exists f, b'. split; [|done]. unfold RFCOMM_BufDataInd, rfc_find_lcid_mcb.
  erewrite bind_ok.
  2: { erewrite bind_ok by done. simpl. rewrite El. erewrite bind_ok by (by apply get_mcb_ok).
       by rewrite Elc, Z.eqb_refl. }
  cbv beta iota. erewrite bind_ok by exact E. cbv beta iota. erewrite bind_ok by done.
  change (rx_frame (cb (set_frame (fun _ => f) w))) with f. by rewrite Ed.
Qed.

Lemma bind_true (p : M unit) (k : bool → M unit) w :
  (∀ w, k true w = Ok ((), w)) → (x ← (p;; mret true); k x) w = p w.
Proof.
  intros Hk. unfold mbind, M_bind, mret, M_ret. destruct (p w) as [[[] w']|]; [apply Hk|done].
Qed.

(** A message of one of the known types reaches its branch of the switch. *)
Lemma message_received i lcid m b cmd type len body w :
  receives w lcid m → rx_ok b → hdr_payload b = uih_wire i 0 0 (mx_header cmd type len ++ body) →
  len = Z.of_nat (length body) → len <= 127 → mx_type_ok cmd type = true →
  ∃ f b', rx_ok b' ∧ hdr_payload b' = mx_header cmd type len ++ body ∧
    RFCOMM_BufDataInd lcid b w =
      (handled ← mx_message_switch m b' type cmd (hdr_offset b' + 2) len len;
       when (negb handled && cmd) (rfc_send_nsc m)) (set_frame (fun _ => f) w).
Proof.
  intros Hr Hb Ep El Hlen Ht.
  destruct (mx_received i lcid m b (mx_header cmd type len ++ body) w Hr) as (f & b' & E & Epay & Hb'); [|done|exact Ep|].
  { rewrite length_app. simpl. lia. }
  exists (mx_frame cmd type f), b'. split_and!; [done|done|]. rewrite E.
  by rewrite (process_mx_header m b' cmd type len body).
Qed.

(** *** Parameter negotiation *)
Lemma le16_roundtrip z : is_u16 z → Z.land z 0xFF + Z.shiftl (u8 (Z.shiftr z 8)) 8 = z.
Proof.
  intros Hz. change 0xFF with (Z.ones 8).
  rewrite Z.land_ones, Z.shiftr_div_pow2, Z.shiftl_mul_pow2 by lia.
  change (2 ^ 8) with 256. unfold is_u16, u8 in *. Z.div_mod_to_equations. lia.
Qed.

Lemma land_small z n : 0 <= n → 0 <= z < 2 ^ n → Z.land z (Z.ones n) = z.
Proof. intros Hn Hz. rewrite Z.land_ones by done. by apply Z.mod_small. Qed.

(** What PN parameters can carry. *)
Record pn_ok (d mtu cl k : Z) : Prop := {
  pn_dlci : 0 < d ∧ RFCOMM_VALID_DLCI d = true;
  pn_mtu_range : RFCOMM_MIN_MTU <= mtu <= RFCOMM_MAX_MTU;
  pn_layer : is_u8 cl ∧ Z.land cl RFCOMM_PN_CONV_LAYER_MASK = cl;
  pn_credits : 0 <= k <= RFCOMM_K_MAX;
}.

Lemma msg_pn_ok m b cmd d prio mtu cl k w :
  rx_ok b → pn_ok d mtu cl k →
  hdr_payload b = mx_header cmd RFCOMM_MX_PN RFCOMM_MX_PN_LEN ++
    [d; Z.lor RFCOMM_PN_FRAM_TYPE_UIH cl; prio; RFCOMM_T1_DSEC; Z.land mtu 0xFF;
     u8 (Z.shiftr mtu 8); RFCOMM_N2; k] →
  mx_msg_pn m b cmd (hdr_offset b + 2) RFCOMM_MX_PN_LEN w =
    (rfc_process_pn m cmd;; mret true)
      (set_frame (fun f => f <| f_dlci := d |> <| u_pn := mk_mx_pn 0 cl
         (Z.land prio RFCOMM_PN_PRIORITY_MASK) RFCOMM_T1_DSEC mtu RFCOMM_N2 k |>) w).
Proof.
  intros Hb Hok Ep.
  assert (Hrd : ∀ k o w, hdr_payload b !! k = Some o →
    buf_read b (hdr_offset b + Z.of_nat k) w = Ok (o, w)) by (intros; by apply buf_read_payload).
  rewrite Ep in Hrd. unfold mx_header in Hrd. simpl app in Hrd.
  unfold mx_msg_pn. rewrite Z.eqb_refl. cbn [negb]. rewrite <-!Z.add_assoc.
  erewrite bind_ok by (by apply (Hrd 2%nat)). erewrite bind_ok by (by apply (Hrd 3%nat)).
  erewrite bind_ok by (by apply (Hrd 4%nat)). erewrite bind_ok by (by apply (Hrd 5%nat)).
  erewrite bind_ok by (by apply (Hrd 6%nat)). erewrite bind_ok by (by apply (Hrd 7%nat)).
  erewrite bind_ok by (by apply (Hrd 8%nat)). erewrite bind_ok by (by apply (Hrd 9%nat)).
  destruct Hok as [[Hd Hv] Hmtu [Hcl Ecl] Hk].
  assert (E15 : Z.land cl 15 = 0)
    by (rewrite <-Ecl, <-Z.land_assoc; apply Z.land_0_r).
  rewrite Z.lor_0_l, E15, Ecl, le16_roundtrip by (unfold is_u16; lia).
  pose proof (valid_dlci_range d Hv).
  replace (Z.land d RFCOMM_PN_DLCI_MASK) with d by (symmetry; apply (land_small d 6); lia).
  replace (Z.land k RFCOMM_PN_K_MASK) with k by (symmetry; apply (land_small k 3); lia).
  erewrite bind_ok by apply set_frame_ok.
  rewrite Hv. by replace (_ || _ || _ || _) with false by lia.
Qed.

(** C14: parameter negotiation.  A PN message (DLCI, frame size, convergence layer
    and credits) sent by one side reaches [rfc_process_pn] of the other with the
    parameters it was sent with, whatever else is in the frames decoded before. *)
Theorem pn_roundtrip ws m mcb wr lcid m' d cmd mtu cl k :
  sends ws m mcb → receives wr lcid m' → pn_ok d mtu cl k →
  ∃ frame,
    rfc_send_pn m d cmd mtu cl k ws =
      Ok ((), add_trace [L2CA_DataWrite (mcb_lcid mcb) frame] ws) ∧
    ∀ b, rx_ok b → hdr_payload b = frame →
      ∃ f, RFCOMM_BufDataInd lcid b wr = rfc_process_pn m' cmd (set_frame (fun _ => f) wr) ∧
        f_dlci f = d ∧ pn_mtu (u_pn f) = mtu ∧ pn_conv_layer (u_pn f) = cl ∧
        pn_k (u_pn f) = k.
Proof.
  intros [Em Eq Ec] Hr Hok. eexists. split.
  { unfold rfc_send_pn. erewrite bind_ok by done. apply send_mx_ok; [done..|simpl; lia]. }
  intros b Hb Ep. edestruct message_received as (f & b' & Hb' & Ep' & ->);
    [exact Hr|exact Hb|exact Ep|done|done|by destruct cmd|].
  unfold mx_message_switch. cbn [Z.eqb Pos.eqb].
  unfold mbind at 1, M_bind at 1. erewrite msg_pn_ok by (done || exact Ep').
  eexists. split; [apply (bind_true (rfc_process_pn m' cmd)); by intros []|]. done.
Qed.

(** *** Messages that start with an address octet *)
Lemma mx_dlci_spec d : 0 <= d <= RFCOMM_MAX_DLCI →
  (nz (Z.land (mx_dlci d) RFCOMM_EA) &&
   nz (Z.shiftr (Z.land (mx_dlci d) RFCOMM_CR_MASK) RFCOMM_SHIFT_CR)) = true ∧
  Z.shiftr (mx_dlci d) RFCOMM_SHIFT_DLCI = d.
Proof.
  intros Hd. pose proof (below_forallb 62 (fun d =>
    nz (Z.land (mx_dlci d) RFCOMM_EA) &&
    nz (Z.shiftr (Z.land (mx_dlci d) RFCOMM_CR_MASK) RFCOMM_SHIFT_CR) &&
    (Z.shiftr (mx_dlci d) RFCOMM_SHIFT_DLCI =? d)) eq_refl d ltac:(lia)) as H1.
  apply andb_true_iff in H1 as [H1 H2]. split; [done|by apply Z.eqb_eq].
Qed.

Lemma parse_mx_dlci_ok b d w :
  rx_ok b → hdr_payload b !! 2%nat = Some (mx_dlci d) → 0 < d → RFCOMM_VALID_DLCI d = true →
  parse_mx_dlci b (hdr_offset b + 2) w = Ok (true, set_frame (fun f => f <| f_dlci := d |>) w).
Proof.
  intros Hb E Hd Hv. unfold parse_mx_dlci.
  erewrite bind_ok by (by apply (buf_read_payload b 2)). cbv zeta.
  destruct (mx_dlci_spec d) as [E1 E2]; [by apply valid_dlci_range|].
  rewrite E1, E2, Hv. erewrite bind_ok by apply set_frame_ok.
  by replace (nz d) with true by (symmetry; apply nz_true; lia).
Qed.

(** Modem status: the parameters [rfc_process_msc] makes of a message. *)
Definition msc_received (p_pars : tPORT_CTRL) : mx_msc :=
  mk_mx_msc (msc_signal_octet p_pars)
    (if nz (break_signal p_pars) then RFCOMM_MSC_BREAK_PRESENT_MASK else 0)
    (break_signal p_pars).

Lemma msc_pars_received p_pars :
  0 <= modem_signal p_pars < 16 → 0 <= break_signal p_pars < 16 →
  msc_pars (msc_received p_pars) =
    mkPORT_CTRL (modem_signal p_pars) (break_signal p_pars) 0 RFCOMM_CTRL_BREAK_IN_SEQ
      (ctrl_fc p_pars).
Proof.
  destruct p_pars as [sig brk dis seq fc]. cbn [modem_signal break_signal ctrl_fc]. intros Hs Hk.
  unfold msc_received, msc_pars, msc_signal_octet.
  cbn [modem_signal break_signal ctrl_fc msc_signals msc_break_present msc_break_duration].
  f_equal.
  - apply Z.eqb_eq. revert sig Hs. apply below_forallb. by destruct fc.
  - destruct (nz brk) eqn:E; [done|]. by apply nz_false in E as ->.
  - apply eqb_prop. revert sig Hs. apply below_forallb. by destruct fc.
Qed.

Lemma break_octet_spec brk : 0 <= brk < 16 →
  let o := u8 (Z.lor (Z.lor RFCOMM_EA RFCOMM_MSC_BREAK_PRESENT_MASK)
                     (Z.shiftl brk RFCOMM_MSC_SHIFT_BREAK)) in
  Z.land o RFCOMM_MSC_BREAK_PRESENT_MASK = RFCOMM_MSC_BREAK_PRESENT_MASK ∧
  Z.shiftr (Z.land o RFCOMM_MSC_BREAK_MASK) RFCOMM_MSC_SHIFT_BREAK = brk.
Proof.
  intros Hb. split; apply Z.eqb_eq; revert brk Hb; by apply below_forallb.
Qed.

Definition msc_len (p_pars : tPORT_CTRL) : Z :=
  if nz (break_signal p_pars) then RFCOMM_MX_MSC_LEN_WITH_BREAK else RFCOMM_MX_MSC_LEN_NO_BREAK.

Definition msc_body (d : Z) (p_pars : tPORT_CTRL) : list Z :=
  [mx_dlci d; msc_signal_octet p_pars] ++
  (if nz (break_signal p_pars) then
     [u8 (Z.lor (Z.lor RFCOMM_EA RFCOMM_MSC_BREAK_PRESENT_MASK)
                (Z.shiftl (break_signal p_pars) RFCOMM_MSC_SHIFT_BREAK))]
   else []).

Lemma msg_msc_ok m b cmd d p_pars w :
  rx_ok b → 0 < d → RFCOMM_VALID_DLCI d = true → 0 <= break_signal p_pars < 16 →
  hdr_payload b = mx_header cmd RFCOMM_MX_MSC (msc_len p_pars) ++ msc_body d p_pars →
  mx_msg_msc m b cmd (hdr_offset b + 2) (msc_len p_pars) (msc_len p_pars) w =
    (rfc_process_msc m cmd;; mret true)
      (set_frame (fun f => f <| f_dlci := d |> <| u_msc := msc_received p_pars |>) w).
Proof.
  intros Hb Hd Hv Hbrk Ep. unfold mx_msg_msc, msc_received.
  assert (Hlen : (negb (msc_len p_pars =? RFCOMM_MX_MSC_LEN_WITH_BREAK) &&
    negb (msc_len p_pars =? RFCOMM_MX_MSC_LEN_NO_BREAK)) = false)
    by (unfold msc_len; by destruct (nz _)).
  rewrite Hlen. clear Hlen.
  erewrite bind_ok by (apply (parse_mx_dlci_ok b d); [done|by rewrite Ep|done|done]).
  cbn [negb]. rewrite <-!Z.add_assoc.
  erewrite bind_ok by (apply (buf_read_payload b 3); [done|by rewrite Ep]).
  unfold msc_len, msc_body in *. destruct (nz (break_signal p_pars)) eqn:E; cbn [Z.eqb Pos.eqb].
  - destruct (break_octet_spec _ Hbrk) as [E1 E2].
    erewrite bind_ok.
    2: { erewrite bind_ok by (apply (buf_read_payload b 4); [done|by rewrite Ep]). done. }
    rewrite E1, E2. by erewrite bind_ok by done.
  - apply nz_false in E. rewrite E. by erewrite bind_ok by done.
Qed.

(** Modem status.  The V.24 signals, the flow-control bit and the break of an
    MSC message sent for a DLCI reach [rfc_process_msc] of the other side, which
    decodes them to the values they were sent with. *)
Theorem msc_roundtrip ws m mcb wr lcid m' d cmd p_pars :
  sends ws m mcb → receives wr lcid m' → 0 < d → RFCOMM_VALID_DLCI d = true →
  0 <= modem_signal p_pars < 16 → 0 <= break_signal p_pars < 16 →
  ∃ frame,
    rfc_send_msc m d cmd p_pars ws =
      Ok ((), add_trace [L2CA_DataWrite (mcb_lcid mcb) frame] ws) ∧
    ∀ b, rx_ok b → hdr_payload b = frame →
      ∃ f, RFCOMM_BufDataInd lcid b wr = rfc_process_msc m' cmd (set_frame (fun _ => f) wr) ∧
        f_dlci f = d ∧
        msc_pars (u_msc f) = mkPORT_CTRL (modem_signal p_pars) (break_signal p_pars) 0
                               RFCOMM_CTRL_BREAK_IN_SEQ (ctrl_fc p_pars).
Proof.
  intros [Em Eq Ec] Hr Hd Hv Hs Hk. eexists. split.
  { unfold rfc_send_msc. apply send_mx_ok; [done..|]. case_match; simpl; lia. }
  intros b Hb Ep. fold (msc_len p_pars) (msc_body d p_pars) in Ep.
  edestruct message_received as (f & b' & Hb' & Ep' & ->);
    [exact Hr|exact Hb|exact Ep|..|].
  { unfold msc_len, msc_body. by destruct (nz _). }
  { unfold msc_len. destruct (nz _); lia. }
  { by destruct cmd. }
  unfold mx_message_switch. cbn [Z.eqb Pos.eqb].
  unfold mbind at 1, M_bind at 1. erewrite msg_msc_ok by (done || exact Ep').
  eexists. split; [apply (bind_true (rfc_process_msc m' cmd)); by intros []|].
  split; [done|]. by apply msc_pars_received.
Qed.

(** *** Port settings and line status *)
Record settings_ok (s : PortSettings) : Prop := {
  set_byte_size : 0 <= byte_size s < 4;
  set_stop_bits : 0 <= stop_bits s < 2;
  set_parity : 0 <= parity s < 2;
  set_parity_type : 0 <= parity_type s < 4;
  set_fc : 0 <= fc_type s < 64;
}.

(** The decoded form of settings and mask. *)
Definition rpn_received (s : PortSettings) (mask : Z) : mx_rpn :=
  mk_mx_rpn false (baud_rate s) (byte_size s) (stop_bits s) (parity s) (parity_type s)
    (fc_type s) (xon_char s) (xoff_char s) mask.

Definition rpn_bits (s : PortSettings) : Z :=
  u8 (Z.lor (Z.lor (Z.lor (Z.shiftl (byte_size s) RFCOMM_RPN_BITS_SHIFT)
                          (Z.shiftl (stop_bits s) RFCOMM_RPN_STOP_BITS_SHIFT))
                   (Z.shiftl (parity s) RFCOMM_RPN_PARITY_SHIFT))
            (Z.shiftl (parity_type s) RFCOMM_RPN_PARITY_TYPE_SHIFT)).

Lemma rpn_bits_spec s : settings_ok s →
  Z.land (Z.shiftr (rpn_bits s) RFCOMM_RPN_BITS_SHIFT) RFCOMM_RPN_BITS_MASK = byte_size s ∧
  Z.land (Z.shiftr (rpn_bits s) RFCOMM_RPN_STOP_BITS_SHIFT) RFCOMM_RPN_STOP_BITS_MASK = stop_bits s ∧
  Z.land (Z.shiftr (rpn_bits s) RFCOMM_RPN_PARITY_SHIFT) RFCOMM_RPN_PARITY_MASK = parity s ∧
  Z.land (Z.shiftr (rpn_bits s) RFCOMM_RPN_PARITY_TYPE_SHIFT) RFCOMM_RPN_PARITY_TYPE_MASK
    = parity_type s.
Proof.
  intros [Hb Hs Hp Ht _]. unfold rpn_bits.
  generalize dependent (byte_size s). generalize dependent (stop_bits s).
  generalize dependent (parity s). generalize dependent (parity_type s). intros t Ht p Hp st Hst b Hb.
  assert (Hb' : b = 0 ∨ b = 1 ∨ b = 2 ∨ b = 3) by lia.
  assert (Ht' : t = 0 ∨ t = 1 ∨ t = 2 ∨ t = 3) by lia.
  assert (Hp' : p = 0 ∨ p = 1) by lia. assert (Hst' : st = 0 ∨ st = 1) by lia.
  destruct Hb' as [->|[->|[->| ->]]], Ht' as [->|[->|[->| ->]]], Hp' as [->| ->], Hst' as [->| ->];
    done.
Qed.

Lemma msg_rpn_ok m b cmd d s mask w :
  rx_ok b → 0 < d → RFCOMM_VALID_DLCI d = true → settings_ok s → is_u16 mask →
  Z.land mask RFCOMM_RPN_PM_MASK = mask →
  hdr_payload b = mx_header cmd RFCOMM_MX_RPN RFCOMM_MX_RPN_LEN ++
    [mx_dlci d; baud_rate s; rpn_bits s; fc_type s; xon_char s; xoff_char s;
     Z.land mask 0xFF; u8 (Z.shiftr mask 8)] →
  mx_msg_rpn m b cmd (hdr_offset b + 2) RFCOMM_MX_RPN_LEN w =
    (rfc_process_rpn m cmd false;; mret true)
      (set_frame (fun f => f <| f_dlci := d |> <| u_rpn := rpn_received s mask |>) w).
Proof.
  intros Hb Hd Hv Hs Hm Emask Ep.
  assert (Hrd : ∀ k o w, hdr_payload b !! k = Some o →
    buf_read b (hdr_offset b + Z.of_nat k) w = Ok (o, w)) by (intros; by apply buf_read_payload).
  rewrite Ep in Hrd. unfold mx_header in Hrd. simpl app in Hrd.
  unfold mx_msg_rpn. cbn [Z.eqb Pos.eqb negb andb].
  erewrite bind_ok by (apply (parse_mx_dlci_ok b d); [done|by rewrite Ep|done|done]).
  cbn [negb]. erewrite bind_ok.
  2: { unfold parse_rpn. rewrite <-!Z.add_assoc.
       erewrite bind_ok by (by apply (Hrd 3%nat)). erewrite bind_ok by (by apply (Hrd 4%nat)).
       erewrite bind_ok by (by apply (Hrd 5%nat)). erewrite bind_ok by (by apply (Hrd 6%nat)).
       erewrite bind_ok by (by apply (Hrd 7%nat)). erewrite bind_ok by (by apply (Hrd 8%nat)).
       erewrite bind_ok by (by apply (Hrd 9%nat)). done. }
  destruct (rpn_bits_spec s Hs) as (-> & -> & -> & ->). destruct Hs.
  rewrite le16_roundtrip, Emask by done.
  replace (Z.land (fc_type s) RFCOMM_FC_MASK) with (fc_type s)
    by (symmetry; apply (land_small (fc_type s) 6); lia).
  by erewrite bind_ok by apply set_frame_ok.
Qed.

(** C15: remote port negotiation.  All port settings and the parameter mask of an
    RPN message reach [rfc_process_rpn] of the other side unchanged. *)
Theorem rpn_roundtrip ws m mcb wr lcid m' d cmd s mask :
  sends ws m mcb → receives wr lcid m' → 0 < d → RFCOMM_VALID_DLCI d = true →
  settings_ok s → is_u16 mask → Z.land mask RFCOMM_RPN_PM_MASK = mask →
  ∃ frame,
    rfc_send_rpn m d cmd (Some s) mask ws =
      Ok ((), add_trace [L2CA_DataWrite (mcb_lcid mcb) frame] ws) ∧
    ∀ b, rx_ok b → hdr_payload b = frame →
      ∃ f, RFCOMM_BufDataInd lcid b wr = rfc_process_rpn m' cmd false (set_frame (fun _ => f) wr) ∧
        f_dlci f = d ∧ u_rpn f = rpn_received s mask.
Proof.
  intros [Em Eq Ec] Hr Hd Hv Hs Hm Emask. eexists. split.
  { unfold rfc_send_rpn. apply send_mx_ok; [done..|simpl; lia]. }
  intros b Hb Ep. edestruct message_received as (f & b' & Hb' & Ep' & ->);
    [exact Hr|exact Hb|exact Ep|done|done|by destruct cmd|].
  unfold mx_message_switch. cbn [Z.eqb Pos.eqb].
  unfold mbind at 1, M_bind at 1. erewrite msg_rpn_ok by (done || exact Ep').
  eexists. split; [apply (bind_true (rfc_process_rpn m' cmd false)); by intros []|]. done.
Qed.

(** Remote line status.  The line status of an RLS message reaches
    [rfc_process_rls] of the other side; the error bit of the octet is dropped. *)
Theorem rls_roundtrip ws m mcb wr lcid m' d cmd status :
  sends ws m mcb → receives wr lcid m' → 0 < d → RFCOMM_VALID_DLCI d = true →
  is_u8 status →
  ∃ frame,
    rfc_send_rls m d cmd status ws =
      Ok ((), add_trace [L2CA_DataWrite (mcb_lcid mcb) frame] ws) ∧
    ∀ b, rx_ok b → hdr_payload b = frame →
      ∃ f, RFCOMM_BufDataInd lcid b wr = rfc_process_rls m' cmd (set_frame (fun _ => f) wr) ∧
        f_dlci f = d ∧ u_rls_line_status f = Z.land status 0xFE.
Proof.
  intros [Em Eq Ec] Hr Hd Hv Hs. eexists. split.
  { unfold rfc_send_rls. apply send_mx_ok; [done..|simpl; lia]. }
  intros b Hb Ep. edestruct message_received as (f & b' & Hb' & Ep' & ->);
    [exact Hr|exact Hb|exact Ep|done|done|by destruct cmd|].
  unfold mx_message_switch. cbn [Z.eqb Pos.eqb]. unfold mx_msg_rls. cbn [Z.eqb Pos.eqb negb].
  unfold mbind at 1, M_bind at 1.
  erewrite bind_ok by (apply (parse_mx_dlci_ok b' d); [done|by rewrite Ep'|done|done]).
  rewrite <-!Z.add_assoc.
  erewrite bind_ok by (apply (buf_read_payload b' 3); [done|by rewrite Ep']).
  erewrite bind_ok by apply set_frame_ok. cbn [negb].
  eexists. split; [apply (bind_true (rfc_process_rls m' cmd)); by intros []|].
  split; [done|]. simpl. by rewrite Z.land_lor_distr_l, Z.lor_0_l.
Qed.
End received.

(** ** Witnesses *)
Definition receiver : world :=
  side false <| cb ::= fun c => c <| rfc_lcid_mcb := {[64 := 0%nat]} |> |>.

Lemma example_sends : sends (side true) 0 (example_side true).
Proof. by constructor. Qed.

Lemma example_receives : receives receiver 64 0.
Proof. constructor; [done|]. by exists (example_side false). Qed.

Lemma pn_roundtrip_witness :
  ∃ frame,
    rfc_send_pn 0 6 true 127 RFCOMM_PN_CONV_LAYER_CBFC_I 7 (side true) =
      Ok ((), add_trace [L2CA_DataWrite 64 frame] (side true)) ∧
    ∀ b, rx_ok b → hdr_payload b = frame →
      ∃ f, RFCOMM_BufDataInd 64 b receiver =
          rfc_process_pn (H0 := rfc_machines) 0 true (set_frame (fun _ => f) receiver) ∧
        f_dlci f = 6 ∧ pn_mtu (u_pn f) = 127 ∧
        pn_conv_layer (u_pn f) = RFCOMM_PN_CONV_LAYER_CBFC_I ∧ pn_k (u_pn f) = 7.
Proof.
  apply (pn_roundtrip (side true) 0 (example_side true) receiver 64 0 6 true 127
           RFCOMM_PN_CONV_LAYER_CBFC_I 7 example_sends example_receives).
  constructor; unfold is_u8; (split || idtac); (lia || done).
Defined.

Definition example_ctrl : tPORT_CTRL := mkPORT_CTRL 13 3 0 0 true.

Lemma msc_roundtrip_witness :
  ∃ frame,
    rfc_send_msc 0 6 true example_ctrl (side true) =
      Ok ((), add_trace [L2CA_DataWrite 64 frame] (side true)) ∧
    ∀ b, rx_ok b → hdr_payload b = frame →
      ∃ f, RFCOMM_BufDataInd 64 b receiver =
          rfc_process_msc (H0 := rfc_machines) 0 true (set_frame (fun _ => f) receiver) ∧
        f_dlci f = 6 ∧
        msc_pars (u_msc f) = mkPORT_CTRL 13 3 0 RFCOMM_CTRL_BREAK_IN_SEQ true.
Proof.
  apply (msc_roundtrip (side true) 0 (example_side true) receiver 64 0 6 true example_ctrl
           example_sends example_receives); simpl; lia || done.
Defined.

Definition example_settings : PortSettings := mkPortSettings 3 3 0 1 2 12 0 17 19.

Lemma rpn_roundtrip_witness :
  ∃ frame,
    rfc_send_rpn 0 6 true (Some example_settings) 0x3F7F (side true) =
      Ok ((), add_trace [L2CA_DataWrite 64 frame] (side true)) ∧
    ∀ b, rx_ok b → hdr_payload b = frame →
      ∃ f, RFCOMM_BufDataInd 64 b receiver =
          rfc_process_rpn (H0 := rfc_machines) 0 true false (set_frame (fun _ => f) receiver) ∧
        f_dlci f = 6 ∧ u_rpn f = rpn_received example_settings 0x3F7F.
Proof.
  apply (rpn_roundtrip (side true) 0 (example_side true) receiver 64 0 6 true example_settings
           0x3F7F example_sends example_receives); try constructor; simpl; lia || done.
Defined.

Lemma rls_roundtrip_witness :
  ∃ frame,
    rfc_send_rls 0 6 true LINE_STATUS_OVERRUN (side true) =
      Ok ((), add_trace [L2CA_DataWrite 64 frame] (side true)) ∧
    ∀ b, rx_ok b → hdr_payload b = frame →
      ∃ f, RFCOMM_BufDataInd 64 b receiver =
          rfc_process_rls 0 true (set_frame (fun _ => f) receiver) ∧
        f_dlci f = 6 ∧ u_rls_line_status f = LINE_STATUS_OVERRUN.
Proof.
  apply (rls_roundtrip (side true) 0 (example_side true) receiver 64 0 6 true
           LINE_STATUS_OVERRUN example_sends example_receives); unfold is_u8; lia || done.
Defined.
