(* ===== verification/RfcFlow.v ===== *)
(** * Data through a port

    What the application reads is the stream of octets received, in order; what
    it writes while the peer holds the port back is the stream queued; and what
    is queued leaves in order, one frame per credit. *)
From S2P Require Import Prelude RfcDefs RfcFcs RfcMonad RfcFrames RfcUtils RfcPort.
From S2P Require Import RfcMxFsm RfcPortFsm RfcApi RfcSystem RfcInvariant RfcSafety.
From S2P Require Import RfcApiSafety RfcExample RfcRoundTrip.

(** ** Reading *)
Lemma with_open_port_ok {A} h i p (bad no : A) k w :
  get_port_from_handle h = Some i → ports (cb w) !! i = Some p → is_open p = true →
  with_open_port h bad no k w = k i p w.
Proof.
  intros Eh Ep Ho. unfold with_open_port, with_port. rewrite Eh.
  erewrite bind_ok by (by apply get_port_ok). by rewrite Ho.
Qed.

(** A port with the data [q] to read and no line error. *)
Record readable (p : tPORT) (q : list BT_HDR) : Prop := {
  rd_open : is_open p = true;
  rd_line : line_status p = 0;
  rd_queue : queue (rx p) = Some q;
  rd_some : q ≠ [];
  rd_ok : Forall rx_ok q;
  rd_size : is_u32 (queue_size (rx p));
}.

Section read.
Context `{Env}.

(** C10: reading.  [PORT_ReadData] on an open port without a line error returns
    the next [max_len] octets of the received stream, or all of them when there
    are fewer, across buffer boundaries and in order; the rest of the stream
    stays queued, and the buffers used up are what the flow control towards the
    peer is told. *)
Theorem read_data_stream h i p q n w :
  get_port_from_handle h = Some i → ports (cb w) !! i = Some p → readable p q → 0 <= n →
  ∃ q' p', stream q' = drop (Z.to_nat n) (stream q) ∧ queue (rx p') = Some q' ∧
    queue_size (rx p') = u32 (queue_size (rx p) - Z.of_nat (length (stream q) - length (stream q'))) ∧
    PORT_ReadData h n w =
      (port_flow_control_peer i true (u16 (Z.of_nat (length q - length q')));;
       mret (PORT_SUCCESS, take (Z.to_nat n) (stream q))) (set_port i p' w).
Proof.
  intros Eh Ep [Ho El Eq Hne Hq Hsz] Hn.
  destruct (read_loop_spec (S (Z.to_nat (queue_length (queue (rx p))))) i n [] 0 p q w)
    as (q' & Hq' & Es & Hl & Er); auto; [done|rewrite Eq; simpl; lia|].
  exists q', (port_read q' (Z.of_nat (length (take (Z.to_nat n) (stream q)))) p).
  split_and!; [done|done| |].
  - simpl. do 2 f_equal. rewrite Es, length_drop, length_take. lia.
  - unfold PORT_ReadData. erewrite with_open_port_ok by done. rewrite El. cbn [nz Z.eqb negb].
    replace (queue_length (queue (rx p)) =? 0) with false
      by (rewrite Eq; destruct q; [done|simpl; lia]).
    erewrite bind_ok by exact Er. done.
Qed.
End read.

(** Two buffers with 3 and 2 octets are read 4 octets at a time. *)
Definition example_port : tPORT :=
  zero_port <| in_use := true |> <| handle := 1 |> <| dlci := 6 |>
    <| port_state := PORT_CONNECTION_STATE_OPENED |>
    <| rx := mkPORT_DATA (Some [rx_buf [1; 2; 3]; rx_buf [4; 5]]) false false 5 |>.

Lemma read_data_stream_witness :
  ∃ q' p', stream q' = [5] ∧ queue (rx p') = Some q' ∧
    queue_size (rx p') = u32 (5 - Z.of_nat (5 - length (stream q'))) ∧
    PORT_ReadData 1 4 (set_port 0 example_port power_on) =
      (port_flow_control_peer 0 true (u16 (Z.of_nat (2 - length q')));;
       mret (PORT_SUCCESS, [1; 2; 3; 4])) (set_port 0 p' (set_port 0 example_port power_on)).
Proof.
  apply (read_data_stream 1 0 example_port
           [rx_buf [1; 2; 3]; rx_buf [4; 5]] 4 (set_port 0 example_port power_on));
    try done.
  constructor; try done. repeat constructor; simpl; lia.
Defined.

(** ** Writing while the port is held back *)

(** The transmit side of a port replaced. *)
Definition tx_set (q : list BT_HDR) (size : Z) (u : bool) (p : tPORT) : tPORT :=
  p <| tx ::= fun d => d <| queue := Some q |> <| queue_size := size |> <| user_fc := u |> |>.

Lemma tx_set_set q s u q' s' u' p : tx_set q' s' u' (tx_set q s u p) = tx_set q' s' u' p.
Proof. done. Qed.

Lemma tx_set_same p q : queue (tx p) = Some q → tx_set q (queue_size (tx p)) (user_fc (tx p)) p = p.
Proof. intros E. destruct p, tx. unfold tx_set, modify. simpl in *. by rewrite E. Qed.

Lemma tx_set_user p q u :
  queue (tx p) = Some q →
  tx_set q (queue_size (tx p)) u p = p <| tx ::= fun d => d <| user_fc := u |> |>.
Proof. intros E. destruct p, tx. unfold tx_set, modify. simpl in *. by rewrite E. Qed.

(** [p_port->rfc.p_mcb && p_port->rfc.p_mcb->peer_ready]. *)
Definition mux_ready (w : world) (p : tPORT) : option bool :=
  match p_mcb (rfc p) with
  | Some m => peer_ready <$> rfc_mcb (cb w) !! m
  | None => Some false
  end.

(** Data is accepted but may not be sent yet. *)
Definition held_back (w : world) (p : tPORT) : Prop :=
  (is_server p && negb (eqb (rfc_state (rfc p)) RFC_STATE_OPENED)) = false ∧
  ∃ ready, mux_ready w p = Some ready ∧
    (peer_fc (tx p) || negb ready || negb (eqb (rfc_state (rfc p)) RFC_STATE_OPENED)
     || negb (ctrl_exchanged p)) = true.

Lemma mux_ready_ok w p r :
  mux_ready w p = Some r →
  match p_mcb (rfc p) with
  | Some m => mcb ← get_mcb m; mret (peer_ready mcb)
  | None => mret false
  end w = Ok (r, w).
Proof.
  unfold mux_ready. destruct (p_mcb (rfc p)) as [m|]; [|by intros [= <-]].
  destruct (rfc_mcb (cb w) !! m) as [mcb|] eqn:E; [|done]. intros [= <-].
  by erewrite bind_ok by (by apply get_mcb_ok).
Qed.

Section write.
Context `{Env, !SM}.

Lemma port_write_held i b p q w :
  ports (cb w) !! i = Some p → queue (tx p) = Some q → held_back w p → tx_queue_high p = false →
  port_write i b w = Ok (PORT_CMD_PENDING,
    set_port i (tx_set (q ++ [b]) (u32 (queue_size (tx p) + hdr_len b)) (user_fc (tx p)) p) w).
Proof.
  intros Ep Eq [Hs (r & Er & Hb)] Hhigh. unfold port_write.
  erewrite bind_ok by (by apply get_port_ok). rewrite Hs.
  erewrite bind_ok by (by apply mux_ready_ok). rewrite Hb.
  unfold tx_queue_high in Hhigh. rewrite Eq in *.
  replace (_ || (PORT_TX_BUF_CRITICAL_WM <? _)) with false by lia.
  erewrite bind_ok by done. by erewrite bind_ok by (by apply upd_port_ok).
Qed.

Lemma flow_control_user_ok i p q r w :
  ports (cb w) !! i = Some p → queue (tx p) = Some q → mux_ready w p = Some r →
  ∃ ev u, port_flow_control_user i w = Ok (ev, set_port i (tx_set q (queue_size (tx p)) u p) w).
Proof.
  intros Ep Eq Er. unfold port_flow_control_user.
  erewrite bind_ok by (by apply get_port_ok). erewrite bind_ok by (by apply mux_ready_ok).
  cbv zeta. case_match.
  - exists 0, (user_fc (tx p)). rewrite tx_set_same, set_port_same; done.
  - erewrite bind_ok by (by apply upd_port_ok). do 2 eexists.
    rewrite (tx_set_user p q) by done. done.
Qed.

(** A fresh buffer filled with octets. *)
Lemma data_buf_ok h bytes w :
  Z.of_nat (length bytes) <= data_buf_len →
  ∃ b0 b, new_data_buf h (Z.of_nat (length bytes)) w = Ok (b0, w) ∧
    buf_write b0 (hdr_offset b0) bytes w = Ok (b, w) ∧
    hdr_payload b = bytes ∧ hdr_len b = Z.of_nat (length bytes) ∧ txq_ok b.
Proof.
  intros Hl. pose proof Hl as Hl'. unfold data_buf_len in Hl'.
  destruct (osi_malloc_ok RFCOMM_DATA_BUF_SIZE w) as (b1 & E1 & Hb1); [lia|].
  unfold new_data_buf. erewrite bind_ok by exact E1.
  destruct (list_pieces (hdr_data b1) 18 (length bytes)) as (pre & old & post & Ed & Hpre & Hold); [lia|].
  do 2 eexists. split; [done|]. split.
  { change (?b <| hdr_offset := _ |> <| hdr_layer_specific := _ |> <| hdr_len := _ |>) with
      (b <| hdr_offset := Z.of_nat 18 |> <| hdr_layer_specific := h |>
         <| hdr_len := Z.of_nat (length bytes) |>). rewrite <-Hpre.
    by apply (buf_write_app _ pre old bytes post). }
  split; [|split; [done|]].
  - apply (payload_app _ pre bytes post); [done|by rewrite Hpre|done].
  - constructor; simpl; [by rewrite Hpre|lia|]. rewrite Ed, !length_app in Hb1. rewrite !length_app. lia.
Qed.

Lemma write_one_held i b p q st w :
  ports (cb w) !! i = Some p → queue (tx p) = Some q → held_back w p → tx_queue_high p = false →
  ∃ ev s u, write_one i b st w =
    Ok ((mkWrite (w_left st - hdr_len b) (w_len st + hdr_len b) PORT_CMD_PENDING ev, true),
        set_port i (tx_set (q ++ [b]) s u p) w).
Proof.
  intros Ep Eq Hh Hhigh. unfold write_one.
  erewrite bind_ok by (by apply (port_write_held i b p q)).
  set (p1 := tx_set _ _ _ p). set (w1 := set_port i p1 w).
  assert (E1 : ports (cb w1) !! i = Some p1)
    by (apply list_lookup_insert_eq; by eapply lookup_lt_Some).
  destruct Hh as [_ (r & Er & _)].
  destruct (flow_control_user_ok i p1 (q ++ [b]) r w1 E1 eq_refl Er) as (ev & u & Ef).
  erewrite bind_ok by exact Ef. cbn [Z.eqb Pos.eqb negb andb]. cbv zeta.
  do 3 eexists. unfold w1, p1. by rewrite set_port_set, tx_set_set.
Qed.

(** What writing [data] leaves behind when [n] octets were taken. *)
Definition wrote (i : nat) (p : tPORT) (q : list BT_HDR) (data : list Z) (n : Z)
    (p' : tPORT) (w w' : world) : Prop :=
  ∃ q' s u, p' = tx_set q' s u p ∧ w' = set_port i p' w ∧ Forall txq_ok q' ∧
    stream q' = stream q ++ take (Z.to_nat n) data ∧ 0 <= n <= Z.of_nat (length data) ∧
    (n = Z.of_nat (length data) ∨ tx_queue_high p' = true).

Lemma stream_app q q' : stream (q ++ q') = stream q ++ stream q'.
Proof. unfold stream. by rewrite fmap_app, concat_app. Qed.

Lemma stream_snoc q b : stream (q ++ [b]) = stream q ++ hdr_payload b.
Proof. rewrite stream_app. unfold stream at 2. simpl. by rewrite app_nil_r. Qed.

Lemma write_loop_held fuel i h data len p q st w :
  ports (cb w) !! i = Some p → queue (tx p) = Some q → Forall txq_ok q → held_back w p →
  0 < peer_mtu p → 0 < len <= data_buf_len → w_left st = Z.of_nat (length data) →
  (length data < fuel)%nat →
  ∃ n p' ev w', write_loop fuel i h data len st w =
      Ok (mkWrite (Z.of_nat (length data) - n) (w_len st + n)
            (if n =? 0 then w_rc st else PORT_CMD_PENDING) ev, w') ∧
    wrote i p q data n p' w w'.
Proof.
  revert data len p q st w. induction fuel as [|fuel IH]; [lia|].
  intros data len p q st w Ep Eq Hq Hh Hmtu Hlen Hst Hfuel. cbn [write_loop].
  assert (Hstop : w_left st = 0 ∨ tx_queue_high p = true →
    ∃ n p' ev w', Ok (st, w) = Ok (mkWrite (Z.of_nat (length data) - n) (w_len st + n)
            (if n =? 0 then w_rc st else PORT_CMD_PENDING) ev, w') ∧ wrote i p q data n p' w w').
  { intros Hwhy. exists 0, p, (w_event st), w. split.
    - rewrite Z.sub_0_r, Z.add_0_r, <-Hst. by destruct st.
    - exists q, (queue_size (tx p)), (user_fc (tx p)). rewrite tx_set_same, set_port_same by done.
      rewrite app_nil_r. split_and!; try done; [lia|]. destruct Hwhy; [left; lia|by right]. }
  destruct (w_left st =? 0) eqn:E0; [apply Hstop; lia|].
  erewrite bind_ok by (by apply get_port_ok).
  destruct (tx_queue_high p) eqn:Eh; [apply Hstop; by right|]. clear Hstop. cbv zeta.
  set (n0 := if w_left st <? _ then _ else _).
  assert (Hn0 : 0 < n0 <= data_buf_len ∧ n0 <= w_left st) by (unfold n0; case_match; lia).
  set (bytes := take (Z.to_nat n0) data).
  assert (Hbytes : Z.of_nat (length bytes) = n0) by (unfold bytes; rewrite length_take; lia).
  destruct (data_buf_ok h bytes w) as (b0 & b & E1 & E2 & Epay & El & Hb); [lia|].
  rewrite Hbytes in E1. erewrite bind_ok by exact E1. erewrite bind_ok by exact E2.
  destruct (write_one_held i b p q st w Ep Eq Hh Eh) as (ev & s & u & E3).
  erewrite bind_ok by exact E3. cbv beta iota.
  set (p1 := tx_set (q ++ [b]) s u p). set (w1 := set_port i p1 w).
  destruct (IH (drop (Z.to_nat n0) data) n0 p1 (q ++ [b])
    (mkWrite (w_left st - hdr_len b) (w_len st + hdr_len b) PORT_CMD_PENDING ev) w1)
    as (n & p' & ev' & w' & Ew & (q' & s' & u' & -> & -> & Hq' & Es & Hn & Hwhy)).
  - apply list_lookup_insert_eq. by eapply lookup_lt_Some.
  - done.
  - apply Forall_app. split; [done|by constructor].
  - done.
  - done.
  - lia.
  - simpl. rewrite length_drop. lia.
  - rewrite length_drop. lia.
  - exists (n0 + n). do 3 eexists. rewrite Ew, length_drop in *. split.
    { replace (n0 + n =? 0) with false by lia. simpl. rewrite El, Hbytes. do 3 f_equal; [lia..|].
      by case_match. }
    exists q', s', u'. unfold p1, w1 in *. rewrite tx_set_set, set_port_set in *.
    split_and!; try done; [|lia|lia|].
    + rewrite Es, stream_snoc, Epay, <-app_assoc. unfold bytes.
      by rewrite take_take_drop, Z2Nat.inj_add by lia.
    + destruct Hwhy; [left; lia|by right].
Qed.

(** Data that fits behind the last buffer is appended to it. *)
Lemma set_last_snoc b b' q : set_last b' (Some (q ++ [b])) = Some (q ++ [b']).
Proof.
  unfold set_last. simpl. f_equal. rewrite length_app. simpl.
  replace (length q + 1 - 1)%nat with (length q + 0)%nat by lia. by rewrite insert_app_r.
Qed.

Lemma append_last_ok i p q b bytes w :
  ports (cb w) !! i = Some p → queue (tx p) = Some (q ++ [b]) → txq_ok b →
  hdr_len b + Z.of_nat (length bytes) <= data_buf_len →
  ∃ b' s, append_last i b bytes w =
      Ok ((), set_port i (tx_set (q ++ [b']) s (user_fc (tx p)) p) w) ∧
    txq_ok b' ∧ hdr_payload b' = hdr_payload b ++ bytes.
Proof.
  intros Ep Eq [Ho Hl Hb] Hn. pose proof Hn as Hn'. unfold data_buf_len in Hn'.
  destruct (buf_split b) as (pre & post & Ed & Epre & Epay); [lia..|].
  destruct (list_pieces post 0 (length bytes)) as (nil & old & post' & Epost & Hnil & Hold).
  { rewrite Ed, !length_app in Hb. lia. }
  apply length_zero_iff_nil in Hnil as ->. simpl in Epost. subst post.
  unfold append_last. erewrite bind_ok.
  2: { replace (hdr_offset b + hdr_len b) with (Z.of_nat (length (pre ++ hdr_payload b)))
         by (rewrite length_app; lia).
       apply (buf_write_app b _ old bytes post'); [by rewrite <-app_assoc|done]. }
  cbv zeta. erewrite upd_port_ok by done.
  set (b' := _ <| hdr_len ::= _ |>). exists b', (u32 (queue_size (tx p) + Z.of_nat (length bytes))).
  split; [|split].
  - do 3 f_equal. unfold tx_set. destruct p, tx. unfold modify. simpl in *. subst queue.
    by rewrite set_last_snoc.
  - constructor; simpl; [done| |].
    + rewrite u16_small; unfold is_u16; lia.
    + rewrite Ed, !length_app in Hb. rewrite !length_app. lia.
  - apply (payload_app b' pre _ post').
    + simpl. by rewrite <-!app_assoc.
    + simpl. lia.
    + simpl. rewrite u16_small by (unfold is_u16; lia). rewrite length_app. lia.
Qed.

Lemma write_done_ok i st p w :
  ports (cb w) !! i = Some p →
  ∃ l, write_done i st w = Ok (w_len st, add_trace l w).
Proof.
  intros Ep. unfold write_done. cbv zeta. erewrite bind_ok by (by apply get_port_ok).
  unfold when, call_port_callback. destruct (nz _); [destruct (p_callback p) as [f|]|].
  - eexists. by erewrite bind_ok by done.
  - exists []. erewrite bind_ok by done. by rewrite add_trace_nil.
  - exists []. erewrite bind_ok by done. by rewrite add_trace_nil.
Qed.

(** C9: writing.  While the peer holds the port back, [PORT_WriteData] puts the
    data behind what is queued, in order and nothing else, and reports how much
    it took: all of it, unless the queue reached its high water mark. *)
Theorem write_data_stream h i p q data w :
  get_port_from_handle h = Some i → ports (cb w) !! i = Some p → is_open p = true →
  queue (tx p) = Some q → Forall txq_ok q → held_back w p → 0 < peer_mtu p → data ≠ [] →
  ∃ n p' w' l, PORT_WriteData h data w = Ok ((PORT_SUCCESS, n), add_trace l w') ∧
    wrote i p q data n p' w w'.
Proof.
  intros Eh Ep Ho Eq Hq Hh Hmtu Hne. unfold PORT_WriteData. cbv zeta.
  erewrite with_open_port_ok by done.
  assert (Hlen : 0 < Z.of_nat (length data)) by (destruct data; [done|simpl; lia]).
  replace (_ || _) with false by lia.
  destruct (fits_last p _) as [b|] eqn:Ef.
  - unfold fits_last, peek_last in Ef. rewrite Eq in Ef.
    destruct (last q) as [b'|] eqn:El; [|done]. destruct (_ && _) eqn:Efit; [|done].
    injection Ef as ->. apply last_Some in El as (q0 & ->).
    apply Forall_app in Hq as [Hq0 [Hb _]%Forall_cons].
    destruct (append_last_ok i p q0 b data w Ep Eq Hb) as (b' & s & E & Hb' & Epay); [lia|].
    exists (Z.of_nat (length data)), (tx_set (q0 ++ [b']) s (user_fc (tx p)) p). eexists. exists [].
    erewrite bind_ok by exact E. split.
    { by rewrite add_trace_nil. }
    exists (q0 ++ [b']), s, (user_fc (tx p)). split_and!; try done; [| |lia|by left].
    + apply Forall_app. split; [done|by constructor].
    + rewrite !stream_snoc, Epay, Nat2Z.id, firstn_all. by rewrite app_assoc.
  - destruct (write_loop_held (S (length data)) i h data data_buf_len p q
      (mkWrite (Z.of_nat (length data)) 0 0 0) w)
      as (n & p' & ev & w' & E & Hw); auto; [unfold data_buf_len; lia|].
    erewrite bind_ok by exact E. destruct (Hw) as (q' & s & u & -> & -> & _).
    set (p' := tx_set q' s u p) in *. set (w' := set_port i p' w) in *.
    assert (E' : ports (cb w') !! i = Some p')
      by (apply list_lookup_insert_eq; by eapply lookup_lt_Some).
    destruct (write_done_ok i (mkWrite (Z.of_nat (length data) - n) (0 + n)
      (if n =? 0 then 0 else PORT_CMD_PENDING) ev) p' w' E') as (l & Ed).
    exists n, p', w', l. erewrite bind_ok by exact Ed. by split.
Qed.
End write.

(** An open port held back by the peer, with room for 2 octets in its last buffer
    and an MTU of 5. *)
Definition example_held : tPORT :=
  example_port <| peer_mtu := 5 |>
    <| tx := mkPORT_DATA (Some [mkBT_HDR 3 18 0 (replicate 4104 7)]) true false 3 |>
    <| rfc := mkRFC_PORT RFC_STATE_OPENED 0 None alarm_idle |>.

Lemma write_data_stream_witness :
  ∃ n p' w' l,
    PORT_WriteData (H0 := rfc_machines) 1 [1; 2; 3; 4; 5; 6; 7] (set_port 0 example_held power_on) =
      Ok ((PORT_SUCCESS, n), add_trace l w') ∧
    wrote 0 example_held [mkBT_HDR 3 18 0 (replicate 4104 7)] [1; 2; 3; 4; 5; 6; 7] n p'
      (set_port 0 example_held power_on) w'.
Proof.
  apply (write_data_stream (H0 := rfc_machines) 1 0); try done.
  - constructor; [|done]. constructor; [done| |done].
    unfold data_buf_len. simpl. lia.
  - split; [done|]. by exists false.
Defined.

(** ** Sending with credits *)

(** A port that is open on a multiplexer with credit based flow control, entered
    in its table. *)
Record linked (w : world) (i m : nat) (p : tPORT) (mcb : tRFC_MCB) : Prop := {
  ln_port : ports (cb w) !! i = Some p;
  ln_mcb : rfc_mcb (cb w) !! m = Some mcb;
  ln_mux : p_mcb (rfc p) = Some m;
  ln_state : rfc_state (rfc p) = RFC_STATE_OPENED;
  ln_dlci : 0 < dlci p <= RFCOMM_MAX_DLCI;
  ln_handle : ∃ h, at_index (port_handles mcb) (dlci p) = Some h ∧ h ≠ 0 ∧ port_index h = i;
  ln_flow : flow mcb = PORT_FC_CREDIT;
  ln_ready : peer_ready mcb = true;
}.

(** The credits a frame gives to the peer, and the port after the frame. *)
Definition gives_credits (b : BT_HDR) (p : tPORT) : bool :=
  (hdr_len b <? peer_mtu p) && negb (user_fc (rx p)) && (credit_rx p <? credit_rx_max p).

Definition credits_given (b : BT_HDR) (p : tPORT) : Z :=
  if gives_credits b p then u8 (credit_rx_max p - credit_rx p) else 0.

Definition sent_frame (b : BT_HDR) (p : tPORT) : tPORT :=
  let p := if gives_credits b p then p <| credit_rx := credit_rx_max p |> else p in
  let p := p <| credit_tx ::= fun c => c - 1 |> in
  if credit_tx p =? 0 then p <| tx ::= fun d => d <| peer_fc := true |> |> else p.

Lemma hdr_payload_specific b c : hdr_payload (b <| hdr_layer_specific := c |>) = hdr_payload b.
Proof. done. Qed.

Section send.
Context `{Env}.
#[local] Existing Instance rfc_machines.

Lemma attach_credits_ok i m p mcb b w :
  linked w i m p mcb →
  attach_credits i b w = Ok (b <| hdr_layer_specific := credits_given b p |>,
    set_port i (if gives_credits b p then p <| credit_rx := credit_rx_max p |> else p) w).
Proof.
  intros []. unfold attach_credits. erewrite bind_ok by (by apply get_port_ok).
  rewrite ln_mux0. erewrite bind_ok by done. erewrite bind_ok by (by apply get_mcb_ok).
  rewrite ln_flow0, Z.eqb_refl. unfold credits_given. cbn [andb]. fold (gives_credits b p).
  destruct (gives_credits b p).
  - by erewrite bind_ok by (by apply upd_port_ok).
  - by rewrite set_port_same.
Qed.

(** Changes of the port that keep the link. *)
Lemma linked_set w i m p p' mcb :
  linked w i m p mcb → rfc p' = rfc p → dlci p' = dlci p → linked (set_port i p' w) i m p' mcb.
Proof.
  intros [] Er Ed. constructor; rewrite ?Er, ?Ed; try done.
  apply list_lookup_insert_eq. by eapply lookup_lt_Some.
Qed.

Lemma linked_trace w i m p mcb l : linked w i m p mcb → linked (add_trace l w) i m p mcb.
Proof. intros []. by constructor. Qed.

Lemma dec_credit_ok i m p mcb w :
  linked w i m p mcb → 0 < credit_tx p →
  let p1 := p <| credit_tx ::= fun c => c - 1 |> in
  rfc_dec_credit i w = Ok ((), set_port i
    (if credit_tx p1 =? 0 then p1 <| tx ::= fun d => d <| peer_fc := true |> |> else p1) w).
Proof.
  intros Hl Hc. destruct (Hl). unfold rfc_dec_credit. erewrite bind_ok by (by apply get_port_ok).
  rewrite ln_mux0. erewrite bind_ok by done. erewrite bind_ok by (by apply get_mcb_ok).
  rewrite ln_flow0, Z.eqb_refl. cbn [when]. replace (0 <? credit_tx p) with true by lia. cbn [when].
  set (p1 := p <| credit_tx ::= _ |>).
  assert (Hl1 : linked (set_port i p1 w) i m p1 mcb) by (by eapply linked_set).
  erewrite bind_ok by (by apply upd_port_ok). fold p1.
  erewrite bind_ok by (apply get_port_ok; by destruct Hl1).
  destruct (credit_tx p1 =? 0); cbn [when].
  - erewrite upd_port_ok by (by destruct Hl1). by rewrite set_port_set.
  - done.
Qed.

Lemma find_linked i m p mcb w :
  linked w i m p mcb → port_find_mcb_dlci_port (Some m) (dlci p) w = Ok (Some i, w).
Proof.
  intros []. destruct ln_handle0 as (h & Eh & Hh & Ei). unfold port_find_mcb_dlci_port.
  replace (RFCOMM_MAX_DLCI <? dlci p) with false by lia. unfold read_handle.
  erewrite bind_ok by (erewrite bind_ok by (by apply get_mcb_ok); by rewrite Eh).
  replace (h =? 0) with false by lia. by rewrite Ei.
Qed.

(** One data frame. *)
Definition data_frame (mcb : tRFC_MCB) (d c : Z) (b : BT_HDR) : output :=
  L2CA_DataWrite (mcb_lcid mcb) (uih_wire (is_initiator mcb) d c (hdr_payload b)).

Lemma data_req_ok i m p mcb b w :
  linked w i m p mcb → tx_ok b → 0 < credit_tx p →
  RFCOMM_DataReq (Some m) (dlci p) b w =
    Ok ((), add_trace [data_frame mcb (dlci p) (credits_given b p) b]
              (set_port i (sent_frame b p) w)).
Proof.
  intros Hl Hb Hc. destruct (Hl). unfold RFCOMM_DataReq.
  erewrite bind_ok by (by eapply find_linked).
  change (sm_port ?a ?e ?x) with (@rfc_port_sm_execute _ (machines 2) a e x).
  unfold rfc_port_sm_execute. erewrite bind_ok by done. erewrite bind_ok by (by apply get_port_ok).
  rewrite ln_state0. cbn [rfc_port_sm_opened pd_buf]. erewrite bind_ok by done.
  erewrite bind_ok by (by eapply attach_credits_ok).
  set (p1 := if gives_credits b p then _ else p). set (b1 := b <| hdr_layer_specific := _ |>).
  assert (E1 : rfc p1 = rfc p ∧ dlci p1 = dlci p ∧ credit_tx p1 = credit_tx p)
    by (unfold p1; by destruct (gives_credits b p)).
  destruct E1 as (Er & Ed & Ec).
  assert (Hl1 : linked (set_port i p1 w) i m p1 mcb) by (by eapply linked_set).
  assert (Hb1 : tx_ok b1) by (destruct Hb; by constructor).
  destruct (send_uih_ok m mcb (dlci p) b1 (set_port i p1 w) ln_mcb0 Hb1) as (b' & Ep' & Es).
  replace (dlci p =? RFCOMM_MX_DLCI) with false in Es by lia.
  erewrite bind_ok.
  2: { unfold with_mcb_dlci. erewrite bind_ok by (apply get_port_ok; by destruct Hl1).
       rewrite Er, Ed, ln_mux0. erewrite bind_ok by done. exact Es. }
  rewrite (dec_credit_ok i m p1 mcb); [|by apply linked_trace|lia].
  rewrite (proj2 (nz_true (dlci p))) in Ep' by lia.
  assert (Ecr : u8 (hdr_layer_specific b1) = credits_given b p).
  { change (hdr_layer_specific b1) with (credits_given b p). unfold credits_given.
    destruct (gives_credits b p); [|done]. apply u8_small, u8_range. }
  rewrite Ecr in Ep'. rewrite Ep'. change (set_port i ?p (add_trace ?l ?w)) with (add_trace l (set_port i p w)).
  by rewrite set_port_set.
Qed.

(** The length of what is queued. *)
Definition total_len (q : list BT_HDR) : Z := foldr (fun b n => hdr_len b + n) 0 q.

(** A transmit queue ready for the loop. *)
Record queued (p : tPORT) (q : list BT_HDR) : Prop := {
  qd_queue : queue (tx p) = Some q;
  qd_size : queue_size (tx p) = total_len q;
  qd_bufs : Forall (fun b => tx_ok b ∧ 0 < hdr_len b) q;
  qd_small : total_len q < 4294967296;
  qd_credit : 0 <= credit_tx p;
  qd_fc : peer_fc (tx p) = (credit_tx p =? 0);
}.

Definition tx_pop (q : list BT_HDR) (b : BT_HDR) (p : tPORT) : tPORT :=
  p <| tx ::= fun d => d <| queue := Some q |> <| queue_size ::= fun n => u32 (n - hdr_len b) |> |>.

Lemma total_len_nonneg q : Forall (fun b => tx_ok b ∧ 0 < hdr_len b) q → 0 <= total_len q.
Proof. induction 1 as [|b q [_ Hb] _ IH]; simpl; lia. Qed.

Lemma queued_pop p b q :
  queued p (b :: q) → 0 < credit_tx p → queued (sent_frame b (tx_pop q b p)) q.
Proof.
  intros [Eq Es Hq Hsm Hc Hf] Hpos. apply Forall_cons in Hq as [[_ Hb] Hq].
  pose proof (total_len_nonneg q Hq). simpl in Es, Hsm.
  assert (E1 : queue_size (tx (tx_pop q b p)) = total_len q).
  { simpl. rewrite Es, u32_small; unfold is_u32; lia. }
  unfold sent_frame. cbv zeta. destruct (gives_credits b (tx_pop q b p)); simpl credit_tx;
    (destruct (credit_tx p - 1 =? 0) eqn:E; constructor; try done; try exact E1; simpl; rewrite ?E, ?Hf; lia || done).
Qed.

Lemma sent_frame_pop p b q :
  rfc (sent_frame b (tx_pop q b p)) = rfc p ∧ dlci (sent_frame b (tx_pop q b p)) = dlci p ∧
  credit_tx (sent_frame b (tx_pop q b p)) = credit_tx p - 1.
Proof.
  unfold sent_frame. cbv zeta. destruct (gives_credits b (tx_pop q b p)); by destruct (_ =? 0).
Qed.

(** [k] frames went out. *)
Definition sent (i m : nat) (mcb : tRFC_MCB) (p : tPORT) (q : list BT_HDR) (w : world)
    (k : nat) (p' : tPORT) (w' : world) : Prop :=
  ∃ cs, length cs = k ∧ queued p' (drop k q) ∧ credit_tx p' = credit_tx p - Z.of_nat k ∧
    linked w' i m p' mcb ∧
    w' = add_trace (zip_with (data_frame mcb (dlci p)) cs (take k q)) (set_port i p' w).

Lemma sent_none i m mcb p q w :
  linked w i m p mcb → queued p q → sent i m mcb p q w 0 p w.
Proof.
  intros Hl Hq. exists []. split_and!; [done|done|lia|done|].
  simpl. rewrite add_trace_nil, set_port_same; [done|]. by destruct Hl.
Qed.

Lemma sent_cons i m mcb p b q w k p' w' p1 :
  dlci p1 = dlci p → credit_tx p1 = credit_tx p - 1 →
  sent i m mcb p1 q (add_trace [data_frame mcb (dlci p) (credits_given b (tx_pop q b p)) b]
                       (set_port i p1 w)) k p' w' →
  sent i m mcb p (b :: q) w (S k) p' w'.
Proof.
  intros Ed Ec (cs & Hcs & Hq & Hc & Hl & ->).
  exists (credits_given b (tx_pop q b p) :: cs). split_and!; [by f_equal/=|done|lia|done|].
  rewrite Ed. simpl.
  change (set_port i ?p (add_trace ?l ?w)) with (add_trace l (set_port i p w)).
  by rewrite add_trace_app, set_port_set.
Qed.

Lemma send_tx_loop_ok fuel i m mcb p q ev w :
  linked w i m p mcb → queued p q → (length q < fuel)%nat →
  ∃ ev' p' w', send_tx_loop fuel i ev w = Ok (ev', w') ∧
    sent i m mcb p q w (Nat.min (Z.to_nat (credit_tx p)) (length q)) p' w'.
Proof.
  revert p q ev w. induction fuel as [|fuel IH]; [lia|]. intros p q ev w Hl Hq Hf.
  cbn [send_tx_loop]. destruct (Hl). destruct (Hq).
  erewrite bind_ok by (by apply get_port_ok). rewrite qd_fc0.
  destruct (credit_tx p =? 0) eqn:Ec.
  { apply Z.eqb_eq in Ec as ->. do 3 eexists. split; [done|]. by apply sent_none. }
  rewrite ln_mux0. erewrite bind_ok by (by apply get_mcb_ok). rewrite ln_ready0. cbn [negb].
  rewrite qd_queue0. destruct q as [|b q].
  { do 3 eexists. split; [done|]. rewrite Nat.min_0_r. by apply sent_none. }
  apply Forall_cons in qd_bufs0 as [[Hb Hlen] Hbufs].
  erewrite bind_ok by (by apply upd_port_ok). fold (tx_pop q b p).
  assert (Hl1 : linked (set_port i (tx_pop q b p) w) i m (tx_pop q b p) mcb)
    by (by eapply linked_set).
  erewrite bind_ok by (apply (data_req_ok i m (tx_pop q b p) mcb); [done|done|simpl; lia]).
  destruct (sent_frame_pop p b q) as (Er & Ed & Ecr).
  pose proof (queued_pop p b q Hq ltac:(lia)) as Hq2.
  set (p2 := sent_frame b (tx_pop q b p)) in *.
  rewrite set_port_set. set (w2 := add_trace _ _).
  assert (Hl2 : linked w2 i m p2 mcb) by (by eapply linked_trace, linked_set).
  erewrite bind_ok by (apply get_port_ok; by destruct Hl2).
  replace (Nat.min (Z.to_nat (credit_tx p)) (length (b :: q)))
    with (S (Nat.min (Z.to_nat (credit_tx p2)) (length q))) by (simpl; lia).
  destruct (queue_size (tx p2) =? 0) eqn:Es.
  - assert (q = []) as ->.
    { destruct Hq2 as [_ Es2 Hb2 _ _ _]. destruct q as [|b2 q]; [done|].
      apply Forall_cons in Hb2 as [[_ ?] Hb2]. pose proof (total_len_nonneg q Hb2).
      simpl in Es2. lia. }
    do 3 eexists. split; [done|]. eapply sent_cons; [done|done|].
    rewrite Nat.min_0_r. by apply sent_none.
  - destruct (IH p2 q (Z.lor ev PORT_EV_TXCHAR) w2) as (ev' & p' & w' & E & Hs);
      [done|done|simpl in Hf; lia|].
    do 3 eexists. split; [exact E|]. by eapply sent_cons.
Qed.

(** The user's flow control does not touch what is queued. *)
Lemma flow_user_linked i m mcb p q w :
  linked w i m p mcb → queued p q →
  ∃ ev p', port_flow_control_user i w = Ok (ev, set_port i p' w) ∧ queued p' q ∧
    credit_tx p' = credit_tx p ∧ dlci p' = dlci p ∧ linked (set_port i p' w) i m p' mcb.
Proof.
  intros Hl Hq. destruct (Hl). destruct (Hq).
  destruct (flow_control_user_ok i p q true w) as (ev & u & E); [done|done| |].
  { unfold mux_ready. by rewrite ln_mux0, ln_mcb0, <-ln_ready0. }
  eexists ev, _. split; [exact E|]. split; [by constructor|]. split; [done|]. split; [done|].
  by eapply linked_set.
Qed.

Lemma send_tx_data_ok i m mcb p q w :
  linked w i m p mcb → queued p q →
  ∃ ev p' w', port_rfc_send_tx_data i w = Ok (ev, w') ∧
    sent i m mcb p q w (Nat.min (Z.to_nat (credit_tx p)) (length q)) p' w'.
Proof.
  intros Hl Hq. destruct (Hl). destruct (Hq). unfold port_rfc_send_tx_data.
  erewrite bind_ok by (by apply get_port_ok). destruct (0 <? queue_size (tx p)) eqn:Es.
  - destruct (send_tx_loop_ok (S (Z.to_nat (queue_length (queue (tx p))))) i m mcb p q 0 w)
      as (ev & p1 & w1 & E & (cs & Hcs & Hq1 & Hc1 & Hl1 & ->));
      [done|done|rewrite qd_queue0; simpl; lia|].
    set (k := Nat.min _ _) in *. set (w1 := add_trace _ _) in *.
    destruct (flow_user_linked i m mcb p1 _ w1 Hl1 Hq1) as (ev2 & p2 & E2 & Hq2 & Hc2 & Hd2 & Hl2).
    erewrite bind_ok.
    2: { erewrite bind_ok by exact E. by erewrite bind_ok by exact E2. }
    erewrite bind_ok by (apply get_port_ok; by destruct Hl2).
    do 3 eexists. split; [done|]. exists cs. split_and!; [done|exact Hq2|lia|done|].
    unfold w1. change (set_port i ?p (add_trace ?l ?w)) with (add_trace l (set_port i p w)).
    by rewrite set_port_set.
  - erewrite bind_ok by done. erewrite bind_ok by (by apply get_port_ok).
    assert (q = []) as ->.
    { destruct q as [|b q]; [done|]. apply Forall_cons in qd_bufs0 as [[_ ?] Hb].
      pose proof (total_len_nonneg q Hb). simpl in qd_size0. lia. }
    do 3 eexists. split; [done|]. rewrite Nat.min_0_r. by apply sent_none.
Qed.

(** C7: credit based flow control.  What is queued for an open port leaves as one
    UIH frame per buffer and per credit, first in first out: with [credit_tx]
    credits the first [min credit_tx (length q)] buffers are sent, the others
    stay queued, the credits are used up accordingly, and the port is held back
    exactly when none is left. *)
Theorem send_tx_data_credits i m mcb p q w :
  linked w i m p mcb → queued p q →
  ∃ ev p' cs,
    let k := Nat.min (Z.to_nat (credit_tx p)) (length q) in
    port_rfc_send_tx_data i w =
      Ok (ev, add_trace (zip_with (data_frame mcb (dlci p)) cs (take k q)) (set_port i p' w)) ∧
    length cs = k ∧ queue (tx p') = Some (drop k q) ∧
    credit_tx p' = credit_tx p - Z.of_nat k ∧ peer_fc (tx p') = (credit_tx p' =? 0).
Proof.
  intros Hl Hq. destruct (send_tx_data_ok i m mcb p q w Hl Hq)
    as (ev & p' & w' & E & (cs & Hcs & [] & Hc & _ & ->)).
  exists ev, p', cs. split_and!; done.
Qed.

(** Is a call a callback to the application? *)
Definition is_port_callback (o : output) : Prop :=
  match o with port_callback _ _ _ => True | _ => False end.

Lemma flow_port_ok i m mcb p q w :
  linked w i m p mcb → queued p q →
  ∃ p' w' l, flow_port i w = Ok ((), add_trace l w') ∧ Forall is_port_callback l ∧
    sent i m mcb p q w (Nat.min (Z.to_nat (credit_tx p)) (length q)) p' w'.
Proof.
  intros Hl Hq. unfold flow_port.
  destruct (flow_user_linked i m mcb p q w Hl Hq) as (ev1 & p1 & E1 & Hq1 & Hc1 & Hd1 & Hl1).
  erewrite bind_ok by exact E1.
  destruct (send_tx_data_ok i m mcb p1 q _ Hl1 Hq1)
    as (ev2 & p2 & w2 & E2 & (cs & Hcs & Hq2 & Hc2 & Hl2 & ->)).
  erewrite bind_ok by exact E2. erewrite bind_ok by (apply get_port_ok; by destruct Hl2).
  rewrite Hc1 in *. set (k := Nat.min _ _) in *. rewrite Hd1, set_port_set in *. cbv zeta.
  set (w2 := add_trace _ (set_port i p2 w)) in *.
  assert (Hs : sent i m mcb p q w k p2 w2) by (exists cs; split_and!; done).
  unfold when, call_port_callback. destruct (nz _); [destruct (p_callback p2) as [f|]|].
  - exists p2, w2. eexists. split; [done|]. split; [by repeat constructor|done].
  - exists p2, w2, []. rewrite add_trace_nil. by split.
  - exists p2, w2, []. rewrite add_trace_nil. by split.
Qed.

(** C8: credits from the peer release what they pay for.  When [c] credits
    arrive for a port that had none left, the first [c] buffers of its queue (or
    all of them) are sent at once and in order; nothing else is sent, the
    application may be told, and the port is held back again exactly when the
    credits are used up. *)
Theorem credits_release_data i m mcb p q c w :
  linked w i m p mcb → queue (tx p) = Some q → queue_size (tx p) = total_len q →
  Forall (fun b => tx_ok b ∧ 0 < hdr_len b) q → total_len q < 4294967296 →
  credit_tx p = 0 → peer_fc (tx p) = true → 0 < c < 65536 →
  ∃ p' cs l,
    let k := Nat.min (Z.to_nat c) (length q) in
    rfc_inc_credit i c w =
      Ok ((), add_trace (zip_with (data_frame mcb (dlci p)) cs (take k q) ++ l) (set_port i p' w)) ∧
    length cs = k ∧ Forall is_port_callback l ∧ queue (tx p') = Some (drop k q) ∧
    credit_tx p' = c - Z.of_nat k ∧ peer_fc (tx p') = (credit_tx p' =? 0).
Proof.
  intros Hl Eq Es Hb Hsm Ec Ef Hc. destruct (Hl). unfold rfc_inc_credit.
  erewrite bind_ok by (by apply get_port_ok). rewrite ln_mux0. erewrite bind_ok by done.
  erewrite bind_ok by (by apply get_mcb_ok). rewrite ln_flow0, Z.eqb_refl. cbn [when].
  erewrite bind_ok by (by apply upd_port_ok). rewrite Ef. cbn [when].
  set (p1 := p <| credit_tx ::= _ |>).
  assert (Hl1 : linked (set_port i p1 w) i m p1 mcb) by (by eapply linked_set).
  unfold PORT_FlowInd. replace (dlci p =? 0) with false by lia.
  erewrite bind_ok by (apply (find_linked i m p1 mcb); done). cbv beta iota.
  erewrite bind_ok by (apply upd_port_ok; by destruct Hl1). rewrite set_port_set. cbn [negb].
  set (p2 := p1 <| tx ::= _ |>).
  assert (Hl2 : linked (set_port i p2 w) i m p2 mcb) by (by eapply linked_set).
  assert (Ec2 : credit_tx p2 = c) by (simpl; rewrite Ec, Z.add_0_l, u16_small; unfold is_u16; lia).
  assert (Hq2 : queued p2 q).
  { constructor; try done; rewrite ?Ec2; [lia|]. simpl. lia. }
  destruct (flow_port_ok i m mcb p2 q _ Hl2 Hq2)
    as (p' & w' & l & E & Hcb & (cs & Hcs & Hq' & Hc' & _ & ->)).
  rewrite Ec2 in *. destruct Hq'. exists p', cs, l. split_and!; try done.
  rewrite E, add_trace_app, set_port_set. done.
Qed.
End send.

(** Three buffers queued for a port on DLCI 6. *)
Definition example_bufs : list BT_HDR :=
  [mkBT_HDR 1 18 0 (replicate 40 7); mkBT_HDR 2 18 0 (replicate 40 8);
   mkBT_HDR 3 18 0 (replicate 40 9)].
Definition example_mux : tRFC_MCB :=
  example_side true <| peer_ready := true |> <| port_handles := <[6%nat := 1]> (replicate 62 0) |>.
Definition example_sender (credits : Z) : tPORT :=
  example_port <| peer_mtu := 100 |> <| credit_tx := credits |>
    <| credit_rx := 2 |> <| credit_rx_max := 10 |>
    <| tx := mkPORT_DATA (Some example_bufs) (credits =? 0) false 6 |>
    <| rfc := mkRFC_PORT RFC_STATE_OPENED 0 (Some 0%nat) alarm_idle |>.
Definition example_link (credits : Z) : world :=
  set_port 0 (example_sender credits) (set_mcb 0 example_mux power_on).

Lemma example_linked c : linked (example_link c) 0 0 (example_sender c) example_mux.
Proof. constructor; try done. by exists 1. Qed.

Lemma example_bufs_ok : Forall (fun b => tx_ok b ∧ 0 < hdr_len b) example_bufs.
Proof. repeat constructor; simpl; lia. Qed.

Lemma send_tx_data_credits_witness :
  ∃ ev p' cs,
    port_rfc_send_tx_data (H0 := rfc_machines) 0 (example_link 2) =
      Ok (ev, add_trace (zip_with (data_frame example_mux 6) cs (take 2 example_bufs))
                (set_port 0 p' (example_link 2))) ∧
    length cs = 2%nat ∧ queue (tx p') = Some (drop 2 example_bufs) ∧
    credit_tx p' = 0 ∧ peer_fc (tx p') = (credit_tx p' =? 0).
Proof.
  apply (send_tx_data_credits 0 0 example_mux (example_sender 2) example_bufs (example_link 2)
           (example_linked 2)).
  constructor; try done. exact example_bufs_ok.
Defined.

Lemma credits_release_data_witness :
  ∃ p' cs l,
    rfc_inc_credit (H0 := rfc_machines) 0 2 (example_link 0) =
      Ok ((), add_trace (zip_with (data_frame example_mux 6) cs (take 2 example_bufs) ++ l)
                (set_port 0 p' (example_link 0))) ∧
    length cs = 2%nat ∧ Forall is_port_callback l ∧ queue (tx p') = Some (drop 2 example_bufs) ∧
    credit_tx p' = 0 ∧ peer_fc (tx p') = (credit_tx p' =? 0).
Proof.
  apply (credits_release_data 0 0 example_mux (example_sender 0) example_bufs 2 (example_link 0)
           (example_linked 0)); try done.
  exact example_bufs_ok.
Defined.
