(* ===== verification/RfcTables.v ===== *)
(** * Allocation, release and lookup of control blocks

    The functional behaviour of the table operations of [RfcUtils] and the error
    results of the application interface. *)
From S2P Require Import Prelude RfcDefs RfcMonad RfcFrames RfcUtils RfcPort RfcApi.
From S2P Require Import RfcSystem RfcInvariant RfcApiSafety RfcExample RfcRoundTrip.
From S2P Require Import RfcFlow.

(** ** Round robin *)

(** [j] is the first free entry of a table of [max] entries from [start] on,
    going round at its end. *)
Definition first_free (max start : Z) (free : Z → bool) (j : Z) : Prop :=
  free j = true ∧ ∃ t, 0 <= t < max ∧ j = (start + t) mod max ∧
    ∀ s, 0 <= s < t → free ((start + s) mod max) = false.

Lemma scan_spec n max j free :
  0 < max → 0 <= j <= max →
  match scan n max j free with
  | Some k => free k = true ∧ ∃ t, 0 <= t < Z.of_nat n ∧ k = (j + t) mod max ∧
      ∀ s, 0 <= s < t → free ((j + s) mod max) = false
  | None => ∀ s, 0 <= s < Z.of_nat n → free ((j + s) mod max) = false
  end.
Proof.
  intros Hmax. revert j. induction n as [|n IH]; intros j Hj; cbn [scan]; [lia|].
  set (j0 := if max <=? j then 0 else j).
  assert (Hj0 : 0 <= j0 < max) by (unfold j0; case_match; lia).
  assert (E0 : ∀ s, (j + s) mod max = (j0 + s) mod max).
  { intros s. unfold j0. case_match; [|done]. assert (j = max) as -> by lia.
    rewrite Z.add_comm, <-(Z.mul_1_l max) at 1. by rewrite Z_mod_plus_full. }
  destruct (free j0) eqn:Ef.
  - split; [done|]. exists 0. rewrite E0, Z.add_0_r, Z.mod_small by lia. split_and!; [lia..|done|lia].
  - assert (Hfirst : free ((j + 0) mod max) = false).
    { by rewrite E0, Z.add_0_r, Z.mod_small by lia. }
    specialize (IH (j0 + 1) ltac:(lia)).
    assert (Hrest : ∀ s, (j0 + 1 + s) mod max = (j + (s + 1)) mod max).
    { intros s. rewrite E0. f_equal. lia. }
    destruct (scan n max (j0 + 1) free) as [k|].
    + destruct IH as (Hk & t & Ht & -> & Hs). split; [done|]. exists (t + 1).
      split_and!; [lia..|by rewrite Hrest|]. intros s Hs'.
      destruct (decide (s = 0)) as [->|]; [done|].
      replace s with (s - 1 + 1) by lia. rewrite <-Hrest. apply Hs. lia.
    + intros s Hs. destruct (decide (s = 0)) as [->|]; [done|].
      replace s with (s - 1 + 1) by lia. rewrite <-Hrest. apply IH. lia.
Qed.

(** All entries are seen in one round. *)
Lemma all_seen max j (free : Z → bool) :
  0 < max → (∀ s, 0 <= s < max → free ((j + s) mod max) = false) →
  ∀ k, 0 <= k < max → free k = false.
Proof.
  intros Hmax Hs k Hk. specialize (Hs ((k - j) mod max) ltac:(apply Z.mod_pos_bound; lia)).
  by rewrite Zplus_mod_idemp_r, Zplus_minus, Z.mod_small in Hs.
Qed.

(** An index behind the end starts at 0. *)
Lemma scan_wrap n max j free :
  0 < max → scan n max j free = scan n max (if max <=? j then 0 else j) free.
Proof.
  intros Hmax. destruct n as [|n]; [done|]. cbn [scan].
  destruct (max <=? j) eqn:E; [|by rewrite E]. by replace (max <=? 0) with false by lia.
Qed.

Definition port_free (ps : list tPORT) (j : Z) : bool :=
  match at_index ps j with Some p => negb (in_use p) | None => false end.

(** C17: allocation of a port.  [port_allocate_port] takes the first unused block
    after the one allocated last, going round, and initialises it; no other
    block changes.  It fails only when all blocks are in use, and then changes
    nothing. *)
Theorem port_allocate_round_robin d bd_addr w :
  length (ports (cb w)) = 30%nat → 0 <= last_port_index (cb w) < MAX_RFC_PORTS →
  match port_allocate_port d bd_addr w with
  | Ok (Some i, w') =>
      let j := Z.of_nat i in
      first_free MAX_RFC_PORTS (last_port_index (cb w) + 1) (port_free (ports (cb w))) j ∧
      w' = w <| cb ::= fun c => c <| ports ::= <[i := fresh_port j d bd_addr]> |>
                                  <| last_port_index := j |> |>
  | Ok (None, w') => w' = w ∧ Forall (fun p => in_use p = true) (ports (cb w))
  | Fault _ => False
  end.
Proof.
  intros Hlen Hlast. unfold port_allocate_port. erewrite bind_ok by done. erewrite bind_ok by done.
  cbv zeta. fold (port_free (ports (cb w))). rewrite u8_small by (unfold is_u8; lia).
  pose proof (scan_spec 30 MAX_RFC_PORTS (last_port_index (cb w) + 1) (port_free (ports (cb w)))
    ltac:(lia) ltac:(lia)) as Hs.
  destruct (scan _ _ _ _) as [j|].
  - destruct Hs as (Hfree & t & Ht & Ej & Hs). pose proof Hfree as Hf. unfold port_free in Hf.
    destruct (at_index (ports (cb w)) j) as [p|] eqn:Ea; [|done].
    apply at_index_Some in Ea as [Hj Ea]. erewrite bind_ok by (by apply upd_port_ok).
    erewrite bind_ok by done. cbn. rewrite Z2Nat.id by done. split; [|done].
    split; [done|]. exists t. split_and!; [lia..|done|done].
  - split; [done|]. apply Forall_lookup. intros i p Hi.
    pose proof (all_seen MAX_RFC_PORTS _ _ ltac:(lia) Hs (Z.of_nat i)) as Hk.
    pose proof (lookup_lt_Some _ _ _ Hi). unfold port_free, at_index in Hk.
    rewrite (proj2 (Z.leb_le _ _)), Nat2Z.id, Hi in Hk by lia.
    apply negb_false_iff, Hk. lia.
Qed.

Definition example_ports : world :=
  power_on <| cb ::= fun c => c <| last_port_index := 29 |>
    <| ports ::= fmap (fun p => p <| in_use := true |>) |>
    <| ports ::= <[4%nat := zero_port]> |> |>.

Lemma port_allocate_round_robin_witness :
  match port_allocate_port 6 7 example_ports with
  | Ok (Some i, w') =>
      let j := Z.of_nat i in
      first_free 30 30 (port_free (ports (cb example_ports))) j ∧
      w' = example_ports <| cb ::= fun c => c <| ports ::= <[i := fresh_port j 6 7]> |>
                                            <| last_port_index := j |> |>
  | Ok (None, w') => w' = example_ports ∧ Forall (fun p => in_use p = true) (ports (cb example_ports))
  | Fault _ => False
  end.
Proof. apply (port_allocate_round_robin 6 7 example_ports); simpl; lia || done. Defined.

(** ** Multiplexers *)
Definition mcb_free (ms : list tRFC_MCB) (j : Z) : bool :=
  match at_index ms j with Some mcb => mcb_idle mcb | None => false end.

Lemma find_index_None {A} (f : A → bool) l : find_index f l = None → Forall (fun a => f a = false) l.
Proof.
  induction l as [|a l IH]; simpl; [by constructor|].
  destruct (f a) eqn:E; [done|]. destruct (find_index f l); [done|]. intros _. constructor; auto.
Qed.

(** The block of a new multiplexer, its inactivity timer running. *)
Definition new_mcb (bd_addr : RawAddress) (initiator : bool) : tRFC_MCB :=
  zero_mcb <| mcb_bd_addr := bd_addr |> <| mcb_timer := alarm_scheduled RFC_MCB_INIT_INACT_TIMER |>
           <| cmd_q := Some [] |> <| is_initiator := initiator |>.

(** C16: one multiplexer per peer.  [rfc_alloc_multiplexer_channel] returns the
    block in use for the peer when there is one and changes nothing of it but its
    idle timer; otherwise it takes the first idle block after the one taken last,
    going round, and initialises it.  It fails only when no block serves the peer
    and none is idle, and then changes nothing. *)
Theorem alloc_multiplexer_spec bd_addr initiator w :
  length (rfc_mcb (cb w)) = 16%nat → -1 <= last_mux (cb w) <= MAX_BD_CONNECTIONS →
  match rfc_alloc_multiplexer_channel bd_addr initiator w with
  | Ok (Some m, w') =>
      (∃ mcb, rfc_mcb (cb w) !! m = Some mcb ∧ mcb_for bd_addr mcb = true ∧
         (w' = w ∨ w' = set_mcb m (mcb <| mcb_timer ::= alarm_cancel |>) w)) ∨
      (Forall (fun mcb => mcb_for bd_addr mcb = false) (rfc_mcb (cb w)) ∧
       mcb_free (rfc_mcb (cb w)) (Z.of_nat m) = true ∧
       w' = set_mcb m (new_mcb bd_addr initiator) w
              <| cb ::= fun c => c <| last_mux := Z.of_nat m |> |>)
  | Ok (None, w') =>
      w' = w ∧ Forall (fun mcb => mcb_for bd_addr mcb = false ∧ mcb_idle mcb = false)
                 (rfc_mcb (cb w))
  | Fault _ => False
  end.
Proof.
  intros Hlen Hlast. unfold rfc_alloc_multiplexer_channel. erewrite bind_ok by done.
  destruct (find_index (mcb_for bd_addr) (rfc_mcb (cb w))) as [m|] eqn:Ef.
  - apply find_index_Some in Ef as (mcb & Em & Hfor).
    erewrite bind_ok by (by apply get_mcb_ok).
    destruct (eqb (mcb_state mcb) RFC_MX_STATE_CONNECTED); cbn [when].
    + erewrite bind_ok by (by apply upd_mcb_ok). left. exists mcb. auto.
    + erewrite bind_ok by done. left. exists mcb. auto.
  - apply find_index_None in Ef. erewrite bind_ok by done. cbv zeta.
    fold (mcb_free (rfc_mcb (cb w))). rewrite scan_wrap by lia.
    set (j0 := if _ <=? _ then _ else _).
    assert (Hj0 : 0 <= j0 < MAX_BD_CONNECTIONS) by (unfold j0; case_match; lia).
    pose proof (scan_spec 16 MAX_BD_CONNECTIONS j0 (mcb_free (rfc_mcb (cb w)))
      ltac:(lia) ltac:(lia)) as Hs.
    destruct (scan _ _ _ _) as [j|].
    + destruct Hs as (Hfree & t & Ht & Ej & _). pose proof Hfree as Hf.
      unfold mcb_free in Hf. destruct (at_index (rfc_mcb (cb w)) j) as [mcb|] eqn:Ea; [|done].
      apply at_index_Some in Ea as [Hj Ea].
      assert (Hlt : j < 16) by (subst j; apply Z.mod_pos_bound; lia).
      erewrite bind_ok by (by apply upd_mcb_ok). unfold rfc_timer_start.
      erewrite bind_ok.
      2: { erewrite bind_ok by (by apply get_mcb_ok; eapply set_mcb_lookup).
           erewrite bind_ok by done. by apply upd_mcb_ok; eapply set_mcb_lookup. }
      erewrite bind_ok by done. cbn. right. rewrite Z2Nat.id by done. split_and!; [done|done|].
      rewrite set_mcb_set. by rewrite u8_small by (unfold is_u8; lia).
    + split; [done|]. apply Forall_lookup. intros i mcb Hi. rewrite Forall_lookup in Ef.
      split; [by eapply Ef|].
      pose proof (all_seen MAX_BD_CONNECTIONS _ _ ltac:(lia) Hs (Z.of_nat i)) as Hk.
      pose proof (lookup_lt_Some _ _ _ Hi). unfold mcb_free, at_index in Hk.
      rewrite (proj2 (Z.leb_le _ _)), Nat2Z.id, Hi in Hk by lia. apply Hk. lia.
Qed.

Lemma alloc_multiplexer_spec_witness :
  match rfc_alloc_multiplexer_channel 7 true (set_mcb 0 example_mcb power_on) with
  | Ok (Some m, w') =>
      (∃ mcb, rfc_mcb (cb (set_mcb 0 example_mcb power_on)) !! m = Some mcb ∧
         mcb_for 7 mcb = true ∧
         (w' = set_mcb 0 example_mcb power_on ∨
          w' = set_mcb m (mcb <| mcb_timer ::= alarm_cancel |>) (set_mcb 0 example_mcb power_on))) ∨
      (Forall (fun mcb => mcb_for 7 mcb = false) (rfc_mcb (cb (set_mcb 0 example_mcb power_on))) ∧
       mcb_free (rfc_mcb (cb (set_mcb 0 example_mcb power_on))) (Z.of_nat m) = true ∧
       w' = set_mcb m (new_mcb 7 true) (set_mcb 0 example_mcb power_on)
              <| cb ::= fun c => c <| last_mux := Z.of_nat m |> |>)
  | Ok (None, w') =>
      w' = set_mcb 0 example_mcb power_on ∧
      Forall (fun mcb => mcb_for 7 mcb = false ∧ mcb_idle mcb = false)
        (rfc_mcb (cb (set_mcb 0 example_mcb power_on)))
  | Fault _ => False
  end.
Proof.
  apply (alloc_multiplexer_spec 7 true (set_mcb 0 example_mcb power_on)); simpl; lia || done.
Defined.

(** A port that loses its multiplexer. *)
Definition unbind (m : nat) (p : tPORT) : tPORT :=
  if mcb_eqb (p_mcb (rfc p)) (Some m) then p <| rfc ::= fun r => r <| p_mcb := None |> |> else p.

Lemma unbind_loop m n k w done rest :
  ports (cb w) = done ++ rest → length done = k → length rest = n →
  forM_ (seq k n) (fun i =>
    p ← get_port i;
    when (mcb_eqb (p_mcb (rfc p)) (Some m)) (upd_rfc i (fun r => r <| p_mcb := None |>))) w =
  Ok ((), w <| cb ::= fun c => c <| ports := done ++ (unbind m <$> rest) |> |>).
Proof.
  revert k w done rest. induction n as [|n IH]; intros k w done rest Ep Hk Hn.
  - destruct rest; [|done]. cbn [seq forM_]. destruct w as [c t]. destruct c. unfold modify. simpl in *.
    by subst.
  - destruct rest as [|p rest]; [done|]. cbn [seq forM_].
    assert (El : ports (cb w) !! k = Some p) by (rewrite Ep; by apply list_lookup_middle).
    set (w1 := w <| cb ::= fun c => c <| ports := done ++ unbind m p :: rest |> |>).
    erewrite bind_ok with (w' := w1) (a := ()).
    2: { erewrite bind_ok by (by apply get_port_ok). unfold w1, unbind.
         destruct (mcb_eqb _ _); cbn [when].
         - unfold upd_rfc. erewrite upd_port_ok by done. unfold set_port, modify. simpl.
           rewrite Ep, <-Hk. replace (length done) with (length done + 0)%nat by lia.
           by rewrite insert_app_r.
         - unfold modify. destruct w as [c t], c. simpl in *. by subst. }
    rewrite (IH (S k) w1 (done ++ [unbind m p]) rest).
    + unfold w1, modify. simpl. by rewrite <-app_assoc.
    + unfold w1. simpl. by rewrite <-app_assoc.
    + rewrite length_app. simpl. lia.
    + simpl in Hn. lia.
Qed.

(** C18: releasing a multiplexer.  [rfc_release_multiplexer_channel] forgets the
    channel, clears the block, and leaves no port that refers to it; everything
    else stays as it is. *)
Theorem release_multiplexer_spec m mcb w :
  rfc_mcb (cb w) !! m = Some mcb → length (ports (cb w)) = 30%nat →
  rfc_release_multiplexer_channel m w =
    Ok ((), w <| cb ::= fun c => c <| rfc_lcid_mcb ::= delete (mcb_lcid mcb) |>
                                   <| ports ::= fmap (unbind m) |>
                                   <| rfc_mcb ::= <[m := zero_mcb]> |> |>) ∧
  Forall (fun p => p_mcb (rfc p) ≠ Some m) (unbind m <$> ports (cb w)).
Proof.
  intros Em Hlen. split.
  - unfold rfc_release_multiplexer_channel. erewrite bind_ok by (by apply get_mcb_ok).
    erewrite bind_ok by done. erewrite bind_ok by (by apply (unbind_loop m 30 0 _ [] (ports (cb w)))).
    by erewrite upd_mcb_ok by done.
  - apply Forall_fmap, Forall_true. intros p. unfold unbind, mcb_eqb. simpl.
    case_bool_decide; [done|]. done.
Qed.

Lemma release_multiplexer_spec_witness :
  rfc_release_multiplexer_channel 0 (example_link 2) =
    Ok ((), example_link 2 <| cb ::= fun c => c <| rfc_lcid_mcb ::= delete 64 |>
                                                <| ports ::= fmap (unbind 0) |>
                                                <| rfc_mcb ::= <[0%nat := zero_mcb]> |> |>) ∧
  Forall (fun p => p_mcb (rfc p) ≠ Some 0%nat) (unbind 0 <$> ports (cb (example_link 2))).
Proof. apply (release_multiplexer_spec 0 example_mux (example_link 2)); done. Defined.

(** ** Error results of the application interface *)
Section api_errors.
Context `{Env, !SM}.

(** What the functions return for a handle, in the order of [port_api.cc]. *)
Definition api_results (h : Z) (w : world) (mask : Z) (f : callback) (s : PortSettings) (en : bool)
    (n : Z) (data : list Z) : list (res (Z * world)) :=
  let code {A} (r : res (Z * A * world)) : res (Z * world) :=
    match r with Ok (c, _, w') => Ok (c, w') | Fault e => Fault e end in
  [PORT_SetEventMaskAndCallback h mask f w; PORT_SetDataCOCallback h f w;
   code (PORT_CheckConnection h w); PORT_SetSettings h s w; code (PORT_GetSettings h w);
   PORT_FlowControl_MaxCredit h en w; code (PORT_ReadData h n w);
   code (PORT_WriteDataCO h w); code (PORT_WriteData h data w)].

(** C19: errors of the application interface.  A handle that is 0 or above the
    number of ports is answered with [PORT_BAD_HANDLE], and a port that is unused
    or closed with [PORT_NOT_OPENED], by every function that needs an open port;
    neither changes any state or calls anything.  Removing a connection that is
    not open succeeds without effect. *)
Theorem api_error_results h w mask f s en n data :
  (get_port_from_handle h = None →
     Forall (fun r => r = Ok (PORT_BAD_HANDLE, w)) (api_results h w mask f s en n data) ∧
     RFCOMM_RemoveConnection h w = Ok (PORT_BAD_HANDLE, w) ∧
     RFCOMM_RemoveServer h w = Ok (PORT_BAD_HANDLE, w)) ∧
  (∀ i p, get_port_from_handle h = Some i → ports (cb w) !! i = Some p → is_open p = false →
     Forall (fun r => r = Ok (PORT_NOT_OPENED, w)) (api_results h w mask f s en n data) ∧
     RFCOMM_RemoveConnection h w = Ok (PORT_SUCCESS, w)).
Proof.
  unfold api_results, PORT_SetEventMaskAndCallback, PORT_SetDataCOCallback, PORT_CheckConnection,
    PORT_SetSettings, PORT_GetSettings, PORT_FlowControl_MaxCredit, PORT_ReadData,
    PORT_WriteDataCO, PORT_WriteData, RFCOMM_RemoveConnection, RFCOMM_RemoveServer,
    with_open_port, with_port.
  split.
  - intros E. rewrite E. split; [|done]. repeat constructor.
  - intros i p E Ep Ho. rewrite E.
    assert (Hg : ∀ A (k : tPORT → M A), (get_port i ≫= k) w = k p w)
      by (intros; by erewrite bind_ok by (by apply get_port_ok)).
    rewrite !Hg, Ho. split; [repeat constructor|done].
Qed.
End api_errors.

Lemma api_error_results_witness :
  Forall (fun r => r = Ok (PORT_BAD_HANDLE, power_on))
    (api_results (H0 := rfc_machines) 31 power_on 1 None default_port_settings true 8 [1; 2]) ∧
  Forall (fun r => r = Ok (PORT_NOT_OPENED, power_on))
    (api_results (H0 := rfc_machines) 1 power_on 1 None default_port_settings true 8 [1; 2]).
Proof.
  destruct (api_error_results (H0 := rfc_machines) 31 power_on 1 None default_port_settings true 8 [1; 2])
    as [Hbad _].
  destruct (api_error_results (H0 := rfc_machines) 1 power_on 1 None default_port_settings true 8 [1; 2])
    as [_ Hclosed].
  split; [exact (proj1 (Hbad eq_refl))|].
  exact (proj1 (Hclosed 0%nat zero_port eq_refl eq_refl eq_refl)).
Defined.
