(* ===== verification/RfcScenario.v ===== *)
(** * Two devices

    Two instances of RFCOMM joined by an L2CAP channel that answers every
    request with success and delivers every packet in order.  Whole sessions
    (connect, exchange data, close) are evaluated in it, for every server
    channel; the last part evaluates inputs on which the code does not do what
    it means to. *)
From S2P Require Import Prelude RfcDefs RfcFcs RfcMonad RfcFrames RfcUtils RfcPort.
From S2P Require Import RfcMxFsm RfcPortFsm RfcApi RfcSystem RfcInvariant RfcSafety.
From S2P Require Import RfcApiSafety RfcInputs RfcExample RfcReach RfcRoundTrip.

(** ** The link *)
Inductive device := Client | Server.
Definition other (s : device) : device := match s with Client => Server | Server => Client end.

Record net := mkNet {
  client : world;
  server : world;
  (** what has been sent and not yet handled, in order *)
  in_flight : list (device * input);
}.
#[export] Instance eta_net : Eta net := fun n => mkNet (client n) (server n) (in_flight n).

Definition addr_of (s : device) : RawAddress := match s with Client => 11 | Server => 22 end.
Definition at_device (s : device) (n : net) : world :=
  match s with Client => client n | Server => server n end.
Definition set_device (s : device) (w : world) (n : net) : net :=
  match s with Client => n <| client := w |> | Server => n <| server := w |> end.

(** What a call of one device into L2CAP or the security manager leads to. *)
Definition answers (s : device) (o : output) : list (device * input) :=
  match o with
  | L2CA_ConnectReq _ _ =>
      [(other s, I_ConnectInd (addr_of s) 64); (s, I_ConnectCnf 64 L2CAP_CONN_OK);
       (s, I_ConfigInd 64 (Some zero_cfg)); (s, I_ConfigCnf 64 (Some zero_cfg));
       (other s, I_ConfigInd 64 (Some zero_cfg)); (other s, I_ConfigCnf 64 (Some zero_cfg))]
  | L2CA_DataWrite lcid payload => [(other s, I_BufDataInd lcid (rx_buf payload))]
  | L2CA_DisconnectReq lcid => [(other s, I_DisconnectInd lcid)]
  | btm_sec_mx_access_request _ _ _ i => [(s, I_sec_check_complete i BTM_SUCCESS)]
  | _ => []
  end.

(** A session is a computation on the two devices. *)
Definition session (A : Type) : Type := net → res (A * net).
#[export] Instance session_ret : MRet session := fun A a n => Ok (a, n).
#[export] Instance session_bind : MBind session := fun A B f m n =>
  match m n with
  | Ok (a, n') => f a n'
  | Fault e => Fault e
  end.

(** One computation on one device; the calls it makes are put in flight. *)
Definition on {A} (s : device) (m : M A) : session A := fun n =>
  let w := at_device s n in
  match m w with
  | Ok (a, w') =>
      Ok (a, set_device s w' n <| in_flight ::= fun l =>
               l ++ concat (answers s <$> drop (length (trace w)) (trace w')) |>)
  | Fault e => Fault e
  end.

(** Delivering until nothing is in flight. *)
Fixpoint settle (fuel : nat) : session unit := fun n =>
  match in_flight n, fuel with
  | [], _ => Ok ((), n)
  | _, O => Fault OutOfFuel
  | (s, x) :: l, S fuel => (on s (handle_input x);; settle fuel) (n <| in_flight := l |>)
  end.

(** A computation on one device, and all that follows from it. *)
Definition act {A} (s : device) (m : M A) : session A := a ← on s m; settle 100;; mret a.

(** Both devices after start-up. *)
Definition start_net : net := mkNet (after []) (after []) [].

#[local] Existing Instance rfc_machines.

(** The server listens on [scn] and the client connects to it; the result is the
    handle on each side. *)
Definition open_session (scn : Z) : session (Z * Z) :=
  '(_, hs) ← act Server (RFCOMM_CreateConnectionWithSecurity UUID_SERVCLASS_SERIAL_PORT scn true 0
                           (addr_of Client) (Some 1) 0);
  '(_, hc) ← act Client (RFCOMM_CreateConnectionWithSecurity UUID_SERVCLASS_SERIAL_PORT scn false 0
                           (addr_of Server) (Some 2) 0);
  mret (hs, hc).

(** A message from the client to the server, and an answer. *)
Definition exchange (hs hc : Z) (msg reply : list Z) : session (list Z * list Z) :=
  act Client (PORT_WriteData hc msg);;
  '(_, got) ← act Server (PORT_ReadData hs 1000);
  act Server (PORT_WriteData hs reply);;
  '(_, back) ← act Client (PORT_ReadData hc 1000);
  mret (got, back).

(** Connecting, one message each way, and the client closing. *)
Definition whole_session (scn : Z) (msg reply : list Z) : session (list Z * list Z) :=
  '(hs, hc) ← open_session scn;
  r ← exchange hs hc msg reply;
  act Client (RFCOMM_RemoveConnection hc);;
  mret r.

(** No multiplexer and no connection is left on either side. *)
Definition all_released (n : net) : bool :=
  forallb mcb_idle (rfc_mcb (cb (client n))) && forallb mcb_idle (rfc_mcb (cb (server n))) &&
  forallb (fun p => negb (in_use p)) (ports (cb (client n))) &&
  forallb (fun p => negb (is_some (p_mcb (rfc p)))) (ports (cb (server n))) &&
  bool_decide (map_to_list (rfc_lcid_mcb (cb (client n))) = []) &&
  bool_decide (map_to_list (rfc_lcid_mcb (cb (server n))) = []).

(** The result, whether everything sent was handled, and the check of the end state. *)
Definition outcome {A} (check : net → bool) (r : res (A * net)) : option (A * bool * bool) :=
  match r with
  | Ok (a, n) => Some (a, match in_flight n with [] => true | _ => false end, check n)
  | Fault _ => None
  end.

(** The server channels of the specification. *)
Lemma every_scn (P : Z → Prop) : Forall P (seqZ 1 30) → ∀ scn, 1 <= scn <= 30 → P scn.
Proof. intros HP scn Hs. eapply Forall_forall; [exact HP|]. apply elem_of_seqZ. lia. Qed.

Ltac each_scn :=
  refine (every_scn _ _);
  let l := eval vm_compute in (seqZ 1 30) in change (seqZ 1 30) with l;
  repeat (apply Forall_cons; split; [intros; vm_compute; reflexivity|]);
  apply Forall_nil; exact I.



(** A client that connects to the server of an earlier session. *)
Definition reconnect (scn : Z) (msg reply : list Z) : session (list Z * list Z) :=
  '(hs, hc) ← open_session scn;
  act Client (RFCOMM_RemoveConnection hc);;
  '(_, hc) ← act Client (RFCOMM_CreateConnectionWithSecurity UUID_SERVCLASS_SERIAL_PORT scn false 0
                           (addr_of Server) (Some 2) 0);
  exchange hs hc msg reply.

(** Both ends of the connection are open. *)
Definition both_open (n : net) : bool :=
  existsb (fun p => eqb (port_state p) PORT_CONNECTION_STATE_OPENED) (ports (cb (client n))) &&
  existsb (fun p => eqb (port_state p) PORT_CONNECTION_STATE_OPENED) (ports (cb (server n))).

(** A server port serves one client after the other.  After a client has
    connected and closed, the server port accepts the next connection on the same
    handle and data passes both ways on it. *)
Theorem server_serves_again : ∀ scn, 1 <= scn <= 30 → ∀ a b c d,
  outcome both_open (reconnect scn [a; b] [c; d] start_net) = Some (([a; b], [c; d]), true, true).
Proof. each_scn. Qed.

Lemma server_serves_again_witness :
  outcome both_open (reconnect 30 [1; 2] [3; 4] start_net) = Some (([1; 2], [3; 4]), true, true).
Proof. apply (server_serves_again 30 ltac:(lia) 1 2 3 4). Defined.

(** A message longer than any frame: the client writes it in one call, the server reads until it
    has everything. *)
Definition bulk_transfer (scn : Z) (msg : list Z) : session (Z * list Z) :=
  '(hs, hc) ← open_session scn;
  '(_, n) ← act Client (PORT_WriteData hc msg);
  '(_, got) ← act Server (PORT_ReadData hs 4000);
  '(_, rest) ← act Server (PORT_ReadData hs 4000);
  mret (n, got ++ rest).


(** ** Inputs on which the code does not do what it means to *)

(** A peer with a multiplexer channel to a device that listens on channel 3. *)
Definition peer_ready_inputs : list input := example_inputs ++ [example_sabm].

(** Its RPN command for DLCI 6, and its MSC command for the same DLCI. *)
Definition rpn_frame : list Z := [3; 239; 21; 147; 17; 27; 3; 3; 0; 17; 19; 127; 63; 112].
Definition msc_frame : list Z := [3; 239; 9; 227; 5; 27; 141; 112].

Lemma octets_u8 l : forallb (fun o => (0 <=? o) && (o <? 256)) l = true → Forall is_u8 l.
Proof.
  intros Hl. apply Forall_forall. intros o Ho. rewrite forallb_forall in Hl.
  apply list_elem_of_In in Ho. specialize (Hl o Ho). unfold is_u8. lia.
Qed.

Lemma rx_ok_frame l : Forall is_u8 l → (length l < 1000)%nat → rx_ok (rx_buf l).
Proof.
  intros Hl Hn. constructor; simpl; try (unfold is_u16; lia).
  all: try (rewrite ?length_app, ?length_replicate; simpl; lia).
  repeat (apply Forall_cons; split; [unfold is_u8; lia|]). done.
Qed.

(** C20: a peer can crash the stack.  RPN for the DLCI of a listening server
    enters the port at the multiplexer without setting the port's multiplexer
    pointer; the MSC command for that DLCI then goes through the null pointer. *)
Theorem rpn_then_msc_null_deref :
  reachable (after (peer_ready_inputs ++ [I_BufDataInd 64 (rx_buf rpn_frame)])) ∧
  rx_ok (rx_buf msc_frame) ∧
  handle_input (I_BufDataInd 64 (rx_buf msc_frame))
    (after (peer_ready_inputs ++ [I_BufDataInd 64 (rx_buf rpn_frame)])) = Fault NullDeref.
Proof.
  split_and!; [|apply rx_ok_frame; [by apply octets_u8|simpl; lia]|by vm_compute].
  apply reach_after; [|by vm_compute].
  repeat (apply Forall_cons; split; [intros c; simpl|]); try lia; try done.
  all: apply rx_ok_frame; [by apply octets_u8|simpl; lia].
Qed.

(** What L2CAP reports when the peer does not answer. *)
Definition L2CAP_CONN_TIMEOUT : Z := 0xEEEE.

(** Two clients of the application that open channels 3 and 4 of one peer. *)
Definition two_clients : list input :=
  [I_CreateConnection UUID_SERVCLASS_SERIAL_PORT 3 false 0 7 (Some 3) 0;
   I_CreateConnection UUID_SERVCLASS_SERIAL_PORT 4 false 0 7 (Some 4) 0].

(** The calls of the program into L2CAP and of management callbacks after a run,
    and what is left of a port. *)
Definition calls_after (l : list input) : option (list output) :=
  match (RFCOMM_Init;; run l) power_on with
  | Ok (_, w) => Some (trace w)
  | Fault _ => None
  end.

(** [PORT_StartCnf] with an error.  Releasing the multiplexer for the first
    waiting port unhooks all others, so the loop does not find them: of two
    clients that wait for one connection only the first is told that it failed,
    and the port of the second stays in the opening state, without a multiplexer
    and without a timer. *)
Theorem start_failure_tells_one_client :
  calls_after (two_clients ++ [I_l2cap_error 64 L2CAP_CONN_TIMEOUT]) =
    Some [L2CA_Register BT_PSM_RFCOMM; L2CA_ConnectReq BT_PSM_RFCOMM 7;
          mgmt_callback 3 PORT_START_FAILED 2] ∧
  match ports (cb (after (two_clients ++ [I_l2cap_error 64 L2CAP_CONN_TIMEOUT]))) !! 2%nat with
  | Some p => in_use p = true ∧ port_state p = PORT_CONNECTION_STATE_OPENING ∧
              p_mcb (rfc p) = None ∧ port_timer (rfc p) = alarm_idle
  | None => False
  end.
Proof. split; [by vm_compute|]. vm_compute. done. Qed.

(** A failed configuration.  [PORT_StartCnf] clears the multiplexer block, so
    [rfc_on_l2cap_error] asks L2CAP to disconnect channel 0 and the channel whose
    configuration failed is not disconnected. *)
Theorem config_failure_disconnects_channel_0 :
  calls_after [I_CreateConnection UUID_SERVCLASS_SERIAL_PORT 3 false 0 7 (Some 3) 0;
               I_ConnectCnf 64 L2CAP_CONN_OK; I_l2cap_error 64 L2CAP_CFG_FAILED_NO_REASON] =
    Some [L2CA_Register BT_PSM_RFCOMM; L2CA_ConnectReq BT_PSM_RFCOMM 7;
          mgmt_callback 3 PORT_START_FAILED 2; L2CA_DisconnectReq 0].
Proof. by vm_compute. Qed.

(** A multiplexer with one port, on DLCI 61. *)
Definition only_dlci_61 (mcb : tRFC_MCB) : Prop :=
  ∃ h, 0 < h <= 30 ∧ port_handles mcb = replicate 61 0 ++ [h].

(** DLCI 61, the highest one, does not count.  A multiplexer whose only port
    is on DLCI 61 is taken for unused: [rfc_check_mcb_active] starts the timer that
    closes it. *)
Theorem dlci_61_not_counted `{Env} m mcb w :
  rfc_mcb (cb w) !! m = Some mcb → only_dlci_61 mcb →
  is_disc_initiator mcb = false → mcb_timer mcb ≠ alarm_null →
  rfc_check_mcb_active m w =
    Ok ((), set_mcb m (mcb <| mcb_timer := alarm_scheduled RFC_MCB_RELEASE_INACT_TIMER |>) w).
Proof.
  intros Em (h & _ & Eh) Ed Ht. unfold rfc_check_mcb_active. erewrite bind_ok by (by apply get_mcb_ok).
  rewrite Eh, take_app_length' by (rewrite length_replicate; done).
  replace (existsb nz (replicate 61 0)) with false by done. rewrite Ed.
  unfold rfc_timer_start. erewrite bind_ok by (by apply get_mcb_ok).
  destruct (mcb_timer mcb); [done|..]; simpl; by apply upd_mcb_ok.
Qed.

Definition mux_61 : tRFC_MCB :=
  example_mcb <| port_handles := replicate 61 0 ++ [5] |> <| mcb_timer := alarm_idle |>.

Lemma dlci_61_not_counted_witness :
  rfc_check_mcb_active 0 (set_mcb 0 mux_61 power_on) =
  Ok ((), set_mcb 0 (mux_61 <| mcb_timer := alarm_scheduled RFC_MCB_RELEASE_INACT_TIMER |>)
            (set_mcb 0 mux_61 power_on)).
Proof. apply (dlci_61_not_counted 0 mux_61); try done. exists 5. split; [lia|done]. Defined.
