(* ===== verification/P256Arith.v ===== *)
(** * 256-bit arithmetic on 32-bit words ([p_256_multprecision.cc])

    A number is an array of eight [uint32_t], least significant word first: a
    list of eight words here.  Every function writes an element of its result
    after it has read the elements of its arguments at the same index, so a call
    whose result array is also an argument ([multiprecision_sub(c, c, modp)])
    computes the same value as one with a result array of its own; the
    definitions return the result.  A loop over the index is a recursion over
    the lists, from the most significant word where the loop counts down. *)
From S2P Require Import Prelude.

Definition W : Z := 4294967296.

(** The number an array stands for. *)
Fixpoint val (l : list Z) : Z :=
  match l with
  | [] => 0
  | w :: l => w + W * val l
  end.

(** An array of [n] words. *)
Definition words (n : nat) (l : list Z) : Prop := length l = n ∧ Forall is_u32 l.

(** ** The prime modulus ([p_256_init_curve]) *)
Definition modp : list Z :=
  [0xFFFFFFFF; 0xFFFFFFFF; 0xFFFFFFFF; 0x0; 0x0; 0x0; 0x00000001; 0xFFFFFFFF].

(** ** The functions *)
Definition multiprecision_init : list Z := replicate 8 0.

Definition multiprecision_copy (a : list Z) : list Z := a.

(** The loop from the most significant word down. *)
Fixpoint compare_loop (a b : list Z) : Z :=
  match a, b with
  | x :: a, y :: b => if y <? x then 1 else if x <? y then -1 else compare_loop a b
  | _, _ => 0
  end.
Definition multiprecision_compare (a b : list Z) : Z := compare_loop (rev a) (rev b).

Definition multiprecision_iszero (a : list Z) : bool := forallb (fun x => x =? 0) a.

(** [for (i = 0; i < DWORD_BITS; i++, a >>= 1) if (a == 0) break;] *)
Fixpoint dword_bits_loop (n : nat) (i a : Z) : Z :=
  match n with
  | O => i
  | S n => if a =? 0 then i else dword_bits_loop n (i + 1) (Z.shiftr a 1)
  end.
Definition multiprecision_dword_bits (a : Z) : Z := dword_bits_loop 32 0 a.

Fixpoint most_signdwords_loop (a : list Z) : Z :=
  match a with
  | [] => 0
  | x :: a => if x =? 0 then most_signdwords_loop a else Z.of_nat (length a) + 1
  end.
Definition multiprecision_most_signdwords (a : list Z) : Z := most_signdwords_loop (rev a).

Definition multiprecision_most_signbits (a : list Z) : Z :=
  let n := multiprecision_most_signdwords a in
  if n =? 0 then 0
  else Z.shiftl (n - 1) 5 + multiprecision_dword_bits (nth (Z.to_nat (n - 1)) a 0).

(** The sum and the carry. *)
Fixpoint add_loop (a b : list Z) (carrier : Z) : list Z * Z :=
  match a, b with
  | x :: a, y :: b =>
      let temp := u32 (x + carrier) in
      let carrier := b2z (temp <? carrier) in
      let temp := u32 (temp + y) in
      let carrier := Z.lor carrier (b2z (temp <? y)) in
      let '(c, carrier) := add_loop a b carrier in
      (temp :: c, carrier)
  | _, _ => ([], carrier)
  end.
Definition multiprecision_add (a b : list Z) : list Z * Z := add_loop a b 0.

(** The difference and the borrow. *)
Fixpoint sub_loop (a b : list Z) (borrow : Z) : list Z * Z :=
  match a, b with
  | x :: a, y :: b =>
      let temp := u32 (x - borrow) in
      let borrow := b2z (x <? temp) in
      let c0 := u32 (temp - y) in
      let borrow := Z.lor borrow (b2z (temp <? c0)) in
      let '(c, borrow) := sub_loop a b borrow in
      (c0 :: c, borrow)
  | _, _ => ([], borrow)
  end.
Definition multiprecision_sub (a b : list Z) : list Z * Z := sub_loop a b 0.

Fixpoint lshift_loop (a : list Z) (carrier : Z) : list Z * Z :=
  match a with
  | [] => ([], carrier)
  | temp :: a =>
      let '(c, k) := lshift_loop a (Z.shiftr temp 31) in
      (Z.lor (u32 (Z.shiftl temp 1)) carrier :: c, k)
  end.
Definition multiprecision_lshift (a : list Z) : list Z * Z := lshift_loop a 0.

Fixpoint rshift_loop (a : list Z) (carrier : Z) : list Z :=
  match a with
  | [] => []
  | temp :: a => Z.lor (Z.shiftr temp 1) carrier :: rshift_loop a (u32 (Z.shiftl temp 31))
  end.
Definition multiprecision_rshift (a : list Z) : list Z := rev (rshift_loop (rev a) 0).

(** The common end of [multiprecision_lshift_mod] and [multiprecision_add_mod]. *)
Definition reduce_once (c : list Z) (carrier : Z) : list Z :=
  if nz carrier then fst (multiprecision_sub c modp)
  else if 0 <=? multiprecision_compare c modp then fst (multiprecision_sub c modp)
  else c.

Definition multiprecision_lshift_mod (a : list Z) : list Z :=
  let '(c, carrier) := multiprecision_lshift a in reduce_once c carrier.

Definition multiprecision_add_mod (a b : list Z) : list Z :=
  let '(c, carrier) := multiprecision_add a b in reduce_once c carrier.

Definition multiprecision_sub_mod (a b : list Z) : list Z :=
  let '(c, borrow) := multiprecision_sub a b in
  if nz borrow then fst (multiprecision_add c modp) else c.

(** ** Numbers and arrays *)
Lemma words_nil : words 0 [].
Proof. split; [done|constructor]. Qed.

Lemma words_cons n x l : is_u32 x → words n l → words (S n) (x :: l).
Proof. intros Hx [Hl Hw]. split; [simpl; lia|by constructor]. Qed.

Lemma words_inv n l : words (S n) l → ∃ x l', l = x :: l' ∧ is_u32 x ∧ words n l'.
Proof.
  intros [Hl Hw]. destruct l as [|x l]; [done|]. apply Forall_cons in Hw as [Hx Hw].
  exists x, l. split_and!; [done|done|]. split; [simpl in Hl; lia|done].
Qed.

Lemma words_zero l : words 0 l → l = [].
Proof. intros [Hl _]. by destruct l. Qed.

Lemma words_rev n l : words n l → words n (rev l).
Proof.
  intros [Hl Hw]. split; [by rewrite length_rev|].
  apply Forall_forall. intros x Hx. rewrite Forall_forall in Hw. apply Hw.
  apply list_elem_of_In. apply list_elem_of_In in Hx. by apply in_rev.
Qed.

#[export] Hint Resolve words_nil words_cons words_rev : rfc.

(** One array taken apart along with its length. *)
Ltac words_inv H :=
  let x := fresh "x" in let l := fresh "l" in let Hx := fresh "Hx" in let Hl := fresh "Hl" in
  apply words_inv in H as (x & l & -> & Hx & Hl).

Lemma W_pow n : 0 < W ^ Z.of_nat n.
Proof. apply Z.pow_pos_nonneg; unfold W; lia. Qed.

Lemma W_pow_S n : W ^ Z.of_nat (S n) = W * W ^ Z.of_nat n.
Proof. rewrite Nat2Z.inj_succ, Z.pow_succ_r by lia. done. Qed.

Lemma val_range n l : words n l → 0 <= val l < W ^ Z.of_nat n.
Proof.
  revert l. induction n as [|n IH]; intros l Hl.
  - apply words_zero in Hl as ->. simpl. lia.
  - words_inv Hl. specialize (IH _ Hl0). rewrite W_pow_S. simpl. unfold is_u32, W in *. nia.
Qed.

Lemma val_inj n a b : words n a → words n b → val a = val b → a = b.
Proof.
  revert a b. induction n as [|n IH]; intros a b Ha Hb E.
  - apply words_zero in Ha as ->. by apply words_zero in Hb as ->.
  - words_inv Ha. words_inv Hb. simpl in E. unfold is_u32, W in *.
    assert (x = x0) as -> by lia. f_equal. apply IH; [done|done|lia].
Qed.

Lemma val_app a b : val (a ++ b) = val a + W ^ Z.of_nat (length a) * val b.
Proof.
  induction a as [|x a IH]; simpl app; [simpl; lia|].
  cbn [val length]. rewrite IH, W_pow_S. lia.
Qed.

Lemma val_zeros n : val (replicate n 0) = 0.
Proof. induction n; simpl; [done|]. by rewrite IHn. Qed.

Lemma val_zero_iff l : Forall is_u32 l → (multiprecision_iszero l = true ↔ val l = 0).
Proof.
  induction 1 as [|x l Hx Hl IH]; simpl; [done|].
  assert (0 <= val l) by (by apply (val_range (length l))).
  unfold multiprecision_iszero in IH. rewrite andb_true_iff, Z.eqb_eq, IH.
  unfold is_u32, W in *. lia.
Qed.

(** ** Sum and difference *)
Lemma lor_b2z a b : Z.lor (b2z a) (b2z b) = b2z (a || b).
Proof. by destruct a, b. Qed.

Lemma add_word x y k :
  is_u32 x → is_u32 y → 0 <= k <= 1 →
  let temp := u32 (x + k) in
  let k1 := b2z (temp <? k) in
  let t := u32 (temp + y) in
  let k2 := Z.lor k1 (b2z (t <? y)) in
  is_u32 t ∧ 0 <= k2 <= 1 ∧ t + W * k2 = x + y + k.
Proof.
  intros Hx Hy Hk. cbv zeta. rewrite lor_b2z. unfold is_u32, u32, W, b2z in *.
  case_match; Z.div_mod_to_equations; lia.
Qed.

Lemma sub_word x y k :
  is_u32 x → is_u32 y → 0 <= k <= 1 →
  let temp := u32 (x - k) in
  let k1 := b2z (x <? temp) in
  let c := u32 (temp - y) in
  let k2 := Z.lor k1 (b2z (temp <? c)) in
  is_u32 c ∧ 0 <= k2 <= 1 ∧ c - W * k2 = x - y - k.
Proof.
  intros Hx Hy Hk. cbv zeta. rewrite lor_b2z. unfold is_u32, u32, W, b2z in *.
  case_match; Z.div_mod_to_equations; lia.
Qed.

Lemma add_loop_spec n a b k :
  words n a → words n b → 0 <= k <= 1 →
  let '(c, k') := add_loop a b k in
  words n c ∧ 0 <= k' <= 1 ∧ val c + W ^ Z.of_nat n * k' = val a + val b + k.
Proof.
  revert a b k. induction n as [|n IH]; intros a b k Ha Hb Hk.
  - apply words_zero in Ha as ->. apply words_zero in Hb as ->. simpl. split_and!; auto with rfc; lia.
  - words_inv Ha. words_inv Hb. cbn [add_loop].
    pose proof (add_word x x0 k Hx Hx0 Hk) as Hw. cbv zeta in Hw |- *.
    destruct Hw as (Ht & Hk2 & E).
    specialize (IH l l0 _ Hl Hl0 Hk2). destruct (add_loop l l0 _) as [c k'].
    destruct IH as (Hc & Hk' & E'). split_and!; [by auto with rfc|lia|lia|].
    rewrite W_pow_S. cbn [val]. nia.
Qed.

Lemma sub_loop_spec n a b k :
  words n a → words n b → 0 <= k <= 1 →
  let '(c, k') := sub_loop a b k in
  words n c ∧ 0 <= k' <= 1 ∧ val c - W ^ Z.of_nat n * k' = val a - val b - k.
Proof.
  revert a b k. induction n as [|n IH]; intros a b k Ha Hb Hk.
  - apply words_zero in Ha as ->. apply words_zero in Hb as ->. simpl. split_and!; auto with rfc; lia.
  - words_inv Ha. words_inv Hb. cbn [sub_loop].
    pose proof (sub_word x x0 k Hx Hx0 Hk) as Hw. cbv zeta in Hw |- *.
    destruct Hw as (Ht & Hk2 & E).
    specialize (IH l l0 _ Hl Hl0 Hk2). destruct (sub_loop l l0 _) as [c k'].
    destruct IH as (Hc & Hk' & E'). split_and!; [by auto with rfc|lia|lia|].
    rewrite W_pow_S. cbn [val]. nia.
Qed.

Lemma add_spec a b :
  words 8 a → words 8 b →
  let '(c, k) := multiprecision_add a b in
  words 8 c ∧ 0 <= k <= 1 ∧ val c + W ^ 8 * k = val a + val b.
Proof.
  intros Ha Hb. pose proof (add_loop_spec 8 a b 0 Ha Hb ltac:(lia)) as H.
  unfold multiprecision_add. destruct (add_loop a b 0). by rewrite Z.add_0_r in H.
Qed.

Lemma sub_spec a b :
  words 8 a → words 8 b →
  let '(c, k) := multiprecision_sub a b in
  words 8 c ∧ 0 <= k <= 1 ∧ val c - W ^ 8 * k = val a - val b.
Proof.
  intros Ha Hb. pose proof (sub_loop_spec 8 a b 0 Ha Hb ltac:(lia)) as H.
  unfold multiprecision_sub. destruct (sub_loop a b 0). by rewrite Z.sub_0_r in H.
Qed.

(** ** Comparison *)
Lemma val_rev_cons x a : val (rev (x :: a)) = val (rev a) + W ^ Z.of_nat (length a) * x.
Proof. simpl rev. rewrite val_app, length_rev. simpl val. lia. Qed.

Lemma compare_loop_spec n a b :
  words n a → words n b → compare_loop a b = Z.sgn (val (rev a) - val (rev b)).
Proof.
  revert a b. induction n as [|n IH]; intros a b Ha Hb.
  - apply words_zero in Ha as ->. by apply words_zero in Hb as ->.
  - words_inv Ha. words_inv Hb. cbn [compare_loop]. rewrite !val_rev_cons.
    assert (length l = n ∧ length l0 = n) as [-> ->] by (by destruct Hl, Hl0).
    pose proof (val_range n (rev l) (words_rev _ _ Hl)).
    pose proof (val_range n (rev l0) (words_rev _ _ Hl0)).
    destruct (Z.ltb_spec x0 x); [symmetry; apply Z.sgn_pos; nia|].
    destruct (Z.ltb_spec x x0); [symmetry; apply Z.sgn_neg; nia|].
    assert (x = x0) as -> by lia. rewrite IH by done. f_equal. lia.
Qed.

Lemma compare_spec a b :
  words 8 a → words 8 b → multiprecision_compare a b = Z.sgn (val a - val b).
Proof.
  intros Ha Hb. unfold multiprecision_compare. rewrite (compare_loop_spec 8) by auto with rfc.
  by rewrite !rev_involutive.
Qed.

(** ** Shifts *)
Lemma lor_add a b n : 0 <= n → 0 <= b < 2 ^ n → Z.lor (a * 2 ^ n) b = a * 2 ^ n + b.
Proof.
  intros Hn Hb.
  assert (Hl : Z.land (a * 2 ^ n) b = 0).
  { apply Z.bits_inj'. intros i Hi. rewrite Z.land_spec, Z.bits_0.
    destruct (Z.lt_ge_cases i n).
    - by rewrite Z.mul_pow2_bits_low by lia.
    - rewrite <-(Z.mod_small b (2 ^ n)) by lia. rewrite Z.mod_pow2_bits_high by lia.
      apply andb_false_r. }
  rewrite <-Z.lxor_lor by done. symmetry. by apply Z.add_nocarry_lxor.
Qed.

Lemma lshift_loop_spec n a k :
  words n a → 0 <= k <= 1 →
  let '(c, k') := lshift_loop a k in
  words n c ∧ 0 <= k' <= 1 ∧ val c + W ^ Z.of_nat n * k' = 2 * val a + k.
Proof.
  revert a k. induction n as [|n IH]; intros a k Ha Hk.
  - apply words_zero in Ha as ->. simpl. split_and!; auto with rfc; lia.
  - words_inv Ha. cbn [lshift_loop].
    assert (Hk' : 0 <= Z.shiftr x 31 <= 1).
    { rewrite Z.shiftr_div_pow2 by lia. unfold is_u32 in Hx. change (2 ^ 31) with 2147483648.
      Z.div_mod_to_equations; lia. }
    specialize (IH l _ Hl Hk'). destruct (lshift_loop l _) as [c k'].
    destruct IH as (Hc & Hk2 & E).
    assert (Ex : Z.lor (u32 (Z.shiftl x 1)) k = u32 (2 * x) + k).
    { rewrite Z.shiftl_mul_pow2 by lia. change (x * 2 ^ 1) with (x * 2).
      assert (u32 (x * 2) = (x mod 2147483648) * 2 ^ 1) as ->
        by (unfold u32; Z.div_mod_to_equations; lia).
      rewrite lor_add by lia. unfold u32. f_equal. Z.div_mod_to_equations; lia. }
    rewrite Ex. rewrite Z.shiftr_div_pow2 in E by lia. change (2 ^ 31) with 2147483648 in E.
    split_and!; [apply words_cons; [|done]|lia|lia|].
    + unfold is_u32, u32 in *. Z.div_mod_to_equations; lia.
    + rewrite W_pow_S. cbn [val].
      assert (u32 (2 * x) + W * (x / 2147483648) = 2 * x)
        by (unfold is_u32, u32, W in *; Z.div_mod_to_equations; lia). nia.
Qed.

Lemma rshift_loop_spec n a k :
  words n a → 0 <= k <= 1 →
  ∃ r, 0 <= r <= 1 ∧ words n (rshift_loop a (k * 2147483648)) ∧
    2 * val (rev (rshift_loop a (k * 2147483648))) + r = val (rev a) + W ^ Z.of_nat n * k.
Proof.
  revert a k. induction n as [|n IH]; intros a k Ha Hk.
  - apply words_zero in Ha as ->. exists k. simpl. split_and!; auto with rfc; lia.
  - words_inv Ha. cbn [rshift_loop].
    assert (Ec : u32 (Z.shiftl x 31) = (x mod 2) * 2147483648).
    { rewrite Z.shiftl_mul_pow2 by lia. change (2 ^ 31) with 2147483648.
      unfold u32. Z.div_mod_to_equations; lia. }
    rewrite Ec. destruct (IH l (x mod 2) Hl) as (r & Hr & Hc & E); [Z.div_mod_to_equations; lia|].
    set (c := rshift_loop l _) in *. exists r.
    assert (Ex : Z.lor (Z.shiftr x 1) (k * 2147483648) = k * 2147483648 + x / 2).
    { rewrite Z.lor_comm, Z.shiftr_div_pow2 by lia. change (2 ^ 1) with 2.
      change 2147483648 with (2 ^ 31). apply lor_add; [lia|].
      change (2 ^ 31) with 2147483648. unfold is_u32 in Hx. Z.div_mod_to_equations; lia. }
    rewrite Ex, !val_rev_cons.
    assert (length l = n ∧ length c = n) as [-> ->] by (by destruct Hl, Hc).
    split_and!; [lia|lia|apply words_cons; [|done]|].
    + unfold is_u32 in *. Z.div_mod_to_equations; lia.
    + rewrite W_pow_S. assert (Ed : x = 2 * (x / 2) + x mod 2) by (Z.div_mod_to_equations; lia).
      rewrite Ed at 2. generalize dependent (W ^ Z.of_nat n). intros P E. unfold W. nia.
Qed.

Lemma lshift_spec a :
  words 8 a →
  let '(c, k) := multiprecision_lshift a in
  words 8 c ∧ 0 <= k <= 1 ∧ val c + W ^ 8 * k = 2 * val a.
Proof.
  intros Ha. pose proof (lshift_loop_spec 8 a 0 Ha ltac:(lia)) as H.
  unfold multiprecision_lshift. destruct (lshift_loop a 0). by rewrite Z.add_0_r in H.
Qed.

Lemma rshift_spec a :
  words 8 a → words 8 (multiprecision_rshift a) ∧ val (multiprecision_rshift a) = val a / 2.
Proof.
  intros Ha. destruct (rshift_loop_spec 8 (rev a) 0 (words_rev _ _ Ha) ltac:(lia)) as (r & Hr & Hc & E).
  unfold multiprecision_rshift. change (0 * 2147483648) with 0 in *.
  split; [by apply words_rev|]. rewrite rev_involutive in E. Z.div_mod_to_equations; lia.
Qed.

(** ** The number of bits *)
Definition bits (z : Z) : Z := if z =? 0 then 0 else Z.log2 z + 1.

Lemma dword_bits_loop_spec n i a :
  0 <= a < 2 ^ Z.of_nat n → dword_bits_loop n i a = i + bits a.
Proof.
  revert i a. induction n as [|n IH]; intros i a Ha.
  - assert (a = 0) as -> by (change (2 ^ Z.of_nat 0) with 1 in Ha; lia). change (bits 0) with 0. simpl. lia.
  - cbn [dword_bits_loop]. unfold bits at 1. destruct (Z.eqb_spec a 0); [lia|].
    rewrite Nat2Z.inj_succ, Z.pow_succ_r in Ha by lia.
    rewrite IH by (rewrite Z.shiftr_div_pow2 by lia; change (2 ^ 1) with 2; Z.div_mod_to_equations; lia).
    rewrite Z.shiftr_div_pow2 by lia. change (2 ^ 1) with 2. unfold bits.
    destruct (Z.eqb_spec (a / 2) 0).
    + assert (a = 1) as -> by (Z.div_mod_to_equations; lia). change (Z.log2 1) with 0. lia.
    + assert (Z.log2 a = Z.succ (Z.log2 (a / 2))) as ->; [|lia].
      rewrite <-Z.log2_double by (Z.div_mod_to_equations; lia).
      destruct (Z.mod_pos_bound a 2) as [H0 H1]; [lia|].
      assert (a = 2 * (a / 2) ∨ a = 2 * (a / 2) + 1) as [E|E] by (Z.div_mod_to_equations; lia).
      * by rewrite <-E.
      * rewrite E at 1. rewrite Z.log2_succ_double by (Z.div_mod_to_equations; lia).
        rewrite Z.log2_double by (Z.div_mod_to_equations; lia). done.
Qed.

Lemma most_signdwords_loop_spec n a :
  words n a →
  match most_signdwords_loop a with
  | 0 => val (rev a) = 0
  | k => 0 < k <= Z.of_nat n ∧ nth (Z.to_nat (k - 1)) (rev a) 0 ≠ 0 ∧
         val (rev a) = val (take (Z.to_nat (k - 1)) (rev a))
                       + W ^ (k - 1) * nth (Z.to_nat (k - 1)) (rev a) 0
  end.
Proof.
  revert a. induction n as [|n IH]; intros a Ha; [by apply words_zero in Ha as ->|].
  words_inv Ha. cbn [most_signdwords_loop]. assert (length l = n) as Hn by (by destruct Hl).
  destruct (Z.eqb_spec x 0) as [->|Hne].
  - specialize (IH l Hl). rewrite val_rev_cons, Z.mul_0_r, Z.add_0_r. cbn [rev].
    destruct (most_signdwords_loop l) as [|k|k]; [done| |destruct IH; lia].
    destruct IH as (Hk & Hn0 & E).
    rewrite app_nth1, take_app_le by (rewrite length_rev; lia). split_and!; [lia|lia|done|done].
  - rewrite Hn, val_rev_cons, Hn. cbn [rev].
    destruct (Z.of_nat n + 1) as [|k|k] eqn:Ek; [lia| |lia].
    replace (Z.pos k - 1) with (Z.of_nat n) by lia. rewrite Nat2Z.id.
    rewrite app_nth2, take_app_length' by (rewrite length_rev; lia).
    rewrite length_rev, Hn, Nat.sub_diag. simpl nth. split_and!; [lia|lia|done|done].
Qed.

Lemma most_signbits_spec a : words 8 a → multiprecision_most_signbits a = bits (val a).
Proof.
  intros Ha. pose proof (most_signdwords_loop_spec 8 (rev a) (words_rev _ _ Ha)) as H.
  unfold multiprecision_most_signbits, multiprecision_most_signdwords. rewrite rev_involutive in H.
  destruct (most_signdwords_loop (rev a)) as [|k|k]; [by rewrite H| |destruct H; lia].
  destruct H as (Hk & Hne & E). replace (Z.pos k =? 0) with false by lia. cbn iota.
  set (i := Z.pos k - 1) in *. set (t := nth (Z.to_nat i) a 0) in *.
  assert (Ht : is_u32 t).
  { destruct Ha as [Hl Hw]. rewrite Forall_forall in Hw. apply Hw, list_elem_of_In, nth_In. lia. }
  assert (Hlow : words (Z.to_nat i) (take (Z.to_nat i) a)).
  { destruct Ha as [Hl Hw]. split; [rewrite length_take; lia|by apply Forall_take]. }
  apply val_range in Hlow. rewrite Z2Nat.id in Hlow by lia.
  unfold multiprecision_dword_bits. rewrite dword_bits_loop_spec by exact Ht.
  rewrite Z.shiftl_mul_pow2 by lia. unfold bits. replace (t =? 0) with false by lia.
  unfold is_u32 in Ht. replace (val a =? 0) with false by nia.
  assert (Z.log2 (val a) = i * 32 + Z.log2 t) as ->; [|change (2 ^ 5) with 32; lia].
  destruct (Z.log2_spec t) as [H1 H2]; [lia|]. pose proof (Z.log2_nonneg t).
  change W with (2 ^ 32) in *. rewrite <-Z.pow_mul_r in Hlow, E by lia.
  apply Z.log2_unique; [lia|]. rewrite E.
  replace (Z.succ (i * 32 + Z.log2 t)) with (32 * i + Z.succ (Z.log2 t)) by lia.
  replace (i * 32 + Z.log2 t) with (32 * i + Z.log2 t) by lia.
  rewrite !Z.pow_add_r by lia. nia.
Qed.

(** ** Arithmetic modulo p *)
Definition p256 : Z := val modp.

Lemma p256_eq : p256 = 2 ^ 256 - 2 ^ 224 + 2 ^ 192 + 2 ^ 96 - 1.
Proof. by vm_compute. Qed.

Lemma words_modp : words 8 modp.
Proof. split; [done|]. repeat (apply Forall_cons; split; [unfold is_u32; lia|]). by apply Forall_nil. Qed.

(** A number below the modulus. *)
Definition field (a : list Z) : Prop := words 8 a ∧ val a < p256.

Lemma p256_bounds : 2 ^ 255 < p256 ∧ p256 < W ^ 8 ∧ W ^ 8 < 2 * p256 ∧ W ^ 8 = 2 ^ 256.
Proof. rewrite p256_eq. by vm_compute. Qed.

Lemma reduce_once_spec c k :
  words 8 c → 0 <= k <= 1 → val c + W ^ 8 * k < 2 * p256 →
  field (reduce_once c k) ∧ val (reduce_once c k) = (val c + W ^ 8 * k) mod p256.
Proof.
  intros Hc Hk Hlt. pose proof (val_range 8 c Hc) as Hr. destruct p256_bounds as (Hp & Hp' & Hp2 & _).
  change (Z.of_nat 8) with 8 in Hr. unfold reduce_once.
  pose proof (sub_spec c modp Hc words_modp) as Hs. rewrite compare_spec by auto using words_modp.
  destruct (multiprecision_sub c modp) as [d b]. destruct Hs as (Hd & Hb & E). fold p256 in E |- *.
  pose proof (val_range 8 d Hd) as Hrd. change (Z.of_nat 8) with 8 in Hrd.
  assert (Hcase : ∀ r q, 0 <= r < p256 → val c + W ^ 8 * k = p256 * q + r → (val c + W ^ 8 * k) mod p256 = r).
  { intros r q Hr' Eq. symmetry. by apply Z.mod_unique_pos with q. }
  revert E Hrd Hr Hp' Hp2 Hlt Hcase. generalize (W ^ 8). intros Q E Hrd Hr Hp' Hp2 Hlt Hcase.
  assert (b = 0 ∨ b = 1) as [-> | ->] by lia; assert (k = 0 ∨ k = 1) as [-> | ->] by lia;
    cbn [nz Z.eqb negb fst].
  all: try (destruct (Z.leb_spec 0 (Z.sgn (val c - p256))); cbn [fst]); try lia.
  all: split; [split; [done|lia]|symmetry].
  all: first [apply Hcase with 0; lia|apply Hcase with 1; lia].
Qed.

Lemma field_range a : field a → 0 <= val a < p256.
Proof. intros [Ha Hlt]. split; [|done]. by apply (val_range 8) in Ha as [? _]. Qed.

Lemma add_mod_ok a b :
  field a → field b →
  field (multiprecision_add_mod a b) ∧ val (multiprecision_add_mod a b) = (val a + val b) mod p256.
Proof.
  intros Ha Hb. pose proof (field_range a Ha). pose proof (field_range b Hb).
  destruct Ha as [Ha _], Hb as [Hb _]. unfold multiprecision_add_mod.
  pose proof (add_spec a b Ha Hb) as Hs. destruct (multiprecision_add a b) as [c k].
  destruct Hs as (Hc & Hk & E). rewrite <-E. apply reduce_once_spec; [done|done|lia].
Qed.

Lemma lshift_mod_ok a :
  field a →
  field (multiprecision_lshift_mod a) ∧ val (multiprecision_lshift_mod a) = (2 * val a) mod p256.
Proof.
  intros Ha. pose proof (field_range a Ha). destruct Ha as [Ha _].
  unfold multiprecision_lshift_mod.
  pose proof (lshift_spec a Ha) as Hs. destruct (multiprecision_lshift a) as [c k].
  destruct Hs as (Hc & Hk & E). rewrite <-E. apply reduce_once_spec; [done|done|lia].
Qed.

Lemma sub_mod_ok a b :
  field a → field b →
  field (multiprecision_sub_mod a b) ∧ val (multiprecision_sub_mod a b) = (val a - val b) mod p256.
Proof.
  intros Ha Hb. pose proof (field_range a Ha). pose proof (field_range b Hb).
  destruct Ha as [Ha _], Hb as [Hb _]. unfold multiprecision_sub_mod.
  pose proof (sub_spec a b Ha Hb) as Hs. destruct (multiprecision_sub a b) as [c k].
  destruct Hs as (Hc & Hk & E). pose proof (add_spec c modp Hc words_modp) as Hs.
  destruct (multiprecision_add c modp) as [d k2]. destruct Hs as (Hd & Hk2 & E2). fold p256 in E2.
  destruct p256_bounds as (_ & Hp & Hp2 & _).
  pose proof (val_range 8 c Hc) as Hrc. pose proof (val_range 8 d Hd) as Hrd.
  change (Z.of_nat 8) with 8 in *.
  revert E E2 Hrc Hrd Hp Hp2. generalize (W ^ 8). intros Q E E2 Hrc Hrd Hp Hp2.
  assert (k = 0 ∨ k = 1) as [-> | ->] by lia; cbn [nz Z.eqb negb fst].
  - split; [split; [done|lia]|]. rewrite Z.mod_small; lia.
  - assert (k2 = 0 ∨ k2 = 1) as [-> | ->] by lia; [lia|].
    split; [split; [done|lia]|]. apply Z.mod_unique_pos with (-1); lia.
Qed.

(** C21: addition, subtraction and doubling modulo p.  For arguments below the
    modulus [multiprecision_add_mod], [multiprecision_sub_mod] and
    [multiprecision_lshift_mod] compute the sum, the difference and the double
    modulo p, again below the modulus, with all carries and borrows of the 32-bit
    words accounted for. *)
Theorem linear_mod_spec a b :
  field a → field b →
  (field (multiprecision_add_mod a b) ∧ val (multiprecision_add_mod a b) = (val a + val b) mod p256) ∧
  (field (multiprecision_sub_mod a b) ∧ val (multiprecision_sub_mod a b) = (val a - val b) mod p256) ∧
  (field (multiprecision_lshift_mod a) ∧ val (multiprecision_lshift_mod a) = (2 * val a) mod p256).
Proof.
  intros Ha Hb.
  split; [by apply add_mod_ok|]. split; [by apply sub_mod_ok|by apply lshift_mod_ok].
Qed.

(** The words of a number. *)
Fixpoint to_words (n : nat) (z : Z) : list Z :=
  match n with
  | O => []
  | S n => z mod W :: to_words n (z / W)
  end.

Lemma to_words_ok n z : words n (to_words n z) ∧ val (to_words n z) = z mod W ^ Z.of_nat n.
Proof.
  revert z. induction n as [|n IH]; intros z.
  - split; [by auto with rfc|]. by rewrite Z.mod_1_r.
  - destruct (IH (z / W)) as [Hw E]. cbn [to_words val]. split.
    + apply words_cons; [|done]. apply Z.mod_pos_bound. unfold W. lia.
    + rewrite E, W_pow_S, Z.rem_mul_r; [lia| |]; [unfold W; lia|apply W_pow].
Qed.

Lemma to_words_field z : 0 <= z < p256 → field (to_words 8 z) ∧ val (to_words 8 z) = z.
Proof.
  intros Hz. destruct p256_bounds as (_ & Hp & _). destruct (to_words_ok 8 z) as [Hw E].
  change (Z.of_nat 8) with 8 in E. rewrite Z.mod_small in E by lia. split; [split; [done|lia]|done].
Qed.

Lemma linear_mod_spec_witness :
  val (multiprecision_add_mod (to_words 8 (p256 - 1)) (to_words 8 2)) = (val (to_words 8 (p256 - 1)) + val (to_words 8 2)) mod p256 ∧
  val (multiprecision_sub_mod (to_words 8 1) (to_words 8 2)) = (val (to_words 8 1) - val (to_words 8 2)) mod p256.
Proof.
  split.
  - apply (linear_mod_spec (to_words 8 (p256 - 1)) (to_words 8 2)); apply to_words_field; by vm_compute.
  - apply (linear_mod_spec (to_words 8 1) (to_words 8 2)); apply to_words_field; by vm_compute.
Defined.
