(* ===== verification/P256Mod.v ===== *)
(** * Multiplication modulo p ([p_256_multprecision.cc])

    [multiprecision_mult] is the schoolbook product of two arrays of eight words;
    [multiprecision_fast_mod_P256] reduces the sixteen words modulo
    p = 2^256 - 2^224 + 2^192 + 2^96 - 1 by adding and subtracting the upper words
    column by column.  The reduction is proved correct where no borrow gets lost,
    and the condition is needed: there are field elements whose product the code
    reduces wrongly. *)
From S2P Require Import Prelude P256Arith.

(** ** Product *)

(** The inner loop over [j]: [b] and the words [c[i + j]], with [U] carried. *)
Fixpoint mult_row (ai : Z) (b c : list Z) (U : Z) : list Z * Z :=
  match b, c with
  | bj :: b, cij :: c =>
      let result := ai * bj in
      let W32 := u32 (Z.shiftr result 32) in
      let V := u32 (ai * bj) in
      let V := u32 (V + U) in
      let U := b2z (V <? U) in
      let U := u32 (U + W32) in
      let V := u32 (V + cij) in
      let U := u32 (U + b2z (V <? cij)) in
      let '(c, U) := mult_row ai b c U in
      (V :: c, U)
  | _, _ => ([], U)
  end.

(** The outer loop over [i]; [c] is the array from [c[i]] on.  After a row [c[i]]
    is final and [c[i + 8]] holds the carry. *)
Fixpoint mult_rows (a b c : list Z) : list Z :=
  match a with
  | [] => c
  | ai :: a =>
      let '(row, U) := mult_row ai b (take 8 c) 0 in
      match row ++ U :: drop 9 c with
      | c0 :: c => c0 :: mult_rows a b c
      | [] => []
      end
  end.

(** [multiprecision_init] clears the lower half of [c]; [junk] is what the upper
    half holds before. *)
Definition multiprecision_mult (junk a b : list Z) : list Z :=
  mult_rows a b (multiprecision_init ++ junk).

(** ** Reduction *)

(** A word and a counter of the carries out of it: [c += x; U += (c < x);] and
    [U -= (c < x); c -= x;], with the width of the counter. *)
Definition plus_ (wrap : Z → Z) (x : Z) (acc : Z * Z) : Z * Z :=
  let '(c, U) := acc in
  let c := u32 (c + x) in
  (c, wrap (U + b2z (c <? x))).
Definition minus_ (wrap : Z → Z) (x : Z) (acc : Z * Z) : Z * Z :=
  let '(c, U) := acc in
  (u32 (c - x), wrap (U - b2z (c <? x))).

Definition plus8 := plus_ u8.
Definition minus8 := minus_ u8.
Definition plus := plus_ u32.
Definition minus := minus_ u32.

(** [U += k;] and [U -= k;]. *)
Definition over (k : Z) (acc : Z * Z) : Z * Z := let '(c, U) := acc in (c, u32 (U + k)).
Definition under (k : Z) (acc : Z * Z) : Z * Z := let '(c, U) := acc in (c, u32 (U - k)).

(** The counter taken over into the next word [a]. *)
Definition next (a U : Z) : Z * Z :=
  if nz (Z.land U 0x80000000) then
    let UU := u32 (0 - U) in
    (u32 (a - UU), b2z (a <? UU))
  else
    let c := u32 (a + U) in
    (c, b2z (c <? a)).

(** The eight columns: the words of the sum and the counter out of the last. *)
Definition fast_columns (a : list Z) : list Z * Z :=
  let a_ i := nth i a 0 in
  let '(C, UC) := plus8 (a_ 15%nat) (plus8 (a_ 14%nat) (a_ 13%nat, 0)) in
  let '(E, UE) := plus8 (a_ 9%nat) (a_ 8%nat, 0) in
  let '(F, UF) := plus8 (a_ 10%nat) (a_ 9%nat, 0) in
  let '(G, UG) := plus8 (a_ 11%nat) (a_ 10%nat, 0) in
  let '(B, UB) := plus8 (a_ 12%nat) (C, UC) in
  let '(A, UA) := minus8 (a_ 15%nat) (plus8 (a_ 11%nat) (B, UB)) in
  let '(D, UD) := minus8 (a_ 14%nat) (plus8 (a_ 10%nat) (A, UA)) in
  let '(c0, U) := under UA (minus A (over UE (plus E (a_ 0%nat, 0)))) in
  let '(c1, U) := under UB (minus B (over UF (plus F (next (a_ 1%nat) U)))) in
  let '(c2, U) := under UC (minus C (over UG (plus G (next (a_ 2%nat) U)))) in
  let '(c3, U) := under UE (minus E (minus (a_ 15%nat) (minus (a_ 14%nat) (plus (a_ 12%nat)
                    (plus (a_ 11%nat) (over UA (plus A (next (a_ 3%nat) U)))))))) in
  let '(c4, U) := under UF (minus F (plus (a_ 13%nat) (plus (a_ 12%nat) (minus (a_ 15%nat)
                    (over UB (plus B (next (a_ 4%nat) U))))))) in
  let '(c5, U) := under UG (minus G (plus (a_ 14%nat) (plus (a_ 13%nat)
                    (over UC (plus C (next (a_ 5%nat) U)))))) in
  let '(c6, U) := under UE (minus E (plus (a_ 15%nat) (plus (a_ 14%nat) (plus (a_ 14%nat)
                    (over UC (plus C (next (a_ 6%nat) U))))))) in
  let '(c7, U) := under UD (minus D (plus (a_ 8%nat) (plus (a_ 15%nat) (plus (a_ 15%nat)
                    (plus (a_ 15%nat) (next (a_ 7%nat) U)))))) in
  ([c0; c1; c2; c3; c4; c5; c6; c7], U).

(** [while (U) { ...; U++; }] from a [U] with its top bit set runs until [U]
    wraps around to 0; [while (U) { ...; U--; }] runs [U] times. *)
Definition fast_adjust (c : list Z) (U : Z) : list Z :=
  if nz (Z.land U 0x80000000) then
    Nat.iter (Z.to_nat (W - U)) (fun c => fst (multiprecision_add c modp)) c
  else Nat.iter (Z.to_nat U) (fun c => fst (multiprecision_sub c modp)) c.

Definition multiprecision_fast_mod_P256 (a : list Z) : list Z :=
  let '(c, U) := fast_columns a in
  let c := fast_adjust c U in
  if 0 <=? multiprecision_compare c modp then fst (multiprecision_sub c modp) else c.

Definition multiprecision_mersenns_mult_mod (junk a b : list Z) : list Z :=
  multiprecision_fast_mod_P256 (multiprecision_mult junk a b).

Definition multiprecision_mersenns_squa_mod (junk a : list Z) : list Z :=
  multiprecision_mersenns_mult_mod junk a a.

(** ** The product is the product *)
Lemma mult_word ai bj c U :
  is_u32 ai → is_u32 bj → is_u32 c → is_u32 U →
  let V1 := u32 (u32 (ai * bj) + U) in
  let U1 := u32 (b2z (V1 <? U) + u32 (Z.shiftr (ai * bj) 32)) in
  let V2 := u32 (V1 + c) in
  let U2 := u32 (U1 + b2z (V2 <? c)) in
  is_u32 V2 ∧ is_u32 U2 ∧ V2 + W * U2 = ai * bj + c + U.
Proof.
  intros Ha Hb Hc HU. cbv zeta. rewrite Z.shiftr_div_pow2 by lia. change (2 ^ 32) with 4294967296.
  assert (HR : 0 <= ai * bj <= 4294967295 * 4294967295) by (unfold is_u32 in *; nia).
  generalize dependent (ai * bj). intros R HR. unfold is_u32, u32, W, b2z in *.
  repeat case_match; Z.div_mod_to_equations; lia.
Qed.

Lemma mult_row_spec n ai b c U :
  is_u32 ai → words n b → words n c → is_u32 U →
  let '(c', U') := mult_row ai b c U in
  words n c' ∧ is_u32 U' ∧ val c' + W ^ Z.of_nat n * U' = ai * val b + val c + U.
Proof.
  intros Hai. revert b c U. induction n as [|n IH]; intros b c U Hb Hc HU.
  - apply words_zero in Hb as ->. apply words_zero in Hc as ->. simpl.
    split_and!; auto with rfc. change (W ^ 0) with 1. lia.
  - words_inv Hb. words_inv Hc. cbn [mult_row].
    pose proof (mult_word ai x x0 U Hai Hx Hx0 HU) as Hw. cbv zeta in Hw |- *.
    destruct Hw as (HV & HU2 & E).
    specialize (IH l l0 _ Hl Hl0 HU2). destruct (mult_row ai l l0 _) as [c' U'].
    destruct IH as (Hc' & HU' & E'). split_and!; auto with rfc. rewrite W_pow_S. cbn [val]. nia.
Qed.

Lemma words_app n m a b : words n a → words m b → words (n + m) (a ++ b).
Proof. intros [Ha Hwa] [Hb Hwb]. split; [rewrite length_app; lia|by apply Forall_app]. Qed.

Lemma words_take n m a : words n a → (m <= n)%nat → words m (take m a).
Proof. intros [Ha Hwa] Hm. split; [rewrite length_take; lia|by apply Forall_take]. Qed.

Lemma words_drop n m a : words n a → words (n - m) (drop m a).
Proof. intros [Ha Hwa]. split; [rewrite length_drop; lia|by apply Forall_drop]. Qed.

(** Only the words the earlier rows have written count. *)
Lemma mult_rows_spec n a b c :
  words n a → words 8 b → words (8 + n) c →
  words (8 + n) (mult_rows a b c) ∧ val (mult_rows a b c) = val a * val b + val (take 8 c).
Proof.
  revert a c. induction n as [|n IH]; intros a c Ha Hb Hc.
  - apply words_zero in Ha as ->. simpl. split; [done|]. destruct Hc as [Hl _].
    rewrite take_ge by lia. lia.
  - words_inv Ha. cbn [mult_rows].
    pose proof (mult_row_spec 8 x b (take 8 c) 0 Hx Hb) as Hr.
    destruct (mult_row x b (take 8 c) 0) as [row U].
    destruct Hr as (Hrow & HU & E); [by apply (words_take (8 + S n)); [|lia]|unfold is_u32; lia|].
    pose proof (words_drop _ 9 _ Hc) as Hd. words_inv Hrow. cbn [app].
    assert (Hc' : words (8 + n) (l0 ++ U :: drop 9 c)).
    { replace (8 + n)%nat with (7 + S n)%nat by lia. apply words_app; [done|].
      apply words_cons; [done|]. by replace n with (8 + S n - 9)%nat by lia. }
    destruct (IH l (l0 ++ U :: drop 9 c) Hl Hb Hc') as [Hw Ev].
    split; [rewrite Nat.add_succ_r; by apply words_cons|]. cbn [val]. rewrite Ev.
    replace (take 8 (l0 ++ U :: drop 9 c)) with (l0 ++ [U]).
    2: { assert (length l0 = 7%nat) by (by destruct Hl0). rewrite take_app, take_ge by lia.
         by replace (8 - length l0)%nat with 1%nat by lia. }
    assert (length l0 = 7%nat) as H7 by (by destruct Hl0).
    rewrite val_app, H7. cbn [val] in E |- *. rewrite W_pow_S in E. nia.
Qed.

Lemma mult_spec junk a b :
  words 8 junk → words 8 a → words 8 b →
  words 16 (multiprecision_mult junk a b) ∧ val (multiprecision_mult junk a b) = val a * val b.
Proof.
  intros Hj Ha Hb. assert (Hz : words 8 multiprecision_init).
  { split; [done|]. repeat (apply Forall_cons; split; [unfold is_u32; lia|]). by apply Forall_nil. }
  destruct (mult_rows_spec 8 a b (multiprecision_init ++ junk)) as [Hw E]; auto.
  { by apply words_app. }
  split; [done|]. unfold multiprecision_mult. rewrite E, take_app_length' by done.
  unfold multiprecision_init. rewrite val_zeros. lia.
Qed.

(** ** The columns *)

(** What is added to each of the lower words. *)
Definition columns (a : list Z) : list Z :=
  let a_ i := nth i a 0 in
  let a8 := a_ 8%nat in let a9 := a_ 9%nat in let a10 := a_ 10%nat in let a11 := a_ 11%nat in
  let a12 := a_ 12%nat in let a13 := a_ 13%nat in let a14 := a_ 14%nat in let a15 := a_ 15%nat in
  [a8 + a9 - a11 - a12 - a13 - a14;
   a9 + a10 - a12 - a13 - a14 - a15;
   a10 + a11 - a13 - a14 - a15;
   2 * a11 + 2 * a12 + a13 - a15 - a8 - a9;
   2 * a12 + 2 * a13 + a14 - a9 - a10;
   2 * a13 + 2 * a14 + a15 - a10 - a11;
   a13 + 3 * a14 + 2 * a15 - a8 - a9;
   3 * a15 + a8 - a10 - a11 - a12 - a13].

(** The number the columns stand for. *)
Definition column_sum (a : list Z) : Z := val (take 8 a) + val (columns a).

(** [s] is the carry into a word, negative for a borrow: no word is smaller than
    the borrow taken from it. *)
Fixpoint borrows_ok (a cols : list Z) (s : Z) : bool :=
  match a, cols with
  | x :: a, k :: cols => (0 <=? x + s) && borrows_ok a cols ((x + s + k) / W)
  | _, _ => true
  end.

(** The condition under which the reduction is right: no borrow is lost between
    the columns, and adding or subtracting p as often as the counter says ends in
    the range of 256 bits. *)
Definition reduction_ok (a : list Z) : bool :=
  let n := column_sum a / W ^ 8 in
  borrows_ok (take 8 a) (columns a) 0
  && (0 <=? column_sum a - n * p256) && (column_sum a - n * p256 <? W ^ 8).

(** A number as a word and its counter. *)
Definition enc (v : Z) : Z * Z := (u32 v, u32 (v / W)).
Definition enc8 (v : Z) : Z * Z := (u32 v, u8 (v / W)).

Lemma carry_plus v x :
  is_u32 x → (v + x) / W = v / W + b2z (u32 (u32 v + x) <? x).
Proof.
  unfold is_u32, u32, W, b2z. intros Hx. case_match; Z.div_mod_to_equations; lia.
Qed.

Lemma carry_minus v x : is_u32 x → (v - x) / W = v / W - b2z (u32 v <? x).
Proof.
  unfold is_u32, u32, W, b2z. intros Hx. case_match; Z.div_mod_to_equations; lia.
Qed.

Lemma u32_add v x : u32 (u32 v + x) = u32 (v + x).
Proof. unfold u32. apply Zplus_mod_idemp_l. Qed.
Lemma u32_sub v x : u32 (u32 v - x) = u32 (v - x).
Proof. unfold u32. apply Zminus_mod_idemp_l. Qed.
Lemma u8_add v x : u8 (u8 v + x) = u8 (v + x).
Proof. unfold u8. apply Zplus_mod_idemp_l. Qed.
Lemma u8_sub v x : u8 (u8 v - x) = u8 (v - x).
Proof. unfold u8. apply Zminus_mod_idemp_l. Qed.

Lemma plus_enc v x : is_u32 x → plus x (enc v) = enc (v + x).
Proof. intros Hx. unfold plus, plus_, enc. by rewrite carry_plus, !u32_add by done. Qed.
Lemma minus_enc v x : is_u32 x → minus x (enc v) = enc (v - x).
Proof. intros Hx. unfold minus, minus_, enc. by rewrite carry_minus, !u32_sub by done. Qed.
Lemma plus8_enc v x : is_u32 x → plus8 x (enc8 v) = enc8 (v + x).
Proof. intros Hx. unfold plus8, plus_, enc8. by rewrite carry_plus, u32_add, u8_add by done. Qed.
Lemma minus8_enc v x : is_u32 x → minus8 x (enc8 v) = enc8 (v - x).
Proof. intros Hx. unfold minus8, minus_, enc8. by rewrite carry_minus, u32_sub, u8_sub by done. Qed.

(** A sum of a few words, as the word and the counter, added and subtracted. *)
Lemma sum_split s : 0 <= s < 256 * W → is_u32 (fst (enc8 s)) ∧ fst (enc8 s) + W * snd (enc8 s) = s.
Proof. unfold enc8, is_u32, u32, u8, W. simpl. intros. Z.div_mod_to_equations; lia. Qed.

Lemma over_plus_enc v s :
  0 <= s < 256 * W → over (snd (enc8 s)) (plus (fst (enc8 s)) (enc v)) = enc (v + s).
Proof.
  intros Hs. destruct (sum_split s Hs) as [Hw E]. revert Hw E.
  generalize (fst (enc8 s)) (snd (enc8 s)). intros f g Hw E. rewrite plus_enc by done.
  unfold over, enc at 1. rewrite u32_add. unfold enc. subst s. f_equal.
  - unfold u32, W. Z.div_mod_to_equations; lia.
  - f_equal. unfold W. Z.div_mod_to_equations; lia.
Qed.

Lemma under_minus_enc v s :
  0 <= s < 256 * W → under (snd (enc8 s)) (minus (fst (enc8 s)) (enc v)) = enc (v - s).
Proof.
  intros Hs. destruct (sum_split s Hs) as [Hw E]. revert Hw E.
  generalize (fst (enc8 s)) (snd (enc8 s)). intros f g Hw E. rewrite minus_enc by done.
  unfold under, enc at 1. rewrite u32_sub. unfold enc. subst s. f_equal.
  - unfold u32, W. Z.div_mod_to_equations; lia.
  - f_equal. unfold W. Z.div_mod_to_equations; lia.
Qed.

Lemma top_bit U : is_u32 U → nz (Z.land U 0x80000000) = (2147483648 <=? U).
Proof.
  intros HU. change 0x80000000 with (2 ^ 31).
  assert (nz (Z.land U (2 ^ 31)) = Z.testbit U 31) as ->.
  { unfold nz. destruct (Z.testbit U 31) eqn:Et.
    - apply negb_true_iff, Z.eqb_neq. intros E0. assert (Z.testbit (Z.land U (2 ^ 31)) 31 = true) as Et'
        by (by rewrite Z.land_spec, Et). by rewrite E0 in Et'.
    - apply negb_false_iff, Z.eqb_eq, Z.bits_inj'. intros i Hi.
      rewrite Z.land_spec, Z.bits_0, Z.pow2_bits_eqb by lia.
      destruct (Z.eqb_spec 31 i) as [<-|]; [by rewrite Et|apply andb_false_r]. }
  apply eq_bool_prop_intro. rewrite !Is_true_true, Z.testbit_true, Z.leb_le by lia.
  change (2 ^ 31) with 2147483648. unfold is_u32 in HU. Z.div_mod_to_equations; lia.
Qed.

Lemma next_enc a v :
  is_u32 a → -1000 * W <= v < 1000 * W → 0 <= a + v / W → next a (snd (enc v)) = enc (a + v / W).
Proof.
  intros Ha Hv Hs. unfold next, enc. cbn [snd]. rewrite top_bit by apply u32_range.
  assert (Hd : -1000 <= v / W < 1000) by (unfold W in *; Z.div_mod_to_equations; lia).
  generalize dependent (v / W). intros s Hs Hd. clear Hv v.
  unfold is_u32, u32, W, b2z in *.
  destruct (Z.leb_spec 2147483648 (s mod 4294967296)); f_equal;
    repeat case_match; Z.div_mod_to_equations; lia.
Qed.

(** The same lemmas for a pair that has been taken apart. *)
Lemma over_plus_pair v s A UA :
  enc8 s = (A, UA) → 0 <= s < 256 * W → over UA (plus A (enc v)) = enc (v + s).
Proof. intros E Hs. pose proof (over_plus_enc v s Hs) as H. by rewrite E in H. Qed.

Lemma under_minus_pair v s A UA :
  enc8 s = (A, UA) → 0 <= s < 256 * W → under UA (minus A (enc v)) = enc (v - s).
Proof. intros E Hs. pose proof (under_minus_enc v s Hs) as H. by rewrite E in H. Qed.

Lemma next_pair a v c U :
  enc v = (c, U) → is_u32 a → -1000 * W <= v < 1000 * W → 0 <= a + v / W →
  next a U = enc (a + v / W).
Proof. intros E Ha Hv Hs. pose proof (next_enc a v Ha Hv Hs) as H. by rewrite E in H. Qed.

Lemma enc_word x : is_u32 x → (x, 0) = enc x.
Proof.
  intros Hx. unfold enc. rewrite u32_small by done. unfold is_u32, W in *.
  by rewrite Z.div_small by lia.
Qed.
Lemma enc8_word x : is_u32 x → (x, 0) = enc8 x.
Proof.
  intros Hx. unfold enc8. rewrite u32_small by done. unfold is_u32, W in *.
  by rewrite Z.div_small by lia.
Qed.

Ltac word_lia := unfold is_u32, W in *; Z.div_mod_to_equations; lia.

(** The columns with their carries as integers. *)
Fixpoint carry_chain (a cols : list Z) (s : Z) : list Z * Z :=
  match a, cols with
  | x :: a, k :: cols =>
      let '(c, s') := carry_chain a cols ((x + s + k) / W) in (u32 (x + s + k) :: c, s')
  | _, _ => ([], s)
  end.

Lemma carry_chain_spec n a cols s :
  length a = n → length cols = n →
  let '(c, s') := carry_chain a cols s in
  words n c ∧ val c + W ^ Z.of_nat n * s' = val a + val cols + s.
Proof.
  revert a cols s. induction n as [|n IH]; intros [|x a] [|k cols] s Ha Hk; try done; try injection Ha as Ha; try injection Hk as Hk.
  - simpl. split; [apply words_nil|]. change (W ^ 0) with 1. lia.
  - cbn [carry_chain]. specialize (IH a cols ((x + s + k) / W) Ha Hk).
    destruct (carry_chain a cols _) as [c s']. destruct IH as [Hc E].
    split; [apply words_cons; [apply u32_range|done]|]. rewrite W_pow_S. cbn [val].
    assert (x + s + k = u32 (x + s + k) + W * ((x + s + k) / W)) as E2
      by (unfold u32, W; Z.div_mod_to_equations; lia). nia.
Qed.

Lemma div_W_bound n v : - n * W <= v < n * W → - n <= v / W < n.
Proof. unfold W. intros. Z.div_mod_to_equations; lia. Qed.

(** The next column of the goal: [v] is its integer, [Hv] the bounds of the last
    one, [H] that no borrow is lost. *)
Ltac column v :=
  match goal with
  | |- (let '(_, _) := ?e in _) = _ =>
      let c := fresh "c" in let U := fresh "U" in let E := fresh "E" in
      destruct e as [c U] eqn:E;
      repeat first
        [ rewrite plus_enc in E by assumption | rewrite minus_enc in E by assumption
        | erewrite over_plus_pair in E by eassumption
        | erewrite under_minus_pair in E by eassumption ];
      match type of E with
      | enc ?x = _ => replace x with v in E by (unfold v; lia)
      end;
      let H := fresh in pose proof (f_equal fst E) as H; cbn [fst enc] in H; subst c
  end.

(** The word [a], into which the carry of [v] goes, and its column [w]. *)
Ltac next_column a v w :=
  erewrite (next_pair a v) by (first [eassumption | unfold W in *; lia]);
  column w;
  match goal with
  | V : -8 * W <= v < 8 * W |- _ =>
      apply (div_W_bound 8) in V;
      assert (-8 * W <= w < 8 * W) by (unfold w, is_u32, W in *; lia); clear V
  end.

(** Sixteen words by name. *)
Lemma words_16 a : words 16 a → ∃ a0 a1 a2 a3 a4 a5 a6 a7 a8 a9 a10 a11 a12 a13 a14 a15,
  a = [a0; a1; a2; a3; a4; a5; a6; a7; a8; a9; a10; a11; a12; a13; a14; a15] ∧ Forall is_u32 a.
Proof.
  intros [Hl Hw]. do 16 (destruct a as [|? a]; [done|]). destruct a; [|done]. by do 16 eexists.
Qed.

Lemma fast_columns_chain a :
  words 16 a → borrows_ok (take 8 a) (columns a) 0 = true →
  fast_columns a =
  let '(c, s) := carry_chain (take 8 a) (columns a) 0 in (c, u32 s).
Proof.
  intros Ha Hok. apply words_16 in Ha as (a0 & a1 & a2 & a3 & a4 & a5 & a6 & a7 & a8 & a9 & a10 &
    a11 & a12 & a13 & a14 & a15 & -> & Hw). rewrite !Forall_cons in Hw.
  destruct Hw as (H0 & H1 & H2 & H3 & H4 & H5 & H6 & H7 & H8 & H9 & H10 & H11 & H12 & H13 & H14 & H15 & _).
  unfold fast_columns, columns in *. cbn [nth take carry_chain borrows_ok] in *.
  rewrite !andb_true_r, !andb_true_iff, !Z.leb_le in Hok.
  destruct Hok as (_ & B1 & B2 & B3 & B4 & B5 & B6 & B7).
  destruct (plus8 a15 (plus8 a14 (a13, 0))) as [C UC] eqn:EC.
  destruct (plus8 a9 (a8, 0)) as [E UE] eqn:EE.
  destruct (plus8 a10 (a9, 0)) as [F UF] eqn:EF.
  destruct (plus8 a11 (a10, 0)) as [G UG] eqn:EG.
  rewrite (enc8_word a13), !plus8_enc in EC by done. rewrite enc8_word, plus8_enc in EE, EF, EG by done.
  destruct (plus8 a12 (C, UC)) as [B UB] eqn:EB. rewrite <- EC, plus8_enc in EB by done.
  destruct (minus8 a15 (plus8 a11 (B, UB))) as [A UA] eqn:EA.
  rewrite <- EB, plus8_enc, minus8_enc in EA by done.
  destruct (minus8 a14 (plus8 a10 (A, UA))) as [D UD] eqn:ED.
  rewrite <- EA, plus8_enc, minus8_enc in ED by done.
  set (v0 := a0 + 0 + (a8 + a9 - a11 - a12 - a13 - a14)) in *.
  set (v1 := a1 + v0 / W + (a9 + a10 - a12 - a13 - a14 - a15)) in *.
  set (v2 := a2 + v1 / W + (a10 + a11 - a13 - a14 - a15)) in *.
  set (v3 := a3 + v2 / W + (2 * a11 + 2 * a12 + a13 - a15 - a8 - a9)) in *.
  set (v4 := a4 + v3 / W + (2 * a12 + 2 * a13 + a14 - a9 - a10)) in *.
  set (v5 := a5 + v4 / W + (2 * a13 + 2 * a14 + a15 - a10 - a11)) in *.
  set (v6 := a6 + v5 / W + (a13 + 3 * a14 + 2 * a15 - a8 - a9)) in *.
  set (v7 := a7 + v6 / W + (3 * a15 + a8 - a10 - a11 - a12 - a13)) in *.
  assert (SC : 0 <= a13 + a14 + a15 < 256 * W) by word_lia.
  assert (SE : 0 <= a8 + a9 < 256 * W) by word_lia.
  assert (SF : 0 <= a9 + a10 < 256 * W) by word_lia.
  assert (SG : 0 <= a10 + a11 < 256 * W) by word_lia.
  assert (SB : 0 <= a13 + a14 + a15 + a12 < 256 * W) by word_lia.
  assert (SA : 0 <= a13 + a14 + a15 + a12 + a11 - a15 < 256 * W) by word_lia.
  assert (SD : 0 <= a13 + a14 + a15 + a12 + a11 - a15 + a10 - a14 < 256 * W) by word_lia.
  rewrite (enc_word a0) by done. column v0.
  assert (V0 : -8 * W <= v0 < 8 * W) by (unfold v0; word_lia).
  next_column a1 v0 v1.
  next_column a2 v1 v2.
  next_column a3 v2 v3.
  next_column a4 v3 v4.
  next_column a5 v4 v5.
  next_column a6 v5 v6.
  next_column a7 v6 v7.
  apply (f_equal snd) in E7. cbn [snd enc] in E7. by subst U6.
Qed.

(** Each upper word is congruent to what its columns add: [W ^ j] modulo p. *)
Lemma upper_8 : (p256 | W ^ 8 - val [1; 0; 0; -1; 0; 0; -1; 1]).
Proof. apply Z.mod_divide; by vm_compute. Qed.
Lemma upper_9 : (p256 | W ^ 9 - val [1; 1; 0; -1; -1; 0; -1; 0]).
Proof. apply Z.mod_divide; by vm_compute. Qed.
Lemma upper_10 : (p256 | W ^ 10 - val [0; 1; 1; 0; -1; -1; 0; -1]).
Proof. apply Z.mod_divide; by vm_compute. Qed.
Lemma upper_11 : (p256 | W ^ 11 - val [-1; 0; 1; 2; 0; -1; 0; -1]).
Proof. apply Z.mod_divide; by vm_compute. Qed.
Lemma upper_12 : (p256 | W ^ 12 - val [-1; -1; 0; 2; 2; 0; 0; -1]).
Proof. apply Z.mod_divide; by vm_compute. Qed.
Lemma upper_13 : (p256 | W ^ 13 - val [-1; -1; -1; 1; 2; 2; 1; -1]).
Proof. apply Z.mod_divide; by vm_compute. Qed.
Lemma upper_14 : (p256 | W ^ 14 - val [-1; -1; -1; 0; 1; 2; 3; 0]).
Proof. apply Z.mod_divide; by vm_compute. Qed.
Lemma upper_15 : (p256 | W ^ 15 - val [0; -1; -1; -1; 0; 1; 2; 3]).
Proof. apply Z.mod_divide; by vm_compute. Qed.

Lemma column_sum_mod a : words 16 a → column_sum a mod p256 = val a mod p256.
Proof.
  intros Ha. apply words_16 in Ha as (a0 & a1 & a2 & a3 & a4 & a5 & a6 & a7 & a8 & a9 & a10 &
    a11 & a12 & a13 & a14 & a15 & -> & _).
  destruct upper_8 as [q8 E8].
  destruct upper_9 as [q9 E9].
  destruct upper_10 as [q10 E10].
  destruct upper_11 as [q11 E11].
  destruct upper_12 as [q12 E12].
  destruct upper_13 as [q13 E13].
  destruct upper_14 as [q14 E14].
  destruct upper_15 as [q15 E15].
  set (q := a8 * q8 + a9 * q9 + a10 * q10 + a11 * q11 + a12 * q12 + a13 * q13 + a14 * q14 + a15 * q15).
  match goal with
  | |- ?l mod _ = ?r mod _ => assert (r = l + q * p256) as ->; [|by rewrite Z_mod_plus_full]
  end.
  unfold q. rewrite !Z.mul_add_distr_r, <-!Z.mul_assoc, <-E8, <-E9, <-E10, <-E11, <-E12, <-E13, <-E14, <-E15.
  unfold column_sum, columns. cbn [take nth val]. ring.
Qed.

(** ** The multiples of p *)

(** A loop of additions of [d] modulo 2^256. *)
Lemma iter_words (f : list Z → list Z) d k c :
  (∀ c, words 8 c → words 8 (f c) ∧ ∃ m, val (f c) = val c + d + m * W ^ 8) →
  words 8 c →
  words 8 (Nat.iter k f c) ∧ val (Nat.iter k f c) = (val c + Z.of_nat k * d) mod W ^ 8.
Proof.
  intros Hf Hc. induction k as [|k [Hd E]].
  - cbn. split; [done|]. apply (val_range 8) in Hc. change (Z.of_nat 8) with 8 in Hc.
    rewrite Z.mod_small by lia. lia.
  - destruct (Hf _ Hd) as [Hd' [m E']]. split; [done|].
    change (Nat.iter (S k) f c) with (f (Nat.iter k f c)).
    apply (val_range 8) in Hd'. change (Z.of_nat 8) with 8 in Hd'.
    rewrite <-(Z.mod_small (val _) (W ^ 8)) by lia.
    rewrite E', Z_mod_plus_full, E, Zplus_mod_idemp_l. f_equal. lia.
Qed.

Lemma add_modp_step c :
  words 8 c → let d := fst (multiprecision_add c modp) in
  words 8 d ∧ ∃ m, val d = val c + p256 + m * W ^ 8.
Proof.
  intros Hc. pose proof (add_spec c modp Hc words_modp) as Hs.
  destruct (multiprecision_add c modp) as [d k]. destruct Hs as (Hd & _ & E). fold p256 in E.
  split; [done|]. exists (- k). cbn [fst]. lia.
Qed.

Lemma sub_modp_step c :
  words 8 c → let d := fst (multiprecision_sub c modp) in
  words 8 d ∧ ∃ m, val d = val c + - p256 + m * W ^ 8.
Proof.
  intros Hc. pose proof (sub_spec c modp Hc words_modp) as Hs.
  destruct (multiprecision_sub c modp) as [d k]. destruct Hs as (Hd & _ & E). fold p256 in E.
  split; [done|]. exists k. cbn [fst]. lia.
Qed.

Lemma fast_adjust_spec c s :
  words 8 c → -100 <= s < 100 →
  words 8 (fast_adjust c (u32 s)) ∧ val (fast_adjust c (u32 s)) = (val c - s * p256) mod W ^ 8.
Proof.
  intros Hc Hs. unfold fast_adjust. rewrite top_bit by apply u32_range.
  destruct (Z.leb_spec 2147483648 (u32 s)).
  - destruct (iter_words _ p256 (Z.to_nat (W - u32 s)) c add_modp_step Hc) as [Hw E].
    split; [done|]. rewrite E. f_equal.
    assert (W - u32 s = - s ∧ s < 0) as [-> Hn] by (unfold u32, W in *; Z.div_mod_to_equations; lia).
    rewrite Z2Nat.id by lia. lia.
  - destruct (iter_words _ (- p256) (Z.to_nat (u32 s)) c sub_modp_step Hc) as [Hw E].
    split; [done|]. rewrite E. f_equal.
    assert (u32 s = s ∧ 0 <= s) as [-> Hn] by (unfold u32, W in *; Z.div_mod_to_equations; lia).
    rewrite Z2Nat.id by lia. lia.
Qed.

(** The counter out of the last column is small. *)
Lemma column_sum_bound a : words 16 a → -100 * W ^ 8 <= column_sum a < 99 * W ^ 8.
Proof.
  intros Ha. pose proof Ha as Hlo. apply (words_take _ 8) in Hlo; [|lia].
  apply (val_range 8) in Hlo. change (Z.of_nat 8) with 8 in Hlo. unfold column_sum.
  apply words_16 in Ha as (a0 & a1 & a2 & a3 & a4 & a5 & a6 & a7 & a8 & a9 & a10 &
    a11 & a12 & a13 & a14 & a15 & -> & Hw). rewrite !Forall_cons in Hw.
  destruct Hw as (_ & _ & _ & _ & _ & _ & _ & _ & H8 & H9 & H10 & H11 & H12 & H13 & H14 & H15 & _).
  assert (-99 * W ^ 8 <= val (columns [a0; a1; a2; a3; a4; a5; a6; a7; a8; a9; a10; a11; a12; a13; a14; a15]) < 98 * W ^ 8);
    [|lia].
  clear Hlo. unfold columns. cbn [nth val]. unfold is_u32, W in *. lia.
Qed.

Lemma fast_mod_ok a :
  words 16 a → reduction_ok a = true →
  field (multiprecision_fast_mod_P256 a) ∧ val (multiprecision_fast_mod_P256 a) = val a mod p256.
Proof.
  intros Ha Hok. pose proof (column_sum_bound a Ha) as Hb. unfold reduction_ok in Hok.
  rewrite !andb_true_iff, Z.leb_le, Z.ltb_lt in Hok. destruct Hok as [[Hbor H0] H1].
  unfold multiprecision_fast_mod_P256. rewrite fast_columns_chain by done.
  pose proof (carry_chain_spec 8 (take 8 a) (columns a) 0) as Hs.
  destruct (carry_chain _ _ 0) as [c s].
  destruct Hs as [Hc E]; [by apply (words_take 16); [|lia]|done|].
  rewrite Z.add_0_r in E. fold (column_sum a) in E. change (Z.of_nat 8) with 8 in E.
  pose proof (val_range 8 c Hc) as Hr. change (Z.of_nat 8) with 8 in Hr.
  assert (column_sum a / W ^ 8 = s) as Es.
  { symmetry. apply Z.div_unique with (val c); lia. }
  rewrite Es in *. destruct p256_bounds as (_ & _ & H2 & _).
  assert (-100 <= s < 100) as Hsb by (revert Hr E Hb; generalize (W ^ 8); intros; nia).
  destruct (fast_adjust_spec c s Hc Hsb) as [Hd Ed].
  assert (val (fast_adjust c (u32 s)) = column_sum a - s * p256) as Ed'.
  { rewrite Ed. replace (val c - s * p256) with (column_sum a - s * p256 + - s * W ^ 8) by lia.
    rewrite Z_mod_plus_full. apply Z.mod_small. lia. }
  set (d := fast_adjust c (u32 s)) in *.
  change (field (reduce_once d 0) ∧ val (reduce_once d 0) = val a mod p256).
  destruct (reduce_once_spec d 0 Hd) as [Hf Ev]; [lia|lia|].
  split; [exact Hf|]. rewrite Ev, Ed', Z.mul_0_r, Z.add_0_r.
  replace (column_sum a - s * p256) with (column_sum a + - s * p256) by lia.
  rewrite Z_mod_plus_full. by apply column_sum_mod.
Qed.

(** ** Multiplication modulo p *)

(** The reduction of the product of two numbers meets no lost borrow. *)
Definition product_ok (x y : Z) : bool := reduction_ok (to_words 16 (x * y)).

Lemma mult_words junk a b :
  words 8 junk → words 8 a → words 8 b → multiprecision_mult junk a b = to_words 16 (val a * val b).
Proof.
  intros Hj Ha Hb. destruct (mult_spec junk a b Hj Ha Hb) as [Hw E].
  destruct (to_words_ok 16 (val a * val b)) as [Hw' E']. apply (val_inj 16); [done|done|].
  rewrite E', <-E, Z.mod_small; [done|]. by apply val_range.
Qed.

Lemma mult_mod_ok junk a b :
  words 8 junk → words 8 a → words 8 b → product_ok (val a) (val b) = true →
  field (multiprecision_mersenns_mult_mod junk a b) ∧
  val (multiprecision_mersenns_mult_mod junk a b) = (val a * val b) mod p256.
Proof.
  intros Hj Ha Hb Hok. destruct (mult_spec junk a b Hj Ha Hb) as [Hw E].
  unfold multiprecision_mersenns_mult_mod. rewrite <-E. apply fast_mod_ok; [done|].
  by rewrite mult_words.
Qed.


(** The reduction is exact whenever the condition holds, and a borrow is lost
    when it does not: 2^128 and 2^228 are below the modulus, and the code's product
    of them is not their product modulo p. *)
Theorem mult_mod_lost_borrow :
  let a := to_words 8 (2 ^ 128) in
  let b := to_words 8 (2 ^ 228) in
  field a ∧ field b ∧ product_ok (val a) (val b) = false ∧
  val (multiprecision_mersenns_mult_mod (replicate 8 0) a b) ≠ (val a * val b) mod p256.
Proof.
  cbv zeta. split; [apply to_words_field; by vm_compute|].
  split; [apply to_words_field; by vm_compute|]. split; [by vm_compute|].
  apply Z.eqb_neq. by vm_compute.
Qed.

Definition gx : list Z :=
  to_words 8 0x6b17d1f2e12c4247f8bce6e563a440f277037d812deb33a0f4a13945d898c296.
Definition gy : list Z :=
  to_words 8 0x4fe342e2fe1a7f9b8ee7eb4a7c0f9e162bce33576b315ececbb6406837bf51f5.

