(* ===== verification/P256Inv.v ===== *)
(** * Inversion modulo p ([multiprecision_inv_mod] of [p_256_multprecision.cc])

    The binary extended Euclidean algorithm.  The two [while] loops that halve an
    even number and the outer loop run on fuel, which the termination theorem shows
    is never used up. *)
From S2P Require Import Prelude P256Arith.

(** [!(u[0] & 0x01)]. *)
Definition is_even (u : list Z) : bool := negb (nz (Z.land (nth 0 u 0) 1)).

(** A halved modulo p: A itself where it is even, A + p with its ninth word
    [A[KEY_LENGTH_DWORDS_P256]] where it is odd. *)
Definition halve_mod (A : list Z) : list Z :=
  if is_even A then multiprecision_rshift A
  else
    let '(A, top) := multiprecision_add A modp in
    let A := multiprecision_rshift A in
    alter (fun w => Z.lor w (u32 (Z.shiftl top 31))) 7%nat A.

(** [while (!(u[0] & 0x01))]. *)
Fixpoint strip (fuel : nat) (u A : list Z) : option (list Z * list Z) :=
  match fuel with
  | O => None
  | S fuel => if is_even u then strip fuel (multiprecision_rshift u) (halve_mod A) else Some (u, A)
  end.

(** The body of [while (!multiprecision_iszero(u))]. *)
Definition inv_round (u v A C : list Z) : option (list Z * list Z * list Z * list Z) :=
  '(u, A) ← strip 257 u A;
  '(v, C) ← strip 257 v C;
  Some (if 0 <=? multiprecision_compare u v
        then (fst (multiprecision_sub u v), v, multiprecision_sub_mod A C, C)
        else (u, fst (multiprecision_sub v u), A, multiprecision_sub_mod C A)).

(** The loop; the result is [C]. *)
Fixpoint inv_loop (fuel : nat) (u v A C : list Z) : option (list Z) :=
  match fuel with
  | O => None
  | S fuel =>
      if multiprecision_iszero u then Some C
      else '(u, v, A, C) ← inv_round u v A C; inv_loop fuel u v A C
  end.

Definition inv_fuel : nat := 514.

Definition multiprecision_inv_mod (u : list Z) : option (list Z) :=
  C ← inv_loop inv_fuel u modp (<[0%nat := 1]> multiprecision_init) multiprecision_init;
  Some (if 0 <=? multiprecision_compare C modp then fst (multiprecision_sub C modp) else C).

(** ** Parity and halving *)
Lemma val_parity n a : words (S n) a → nth 0 a 0 mod 2 = val a mod 2.
Proof. intros Ha. words_inv Ha. simpl. unfold W. Z.div_mod_to_equations; lia. Qed.

Lemma is_even_spec a : words 8 a → is_even a = Z.even (val a).
Proof.
  intros Ha. unfold is_even, nz. rewrite negb_involutive. change 1 with (Z.ones 1).
  rewrite Z.land_ones by lia. change (2 ^ 1) with 2. rewrite (val_parity 7) by done.
  by rewrite Zmod_even; destruct (Z.even (val a)).
Qed.

Lemma even_half z : Z.even z = true → z = 2 * (z / 2).
Proof. intros He. pose proof (Zmod_even z) as E. rewrite He in E. Z.div_mod_to_equations; lia. Qed.

Lemma odd_mod z : Z.even z = false → z mod 2 = 1.
Proof. intros He. pose proof (Zmod_even z) as E. by rewrite He in E. Qed.

Lemma or_top a k :
  words 8 a → val a < 2 ^ 255 → 0 <= k <= 1 →
  let b := alter (fun w => Z.lor w (u32 (Z.shiftl k 31))) 7%nat a in
  words 8 b ∧ val b = val a + k * 2 ^ 255.
Proof.
  intros Ha Hlt Hk. do 8 (let x := fresh "x" in let l := fresh "l" in let Hx := fresh "Hx" in
    apply words_inv in Ha as (x & l & -> & Hx & Ha)). apply words_zero in Ha as ->.
  cbn [alter list_alter] in *.
  assert (u32 (Z.shiftl k 31) = k * 2 ^ 31) as ->.
  { rewrite Z.shiftl_mul_pow2 by lia. apply u32_small. unfold is_u32. lia. }
  cbn [val] in *. unfold is_u32, W in *.
  rewrite Z.lor_comm, lor_add by lia. split.
  - repeat apply words_cons; [..|apply words_nil]; unfold is_u32; lia.
  - cbn [val]. unfold W. lia.
Qed.

Lemma halve_mod_spec A :
  field A → field (halve_mod A) ∧
  2 * val (halve_mod A) = val A + (if Z.even (val A) then 0 else p256).
Proof.
  intros HA. pose proof (field_range A HA) as Hr. destruct HA as [HA _]. unfold halve_mod.
  rewrite is_even_spec by done. destruct p256_bounds as (_ & Hp & _ & H256).
  destruct (Z.even (val A)) eqn:He.
  - destruct (rshift_spec A HA) as [Hw E]. apply even_half in He. split; [split; [done|lia]|lia].
  - pose proof (add_spec A modp HA words_modp) as Hs. destruct (multiprecision_add A modp) as [B k].
    destruct Hs as (HB & Hk & E). fold p256 in E. destruct (rshift_spec B HB) as [Hw Eh].
    pose proof (val_range 8 B HB) as HrB. change (Z.of_nat 8) with 8 in HrB.
    destruct (or_top (multiprecision_rshift B) k Hw) as [Hw' E']; [|lia|].
    { rewrite Eh. rewrite H256 in HrB. Z.div_mod_to_equations; lia. }
    apply odd_mod in He. assert (Hpm : p256 mod 2 = 1) by (by vm_compute).
    assert (2 * (val (multiprecision_rshift B) + k * 2 ^ 255) = val A + p256) as E2.
    { rewrite Eh. rewrite H256 in E. change (2 ^ 256) with (2 * 2 ^ 255) in E.
      revert E He Hpm. generalize (2 ^ 255) p256. intros Q p E He Hpm. Z.div_mod_to_equations; nia. }
    rewrite E'. split; [split; [done|lia]|lia].
Qed.

(** ** The loops *)
Lemma p256_odd : Z.gcd p256 2 = 1.
Proof. by vm_compute. Qed.

Section inversion.
Context (u0 : Z).

(** A and u agree: A * u0 = u modulo p. *)
Definition tracks (A u : list Z) : Prop := (p256 | val A * u0 - val u).

Lemma tracks_halve A u :
  field A → words 8 u → Z.even (val u) = true → tracks A u →
  tracks (halve_mod A) (multiprecision_rshift u).
Proof.
  intros HA Hu He Ht. unfold tracks in *. destruct (halve_mod_spec A HA) as [_ E].
  destruct (rshift_spec u Hu) as [_ Eu]. apply even_half in He.
  apply Z.gauss with 2; [|apply p256_odd]. rewrite Eu.
  replace (2 * (val (halve_mod A) * u0 - val u / 2))
    with (val A * u0 - val u + (if Z.even (val A) then 0 else p256) * u0) by nia.
  apply Z.divide_add_r; [done|]. apply Z.divide_mul_l.
  by case_match; [apply Z.divide_0_r|apply Z.divide_refl].
Qed.

Lemma tracks_sub A C u v d :
  field A → field C → tracks A u → tracks C v → val d = val u - val v →
  tracks (multiprecision_sub_mod A C) d.
Proof.
  intros HA HC Hu Hv E. unfold tracks in *. destruct (sub_mod_ok A C HA HC) as [_ Es].
  rewrite Es, E, Z.mod_eq by (by vm_compute).
  replace (_ - _) with ((val A * u0 - val u) - (val C * u0 - val v)
    + p256 * (- ((val A - val C) / p256) * u0)) by lia.
  apply Z.divide_add_r; [by apply Z.divide_sub_r|]. apply Z.divide_factor_l.
Qed.

(** What the inner loops keep: the congruence and the odd divisors. *)
Definition stripped (u u' A' : list Z) : Prop :=
  words 8 u' ∧ field A' ∧ tracks A' u' ∧ Z.even (val u') = false ∧
  0 < val u' <= val u ∧ (Z.even (val u) = true → 2 * val u' <= val u) ∧
  (∀ d, Z.gcd d 2 = 1 → ((d | val u') ↔ (d | val u))).

Lemma strip_spec k u A :
  words 8 u → field A → tracks A u → 0 < val u < 2 ^ Z.of_nat k →
  ∃ u' A', strip (S k) u A = Some (u', A') ∧ stripped u u' A'.
Proof.
  revert u A. induction k as [|k IH]; intros u A Hu HA Ht Hk; [change (2 ^ Z.of_nat 0) with 1 in Hk; lia|].
  cbn [strip]. rewrite is_even_spec by done. destruct (Z.even (val u)) eqn:He.
  - destruct (rshift_spec u Hu) as [Hw E]. pose proof (even_half _ He) as E2.
    rewrite Nat2Z.inj_succ, Z.pow_succ_r in Hk by lia.
    destruct (IH (multiprecision_rshift u) (halve_mod A)) as (u' & A' & Es & Hw' & HA' & Ht' & Ho & Hle & _ & Hd).
    { done. } { by apply halve_mod_spec. } { by apply tracks_halve. } { lia. }
    exists u', A'. split; [exact Es|]. unfold stripped.
    split; [done|]. split; [done|]. split; [done|]. split; [done|]. split; [lia|]. split; [lia|].
    intros d Hd2. rewrite Hd by done. rewrite E. split.
    + intros Hdiv. rewrite E2. by apply Z.divide_mul_r.
    + intros Hdiv. rewrite E2 in Hdiv. by apply Z.gauss with 2.
  - exists u, A. split; [done|]. unfold stripped.
    split; [done|]. split; [done|]. split; [done|]. split; [done|]. split; [lia|]. split; [congruence|done].
Qed.

(** The head of the outer loop. *)
Record head (u v A C : list Z) : Prop := {
  h_u : words 8 u;
  h_v : words 8 v;
  h_A : field A;
  h_C : field C;
  h_Au : tracks A u;
  h_Cv : tracks C v;
  h_pos : 0 < val v;
  h_odd : val u = 0 → Z.even (val v) = false;
  h_div : ∀ d, Z.gcd d 2 = 1 → ((d | val u) ∧ (d | val v) ↔ (d | u0) ∧ (d | p256)) }.

Definition mixed (u v : list Z) : Prop := Z.even (val u) = true ∨ Z.even (val v) = true.

Lemma strip_257 u A :
  words 8 u → field A → tracks A u → 0 < val u →
  ∃ u' A', strip 257 u A = Some (u', A') ∧ stripped u u' A'.
Proof.
  intros Hu HA Ht Hp. apply strip_spec; [done|done|done|]. split; [done|].
  by apply (val_range 8) in Hu as [_ ?].
Qed.

Lemma sub_exact a b :
  words 8 a → words 8 b → val b <= val a →
  words 8 (fst (multiprecision_sub a b)) ∧ val (fst (multiprecision_sub a b)) = val a - val b.
Proof.
  intros Ha Hb Hle. pose proof (sub_spec a b Ha Hb) as Hs.
  destruct (multiprecision_sub a b) as [c k]. destruct Hs as (Hc & Hk & E).
  split; [done|]. cbn [fst]. pose proof (val_range 8 c Hc) as Hr. change (Z.of_nat 8) with 8 in Hr.
  pose proof (val_range 8 a Ha) as Ha'. pose proof (val_range 8 b Hb) as Hb'.
  change (Z.of_nat 8) with 8 in *.
  assert (k = 0 ∨ k = 1) as [-> | ->] by lia; lia.
Qed.

Lemma even_sub_odd a b : Z.even a = false → Z.even b = false → Z.even (a - b) = true.
Proof. intros Ha Hb. by rewrite Z.even_sub, Ha, Hb. Qed.

Lemma divide_sub_iff d a b : (d | a - b) ∧ (d | b) ↔ (d | a) ∧ (d | b).
Proof.
  split; intros [H1 H2]; (split; [|done]); [|by apply Z.divide_sub_r].
  replace a with (a - b + b) by lia. by apply Z.divide_add_r.
Qed.

(** A round keeps the invariant and makes the product of u and v smaller, at most
    half of it where one of them was even. *)
Lemma inv_round_spec u v A C :
  head u v A C → val u ≠ 0 →
  ∃ u' v' A' C', inv_round u v A C = Some (u', v', A', C') ∧ head u' v' A' C' ∧ mixed u' v' ∧
    val u' * val v' < val u * val v ∧ (mixed u v → 2 * (val u' * val v') < val u * val v).
Proof.
  intros H Hne. pose proof (val_range 8 u (h_u _ _ _ _ H)) as Hru.
  pose proof (h_pos _ _ _ _ H) as Hv0.
  destruct (strip_257 u A) as (u1 & A1 & Eu & Hu1 & HA1 & HAu & Hou & Hule & Hu2 & Hud);
    [apply H|apply H|apply H|lia|].
  destruct (strip_257 v C) as (v1 & C1 & Ev & Hv1 & HC1 & HCv & Hov & Hvle & Hv2 & Hvd);
    [apply H|apply H|apply H|lia|].
  assert (Hdiv : ∀ d, Z.gcd d 2 = 1 → ((d | val u1) ∧ (d | val v1) ↔ (d | u0) ∧ (d | p256))).
  { intros d Hd. rewrite Hud, Hvd by done. by apply H. }
  assert (Hle : val u1 * val v1 <= val u * val v) by nia.
  assert (Hle2 : mixed u v → 2 * (val u1 * val v1) <= val u * val v).
  { intros [He|He]; [specialize (Hu2 He)|specialize (Hv2 He)]; nia. }
  unfold inv_round. rewrite Eu. cbn [mbind option_bind]. rewrite Ev. cbn [mbind option_bind].
  rewrite compare_spec by done. destruct (Z.leb_spec 0 (Z.sgn (val u1 - val v1))).
  - destruct (sub_exact u1 v1) as [Hw E]; [done|done|lia|].
    do 4 eexists. split; [done|]. split; [split; try done|split; [|split]].
    + by apply sub_mod_ok.
    + by apply (tracks_sub A1 C1 u1 v1).
    + lia.
    + intros d Hd. rewrite E, divide_sub_iff. by apply Hdiv.
    + left. rewrite E. by apply even_sub_odd.
    + rewrite E. nia.
    + intros Hm. specialize (Hle2 Hm). rewrite E. nia.
  - destruct (sub_exact v1 u1) as [Hw E]; [done|done|lia|].
    do 4 eexists. split; [done|]. split; [split; try done|split; [|split]].
    + by apply sub_mod_ok.
    + by apply (tracks_sub C1 A1 v1 u1).
    + lia.
    + lia.
    + intros d Hd. rewrite E, <-(Hdiv d Hd). pose proof (divide_sub_iff d (val v1) (val u1)). tauto.
    + right. rewrite E. by apply even_sub_odd.
    + rewrite E. nia.
    + intros Hm. specialize (Hle2 Hm). rewrite E. nia.
Qed.

Lemma odd_gcd_2 z : Z.even z = false → Z.gcd z 2 = 1.
Proof.
  intros He. rewrite Z.gcd_comm, <-Z.gcd_mod by lia. by rewrite (odd_mod z He).
Qed.

(** Where u has become 0, v is the greatest common divisor. *)
Lemma head_gcd u v A C : head u v A C → val u = 0 → val v = Z.gcd u0 p256.
Proof.
  intros H E0. pose proof (h_pos _ _ _ _ H). pose proof (h_div _ _ _ _ H) as Hd.
  apply Z.divide_antisym_nonneg; [lia|apply Z.gcd_nonneg| |].
  - assert ((val v | u0) ∧ (val v | p256)) as [H1 H2].
    { apply Hd; [by apply odd_gcd_2, H|]. rewrite E0. split; [apply Z.divide_0_r|apply Z.divide_refl]. }
    by apply Z.gcd_greatest.
  - apply Hd; [|split; [apply Z.gcd_divide_l|apply Z.gcd_divide_r]].
    apply Z.divide_1_r_nonneg; [apply Z.gcd_nonneg|]. rewrite <-p256_odd.
    apply Z.gcd_greatest; [|apply Z.gcd_divide_r].
    transitivity (Z.gcd u0 p256); [apply Z.gcd_divide_l|apply Z.gcd_divide_r].
Qed.

Lemma iszero_val u : words 8 u → multiprecision_iszero u = (val u =? 0).
Proof.
  intros [_ Hu]. apply eq_bool_prop_intro. rewrite !Is_true_true, Z.eqb_eq. by apply val_zero_iff.
Qed.

Lemma inv_loop_done f u v A C :
  head u v A C → val u = 0 →
  inv_loop (S f) u v A C = Some C ∧ field C ∧ (p256 | val C * u0 - Z.gcd u0 p256).
Proof.
  intros H E0. cbn [inv_loop]. rewrite iszero_val, E0 by apply H.
  change (0 =? 0) with true. cbv iota.
  split; [done|]. split; [apply H|]. rewrite <-(head_gcd u v A C H E0). apply H.
Qed.

Lemma inv_loop_spec n u v A C :
  head u v A C → mixed u v → val u * val v < 2 ^ Z.of_nat n →
  ∃ r, inv_loop (S n) u v A C = Some r ∧ field r ∧ (p256 | val r * u0 - Z.gcd u0 p256).
Proof.
  revert u v A C. induction n as [|n IH]; intros u v A C H Hm Hn;
    pose proof (val_range 8 u (h_u _ _ _ _ H)); pose proof (h_pos _ _ _ _ H);
    (destruct (Z.eq_dec (val u) 0) as [E0|Hne]; [exists C; by apply (inv_loop_done _ u v A)|]).
  - change (2 ^ Z.of_nat 0) with 1 in Hn. nia.
  - destruct (inv_round_spec u v A C H Hne) as (u' & v' & A' & C' & E & H' & Hm' & _ & Hlt).
    rewrite Nat2Z.inj_succ, Z.pow_succ_r in Hn by lia. specialize (Hlt Hm).
    destruct (IH u' v' A' C') as (r & Er & Hr); [done|done|lia|].
    exists r. split; [|done]. rewrite <-Er. cbn [inv_loop]. rewrite iszero_val by apply H.
    replace (val u =? 0) with false by lia. by rewrite E.
Qed.
End inversion.

Lemma head_init u : words 8 u → head (val u) u modp (<[0%nat := 1]> multiprecision_init) multiprecision_init.
Proof.
  intros Hu. assert (field multiprecision_init) as Hz.
  { split; [|by vm_compute]. split; [done|]. repeat (apply Forall_cons; split; [unfold is_u32; lia|]). by apply Forall_nil. }
  split; try done.
  - apply words_modp.
  - split; [|by vm_compute]. split; [done|].
    repeat (apply Forall_cons; split; [unfold is_u32; lia|]). by apply Forall_nil.
  - unfold tracks. replace (val (<[0%nat := 1]> multiprecision_init)) with 1 by (by vm_compute).
    replace (1 * val u - val u) with 0 by lia. apply Z.divide_0_r.
  - unfold tracks. replace (val multiprecision_init) with 0 by (by vm_compute). fold p256.
    replace (0 * val u - p256) with (p256 * -1) by lia. apply Z.divide_factor_l.
Qed.

Lemma inv_mod_ok u :
  words 8 u →
  ∃ r, multiprecision_inv_mod u = Some r ∧ field r ∧
    (val r * val u) mod p256 = Z.gcd (val u) p256 mod p256.
Proof.
  intros Hu. pose proof (head_init u Hu) as H. unfold multiprecision_inv_mod, inv_fuel.
  set (A := <[0%nat := 1]> multiprecision_init) in *. set (C := multiprecision_init) in *.
  assert (∃ r, inv_loop 514 u modp A C = Some r ∧ field r ∧
            (p256 | val r * val u - Z.gcd (val u) p256)) as (r & E & Hr & Hd).
  { destruct (Z.eq_dec (val u) 0) as [E0|Hne]; [exists C; by apply (inv_loop_done (val u) _ u modp A)|].
    destruct (inv_round_spec (val u) u modp A C H Hne) as (u' & v' & A' & C' & E & H' & Hm & Hlt & _).
    destruct (inv_loop_spec (val u) 512 u' v' A' C') as (r & Er & Hr); [done|done| |].
    - apply (val_range 8) in Hu. destruct p256_bounds as (_ & Hp & _ & Hp2). fold p256 in Hlt.
      change (Z.of_nat 8) with 8 in Hu. rewrite Hp2 in *. change (2 ^ Z.of_nat 512) with (2 ^ 256 * 2 ^ 256).
      assert (0 < p256) by (by vm_compute). nia.
    - exists r. split; [|done]. rewrite <-Er. cbn [inv_loop]. rewrite iszero_val by done.
      replace (val u =? 0) with false by lia. by rewrite E. }
  exists r. rewrite E. cbn [mbind option_bind]. rewrite compare_spec by (apply Hr || apply words_modp).
  fold p256. pose proof (field_range r Hr). destruct (Z.leb_spec 0 (Z.sgn (val r - p256))); [lia|].
  split; [done|]. split; [done|]. destruct Hd as [q Eq].
  replace (val r * val u) with (Z.gcd (val u) p256 + q * p256) by lia. apply Z_mod_plus_full.
Qed.

(** C23: inversion modulo p terminates and is right.  For every 256-bit number u the
    loops of [multiprecision_inv_mod] end, and the result r is below the modulus with
    r * u congruent to the greatest common divisor of u and p: r is the inverse of u
    modulo p where u and p have no common factor, and 0 for u = 0. *)
Theorem inv_mod_spec u :
  words 8 u →
  ∃ r, multiprecision_inv_mod u = Some r ∧ field r ∧
    (val r * val u) mod p256 = Z.gcd (val u) p256 mod p256.
Proof. apply inv_mod_ok. Qed.

Lemma inv_mod_spec_witness :
  words 8 (to_words 8 3) ∧
  ∃ r, multiprecision_inv_mod (to_words 8 3) = Some r ∧ field r ∧
    (val r * val (to_words 8 3)) mod p256 = Z.gcd (val (to_words 8 3)) p256 mod p256.
Proof. split; [apply to_words_ok|]. exact (inv_mod_spec (to_words 8 3) (proj1 (to_words_ok 8 3))). Defined.
