(* ===== verification/P256Prime.v ===== *)
(** * The modulus is prime

    The modulus of the curve has an inverse for every number below it, because it is
    prime.  The proof is a Pocklington certificate, checked by computation. *)
From Stdlib Require Import Zmod Zcong Zpow_facts.
From S2P Require Import Prelude P256Arith.

(** ** Prime divisors *)
Lemma prime_divisor n : 1 < n → ∃ r, Z.prime r ∧ (r | n).
Proof.
  intros Hn. induction n as [n IH] using (well_founded_induction (Z.lt_wf 0)).
  destruct (decide (Exists (fun d => n mod d = 0) (seqZ 2 (n - 2)))) as [He|He].
  - apply Exists_exists in He as (d & Hd & E). apply elem_of_seqZ in Hd.
    destruct (IH d) as (r & Hr & Hrd); [lia|lia|]. exists r. split; [done|].
    transitivity d; [done|]. apply Z.mod_divide; [lia|done].
  - exists n. split; [|done]. split; [lia|]. intros d Hd Hdiv. apply He, Exists_exists.
    exists d. split; [apply elem_of_seqZ; lia|]. apply Z.mod_divide; [lia|done].
Qed.

(** A number without a prime divisor up to its square root is prime. *)
Lemma prime_sqrt n :
  1 < n → (∀ r, Z.prime r → (r | n) → r * r <= n → False) → Z.prime n.
Proof.
  intros Hn H. split; [done|]. intros d Hd [e Ee].
  assert (∃ m, 1 < m ∧ m * m <= n ∧ (m | n)) as (m & Hm & Hsq & Hdiv).
  { destruct (Z.le_ge_cases d e).
    - exists d. split_and!; [lia|nia|by exists e].
    - exists e. split_and!; [nia|nia|]. exists d. lia. }
  destruct (prime_divisor m Hm) as (r & Hr & Hrm).
  apply (H r Hr); [by transitivity m|]. pose proof (Z.prime_ge_2 r Hr).
  apply Z.divide_pos_le in Hrm; [nia|lia].
Qed.

(** Trial division by [k] numbers from [d] on. *)
Fixpoint trial (k : nat) (d n : Z) : bool :=
  match k with
  | O => true
  | S k => negb (n mod d =? 0) && trial k (d + 1) n
  end.

Lemma trial_spec k d n x :
  trial k d n = true → d <= x < d + Z.of_nat k → n mod x ≠ 0.
Proof.
  revert d. induction k as [|k IH]; intros d Ht Hx; [lia|]. cbn [trial] in Ht.
  apply andb_true_iff in Ht as [H1 H2]. apply negb_true_iff, Z.eqb_neq in H1.
  destruct (decide (x = d)) as [->|]; [done|]. apply (IH (d + 1)); [done|lia].
Qed.

Lemma trial_prime m n :
  1 < n → 2 <= m → n < m * m → trial (Z.to_nat (m - 2)) 2 n = true → Z.prime n.
Proof.
  intros Hn Hm Hk Ht. apply prime_sqrt; [done|]. intros r Hr Hd Hsq. pose proof (Z.prime_ge_2 r Hr).
  apply (trial_spec _ _ _ r Ht); [nia|]. apply Z.mod_divide; [lia|done].
Qed.

(** ** Pocklington's criterion *)

(** A power that is 1 for two coprime exponents is the power of 1. *)
Lemma pow_one_coprime r b q e :
  1 < r → 1 <= q → 1 <= e → Z.coprime q e → b ^ q mod r = 1 → b ^ e mod r = 1 → b mod r = 1.
Proof.
  intros Hr Hq He Hc Hbq Hbe.
  destruct (Z.Bezout_coprime q e Hc) as (u & v & E).
  set (s := u mod e + e). set (t := s * q - 1).
  assert (Ht : (e | t)).
  { exists ((1 - u / e) * q - v). unfold t, s. rewrite Z.mod_eq by lia. lia. }
  destruct Ht as [k Ek]. assert (0 <= u mod e < e) by (apply Z.mod_pos_bound; lia).
  assert (0 <= k) by nia.
  assert (b ^ (s * q) mod r = 1) as E1.
  { rewrite Z.mul_comm, Z.pow_mul_r, <-Z.mod_pow_l, Hbq, Z.pow_1_l by lia. apply Z.mod_small. lia. }
  replace (s * q) with (1 + e * k) in E1 by lia.
  rewrite Z.pow_add_r, Z.pow_1_r, Z.pow_mul_r in E1 by nia.
  rewrite <-Zmult_mod_idemp_r, <-Z.mod_pow_l, Hbe, Z.pow_1_l, Zmult_mod_idemp_r in E1 by lia.
  by rewrite Z.mul_1_r in E1.
Qed.

(** [b] has order [q] modulo every prime divisor of [n]. *)
Lemma pocklington_factor n b q r :
  1 < n → Z.prime q → b ^ q mod n = 1 → Z.gcd (b - 1) n = 1 → Z.prime r → (r | n) → (q | r - 1).
Proof.
  intros Hn Hq Ha Hg Hr Hrn. pose proof (Z.prime_ge_2 q Hq). pose proof (Z.prime_ge_2 r Hr).
  destruct (decide ((r - 1) mod q = 0)) as [E0|Hne]; [apply Z.mod_divide; [lia|done]|]. exfalso.
  assert (b ^ q mod r = 1) as Hbq.
  { destruct Hrn as [k Ek]. rewrite (Z.div_mod (b ^ q) n), Ha by lia. rewrite Ek at 1.
    replace (k * r * (b ^ q / n) + 1) with (1 + (k * (b ^ q / n)) * r) by lia.
    rewrite Z_mod_plus_full. apply Z.mod_small. lia. }
  assert (b mod r ≠ 0) as Hb0.
  { intros E. rewrite <-Z.mod_pow_l, E, Z.pow_0_l, Z.mod_0_l in Hbq; lia. }
  assert (b mod r = 1) as Hb.
  { apply (pow_one_coprime r b q (r - 1)); [lia|lia|lia| |done|by apply Z.fermat_nz].
    apply Z.coprime_prime_l; [done|]. intros Hd. by apply Hne, Z.mod_divide; [lia|]. }
  assert (r | 1) as Hd; [|apply Z.divide_pos_le in Hd; lia].
  rewrite <-Hg. apply Z.gcd_greatest; [|done]. apply Z.mod_divide; [lia|].
  rewrite Zminus_mod, Hb, (Z.mod_small 1), Z.sub_diag by lia. apply Z.mod_0_l. lia.
Qed.

Definition zprod (l : list Z) : Z := foldr Z.mul 1 l.

(** [a] is a witness for the prime [q]. *)
Definition pocklington1 (n a q : Z) : bool :=
  let b := Zpow_mod a ((n - 1) / q) n in
  (Zpow_mod b q n =? 1) && (Z.gcd (b - 1) n =? 1).

Definition pocklington (n a : Z) (qs : list Z) : bool :=
  (1 <? n) && forallb (pocklington1 n a) qs && bool_decide (NoDup qs) && (n <? zprod qs * zprod qs).

Lemma zprod_divide x qs :
  Forall Z.prime qs → NoDup qs → Forall (fun q => (q | x)) qs → (zprod qs | x).
Proof.
  intros Hp Hnd Hd. induction Hnd as [|q qs Hq Hnd IH]; [apply Z.divide_1_l|].
  apply Forall_cons in Hp as [Hp Hps], Hd as [Hd Hds]. destruct (IH Hps Hds) as [k Ek].
  cbn [zprod foldr]. fold (zprod qs).
  assert (Z.coprime q (zprod qs)) as Hc.
  { clear -Hp Hps Hq. induction Hps as [|r qs Hr Hrs IH]; [apply Z.coprime_1_r|].
    apply not_elem_of_cons in Hq as [Hne Hq]. apply Z.coprime_mul_r; [|by apply IH].
    apply Z.coprime_prime_l; [done|]. intros Hdiv. by apply Hne, Z.divide_prime_prime. }
  rewrite Ek, Z.mul_comm in Hd. apply Z.gauss in Hd as [m ->]; [|done]. exists m. lia.
Qed.

Lemma zprod_pos qs : Forall Z.prime qs → 0 < zprod qs.
Proof.
  induction 1 as [|q qs Hq _ IH]; [done|]. cbn. fold (zprod qs). apply Z.prime_ge_2 in Hq. nia.
Qed.

Lemma pocklington_prime n a qs :
  Forall Z.prime qs → pocklington n a qs = true → Z.prime n.
Proof.
  intros Hqs H. unfold pocklington in H. rewrite !andb_true_iff in H.
  destruct H as [[[Hn H] Hnd] Hbig]. apply Z.ltb_lt in Hn, Hbig. apply bool_decide_eq_true in Hnd.
  apply prime_sqrt; [done|]. intros r Hr Hrn Hsq. pose proof (Z.prime_ge_2 r Hr).
  assert (zprod qs | r - 1) as Hd.
  { apply zprod_divide; [done|done|]. rewrite Forall_forall in Hqs |- *. intros q Hq.
    rewrite forallb_forall in H. pose proof (Hqs q Hq) as Hqp. pose proof (Z.prime_ge_2 q Hqp).
    apply list_elem_of_In in Hq. apply H in Hq. unfold pocklington1 in Hq.
    rewrite andb_true_iff, !Z.eqb_eq, (Zpow_mod_correct _ q) in Hq by lia. destruct Hq as [Hq1 Hq2].
    by apply (pocklington_factor n _ q r Hn Hqp Hq1 Hq2). }
  apply Z.divide_pos_le in Hd; [|lia]. pose proof (zprod_pos qs Hqs). nia.
Qed.

(** ** The certificate *)
Lemma prime_78283 : Z.prime 78283.
Proof. apply (trial_prime 300); [lia|lia|lia|by vm_compute]. Qed.
Lemma prime_704251 : Z.prime 704251.
Proof. apply (trial_prime 840); [lia|lia|lia|by vm_compute]. Qed.
Lemma prime_3677 : Z.prime 3677.
Proof. apply (trial_prime 61); [lia|lia|lia|by vm_compute]. Qed.
Lemma prime_197 : Z.prime 197.
Proof. apply (trial_prime 15); [lia|lia|lia|by vm_compute]. Qed.
Lemma prime_66417393611 : Z.prime 66417393611.
Proof.
  apply (pocklington_prime 66417393611 2 [3677; 197]); [|by vm_compute].
  repeat (apply Forall_cons; split; [apply prime_3677 || apply prime_197|]). by apply Forall_nil.
Qed.

Definition q56 : Z := 46076956964474543.
Definition q44 : Z := 11290956913871.
Definition q150 : Z := 774023187263532362759620327192479577272145303.
Definition q160 : Z := 835945042244614951780389953367877943453916927241.

Lemma prime_q56 : Z.prime q56.
Proof.
  apply (pocklington_prime q56 2 [704251; 78283]); [|by vm_compute].
  repeat (apply Forall_cons; split; [apply prime_704251 || apply prime_78283|]). by apply Forall_nil.
Qed.
Lemma prime_q44 : Z.prime q44.
Proof.
  apply (pocklington_prime q44 2 [66417393611]); [|by vm_compute].
  repeat (apply Forall_cons; split; [apply prime_66417393611|]). by apply Forall_nil.
Qed.
Lemma prime_q150 : Z.prime q150.
Proof.
  apply (pocklington_prime q150 2 [q56; q44]); [|by vm_compute].
  repeat (apply Forall_cons; split; [apply prime_q56 || apply prime_q44|]). by apply Forall_nil.
Qed.
Lemma prime_q160 : Z.prime q160.
Proof.
  apply (pocklington_prime q160 2 [q150]); [|by vm_compute].
  repeat (apply Forall_cons; split; [apply prime_q150|]). by apply Forall_nil.
Qed.

Lemma prime_p256 : Z.prime p256.
Proof.
  apply (pocklington_prime p256 2 [q160]); [|by vm_compute].
  repeat (apply Forall_cons; split; [apply prime_q160|]). by apply Forall_nil.
Qed.
