(* ===== verification/P256Naf.v ===== *)
(** * The non-adjacent form ([ECC_NAF] of [p_256_ecc_pp.cc])

    The multiplier of a point is recoded with the digits 0, 1 and -1, no two
    neighbours of which differ from 0.  The code packs four digits into an octet,
    two bits each, with 3 for -1. *)
From S2P Require Import Prelude P256Arith P256Inv.

(** [do { k[j]++; } while (k[j++] == 0);] on the words from [k[j]] on.  Past the end
    of the array it is [None]. *)
Fixpoint bump (k : list Z) : option (list Z) :=
  match k with
  | [] => None
  | x :: k =>
      let x := u32 (x + 1) in
      if x =? 0 then k ← bump k; Some (x :: k) else Some (x :: k)
  end.

(** The digit of an odd or even k, and k less that digit. *)
Definition naf_digit (k : list Z) : option (Z * list Z) :=
  let k0 := nth 0 k 0 in
  if nz (Z.land k0 1) then
    let sign := Z.land k0 3 in
    if sign =? 1 then Some (sign, <[0%nat := Z.land k0 0xFFFFFFFE]> k)
    else
      let k0 := u32 (k0 + 1) in
      if k0 =? 0 then t ← bump (drop 1 k); Some (sign, k0 :: t)
      else Some (sign, <[0%nat := k0]> k)
  else Some (0, k).

(** [naf[i / 4] |= (sign) << ((i % 4) * 2);] and the read of that digit. *)
Definition naf_put (naf : list Z) (i : nat) (sign : Z) : option (list Z) :=
  octet ← naf !! (i / 4)%nat;
  Some (<[(i / 4)%nat := u8 (Z.lor octet (Z.shiftl sign (Z.of_nat (i mod 4) * 2)))]> naf).
Definition naf_get (naf : list Z) (i : nat) : option Z :=
  octet ← naf !! (i / 4)%nat;
  Some (Z.land (Z.shiftr octet (Z.of_nat (i mod 4) * 2)) 3).

(** [while ((var = multiprecision_most_signbits(k)) >= 1)]. *)
Fixpoint naf_loop (fuel : nat) (k naf : list Z) (i : nat) : option (list Z * nat * list Z) :=
  match fuel with
  | O => None
  | S fuel =>
      if 1 <=? multiprecision_most_signbits k then
        '(sign, k) ← naf_digit k;
        naf ← naf_put naf i sign;
        naf_loop fuel (multiprecision_rshift k) naf (S i)
      else Some (naf, i, k)
  end.

Definition naf_fuel : nat := 258.

(** The digits, their number and what is left of [k]. *)
Definition ECC_NAF (naf k : list Z) : option (list Z * nat * list Z) :=
  naf_loop naf_fuel k naf 0.

(** ** The recoding as numbers *)

(** The number a digit stands for. *)
Definition digit_value (d : Z) : Z := if d =? 3 then -1 else d.

Definition digit (z : Z) : Z := if Z.even z then 0 else z mod 4.

Definition rest (z : Z) : Z := (z - digit_value (digit z)) / 2.

Fixpoint recode (fuel : nat) (z : Z) : list Z :=
  match fuel with
  | O => []
  | S fuel => if z =? 0 then [] else digit z :: recode fuel (rest z)
  end.

Fixpoint naf_value (ds : list Z) : Z :=
  match ds with
  | [] => 0
  | d :: ds => digit_value d + 2 * naf_value ds
  end.

(** No two neighbours differ from 0. *)
Fixpoint nonadjacent (ds : list Z) : bool :=
  match ds with
  | d :: ((e :: _) as ds) => ((d =? 0) || (e =? 0)) && nonadjacent ds
  | _ => true
  end.

Lemma digit_cases z :
  (z mod 2 = 0 ∧ digit z = 0) ∨ (z mod 4 = 1 ∧ digit z = 1) ∨ (z mod 4 = 3 ∧ digit z = 3).
Proof.
  unfold digit. destruct (Z.even z) eqn:He.
  - left. pose proof (Zmod_even z) as E. by rewrite He in E.
  - apply odd_mod in He. right. Z.div_mod_to_equations; lia.
Qed.

Lemma rest_spec z : z = digit_value (digit z) + 2 * rest z.
Proof.
  unfold rest, digit_value. destruct (digit_cases z) as [[Hm ->]|[[Hm ->]|[Hm ->]]]; cbn [Z.eqb Pos.eqb];
    Z.div_mod_to_equations; lia.
Qed.

(** What is left after an odd digit is even. *)
Lemma rest_even z : digit z ≠ 0 → digit (rest z) = 0.
Proof.
  intros Hd. unfold digit at 1.
  assert (rest z mod 2 = 0) as E.
  { unfold rest, digit_value. destruct (digit_cases z) as [[Hm E]|[[Hm E]|[Hm E]]]; [done|rewrite E|rewrite E];
      cbn [Z.eqb Pos.eqb]; Z.div_mod_to_equations; lia. }
  rewrite Zmod_even in E. by destruct (Z.even (rest z)).
Qed.

(** [n] digits are enough for the number [z]. *)
Definition fits (n : nat) (z : Z) : Prop := 0 <= 2 * z <= 2 ^ Z.of_nat n.

Lemma fits_rest n z : fits (S n) z → fits n (rest z).
Proof.
  unfold fits. rewrite Nat2Z.inj_succ, Z.pow_succ_r by lia. intros Hz. pose proof (rest_spec z) as E.
  assert (Hp : 2 ^ Z.of_nat n = 1 ∨ 2 ^ Z.of_nat n mod 2 = 0).
  { destruct n as [|n]; [by left|right]. rewrite Nat2Z.inj_succ, Z.pow_succ_r, Z.mul_comm by lia. apply Z_mod_mult. }
  destruct (digit_cases z) as [[Hd Hc]|[[Hd Hc]|[Hd Hc]]]; rewrite Hc in E;
    unfold digit_value in E; cbn [Z.eqb Pos.eqb] in E; try lia.
  Z.div_mod_to_equations; lia.
Qed.

Lemma fits_0 z : fits 0 z → z = 0.
Proof. unfold fits. change (2 ^ Z.of_nat 0) with 1. lia. Qed.

Lemma recode_S n z : recode (S n) z = if z =? 0 then [] else digit z :: recode n (rest z).
Proof. done. Qed.

Lemma recode_value n z : fits n z → naf_value (recode n z) = z.
Proof.
  revert z. induction n as [|n IH]; intros z Hz; [symmetry; by apply fits_0|].
  rewrite recode_S. destruct (Z.eqb_spec z 0) as [->|Hne]; [done|]. cbn [naf_value].
  rewrite IH by (by apply fits_rest). symmetry. apply rest_spec.
Qed.

Lemma recode_length n z : (length (recode n z) <= n)%nat.
Proof.
  revert z. induction n as [|n IH]; intros z; [done|]. rewrite recode_S.
  case_match; simpl; [lia|]. specialize (IH (rest z)). lia.
Qed.

Lemma recode_nonadjacent n z : nonadjacent (recode n z) = true.
Proof.
  revert z. induction n as [|n IH]; intros z; [done|]. rewrite recode_S. case_match; [done|].
  specialize (IH (rest z)). destruct n as [|n]; [done|]. rewrite recode_S in *.
  case_match; [done|]. change (((digit z =? 0) || (digit (rest z) =? 0)) &&
    nonadjacent (digit (rest z) :: recode n (rest (rest z))) = true). rewrite IH, andb_true_r.
  destruct (Z.eqb_spec (digit z) 0); [done|]. by rewrite rest_even.
Qed.

Lemma recode_digits n z : Forall (fun d => d = 0 ∨ d = 1 ∨ d = 3) (recode n z).
Proof.
  revert z. induction n as [|n IH]; intros z; [constructor|]. rewrite recode_S. case_match; [constructor|].
  constructor; [|done]. destruct (digit_cases z) as [[_ ->]|[[_ ->]|[_ ->]]]; auto.
Qed.

(** ** The packed digits *)
Definition naf_ok (naf : list Z) : Prop := length naf = 65%nat ∧ Forall is_u8 naf.

(** One octet: setting a digit that is 0, and reading any digit afterwards. *)
Lemma octet_digit o d q r :
  is_u8 o → (d = 0 ∨ d = 1 ∨ d = 3) → (q < 4)%nat → (r < 4)%nat →
  Z.land (Z.shiftr o (Z.of_nat r * 2)) 3 = 0 →
  Z.land (Z.shiftr (u8 (Z.lor o (Z.shiftl d (Z.of_nat r * 2)))) (Z.of_nat q * 2)) 3 =
  if (q =? r)%nat then d else Z.land (Z.shiftr o (Z.of_nat q * 2)) 3.
Proof.
  intros Ho Hd Hq Hr Hz.
  pose (P o := forallb (fun d => forallb (fun q => forallb (fun r =>
    negb (Z.land (Z.shiftr o (Z.of_nat r * 2)) 3 =? 0) ||
    (Z.land (Z.shiftr (u8 (Z.lor o (Z.shiftl d (Z.of_nat r * 2)))) (Z.of_nat q * 2)) 3 =?
     if (q =? r)%nat then d else Z.land (Z.shiftr o (Z.of_nat q * 2)) 3)) (seq 0 4)) (seq 0 4)) [0; 1; 3]).
  assert (∀ o, is_u8 o → P o = true) as HP by octet_cases P. specialize (HP o Ho).
  unfold P in HP. rewrite forallb_forall in HP. specialize (HP d).
  assert (In d [0; 1; 3]) as Hin by (destruct Hd as [->|[->| ->]]; simpl; auto).
  specialize (HP Hin). rewrite forallb_forall in HP. specialize (HP q ltac:(apply in_seq; lia)).
  rewrite forallb_forall in HP. specialize (HP r ltac:(apply in_seq; lia)).
  rewrite Hz in HP. by apply Z.eqb_eq in HP.
Qed.

Lemma naf_put_spec naf i d :
  naf_ok naf → (i < 260)%nat → (d = 0 ∨ d = 1 ∨ d = 3) → naf_get naf i = Some 0 →
  ∃ naf', naf_put naf i d = Some naf' ∧ naf_ok naf' ∧
    ∀ j, naf_get naf' j = if (j =? i)%nat then Some d else naf_get naf j.
Proof.
  intros [Hl Hu] Hi Hd Hz. pose proof (Nat.Div0.div_lt_upper_bound i 4 65 ltac:(lia)) as Hi4. unfold naf_put, naf_get in *.
  destruct (naf !! (i / 4)%nat) as [o|] eqn:Eo; [|by apply lookup_ge_None in Eo; lia].
  cbn [mbind option_bind] in *. eexists. split; [done|]. simplify_eq.
  assert (Ho : is_u8 o) by (by apply (Forall_lookup_1 _ _ _ _ Hu Eo)).
  pose proof (Nat.mod_upper_bound i 4).
  split.
  - split; [by rewrite length_insert|]. apply Forall_insert; [done|apply u8_range].
  - intros j. pose proof (Nat.mod_upper_bound j 4). destruct (decide ((i / 4)%nat = (j / 4)%nat)) as [E|Hne].
    + rewrite <-E, list_lookup_insert_eq by lia. rewrite Eo. cbn [mbind option_bind].
      rewrite octet_digit by (done || lia). 
      destruct (Nat.eqb_spec (j mod 4) (i mod 4)), (Nat.eqb_spec j i); try done; exfalso; subst.
      * pose proof (Nat.div_mod_eq i 4). pose proof (Nat.div_mod_eq j 4). lia.
      * done.
    + rewrite list_lookup_insert_ne by done.
      destruct (Nat.eqb_spec j i) as [->|]; [done|done].
Qed.

(** ** The loop *)
Lemma bump_spec n l :
  words n l →
  match bump l with
  | Some l' => words n l' ∧ val l' = val l + 1
  | None => val l = W ^ Z.of_nat n - 1
  end.
Proof.
  revert l. induction n as [|n IH]; intros l Hl; [by apply words_zero in Hl as ->|].
  words_inv Hl. cbn [bump]. rewrite W_pow_S. specialize (IH l0 Hl0).
  destruct (Z.eqb_spec (u32 (x + 1)) 0) as [E|Hne].
  - assert (x = W - 1) as -> by (unfold is_u32, u32, W in *; Z.div_mod_to_equations; lia).
    destruct (bump l0) as [l'|]; cbn [mbind option_bind].
    + destruct IH as [Hl' E']. split; [apply words_cons; [apply u32_range|done]|].
      cbn [val]. rewrite E, E'. lia.
    + cbn [val]. rewrite IH. lia.
  - assert (u32 (x + 1) = x + 1) as -> by (unfold is_u32, u32, W in *; Z.div_mod_to_equations; lia).
    split; [apply words_cons; [|done]|cbn [val]; lia].
    unfold is_u32, u32, W in *; Z.div_mod_to_equations; lia.
Qed.

Lemma land_clear_0 x : is_u32 x → x mod 2 = 1 → Z.land x 0xFFFFFFFE = x - 1.
Proof.
  intros Hx Ho. pose proof (Z.add_lor_land (Z.land x 0xFFFFFFFE) (Z.land x 1)) as E.
  rewrite <-Z.land_lor_distr_r in E.
  replace (Z.land (Z.land x 0xFFFFFFFE) (Z.land x 1)) with 0 in E.
  2: { rewrite (Z.land_comm x 1), Z.land_assoc, <-(Z.land_assoc x), Z.land_0_r. done. }
  change (Z.lor 0xFFFFFFFE 1) with (Z.ones 32) in E. change 1 with (Z.ones 1) in E at 1.
  rewrite !Z.land_ones in E by lia. change (2 ^ 32) with 4294967296 in E. change (2 ^ 1) with 2 in E.
  rewrite (Z.mod_small x) in E by exact Hx. lia.
Qed.

Lemma naf_digit_spec k :
  words 8 k →
  match naf_digit k with
  | Some (d, k') => words 8 k' ∧ d = digit (val k) ∧ val k' = val k - digit_value d
  | None => val k = W ^ 8 - 1
  end.
Proof.
  intros Hk. pose proof Hk as Hk0. words_inv Hk. unfold naf_digit, nz. cbn [nth insert list_insert].
  change (drop 1 (x :: l)) with l.
  assert (Z.land x 1 = x mod 2) as -> by (change 1 with (Z.ones 1); by rewrite Z.land_ones).
  assert (Z.land x 3 = x mod 4) as -> by (change 3 with (Z.ones 2); by rewrite Z.land_ones).
  assert (Hm2 : val (x :: l) mod 2 = x mod 2) by (cbn [val]; unfold W; Z.div_mod_to_equations; lia).
  assert (Hm4 : val (x :: l) mod 4 = x mod 4) by (cbn [val]; unfold W; Z.div_mod_to_equations; lia).
  destruct (digit_cases (val (x :: l))) as [[Hd Hc]|[[Hd Hc]|[Hd Hc]]]; rewrite Hc.
  - rewrite <-Hm2, Hd. cbn [negb Z.eqb]. split; [done|split; [done|]]. unfold digit_value. cbn [Z.eqb]. lia.
  - assert (x mod 2 = 1) as Ho by (Z.div_mod_to_equations; lia). rewrite Ho, <-Hm4, Hd. cbn [Z.eqb Pos.eqb negb].
    rewrite land_clear_0 by done. split; [|split; [done|cbn [val]; unfold digit_value; cbn [Z.eqb Pos.eqb]; lia]].
    apply words_cons; [|done]. unfold is_u32 in *. Z.div_mod_to_equations; lia.
  - assert (x mod 2 = 1) as Ho by (Z.div_mod_to_equations; lia). rewrite Ho, <-Hm4, Hd. cbn [Z.eqb Pos.eqb negb].
    destruct (Z.eqb_spec (u32 (x + 1)) 0) as [E|Hne].
    + assert (x = W - 1) as -> by (unfold is_u32, u32, W in *; Z.div_mod_to_equations; lia).
      pose proof (bump_spec 7 l Hl) as Hb. destruct (bump l) as [l'|]; cbn [mbind option_bind].
      * destruct Hb as [Hl' E']. split; [apply words_cons; [apply u32_range|done]|split; [done|]].
        cbn [val]. rewrite E, E'. unfold digit_value. cbn [Z.eqb Pos.eqb]. lia.
      * cbn [val]. rewrite Hb. change (W ^ 8) with (W * W ^ Z.of_nat 7). lia.
    + assert (u32 (x + 1) = x + 1) as -> by (unfold is_u32, u32, W in *; Z.div_mod_to_equations; lia).
      split; [|split; [done|cbn [val]; unfold digit_value; cbn [Z.eqb Pos.eqb]; lia]].
      apply words_cons; [|done]. unfold is_u32, u32, W in *; Z.div_mod_to_equations; lia.
Qed.

Lemma most_signbits_pos k : words 8 k → (1 <=? multiprecision_most_signbits k) = negb (val k =? 0).
Proof.
  intros Hk. rewrite most_signbits_spec by done. unfold bits.
  destruct (Z.eqb_spec (val k) 0) as [_|Hne]; [done|]. pose proof (Z.log2_nonneg (val k)).
  cbn [negb]. lia.
Qed.

(** What the loop leaves in the octets: the digits so far, the recoding of [z] from
    digit [i] on, and zeros. *)
Definition digits_from (naf naf' : list Z) (i : nat) (ds : list Z) : Prop :=
  ∀ j, (j < 260)%nat → naf_get naf' j = if (j <? i)%nat then naf_get naf j else Some (nth (j - i) ds 0).

Lemma naf_loop_S fuel k naf i :
  naf_loop (S fuel) k naf i =
  if 1 <=? multiprecision_most_signbits k then
    '(sign, k) ← naf_digit k;
    naf ← naf_put naf i sign;
    naf_loop fuel (multiprecision_rshift k) naf (S i)
  else Some (naf, i, k).
Proof. done. Qed.

Lemma fits_words k : words 8 k → fits 257 (val k).
Proof.
  intros Hk. apply (val_range 8) in Hk. change (Z.of_nat 8) with 8 in Hk.
  unfold fits. change (2 ^ Z.of_nat 257) with (2 * W ^ 8). lia.
Qed.

Lemma rest_below_max z : fits 257 z → rest z ≠ W ^ 8 - 1.
Proof.
  intros Hf. apply fits_rest in Hf as [_ Hf]. change (W ^ 8) with (2 ^ 256) in *.
  change (2 ^ Z.of_nat 256) with (2 ^ 256) in Hf. assert (2 < 2 ^ 256) by done. lia.
Qed.

Lemma naf_loop_spec n k naf i :
  words 8 k → val k ≠ W ^ 8 - 1 → fits n (val k) → naf_ok naf → (i + n <= 260)%nat →
  (∀ j, (i <= j < 260)%nat → naf_get naf j = Some 0) →
  ∃ naf' k', naf_loop (S n) k naf i = Some (naf', (i + length (recode n (val k)))%nat, k') ∧
    words 8 k' ∧ val k' = 0 ∧ naf_ok naf' ∧ digits_from naf naf' i (recode n (val k)).
Proof.
  revert k naf i. induction n as [|n IH]; intros k naf i Hk Hmax Hf Hn Hi Hz;
    rewrite naf_loop_S, most_signbits_pos by done.
  - apply fits_0 in Hf. rewrite Hf. cbn. exists naf, k. rewrite Nat.add_0_r.
    split; [done|]. split; [done|]. split; [done|]. split; [done|]. intros j Hj.
    destruct (Nat.ltb_spec j i); [done|]. rewrite Hz by lia. by destruct (j - i)%nat.
  - rewrite recode_S. destruct (Z.eqb_spec (val k) 0) as [E0|Hne]; cbn [negb].
    + exists naf, k. rewrite Nat.add_0_r.
      split; [done|]. split; [done|]. split; [done|]. split; [done|]. intros j Hj.
      destruct (Nat.ltb_spec j i); [done|]. rewrite Hz by lia. by destruct (j - i)%nat.
    + pose proof (naf_digit_spec k Hk) as Hd. destruct (naf_digit k) as [[d k1]|]; [|done].
      destruct Hd as (Hk1 & -> & E1). cbn [mbind option_bind].
      destruct (naf_put_spec naf i (digit (val k)) Hn) as (naf1 & Ep & Hn1 & Hg);
        [lia|destruct (digit_cases (val k)) as [[_ ->]|[[_ ->]|[_ ->]]]; auto|apply Hz; lia|].
      rewrite Ep. cbn [mbind option_bind].
      destruct (rshift_spec k1 Hk1) as [Hk2 E2]. rewrite E1 in E2. fold (rest (val k)) in E2.
      destruct (IH (multiprecision_rshift k1) naf1 (S i)) as (naf' & k' & El & Hk' & Ek' & Hn' & Hds).
      { done. } { rewrite E2. by apply rest_below_max, fits_words. }
      { rewrite E2. by apply fits_rest. } { done. } { lia. }
      { intros j Hj. rewrite Hg. destruct (Nat.eqb_spec j i); [lia|]. apply Hz. lia. }
      rewrite E2 in *. exists naf', k'. split; [rewrite El; do 3 f_equal; simpl; lia|].
      split; [done|]. split; [done|]. split; [done|]. intros j Hj. rewrite (Hds j Hj), Hg.
      destruct (Nat.ltb_spec j (S i)), (Nat.ltb_spec j i), (Nat.eqb_spec j i); try lia; try done.
      * subst. by rewrite Nat.sub_diag.
      * by replace (j - i)%nat with (S (j - S i)) by lia.
Qed.

Lemma naf_get_zeros j : (j < 260)%nat → naf_get (replicate 65 0) j = Some 0.
Proof.
  intros Hj. unfold naf_get. rewrite lookup_replicate_2 by (apply Nat.Div0.div_lt_upper_bound; lia).
  cbn [mbind option_bind]. by rewrite Z.shiftr_0_l.
Qed.

(** The recoding of a 256-bit number. *)
Definition naf_of (k : list Z) : list Z := recode 257 (val k).

Lemma ECC_NAF_ok k :
  words 8 k → val k ≠ W ^ 8 - 1 →
  ∃ naf k', ECC_NAF (replicate 65 0) k = Some (naf, length (naf_of k), k') ∧ words 8 k' ∧ val k' = 0 ∧
    ∀ j, (j < length (naf_of k))%nat → naf_get naf j = naf_of k !! j.
Proof.
  intros Hk Hmax.
  destruct (naf_loop_spec 257 k (replicate 65 0) 0 Hk Hmax (fits_words k Hk)) as (naf & k' & E & Hk' & E' & _ & Hd).
  { split; [by rewrite length_replicate|]. apply Forall_replicate. unfold is_u8. lia. }
  { lia. } { intros j Hj. apply naf_get_zeros. lia. }
  exists naf, k'. split; [exact E|]. split; [done|]. split; [done|]. intros j Hj.
  pose proof (recode_length 257 (val k)). unfold naf_of in *. rewrite Hd by lia. cbn [Nat.ltb Nat.leb].
  rewrite Nat.sub_0_r. destruct (nth_lookup_or_length (recode 257 (val k)) j 0) as [->|]; [done|lia].
Qed.

Lemma ECC_NAF_max naf k : words 8 k → val k = W ^ 8 - 1 → ECC_NAF naf k = None.
Proof.
  intros Hk E. unfold ECC_NAF, naf_fuel. rewrite naf_loop_S, most_signbits_pos by done. rewrite E. cbn [negb Z.eqb].
  replace (W ^ 8 - 1 =? 0) with false by (by vm_compute). cbn [negb].
  pose proof (naf_digit_spec k Hk) as Hd. destruct (naf_digit k) as [[d k']|] eqn:Ed; [|done].
  exfalso. destruct Hd as (Hk' & -> & E'). apply (val_range 8) in Hk'. change (Z.of_nat 8) with 8 in Hk'.
  rewrite E in E'. assert (digit_value (digit (W ^ 8 - 1)) = -1) as Ev by (by vm_compute). rewrite Ev in E'. lia.
Qed.

(** C24: the non-adjacent form.  For every 256-bit k but 2^256 - 1, [ECC_NAF] ends
    and packs at most 257 digits 0, 1 and -1 into its octets, no two neighbours of
    which differ from 0 and whose weighted sum is k; k itself is left 0. *)
Theorem ECC_NAF_spec k :
  words 8 k → val k ≠ W ^ 8 - 1 →
  ∃ naf n k' ds, ECC_NAF (replicate 65 0) k = Some (naf, n, k') ∧ val k' = 0 ∧
    length ds = n ∧ (n <= 257)%nat ∧ (∀ j, (j < n)%nat → naf_get naf j = ds !! j) ∧
    Forall (fun d => d = 0 ∨ d = 1 ∨ d = 3) ds ∧ naf_value ds = val k ∧ nonadjacent ds = true.
Proof.
  intros Hk Hmax. destruct (ECC_NAF_ok k Hk Hmax) as (naf & k' & E & _ & E' & Hg).
  exists naf, (length (naf_of k)), k', (naf_of k). split; [done|]. split; [done|]. split; [done|].
  split; [apply recode_length|]. split; [done|]. split; [apply recode_digits|].
  split; [by apply recode_value, fits_words|apply recode_nonadjacent].
Qed.

(** For k = 2^256 - 1 the carry of the recoding runs past the last word: the
    model has no result, the code writes [k[8]]. *)
Theorem ECC_NAF_overflow naf : ECC_NAF naf (replicate 8 0xFFFFFFFF) = None.
Proof.
  apply ECC_NAF_max; [|by vm_compute].
  split; [done|]. apply Forall_replicate. unfold is_u32. lia.
Qed.

Lemma ECC_NAF_spec_witness :
  ∃ naf n k' ds, ECC_NAF (replicate 65 0) (to_words 8 0xFFFFFFFFFFFFFFFF) = Some (naf, n, k') ∧ val k' = 0 ∧
    length ds = n ∧ (n <= 257)%nat ∧ (∀ j, (j < n)%nat → naf_get naf j = ds !! j) ∧
    Forall (fun d => d = 0 ∨ d = 1 ∨ d = 3) ds ∧ naf_value ds = val (to_words 8 0xFFFFFFFFFFFFFFFF) ∧
    nonadjacent ds = true.
Proof.
  apply (ECC_NAF_spec (to_words 8 0xFFFFFFFFFFFFFFFF)); [apply to_words_ok|apply Z.eqb_neq; by vm_compute].
Defined.
