(* ===== verification/P256Curve.v ===== *)
(** * The curve and its group law

    The points of y^2 = x^3 - 3 x + b over the integers modulo a prime, and the
    addition of points by chords and tangents.  This is the specification the
    functions on projective points are compared with. *)
From Stdlib Require Import Zmod Field.
From S2P Require Import Prelude.

(** Addition of points over the field [K] of integers modulo [p]. *)
Section curve.
Context (p : Z) (b : Zmod p).
Local Abbreviation K := (Zmod p).
Local Open Scope Zmod_scope.

(** A point with its coordinates, or the point at infinity. *)
Definition affine : Type := option (K * K).

Definition three : K := 1 + 1 + 1.

Definition on_curve (P : affine) : Prop :=
  match P with
  | None => True
  | Some (x, y) => y * y = x * x * x - three * x + b
  end.

(** The third point of the line with slope [l] through [(x1, y1)] and a point with
    abscissa [x2], reflected. *)
Definition chord (l x1 y1 x2 : K) : affine :=
  let x3 := l * l - x1 - x2 in Some (x3, l * (x1 - x3) - y1).

Definition neg (P : affine) : affine :=
  match P with
  | None => None
  | Some (x, y) => Some (x, - y)
  end.

Definition padd (P Q : affine) : affine :=
  match P, Q with
  | None, _ => Q
  | _, None => P
  | Some (x1, y1), Some (x2, y2) =>
      if Zmod.eqb x1 x2 then
        if Zmod.eqb (y1 + y2) 0 then None
        else chord (Zmod.mdiv (three * (x1 * x1) - three) (y1 + y1)) x1 y1 x1
      else chord (Zmod.mdiv (y2 - y1) (x2 - x1)) x1 y1 x2
  end.

Context (Hp : Z.prime p).
Add Field Kfield : (Zmod.field_theory p Hp).

Lemma mdiv_mul (x y : K) : y <> 0 → Zmod.mdiv x y * y = x.
Proof. intros Hy. field. exact Hy. Qed.

Lemma eqb_reflect (x y : K) : {x = y ∧ Zmod.eqb x y = true} + {x ≠ y ∧ Zmod.eqb x y = false}.
Proof.
  destruct (Zmod.eqb x y) eqn:E; [left|right]; split; try done; [by apply Zmod.eqb_eq|].
  intros ->. by rewrite Zmod.eqb_refl in E.
Qed.

Lemma sub_nonzero (x y : K) : x ≠ y → y - x ≠ 0.
Proof. intros Hne E. apply Hne. replace y with (x + (y - x)) by ring. rewrite E. ring. Qed.

Lemma mul_eq_0 (x y : K) : x * y = 0 → x ≠ 0 → y = 0.
Proof.
  intros E Hx. replace y with (Zmod.inv x * (x * y)) by (field; exact Hx). rewrite E. ring.
Qed.

Lemma sub_eq_0 (x y : K) : x - y = 0 → x = y.
Proof. intros E. replace x with (y + (x - y)) by ring. rewrite E. ring. Qed.

(** The line through two points of the curve meets it in a third one: the cubic minus
    the square of the line vanishes there. *)
Lemma chord_on_curve l x1 y1 x2 y2 :
  x1 ≠ x2 → l * (x2 - x1) = y2 - y1 → on_curve (Some (x1, y1)) → on_curve (Some (x2, y2)) →
  on_curve (chord l x1 y1 x2).
Proof.
  intros Hne Hl H1 H2. pose proof (sub_nonzero _ _ Hne) as Hd. cbn in *.
  set (x3 := l * l - x1 - x2). set (f x := x * x * x - three * x + b).
  apply sub_eq_0, (mul_eq_0 (x2 - x1)); [|exact Hd].
  transitivity ((y1 * y1 - f x1) * (x2 - x3) + ((l * (x2 - x1) + y1) * (l * (x2 - x1) + y1) - f x2) * (x3 - x1)).
  - unfold f, x3. ring.
  - rewrite Hl. replace (y2 - y1 + y1) with y2 by ring. rewrite H1, H2. unfold f. ring.
Qed.

(** The same for the tangent. *)
Lemma tangent_on_curve l x1 y1 :
  l * (y1 + y1) = three * (x1 * x1) - three → on_curve (Some (x1, y1)) →
  on_curve (chord l x1 y1 x1).
Proof.
  intros Hl H1. cbn in *. set (x3 := l * l - x1 - x1). set (f x := x * x * x - three * x + b).
  apply sub_eq_0.
  transitivity ((y1 * y1 - f x1) + (l * (y1 + y1) - (three * (x1 * x1) - three)) * (x3 - x1)).
  - unfold f, x3, three. ring.
  - rewrite H1, Hl. unfold f. ring.
Qed.

Lemma neg_on_curve P : on_curve P → on_curve (neg P).
Proof. destruct P as [[x y]|]; [|done]. cbn. intros <-. ring. Qed.

(** Two points with the same abscissa are equal or opposite. *)
Lemma same_x x y1 y2 :
  on_curve (Some (x, y1)) → on_curve (Some (x, y2)) → y1 ≠ y2 → y1 + y2 = 0.
Proof.
  cbn. intros H1 H2 Hne. apply (mul_eq_0 (y1 - y2)).
  - replace ((y1 - y2) * (y1 + y2)) with (y1 * y1 - y2 * y2) by ring. rewrite H1, H2. ring.
  - intros E. by apply Hne, sub_eq_0.
Qed.

Lemma two_nonzero (Hp2 : (2 < p)%Z) : (1 + 1 : K) ≠ 0.
Proof.
  intros E. apply (f_equal Zmod.to_Z) in E.
  rewrite Zmod.to_Z_add, Zmod.to_Z_1_pos, Zmod.to_Z_0, Z.mod_small in E; lia.
Qed.

Lemma double_zero (Hp2 : (2 < p)%Z) (y : K) : y + y = 0 → y = 0.
Proof.
  intros E. apply (mul_eq_0 (1 + 1)); [|by apply two_nonzero]. rewrite <-E. ring.
Qed.

Lemma padd_on_curve P Q : on_curve P → on_curve Q → on_curve (padd P Q).
Proof.
  destruct P as [[x1 y1]|], Q as [[x2 y2]|]; intros H1 H2; try done. unfold padd.
  destruct (eqb_reflect x1 x2) as [[<- ->]|[Hne ->]].
  - destruct (eqb_reflect (y1 + y2) 0) as [[_ ->]|[Hy ->]]; [done|].
    destruct (eqb_reflect y1 y2) as [[<- _]|[Hne _]].
    + apply tangent_on_curve; [by apply mdiv_mul|done].
    + by destruct Hy; apply (same_x x1).
  - apply (chord_on_curve _ _ _ _ y2); [done| |done|done]. by apply mdiv_mul, sub_nonzero.
Qed.
End curve.
