(* ===== verification/P256Ecc.v ===== *)
(** * Points of the curve ([p_256_ecc_pp.cc], [p_256_curvepara.cc])

    Doubling and addition of points in Jacobian coordinates, multiplication of a
    point by a number, and the check that a point lies on the curve. *)
From Stdlib Require Import Zmod Field.
From S2P Require Import Prelude P256Arith P256Mod P256Inv P256Prime P256Naf P256Curve.

(** ** The functions *)

(** A computation has a result unless it runs out of an array or of fuel.  The flag
    is not part of the program: it tells whether every product so far met the
    condition under which the reduction is exact. *)
Definition ecc (A : Type) : Type := option (A * bool).

#[export] Instance ecc_ret : MRet ecc := fun A a => Some (a, true).
#[export] Instance ecc_bind : MBind ecc := fun A B f m =>
  match m with
  | Some (a, ok) => match f a with Some (b, ok') => Some (b, ok && ok') | None => None end
  | None => None
  end.
Definition lift {A} (m : option A) : ecc A :=
  match m with Some a => Some (a, true) | None => None end.

(** The two products; what the local array held before does not matter
    ([mult_words]). *)
Definition mult_mod (a b : list Z) : ecc (list Z) :=
  Some (multiprecision_mersenns_mult_mod multiprecision_init a b, product_ok (val a) (val b)).
Definition squa_mod (a : list Z) : ecc (list Z) :=
  Some (multiprecision_mersenns_squa_mod multiprecision_init a, product_ok (val a) (val a)).

Record Point := mkPoint { pt_x : list Z; pt_y : list Z; pt_z : list Z }.

(** The parameters of the curve: the modulus, b and the base point. *)
Record elliptic_curve_t := { ec_b : list Z; ec_p : list Z; ec_G : Point }.

Definition p_256_init_curve : elliptic_curve_t := {|
  ec_p := [0xFFFFFFFF; 0xFFFFFFFF; 0xFFFFFFFF; 0x0; 0x0; 0x0; 0x00000001; 0xFFFFFFFF];
  ec_b := [0x27d2604b; 0x3bce3c3e; 0xcc53b0f6; 0x651d06b0; 0x769886bc; 0xb3ebbd55; 0xaa3a93e7; 0x5ac635d8];
  ec_G := mkPoint
    [0xd898c296; 0xf4a13945; 0x2deb33a0; 0x77037d81; 0x63a440f2; 0xf8bce6e5; 0xe12c4247; 0x6b17d1f2]
    [0x37bf51f5; 0xcbb64068; 0x6b315ece; 0x2bce3357; 0x7c0f9e16; 0x8ee7eb4a; 0xfe1a7f9b; 0x4fe342e2]
    multiprecision_init |}.

Definition p_256_init_point : Point :=
  mkPoint multiprecision_init multiprecision_init multiprecision_init.

(** [q = 2 p]; for the point at infinity only [q->z] is written. *)
Definition ECC_Double (q p : Point) : ecc Point :=
  if multiprecision_iszero (pt_z p) then mret (mkPoint (pt_x q) (pt_y q) multiprecision_init)
  else
    let x1 := pt_x p in
    let y1 := pt_y p in
    let z1 := pt_z p in
    t1 ← squa_mod z1;
    let t2 := multiprecision_sub_mod x1 t1 in
    let t1 := multiprecision_add_mod x1 t1 in
    t2 ← mult_mod t1 t2;
    let t3 := multiprecision_lshift_mod t2 in
    let t2 := multiprecision_add_mod t3 t2 in
    z3 ← mult_mod y1 z1;
    let z3 := multiprecision_lshift_mod z3 in
    y3 ← squa_mod y1;
    let y3 := multiprecision_lshift_mod y3 in
    t3 ← mult_mod y3 x1;
    let t3 := multiprecision_lshift_mod t3 in
    y3 ← squa_mod y3;
    let y3 := multiprecision_lshift_mod y3 in
    x3 ← squa_mod t2;
    let t1 := multiprecision_lshift_mod t3 in
    let x3 := multiprecision_sub_mod x3 t1 in
    let t1 := multiprecision_sub_mod t3 x3 in
    t1 ← mult_mod t1 t2;
    let y3 := multiprecision_sub_mod t1 y3 in
    mret (mkPoint x3 y3 z3).

(** [r = p + q] where [q->z] is 1; the result and [p], whose z coordinate serves as
    a temporary. *)
Definition ECC_Add (r p q : Point) : ecc (Point * Point) :=
  let x1 := pt_x p in
  let y1 := pt_y p in
  let z1 := pt_z p in
  let x2 := pt_x q in
  let y2 := pt_y q in
  let z2 := pt_z q in
  if multiprecision_iszero z2 then mret (p, p)
  else if multiprecision_iszero z1 then mret (q, p)
  else
    t1 ← squa_mod z1;
    t2 ← mult_mod z1 t1;
    t1 ← mult_mod x2 t1;
    t2 ← mult_mod y2 t2;
    let t1 := multiprecision_sub_mod t1 x1 in
    let t2 := multiprecision_sub_mod t2 y1 in
    if multiprecision_iszero t1 then
      if multiprecision_iszero t2 then r ← ECC_Double r q; mret (r, p)
      else mret (mkPoint (pt_x r) (pt_y r) multiprecision_init, p)
    else
      z3 ← mult_mod z1 t1;
      y3 ← squa_mod t1;
      z1 ← mult_mod y3 t1;
      y3 ← mult_mod y3 x1;
      let t1 := multiprecision_lshift_mod y3 in
      x3 ← squa_mod t2;
      let x3 := multiprecision_sub_mod x3 t1 in
      let x3 := multiprecision_sub_mod x3 z1 in
      let y3 := multiprecision_sub_mod y3 x3 in
      y3 ← mult_mod y3 t2;
      z1 ← mult_mod z1 y1;
      let y3 := multiprecision_sub_mod y3 z1 in
      mret (mkPoint x3 y3 z3, mkPoint x1 y1 z1).

(** [for (int i = NumNaf - 1; i >= 0; i--)]; [r] is the copy of [q] the body makes. *)
Fixpoint mult_loop (i : nat) (naf : list Z) (q p minus_p : Point) : ecc Point :=
  match i with
  | O => mret q
  | S i =>
      let r := q in
      q ← ECC_Double q r;
      sign ← lift (naf_get naf i);
      let r := q in
      q ← (if sign =? 1 then '(q, _) ← ECC_Add q r p; mret q
           else if sign =? 3 then '(q, _) ← ECC_Add q r minus_p; mret q
           else mret q);
      mult_loop i naf q p minus_p
  end.

Definition one : list Z := <[0%nat := 1]> multiprecision_init.

(** The product [q], and what becomes of [p] and of [n]. *)
Definition ECC_PointMult_Bin_NAF (p : Point) (n : list Z) : ecc (Point * Point * list Z) :=
  let p := mkPoint (pt_x p) (pt_y p) one in
  let q := p_256_init_point in
  let minus_p := mkPoint (multiprecision_copy (pt_x p)) (fst (multiprecision_sub modp (pt_y p))) one in
  '(naf, NumNaf, n) ← lift (ECC_NAF (replicate 65 0) n);
  q ← mult_loop NumNaf naf q p minus_p;
  inv ← lift (multiprecision_inv_mod (pt_z q));
  z ← squa_mod inv;
  x ← mult_mod (pt_x q) z;
  z ← mult_mod z inv;
  y ← mult_mod (pt_y q) z;
  mret (mkPoint x y z, p, n).

Definition ECC_ValidatePoint (pt : Point) : ecc bool :=
  let curve_p256 := p_256_init_curve in
  y2_mod ← squa_mod (pt_y pt);
  rhs ← squa_mod (pt_x pt);
  let three := <[0%nat := 3]> multiprecision_init in
  let rhs := multiprecision_sub_mod rhs three in
  rhs ← mult_mod rhs (pt_x pt);
  let rhs := multiprecision_add_mod rhs (ec_b curve_p256) in
  mret (multiprecision_compare rhs y2_mod =? 0).

(** ** Residues *)
Abbreviation F := (Zmod p256).

(** The residue of an array of words. *)
Definition el (a : list Z) : F := Zmod.of_Z p256 (val a).

Definition curve_b : F := el (ec_b p_256_init_curve).

Local Open Scope Zmod_scope.
Add Field Ffield : (Zmod.field_theory p256 prime_p256).

Lemma p256_gt_2 : (2 < p256)%Z.
Proof. by vm_compute. Qed.

Lemma val_modp : val modp = p256.
Proof. done. Qed.

Lemma inv_init : multiprecision_inv_mod multiprecision_init = Some multiprecision_init.
Proof. by vm_compute. Qed.

#[local] Opaque p256 modp.

Lemma el_val a : field a → Zmod.to_Z (el a) = val a.
Proof. intros Ha. apply Zmod.to_Z_of_Z_small. by apply field_range. Qed.

Lemma el_eq a z : val a = (z mod p256)%Z → el a = Zmod.of_Z p256 z.
Proof. intros E. unfold el. by rewrite E, Zmod.of_Z_mod. Qed.

Lemma el_add a b : field a → field b → el (multiprecision_add_mod a b) = el a + el b.
Proof.
  intros Ha Hb. destruct (add_mod_ok a b Ha Hb) as [_ E]. by rewrite (el_eq _ _ E), Zmod.of_Z_add.
Qed.
Lemma el_sub a b : field a → field b → el (multiprecision_sub_mod a b) = el a - el b.
Proof.
  intros Ha Hb. destruct (sub_mod_ok a b Ha Hb) as [_ E]. by rewrite (el_eq _ _ E), Zmod.of_Z_sub.
Qed.
Lemma el_lshift a : field a → el (multiprecision_lshift_mod a) = el a + el a.
Proof.
  intros Ha. destruct (lshift_mod_ok a Ha) as [_ E]. rewrite (el_eq _ _ E).
  replace (2 * val a)%Z with (val a + val a)%Z by lia. by rewrite Zmod.of_Z_add.
Qed.

Lemma field_add a b : field a → field b → field (multiprecision_add_mod a b).
Proof. intros. by apply add_mod_ok. Qed.
Lemma field_sub a b : field a → field b → field (multiprecision_sub_mod a b).
Proof. intros. by apply sub_mod_ok. Qed.
Lemma field_lshift a : field a → field (multiprecision_lshift_mod a).
Proof. intros. by apply lshift_mod_ok. Qed.

Lemma words_init : words 8 multiprecision_init.
Proof. split; [done|]. apply Forall_replicate. unfold is_u32. lia. Qed.
Lemma field_init : field multiprecision_init.
Proof. split; [apply words_init|]. pose proof p256_gt_2. replace (val multiprecision_init) with 0%Z by done. lia. Qed.
Lemma el_init : el multiprecision_init = 0.
Proof. done. Qed.
Lemma field_one : field one.
Proof.
  split; [|pose proof p256_gt_2; replace (val one) with 1%Z by done; lia].
  split; [done|]. repeat (apply Forall_cons; split; [unfold is_u32; lia|]). by apply Forall_nil.
Qed.
Lemma el_one : el one = 1.
Proof. done. Qed.

#[local] Hint Resolve field_add field_sub field_lshift field_init field_one : rfc.

Lemma iszero_el a : field a → multiprecision_iszero a = Zmod.eqb (el a) 0.
Proof.
  intros Ha. rewrite iszero_val by apply Ha. unfold Zmod.eqb. by rewrite el_val, Zmod.to_Z_0 by done.
Qed.

Lemma el_inj a b : field a → field b → el a = el b → a = b.
Proof.
  intros Ha Hb E. apply (val_inj 8); [apply Ha|apply Hb|]. by rewrite <-(el_val a), <-(el_val b), E.
Qed.

(** ** Results under the flag *)

(** What holds of the result if every product was exact. *)
Definition right {A} (m : ecc A) (Q : A → Prop) : Prop := ∀ a, m = Some (a, true) → Q a.

Lemma right_ret {A} (a : A) (Q : A → Prop) : Q a → right (mret a) Q.
Proof. intros H b [= <-]. done. Qed.

Lemma right_bind {A B} (m : ecc A) (f : A → ecc B) Q R :
  right m Q → (∀ a, Q a → right (f a) R) → right (m ≫= f) R.
Proof.
  intros Hm Hf b E. unfold mbind, ecc_bind in E. destruct m as [[a ok]|]; [|done].
  destruct (f a) as [[b' ok']|] eqn:Ef; [|done]. injection E as -> Hok.
  apply andb_true_iff in Hok as [-> ->]. apply (Hf a); [by apply Hm|done].
Qed.

Lemma right_mono {A} (m : ecc A) (Q R : A → Prop) : right m Q → (∀ a, Q a → R a) → right m R.
Proof. intros Hm HQ a E. by apply HQ, Hm. Qed.

Lemma right_lift {A} (m : option A) (Q : A → Prop) : (∀ a, m = Some a → Q a) → right (lift m) Q.
Proof. intros H a E. apply H. destruct m; [|done]. by injection E as ->. Qed.

Lemma mult_right_words a b :
  words 8 a → words 8 b → right (mult_mod a b) (fun c => field c ∧ el c = el a * el b).
Proof.
  intros Ha Hb c [= <- Hok].
  destruct (mult_mod_ok multiprecision_init a b words_init Ha Hb Hok) as [Hf E].
  split; [done|]. by rewrite (el_eq _ _ E), Zmod.of_Z_mul.
Qed.

Lemma mult_right a b :
  field a → field b → right (mult_mod a b) (fun c => field c ∧ el c = el a * el b).
Proof. intros [Ha _] [Hb _]. by apply mult_right_words. Qed.

Lemma squa_right_words a : words 8 a → right (squa_mod a) (fun c => field c ∧ el c = el a * el a).
Proof. intros Ha. exact (mult_right_words a a Ha Ha). Qed.

Lemma squa_right a : field a → right (squa_mod a) (fun c => field c ∧ el c = el a * el a).
Proof. intros Ha. exact (mult_right a a Ha Ha). Qed.

(** One product of a function: its operands are residues, and so is the result. *)
Ltac product :=
  eapply right_bind;
    [first [apply squa_right | apply mult_right]; auto 6 with rfc|];
  let t := fresh "t" in let Ht := fresh "Ht" in let Et := fresh "Et" in
  intros t [Ht Et];
  rewrite ?el_add, ?el_sub, ?el_lshift in Et by auto 6 with rfc.

(** ** Points *)

(** A point in Jacobian coordinates stands for the point (X / Z^2, Y / Z^3). *)
Definition rep (p : Point) (P : affine p256) : Prop :=
  field (pt_x p) ∧ field (pt_y p) ∧ field (pt_z p) ∧
  match P with
  | None => el (pt_z p) = 0
  | Some (x, y) =>
      let z := el (pt_z p) in z ≠ 0 ∧ el (pt_x p) = x * (z * z) ∧ el (pt_y p) = y * (z * z * z)
  end.

Lemma mul_nonzero (x y : F) : x ≠ 0 → y ≠ 0 → x * y ≠ 0.
Proof. intros Hx Hy E. by apply Hy, (mul_eq_0 p256 prime_p256 x). Qed.

Lemma double_right q p P :
  field (pt_x q) → field (pt_y q) → rep p P → right (ECC_Double q p) (fun r => rep r (padd p256 P P)).
Proof.
  intros Hqx Hqy (Hx & Hy & Hz & HP). unfold ECC_Double. rewrite iszero_el by done.
  destruct P as [[x y]|].
  2: { rewrite HP, Zmod.eqb_refl. apply right_ret. by split_and!; auto with rfc. }
  destruct HP as (Hz0 & Ex & Ey). destruct (eqb_reflect p256 (el (pt_z p)) 0) as [[? _]|[_ ->]]; [done|].
  do 8 product. apply right_ret.
  split; [cbn; auto 6 with rfc|]. split; [cbn; auto 6 with rfc|]. split; [cbn; auto 6 with rfc|].
  cbn [pt_x pt_y pt_z padd]. rewrite Zmod.eqb_refl, !el_sub, !el_lshift by auto 6 with rfc.
  rewrite Et6, Et5, Et4, Et3, Et2, Et1, Et0, Et, Ex, Ey. revert Hz0.
  generalize (el (pt_z p)). clear. intros z Hz0. destruct (eqb_reflect p256 (y + y) 0) as [[E ->]|[Hne ->]].
  - apply (double_zero p256 prime_p256 p256_gt_2) in E as ->. ring.
  - assert (y ≠ 0) by (intros ->; apply Hne; ring).
    cbn [chord]. unfold three. split.
    + replace (_ + _) with ((y + y) * (z * z * (z * z))) by ring. by repeat apply mul_nonzero.
    + split; field; done.
Qed.

Lemma rep_affine q x y :
  field (pt_x q) → field (pt_y q) → field (pt_z q) → el (pt_z q) = 1 → el (pt_x q) = x → el (pt_y q) = y →
  rep q (Some (x, y)).
Proof.
  intros Hx Hy Hz E1 <- <-. split; [done|]. split; [done|]. split; [done|]. rewrite E1.
  split; [|split; ring]. apply Zmod.one_neq_zero. pose proof p256_gt_2. lia.
Qed.

(** The general case of the addition: the coordinates of the sum. *)
Lemma add_coordinates (x1 y1 z x2 y2 : F) :
  z ≠ 0 → x1 ≠ x2 →
  let t1 := x2 * (z * z) - x1 * (z * z) in
  let t2 := y2 * (z * (z * z)) - y1 * (z * z * z) in
  let z3 := z * t1 in
  let x3 := t2 * t2 - (t1 * t1 * (x1 * (z * z)) + t1 * t1 * (x1 * (z * z))) - t1 * t1 * t1 in
  let y3 := (t1 * t1 * (x1 * (z * z)) - x3) * t2 - t1 * t1 * t1 * (y1 * (z * z * z)) in
  match chord p256 (Zmod.mdiv (y2 - y1) (x2 - x1)) x1 y1 x2 with
  | None => False
  | Some (x, y) => z3 ≠ 0 ∧ x3 = x * (z3 * z3) ∧ y3 = y * (z3 * z3 * z3)
  end.
Proof.
  intros Hz Hne. cbv zeta. pose proof (sub_nonzero p256 prime_p256 _ _ Hne) as Hd. cbn [chord]. split.
  - replace (x2 * (z * z) - x1 * (z * z)) with ((x2 - x1) * (z * z)) by ring.
    by repeat apply mul_nonzero.
  - split; field; done.
Qed.

Lemma add_right r p q P x2 y2 :
  field (pt_x r) → field (pt_y r) → rep p P → field (pt_x q) → field (pt_y q) → field (pt_z q) →
  el (pt_z q) = 1 → el (pt_x q) = x2 → el (pt_y q) = y2 →
  on_curve p256 curve_b P → on_curve p256 curve_b (Some (x2, y2)) →
  right (ECC_Add r p q) (fun rp => rep (fst rp) (padd p256 P (Some (x2, y2)))).
Proof.
  intros Hrx Hry (Hx & Hy & Hz & HP) Hqx Hqy Hqz E1 E2 E3 Hc1 Hc2. unfold ECC_Add.
  pose proof (rep_affine q x2 y2 Hqx Hqy Hqz E1 E2 E3) as Hq.
  rewrite !iszero_el by done. rewrite E1.
  replace (Zmod.eqb (1 : F) 0) with false by (destruct (eqb_reflect p256 1 0) as [[E _]|[_ ->]]; [|done];
    exfalso; revert E; apply Zmod.one_neq_zero; pose proof p256_gt_2; lia).
  destruct P as [[x1 y1]|]; [|rewrite HP, Zmod.eqb_refl; by apply right_ret].
  destruct HP as (Hz0 & Ex & Ey). destruct (eqb_reflect p256 (el (pt_z p)) 0) as [[? _]|[_ ->]]; [done|].
  do 4 product. rewrite !iszero_el, !el_sub by auto with rfc.
  assert (el t1 - el (pt_x p) = (x2 - x1) * (el (pt_z p) * el (pt_z p))) as Ed1
    by (rewrite Et1, Et, E2, Ex; ring).
  assert (el t2 - el (pt_y p) = (y2 - y1) * (el (pt_z p) * el (pt_z p) * el (pt_z p))) as Ed2
    by (rewrite Et2, Et0, Et, E3, Ey; ring).
  cbn [padd]. destruct (eqb_reflect p256 (el t1 - el (pt_x p)) 0) as [[E ->]|[Hne ->]].
  - rewrite Ed1, Zmod.mul_comm in E. apply mul_eq_0 in E; [|apply prime_p256|by apply mul_nonzero].
    apply sub_eq_0 in E as ->; [|apply prime_p256]. rewrite Zmod.eqb_refl.
    destruct (eqb_reflect p256 (el t2 - el (pt_y p)) 0) as [[E ->]|[Hne ->]].
    + rewrite Ed2, Zmod.mul_comm in E. apply mul_eq_0 in E; [|apply prime_p256|by repeat apply mul_nonzero].
      apply sub_eq_0 in E as ->; [|apply prime_p256].
      eapply right_bind; [by apply (double_right r q (Some (x1, y1)))|]. intros r' Hr'. apply right_ret.
      cbn [fst]. cbn [padd] in Hr'. by rewrite Zmod.eqb_refl in Hr'.
    + assert (y1 ≠ y2) as Hyne by (intros ->; apply Hne; rewrite Ed2; ring).
      rewrite (same_x p256 curve_b prime_p256 x1 y1 y2), Zmod.eqb_refl by done. apply right_ret.
      split; [done|]. split; [done|]. split; [apply field_init|apply el_init].
  - assert (x1 ≠ x2) as Hxne by (intros ->; apply Hne; rewrite Ed1; ring).
    destruct (eqb_reflect p256 x1 x2) as [[-> _]|[_ ->]]; [done|].
    do 7 product. apply right_ret. cbn [fst].
    pose proof (add_coordinates x1 y1 (el (pt_z p)) x2 y2 Hz0 Hxne) as Hc. cbv zeta in Hc.
    destruct (chord _ _ _ _ _) as [[x y]|]; [|done].
    split; [cbn; auto 6 with rfc|]. split; [cbn; auto 6 with rfc|]. split; [done|]. cbn [pt_x pt_y pt_z].
    rewrite !el_sub, !el_lshift by auto 6 with rfc.
    rewrite Et9, Et8, Et7, Et6, Et5, Et4, Et3, Et2, Et1, Et0, Et, Ex, Ey, E2, E3. exact Hc.
Qed.

(** ** Multiplication of a point *)

(** The sum that the digits [ds], the lowest first, prescribe: double the sum of the
    upper digits and add the point, its opposite or nothing. *)
Fixpoint chain (ds : list Z) (P : affine p256) : affine p256 :=
  match ds with
  | [] => None
  | d :: ds =>
      let Q := chain ds P in
      let Q := padd p256 Q Q in
      if (d =? 1)%Z then padd p256 Q P
      else if (d =? 3)%Z then padd p256 Q (neg p256 P)
      else Q
  end.

Section multiplication.
Context (p minus_p : Point) (x y : F).
Context (Hp : field (pt_x p) ∧ field (pt_y p) ∧ field (pt_z p)).
Context (Hm : field (pt_x minus_p) ∧ field (pt_y minus_p) ∧ field (pt_z minus_p)).
Context (Ep : el (pt_x p) = x ∧ el (pt_y p) = y ∧ el (pt_z p) = 1).
Context (Em : el (pt_x minus_p) = x ∧ el (pt_y minus_p) = - y ∧ el (pt_z minus_p) = 1).
Context (Hc : on_curve p256 curve_b (Some (x, y))).

Lemma chain_on_curve ds : on_curve p256 curve_b (chain ds (Some (x, y))).
Proof.
  induction ds as [|d ds IH]; [done|]. cbn [chain].
  pose proof (padd_on_curve p256 curve_b prime_p256 _ _ IH IH).
  repeat case_match; try done; apply padd_on_curve; try done; try apply prime_p256.
  by apply (neg_on_curve p256 curve_b prime_p256 (Some (x, y))).
Qed.

Lemma rep_fields q P : rep q P → field (pt_x q) ∧ field (pt_y q).
Proof. by intros (? & ? & _). Qed.

Lemma mult_loop_right naf ds q i :
  (∀ j, (j < i)%nat → naf_get naf j = ds !! j) → (i <= length ds)%nat →
  rep q (chain (drop i ds) (Some (x, y))) →
  right (mult_loop i naf q p minus_p) (fun q => rep q (chain ds (Some (x, y)))).
Proof.
  revert q. induction i as [|i IH]; intros q Hd Hi Hq; [by apply right_ret|]. cbn [mult_loop].
  destruct (lookup_lt_is_Some_2 ds i Hi) as [d Ed].
  set (Q := chain (drop (S i) ds) (Some (x, y))) in *.
  destruct (rep_fields _ _ Hq) as [Hqx Hqy].
  eapply right_bind; [by apply (double_right q q Q)|]. intros q1 Hq1.
  destruct (rep_fields _ _ Hq1) as [Hqx1 Hqy1].
  eapply right_bind; [apply (right_lift _ (fun s => s = d)); rewrite Hd, Ed by lia; congruence|].
  intros ? ->. pose proof (chain_on_curve (drop (S i) ds)) as HQ. fold Q in HQ.
  pose proof (padd_on_curve p256 curve_b prime_p256 _ _ HQ HQ) as HQ2.
  assert (chain (drop i ds) (Some (x, y)) =
    if (d =? 1)%Z then padd p256 (padd p256 Q Q) (Some (x, y))
    else if (d =? 3)%Z then padd p256 (padd p256 Q Q) (Some (x, - y)) else padd p256 Q Q) as Ec
    by (by rewrite (drop_S ds d i)).
  eapply right_bind; [|intros q2 Hq2; apply IH; [intros; apply Hd; lia|lia|exact Hq2]].
  rewrite Ec. destruct (d =? 1)%Z; [|destruct (d =? 3)%Z; [|by apply right_ret]].
  - eapply right_bind; [apply (add_right q1 q1 p (padd p256 Q Q) x y); tauto|].
    intros [q2 r2] H2. by apply right_ret.
  - eapply right_bind; [apply (add_right q1 q1 minus_p (padd p256 Q Q) x (- y)); try tauto|].
    + by apply (neg_on_curve p256 curve_b prime_p256 (Some (x, y))).
    + intros [q2 r2] H2. by apply right_ret.
Qed.
End multiplication.

Lemma modp_field_neg a :
  field a → (0 < val a)%Z →
  field (fst (multiprecision_sub modp a)) ∧ el (fst (multiprecision_sub modp a)) = - el a.
Proof.
  intros Ha Hpos. pose proof (field_range a Ha) as Hr.
  destruct (sub_exact modp a words_modp (proj1 Ha)) as [Hw E]; [rewrite val_modp; lia|]. rewrite val_modp in E.
  split; [split; [done|lia]|]. unfold el. rewrite E, Zmod.of_Z_sub.
  replace (Zmod.of_Z p256 p256) with (0 : F).
  2: { apply Zmod.to_Z_inj. rewrite Zmod.to_Z_0, Zmod.to_Z_of_Z. symmetry. apply Z_mod_same_full. }
  ring.
Qed.

Lemma inv_el a r :
  field a → multiprecision_inv_mod a = Some r →
  field r ∧ (el a = 0 → el r = 0) ∧ (el a ≠ 0 → el r * el a = 1).
Proof.
  intros Ha E. destruct (inv_mod_ok a (proj1 Ha)) as (r' & E' & Hr & Em). simplify_eq.
  pose proof (field_range a Ha) as Hra. pose proof p256_gt_2. split; [done|]. split.
  - intros E0. assert (a = multiprecision_init) as -> by (by apply el_inj; [|apply field_init|]).
    rewrite inv_init in E. injection E as <-. apply el_init.
  - intros Hne. unfold el. rewrite <-Zmod.of_Z_mul. apply Zmod.to_Z_inj.
    rewrite Zmod.to_Z_of_Z, Em, Zmod.to_Z_1_pos by lia.
    assert (val a ≠ 0%Z) by (intros E0; apply Hne; unfold el; by rewrite E0).
    rewrite Z.gcd_comm, (Z.coprime_prime_small p256 (val a)) by (apply prime_p256 || lia).
    apply Z.mod_small. lia.
Qed.

(** ** Every call returns *)

Definition total {A} (m : ecc A) (Q : A → Prop) : Prop := ∃ a ok, m = Some (a, ok) ∧ Q a.

Lemma total_ret {A} (a : A) (Q : A → Prop) : Q a → total (mret a) Q.
Proof. intros H. by exists a, true. Qed.

Lemma total_bind {A B} (m : ecc A) (f : A → ecc B) Q R :
  total m Q → (∀ a, Q a → total (f a) R) → total (m ≫= f) R.
Proof.
  intros (a & ok & -> & Ha) Hf. destruct (Hf a Ha) as (b & ok' & E & Hb).
  exists b, (ok && ok'). split; [|done]. cbn. by rewrite E.
Qed.

Lemma total_lift {A} (m : option A) a (Q : A → Prop) : m = Some a → Q a → total (lift m) Q.
Proof. intros -> H. by exists a, true. Qed.

Lemma words_reduce c k : words 8 c → words 8 (reduce_once c k).
Proof.
  intros Hc. unfold reduce_once. pose proof (sub_spec c modp Hc words_modp) as H.
  destruct (multiprecision_sub c modp) as [d b]. destruct H as [Hd _]. repeat case_match; done.
Qed.
Lemma words_add a b : words 8 a → words 8 b → words 8 (multiprecision_add_mod a b).
Proof.
  intros Ha Hb. unfold multiprecision_add_mod. pose proof (add_spec a b Ha Hb) as H.
  destruct (multiprecision_add a b). by apply words_reduce, H.
Qed.
Lemma words_lshift a : words 8 a → words 8 (multiprecision_lshift_mod a).
Proof.
  intros Ha. unfold multiprecision_lshift_mod. pose proof (lshift_spec a Ha) as H.
  destruct (multiprecision_lshift a). by apply words_reduce, H.
Qed.
Lemma words_sub a b : words 8 a → words 8 b → words 8 (multiprecision_sub_mod a b).
Proof.
  intros Ha Hb. unfold multiprecision_sub_mod. pose proof (sub_spec a b Ha Hb) as H.
  destruct (multiprecision_sub a b) as [c k]. destruct H as [Hc _].
  pose proof (add_spec c modp Hc words_modp) as H. destruct (multiprecision_add c modp). case_match; [apply H|done].
Qed.

Lemma words_fast_columns a : words 8 (fst (fast_columns a)).
Proof.
  unfold fast_columns. repeat case_match. cbn [fst].
  repeat match goal with
  | E : under _ (minus _ _) = (?c, _) |- _ =>
      assert (is_u32 c) by (unfold under, minus, minus_ in E; repeat case_match; simplify_eq; apply u32_range); clear E
  end.
  auto 10 with rfc.
Qed.

Lemma words_fast_mod a : words 8 (multiprecision_fast_mod_P256 a).
Proof.
  unfold multiprecision_fast_mod_P256. pose proof (words_fast_columns a) as Hc.
  destruct (fast_columns a) as [c U]. cbn [fst] in Hc.
  assert (words 8 (fast_adjust c U)) as Hd.
  { unfold fast_adjust. case_match.
    - apply (iter_words _ p256 _ c add_modp_step Hc).
    - apply (iter_words _ (- p256) _ c sub_modp_step Hc). }
  exact (words_reduce _ 0 Hd).
Qed.

Lemma mult_total a b : total (mult_mod a b) (words 8).
Proof. do 2 eexists. split; [done|]. apply words_fast_mod. Qed.
Lemma squa_total a : total (squa_mod a) (words 8).
Proof. exact (mult_total a a). Qed.

Definition point_words (p : Point) : Prop := words 8 (pt_x p) ∧ words 8 (pt_y p) ∧ words 8 (pt_z p).

#[local] Hint Resolve words_add words_sub words_lshift words_init : rfc.

Ltac products :=
  repeat (eapply total_bind; [first [apply squa_total | apply mult_total]|intros ? ?]).

Lemma double_total q p : point_words q → point_words p → total (ECC_Double q p) point_words.
Proof.
  intros (Hqx & Hqy & Hqz) (Hx & Hy & Hz). unfold ECC_Double. case_match.
  - apply total_ret. by split; [|split]; auto with rfc.
  - products. apply total_ret. split; [|split]; cbn; auto 8 with rfc.
Qed.

Lemma add_total r p q :
  point_words r → point_words p → point_words q →
  total (ECC_Add r p q) (fun rp => point_words (fst rp)).
Proof.
  intros Hr Hp Hq. pose proof Hr as (Hrx & Hry & Hrz). pose proof Hp as (Hpx & Hpy & Hpz).
  unfold ECC_Add. case_match; [by apply total_ret|]. case_match; [by apply total_ret|].
  products. case_match; [case_match|].
  - eapply total_bind; [by apply double_total|]. intros. by apply total_ret.
  - apply total_ret. by split; [|split]; auto with rfc.
  - products. apply total_ret. split; [|split]; cbn; auto 8 with rfc.
Qed.

Lemma mult_loop_total i naf q p minus_p :
  (∀ j, (j < i)%nat → is_Some (naf_get naf j)) →
  point_words q → point_words p → point_words minus_p →
  total (mult_loop i naf q p minus_p) point_words.
Proof.
  intros Hd Hq Hp Hm. revert q Hq. induction i as [|i IH]; intros q Hq; [by apply total_ret|].
  cbn [mult_loop]. eapply total_bind; [by apply double_total|]. intros q1 Hq1.
  destruct (Hd i) as [d Ed]; [lia|]. eapply total_bind; [by eapply (total_lift _ d (fun _ => True))|].
  intros s _. eapply total_bind; [|intros q2 Hq2; apply IH; [intros; apply Hd; lia|exact Hq2]].
  repeat case_match; [| |by apply total_ret];
    (eapply total_bind; [by apply add_total|]); intros [] ?; by apply total_ret.
Qed.

Lemma PointMult_total p n :
  point_words p → words 8 n → val n ≠ (W ^ 8 - 1)%Z →
  total (ECC_PointMult_Bin_NAF p n) (fun '(q, p', n') => point_words q).
Proof.
  intros (Hx & Hy & _) Hn Hmax. unfold ECC_PointMult_Bin_NAF. cbn [pt_x pt_y].
  destruct (ECC_NAF_ok n Hn Hmax) as (naf & n' & En & _ & En' & Hg). rewrite En.
  eapply total_bind; [by apply (total_lift _ (naf, length (naf_of n), n') (fun r => r = (naf, length (naf_of n), n')))|].
  intros ? ->. eapply total_bind.
  { apply mult_loop_total.
    - intros j Hj. rewrite Hg by done. by apply lookup_lt_is_Some.
    - split; [|split]; apply words_init.
    - split; [|split]; [done|done|apply field_one].
    - split; [|split]; [done| |apply field_one]. cbn [pt_y].
      pose proof (sub_spec modp (pt_y p) words_modp Hy) as Hs. destruct (multiprecision_sub modp (pt_y p)).
      by destruct Hs. }
  intros q Hq. cbv beta iota. destruct (inv_mod_ok (pt_z q)) as (inv & Ei & _); [apply Hq|].
  eapply total_bind; [by apply (total_lift _ inv (fun _ => True))|]. intros ? _.
  products. apply total_ret. by split; [|split].
Qed.

(** The coordinates of a result: both 0 for the point at infinity. *)
Definition stands_for (q : Point) (P : affine p256) : Prop :=
  match P with
  | None => val (pt_x q) = 0%Z ∧ val (pt_y q) = 0%Z
  | Some (x, y) => val (pt_x q) = Zmod.to_Z x ∧ val (pt_y q) = Zmod.to_Z y
  end.

(** A point whose coordinates are reduced, on the curve, and not its own opposite. *)
Definition valid_point (p : Point) : Prop :=
  field (pt_x p) ∧ field (pt_y p) ∧ (0 < val (pt_y p))%Z ∧
  on_curve p256 curve_b (Some (el (pt_x p), el (pt_y p))).

Definition affine_of (p : Point) : affine p256 := Some (el (pt_x p), el (pt_y p)).

Lemma PointMult_right p n :
  valid_point p → words 8 n → val n ≠ (W ^ 8 - 1)%Z →
  right (ECC_PointMult_Bin_NAF p n)
    (fun '(q, p', n') => stands_for q (chain (naf_of n) (affine_of p)) ∧ val n' = 0%Z).
Proof.
  intros (Hx & Hy & Hpos & Hc) Hn Hmax. unfold ECC_PointMult_Bin_NAF. cbn [pt_x pt_y].
  destruct (ECC_NAF_ok n Hn Hmax) as (naf & n' & En & _ & En' & Hg). rewrite En.
  eapply right_bind; [by apply (right_lift _ (fun r => r = (naf, length (naf_of n), n'))); intros ? [= <-]|].
  intros ? ->. destruct (modp_field_neg (pt_y p) Hy Hpos) as [Hmy Emy].
  eapply right_bind.
  { apply (mult_loop_right _ _ (el (pt_x p)) (el (pt_y p))) with (ds := naf_of n);
      try (cbn [pt_x pt_y pt_z]; split; [|split]; auto with rfc; fail).
    - done.
    - done.
    - done.
    - rewrite drop_ge by done. split; [apply field_init|]. split; [apply field_init|].
      split; [apply field_init|apply el_init]. }
  fold (affine_of p). intros q (Hqx & Hqy & Hqz & Hq). cbv beta iota.
  eapply right_bind; [apply right_lift; intros r Er; exact (inv_el _ _ Hqz Er)|].
  intros inv (Hinv & Hi0 & Hi1). do 4 product. apply right_ret. split; [|done].
  unfold stands_for. cbn [pt_x pt_y]. rewrite <-!el_val by done.
  destruct (chain _ _) as [[x y]|].
  - destruct Hq as (Hz0 & Ex & Ey). specialize (Hi1 Hz0). split; f_equal.
    + rewrite Et0, Et, Ex.
      transitivity (x * ((el inv * el (pt_z q)) * (el inv * el (pt_z q)))); [ring|rewrite Hi1; ring].
    + rewrite Et2, Et1, Et, Ey.
      transitivity (y * ((el inv * el (pt_z q)) * (el inv * el (pt_z q)) * (el inv * el (pt_z q))));
        [ring|rewrite Hi1; ring].
  - specialize (Hi0 Hq). rewrite Et0, Et2, Et1, Et, Hi0, <-(Zmod.to_Z_0 p256). split; f_equal; ring.
Qed.



Lemma three_el : el (<[0%nat := 3%Z]> multiprecision_init) = three p256 ∧ field (<[0%nat := 3%Z]> multiprecision_init).
Proof.
  split.
  - unfold three, el. replace (val (<[0%nat := 3%Z]> multiprecision_init)) with (1 + 1 + 1)%Z by done.
    by rewrite !Zmod.of_Z_add, Zmod.of_Z_1.
  - split; [|replace (val (<[0%nat := 3%Z]> multiprecision_init)) with 3%Z by done].
    + split; [done|]. repeat (apply Forall_cons; split; [unfold is_u32; lia|]). by apply Forall_nil.
    + destruct p256_bounds as [Hb _]. assert (3 < 2 ^ 255)%Z by done. lia.
Qed.

Lemma b_field : field (ec_b p_256_init_curve).
Proof.
  split; [|apply Z.ltb_lt; by vm_compute].
  split; [done|]. repeat (apply Forall_cons; split; [unfold is_u32; lia|]). by apply Forall_nil.
Qed.

Lemma ValidatePoint_total pt : words 8 (pt_x pt) → words 8 (pt_y pt) →
  total (ECC_ValidatePoint pt) (fun _ => True).
Proof. intros Hx Hy. pose proof b_field. unfold ECC_ValidatePoint. products. by apply total_ret. Qed.


(** ** Witnesses *)
Definition G : Point := ec_G p_256_init_curve.

Lemma G_valid : valid_point G.
Proof.
  split; [|split; [|split]].
  - split; [|apply Z.ltb_lt; by vm_compute].
    split; [done|]. repeat (apply Forall_cons; split; [unfold is_u32; lia|]). by apply Forall_nil.
  - split; [|apply Z.ltb_lt; by vm_compute].
    split; [done|]. repeat (apply Forall_cons; split; [unfold is_u32; lia|]). by apply Forall_nil.
  - done.
  - apply Zmod.eqb_eq. by vm_compute.
Qed.

(** The flag of a computation. *)
Definition flag {A} (m : ecc A) : bool := match m with Some (_, ok) => ok | None => false end.



