(* ===== verification/Aes.v ===== *)
(** * AES ([gd/crypto_toolbox/aes.cc])

    The cipher as the build configures it: tables, 32-bit copies and the version that
    works in place ([USE_TABLES], [HAVE_UINT_32T], [HAVE_MEMCPY], [VERSION_1]).  A
    block is a list of 16 octets, a key schedule one of 240.  An array that a
    function changes in place is a variable that is bound again by every store.
    Exclusive or on 32-bit lanes is the exclusive or of their octets. *)
From S2P Require Import Prelude.

(** [a[i]], and [a] after [a[i] = v]. *)
Notation "a ! i" := (nth i%nat a 0) (at level 20, i at level 9).
Definition upd (a : list Z) (i : nat) (v : Z) : list Z := <[i := v]> a.

Notation "a ⊕ b" := (Z.lxor a b) (at level 50, left associativity).

(** ** Multiplication by constants *)
Definition WPOLY : Z := 0x011b.
Definition DPOLY : Z := 0x008d.

Definition f1 (x : Z) : Z := x.
Definition f2 (x : Z) : Z := Z.shiftl x 1 ⊕ Z.land (Z.shiftr x 7) 1 * WPOLY.
Definition f4 (x : Z) : Z :=
  Z.shiftl x 2 ⊕ Z.land (Z.shiftr x 6) 1 * WPOLY ⊕ Z.land (Z.shiftr x 6) 2 * WPOLY.
Definition f8 (x : Z) : Z :=
  Z.shiftl x 3 ⊕ Z.land (Z.shiftr x 5) 1 * WPOLY ⊕ Z.land (Z.shiftr x 5) 2 * WPOLY
  ⊕ Z.land (Z.shiftr x 5) 4 * WPOLY.
Definition d2 (x : Z) : Z := Z.shiftr x 1 ⊕ (if nz (Z.land x 1) then DPOLY else 0).

Definition f3 (x : Z) : Z := f2 x ⊕ x.
Definition f9 (x : Z) : Z := f8 x ⊕ x.
Definition fb (x : Z) : Z := f8 x ⊕ f2 x ⊕ x.
Definition fd (x : Z) : Z := f8 x ⊕ f4 x ⊕ x.
Definition fe (x : Z) : Z := f8 x ⊕ f4 x ⊕ f2 x.

(** ** Tables *)
Definition sb_data (w : Z → Z) : list Z := map (fun x => u8 (w x))
  [0x63; 0x7c; 0x77; 0x7b; 0xf2; 0x6b; 0x6f; 0xc5; 0x30; 0x01; 0x67; 0x2b; 0xfe; 0xd7; 0xab; 0x76;
   0xca; 0x82; 0xc9; 0x7d; 0xfa; 0x59; 0x47; 0xf0; 0xad; 0xd4; 0xa2; 0xaf; 0x9c; 0xa4; 0x72; 0xc0;
   0xb7; 0xfd; 0x93; 0x26; 0x36; 0x3f; 0xf7; 0xcc; 0x34; 0xa5; 0xe5; 0xf1; 0x71; 0xd8; 0x31; 0x15;
   0x04; 0xc7; 0x23; 0xc3; 0x18; 0x96; 0x05; 0x9a; 0x07; 0x12; 0x80; 0xe2; 0xeb; 0x27; 0xb2; 0x75;
   0x09; 0x83; 0x2c; 0x1a; 0x1b; 0x6e; 0x5a; 0xa0; 0x52; 0x3b; 0xd6; 0xb3; 0x29; 0xe3; 0x2f; 0x84;
   0x53; 0xd1; 0x00; 0xed; 0x20; 0xfc; 0xb1; 0x5b; 0x6a; 0xcb; 0xbe; 0x39; 0x4a; 0x4c; 0x58; 0xcf;
   0xd0; 0xef; 0xaa; 0xfb; 0x43; 0x4d; 0x33; 0x85; 0x45; 0xf9; 0x02; 0x7f; 0x50; 0x3c; 0x9f; 0xa8;
   0x51; 0xa3; 0x40; 0x8f; 0x92; 0x9d; 0x38; 0xf5; 0xbc; 0xb6; 0xda; 0x21; 0x10; 0xff; 0xf3; 0xd2;
   0xcd; 0x0c; 0x13; 0xec; 0x5f; 0x97; 0x44; 0x17; 0xc4; 0xa7; 0x7e; 0x3d; 0x64; 0x5d; 0x19; 0x73;
   0x60; 0x81; 0x4f; 0xdc; 0x22; 0x2a; 0x90; 0x88; 0x46; 0xee; 0xb8; 0x14; 0xde; 0x5e; 0x0b; 0xdb;
   0xe0; 0x32; 0x3a; 0x0a; 0x49; 0x06; 0x24; 0x5c; 0xc2; 0xd3; 0xac; 0x62; 0x91; 0x95; 0xe4; 0x79;
   0xe7; 0xc8; 0x37; 0x6d; 0x8d; 0xd5; 0x4e; 0xa9; 0x6c; 0x56; 0xf4; 0xea; 0x65; 0x7a; 0xae; 0x08;
   0xba; 0x78; 0x25; 0x2e; 0x1c; 0xa6; 0xb4; 0xc6; 0xe8; 0xdd; 0x74; 0x1f; 0x4b; 0xbd; 0x8b; 0x8a;
   0x70; 0x3e; 0xb5; 0x66; 0x48; 0x03; 0xf6; 0x0e; 0x61; 0x35; 0x57; 0xb9; 0x86; 0xc1; 0x1d; 0x9e;
   0xe1; 0xf8; 0x98; 0x11; 0x69; 0xd9; 0x8e; 0x94; 0x9b; 0x1e; 0x87; 0xe9; 0xce; 0x55; 0x28; 0xdf;
   0x8c; 0xa1; 0x89; 0x0d; 0xbf; 0xe6; 0x42; 0x68; 0x41; 0x99; 0x2d; 0x0f; 0xb0; 0x54; 0xbb; 0x16].

Definition isb_data (w : Z → Z) : list Z := map (fun x => u8 (w x))
  [0x52; 0x09; 0x6a; 0xd5; 0x30; 0x36; 0xa5; 0x38; 0xbf; 0x40; 0xa3; 0x9e; 0x81; 0xf3; 0xd7; 0xfb;
   0x7c; 0xe3; 0x39; 0x82; 0x9b; 0x2f; 0xff; 0x87; 0x34; 0x8e; 0x43; 0x44; 0xc4; 0xde; 0xe9; 0xcb;
   0x54; 0x7b; 0x94; 0x32; 0xa6; 0xc2; 0x23; 0x3d; 0xee; 0x4c; 0x95; 0x0b; 0x42; 0xfa; 0xc3; 0x4e;
   0x08; 0x2e; 0xa1; 0x66; 0x28; 0xd9; 0x24; 0xb2; 0x76; 0x5b; 0xa2; 0x49; 0x6d; 0x8b; 0xd1; 0x25;
   0x72; 0xf8; 0xf6; 0x64; 0x86; 0x68; 0x98; 0x16; 0xd4; 0xa4; 0x5c; 0xcc; 0x5d; 0x65; 0xb6; 0x92;
   0x6c; 0x70; 0x48; 0x50; 0xfd; 0xed; 0xb9; 0xda; 0x5e; 0x15; 0x46; 0x57; 0xa7; 0x8d; 0x9d; 0x84;
   0x90; 0xd8; 0xab; 0x00; 0x8c; 0xbc; 0xd3; 0x0a; 0xf7; 0xe4; 0x58; 0x05; 0xb8; 0xb3; 0x45; 0x06;
   0xd0; 0x2c; 0x1e; 0x8f; 0xca; 0x3f; 0x0f; 0x02; 0xc1; 0xaf; 0xbd; 0x03; 0x01; 0x13; 0x8a; 0x6b;
   0x3a; 0x91; 0x11; 0x41; 0x4f; 0x67; 0xdc; 0xea; 0x97; 0xf2; 0xcf; 0xce; 0xf0; 0xb4; 0xe6; 0x73;
   0x96; 0xac; 0x74; 0x22; 0xe7; 0xad; 0x35; 0x85; 0xe2; 0xf9; 0x37; 0xe8; 0x1c; 0x75; 0xdf; 0x6e;
   0x47; 0xf1; 0x1a; 0x71; 0x1d; 0x29; 0xc5; 0x89; 0x6f; 0xb7; 0x62; 0x0e; 0xaa; 0x18; 0xbe; 0x1b;
   0xfc; 0x56; 0x3e; 0x4b; 0xc6; 0xd2; 0x79; 0x20; 0x9a; 0xdb; 0xc0; 0xfe; 0x78; 0xcd; 0x5a; 0xf4;
   0x1f; 0xdd; 0xa8; 0x33; 0x88; 0x07; 0xc7; 0x31; 0xb1; 0x12; 0x10; 0x59; 0x27; 0x80; 0xec; 0x5f;
   0x60; 0x51; 0x7f; 0xa9; 0x19; 0xb5; 0x4a; 0x0d; 0x2d; 0xe5; 0x7a; 0x9f; 0x93; 0xc9; 0x9c; 0xef;
   0xa0; 0xe0; 0x3b; 0x4d; 0xae; 0x2a; 0xf5; 0xb0; 0xc8; 0xeb; 0xbb; 0x3c; 0x83; 0x53; 0x99; 0x61;
   0x17; 0x2b; 0x04; 0x7e; 0xba; 0x77; 0xd6; 0x26; 0xe1; 0x69; 0x14; 0x63; 0x55; 0x21; 0x0c; 0x7d].

(** The numbers 0x00 to 0xff in order. *)
Definition mm_data (w : Z → Z) : list Z := map (fun x => u8 (w x)) (seqZ 0 256).

Definition sbox : list Z := Eval vm_compute in sb_data f1.
Definition isbox : list Z := Eval vm_compute in isb_data f1.
Definition gfm2_sbox : list Z := Eval vm_compute in sb_data f2.
Definition gfm3_sbox : list Z := Eval vm_compute in sb_data f3.
Definition gfmul_9 : list Z := Eval vm_compute in mm_data f9.
Definition gfmul_b : list Z := Eval vm_compute in mm_data fb.
Definition gfmul_d : list Z := Eval vm_compute in mm_data fd.
Definition gfmul_e : list Z := Eval vm_compute in mm_data fe.

Definition s_box (x : Z) : Z := nth (Z.to_nat x) sbox 0.
Definition is_box (x : Z) : Z := nth (Z.to_nat x) isbox 0.
Definition gfm2_sb (x : Z) : Z := nth (Z.to_nat x) gfm2_sbox 0.
Definition gfm3_sb (x : Z) : Z := nth (Z.to_nat x) gfm3_sbox 0.
Definition gfm_9 (x : Z) : Z := nth (Z.to_nat x) gfmul_9 0.
Definition gfm_b (x : Z) : Z := nth (Z.to_nat x) gfmul_b 0.
Definition gfm_d (x : Z) : Z := nth (Z.to_nat x) gfmul_d 0.
Definition gfm_e (x : Z) : Z := nth (Z.to_nat x) gfmul_e 0.

(** ** Blocks *)
Definition xor_block (d s : list Z) : list Z := zip_with Z.lxor d s.
Definition copy_and_key (s k : list Z) : list Z := zip_with Z.lxor s k.
Definition add_round_key (d k : list Z) : list Z := xor_block d k.

Definition shift_sub_rows (st : list Z) : list Z :=
  let st := upd st 0 (s_box (st ! 0)) in
  let st := upd st 4 (s_box (st ! 4)) in
  let st := upd st 8 (s_box (st ! 8)) in
  let st := upd st 12 (s_box (st ! 12)) in
  let tt := st ! 1 in
  let st := upd st 1 (s_box (st ! 5)) in
  let st := upd st 5 (s_box (st ! 9)) in
  let st := upd st 9 (s_box (st ! 13)) in
  let st := upd st 13 (s_box tt) in
  let tt := st ! 2 in
  let st := upd st 2 (s_box (st ! 10)) in
  let st := upd st 10 (s_box tt) in
  let tt := st ! 6 in
  let st := upd st 6 (s_box (st ! 14)) in
  let st := upd st 14 (s_box tt) in
  let tt := st ! 15 in
  let st := upd st 15 (s_box (st ! 11)) in
  let st := upd st 11 (s_box (st ! 7)) in
  let st := upd st 7 (s_box (st ! 3)) in
  let st := upd st 3 (s_box tt) in
  st.

Definition inv_shift_sub_rows (st : list Z) : list Z :=
  let st := upd st 0 (is_box (st ! 0)) in
  let st := upd st 4 (is_box (st ! 4)) in
  let st := upd st 8 (is_box (st ! 8)) in
  let st := upd st 12 (is_box (st ! 12)) in
  let tt := st ! 13 in
  let st := upd st 13 (is_box (st ! 9)) in
  let st := upd st 9 (is_box (st ! 5)) in
  let st := upd st 5 (is_box (st ! 1)) in
  let st := upd st 1 (is_box tt) in
  let tt := st ! 2 in
  let st := upd st 2 (is_box (st ! 10)) in
  let st := upd st 10 (is_box tt) in
  let tt := st ! 6 in
  let st := upd st 6 (is_box (st ! 14)) in
  let st := upd st 14 (is_box tt) in
  let tt := st ! 3 in
  let st := upd st 3 (is_box (st ! 7)) in
  let st := upd st 7 (is_box (st ! 11)) in
  let st := upd st 11 (is_box (st ! 15)) in
  let st := upd st 15 (is_box tt) in
  st.

Definition mix_sub_columns (dt : list Z) : list Z :=
  let st := dt in
  let dt := upd dt 0 (gfm2_sb (st ! 0) ⊕ gfm3_sb (st ! 5) ⊕ s_box (st ! 10) ⊕ s_box (st ! 15)) in
  let dt := upd dt 1 (s_box (st ! 0) ⊕ gfm2_sb (st ! 5) ⊕ gfm3_sb (st ! 10) ⊕ s_box (st ! 15)) in
  let dt := upd dt 2 (s_box (st ! 0) ⊕ s_box (st ! 5) ⊕ gfm2_sb (st ! 10) ⊕ gfm3_sb (st ! 15)) in
  let dt := upd dt 3 (gfm3_sb (st ! 0) ⊕ s_box (st ! 5) ⊕ s_box (st ! 10) ⊕ gfm2_sb (st ! 15)) in
  let dt := upd dt 4 (gfm2_sb (st ! 4) ⊕ gfm3_sb (st ! 9) ⊕ s_box (st ! 14) ⊕ s_box (st ! 3)) in
  let dt := upd dt 5 (s_box (st ! 4) ⊕ gfm2_sb (st ! 9) ⊕ gfm3_sb (st ! 14) ⊕ s_box (st ! 3)) in
  let dt := upd dt 6 (s_box (st ! 4) ⊕ s_box (st ! 9) ⊕ gfm2_sb (st ! 14) ⊕ gfm3_sb (st ! 3)) in
  let dt := upd dt 7 (gfm3_sb (st ! 4) ⊕ s_box (st ! 9) ⊕ s_box (st ! 14) ⊕ gfm2_sb (st ! 3)) in
  let dt := upd dt 8 (gfm2_sb (st ! 8) ⊕ gfm3_sb (st ! 13) ⊕ s_box (st ! 2) ⊕ s_box (st ! 7)) in
  let dt := upd dt 9 (s_box (st ! 8) ⊕ gfm2_sb (st ! 13) ⊕ gfm3_sb (st ! 2) ⊕ s_box (st ! 7)) in
  let dt := upd dt 10 (s_box (st ! 8) ⊕ s_box (st ! 13) ⊕ gfm2_sb (st ! 2) ⊕ gfm3_sb (st ! 7)) in
  let dt := upd dt 11 (gfm3_sb (st ! 8) ⊕ s_box (st ! 13) ⊕ s_box (st ! 2) ⊕ gfm2_sb (st ! 7)) in
  let dt := upd dt 12 (gfm2_sb (st ! 12) ⊕ gfm3_sb (st ! 1) ⊕ s_box (st ! 6) ⊕ s_box (st ! 11)) in
  let dt := upd dt 13 (s_box (st ! 12) ⊕ gfm2_sb (st ! 1) ⊕ gfm3_sb (st ! 6) ⊕ s_box (st ! 11)) in
  let dt := upd dt 14 (s_box (st ! 12) ⊕ s_box (st ! 1) ⊕ gfm2_sb (st ! 6) ⊕ gfm3_sb (st ! 11)) in
  let dt := upd dt 15 (gfm3_sb (st ! 12) ⊕ s_box (st ! 1) ⊕ s_box (st ! 6) ⊕ gfm2_sb (st ! 11)) in
  dt.

Definition inv_mix_sub_columns (dt : list Z) : list Z :=
  let st := dt in
  let dt := upd dt 0 (is_box (gfm_e (st ! 0) ⊕ gfm_b (st ! 1) ⊕ gfm_d (st ! 2) ⊕ gfm_9 (st ! 3))) in
  let dt := upd dt 5 (is_box (gfm_9 (st ! 0) ⊕ gfm_e (st ! 1) ⊕ gfm_b (st ! 2) ⊕ gfm_d (st ! 3))) in
  let dt := upd dt 10 (is_box (gfm_d (st ! 0) ⊕ gfm_9 (st ! 1) ⊕ gfm_e (st ! 2) ⊕ gfm_b (st ! 3))) in
  let dt := upd dt 15 (is_box (gfm_b (st ! 0) ⊕ gfm_d (st ! 1) ⊕ gfm_9 (st ! 2) ⊕ gfm_e (st ! 3))) in
  let dt := upd dt 4 (is_box (gfm_e (st ! 4) ⊕ gfm_b (st ! 5) ⊕ gfm_d (st ! 6) ⊕ gfm_9 (st ! 7))) in
  let dt := upd dt 9 (is_box (gfm_9 (st ! 4) ⊕ gfm_e (st ! 5) ⊕ gfm_b (st ! 6) ⊕ gfm_d (st ! 7))) in
  let dt := upd dt 14 (is_box (gfm_d (st ! 4) ⊕ gfm_9 (st ! 5) ⊕ gfm_e (st ! 6) ⊕ gfm_b (st ! 7))) in
  let dt := upd dt 3 (is_box (gfm_b (st ! 4) ⊕ gfm_d (st ! 5) ⊕ gfm_9 (st ! 6) ⊕ gfm_e (st ! 7))) in
  let dt := upd dt 8 (is_box (gfm_e (st ! 8) ⊕ gfm_b (st ! 9) ⊕ gfm_d (st ! 10) ⊕ gfm_9 (st ! 11))) in
  let dt := upd dt 13 (is_box (gfm_9 (st ! 8) ⊕ gfm_e (st ! 9) ⊕ gfm_b (st ! 10) ⊕ gfm_d (st ! 11))) in
  let dt := upd dt 2 (is_box (gfm_d (st ! 8) ⊕ gfm_9 (st ! 9) ⊕ gfm_e (st ! 10) ⊕ gfm_b (st ! 11))) in
  let dt := upd dt 7 (is_box (gfm_b (st ! 8) ⊕ gfm_d (st ! 9) ⊕ gfm_9 (st ! 10) ⊕ gfm_e (st ! 11))) in
  let dt := upd dt 12 (is_box (gfm_e (st ! 12) ⊕ gfm_b (st ! 13) ⊕ gfm_d (st ! 14) ⊕ gfm_9 (st ! 15))) in
  let dt := upd dt 1 (is_box (gfm_9 (st ! 12) ⊕ gfm_e (st ! 13) ⊕ gfm_b (st ! 14) ⊕ gfm_d (st ! 15))) in
  let dt := upd dt 6 (is_box (gfm_d (st ! 12) ⊕ gfm_9 (st ! 13) ⊕ gfm_e (st ! 14) ⊕ gfm_b (st ! 15))) in
  let dt := upd dt 11 (is_box (gfm_b (st ! 12) ⊕ gfm_d (st ! 13) ⊕ gfm_9 (st ! 14) ⊕ gfm_e (st ! 15))) in
  dt.

(** ** Precomputed key schedule *)
Record aes_context := { ksch : list Z; rnd : Z }.

(** One pass of the loop: four octets of the schedule and the round constant. *)
Definition key_word (keylen cc rc : Z) (k : list Z) : list Z * Z :=
  let c := Z.to_nat cc in
  let t0 := nth (c - 4) k 0 in
  let t1 := nth (c - 3) k 0 in
  let t2 := nth (c - 2) k 0 in
  let t3 := nth (c - 1) k 0 in
  let '(t0, t1, t2, t3, rc) :=
    if cc mod keylen =? 0 then
      let tt := t0 in
      (u8 (s_box t1 ⊕ rc), s_box t2, s_box t3, s_box tt, u8 (f2 rc))
    else if (24 <? keylen) && (cc mod keylen =? 16) then (s_box t0, s_box t1, s_box t2, s_box t3, rc)
    else (t0, t1, t2, t3, rc) in
  let tt := Z.to_nat (u8 (cc - keylen)) in
  let k := upd k (c + 0) (nth (tt + 0) k 0 ⊕ t0) in
  let k := upd k (c + 1) (nth (tt + 1) k 0 ⊕ t1) in
  let k := upd k (c + 2) (nth (tt + 2) k 0 ⊕ t2) in
  let k := upd k (c + 3) (nth (tt + 3) k 0 ⊕ t3) in
  (k, rc).

(** [for (cc = keylen, rc = 1; cc < hi; cc += 4)]; 60 passes fill the schedule. *)
Fixpoint key_loop (fuel : nat) (keylen hi cc rc : Z) (k : list Z) : list Z :=
  match fuel with
  | O => k
  | S fuel =>
      if cc <? hi then
        let '(k, rc) := key_word keylen cc rc k in key_loop fuel keylen hi (u8 (cc + 4)) rc k
      else k
  end.

(** The result and the context. *)
Definition aes_set_key (key : list Z) (keylen : Z) (ctx : aes_context) : Z * aes_context :=
  let run keylen :=
    let k := take (Z.to_nat keylen) key ++ drop (Z.to_nat keylen) (ksch ctx) in
    let hi := u8 (Z.shiftl (keylen + 28) 2) in
    (0, {| ksch := key_loop 60 keylen hi keylen 1 k; rnd := u8 (Z.shiftr hi 4 - 1) |}) in
  if (keylen =? 16) || (keylen =? 128) then run 16
  else if (keylen =? 24) || (keylen =? 192) then run 24
  else if keylen =? 32 then run 32
  else (255, {| ksch := ksch ctx; rnd := 0 |}).

(** [ctx->ksch + r * N_BLOCK], as far as a block is read there. *)
Definition round_key (k : list Z) (r : nat) : list Z := take 16 (drop (r * 16) k).

(** The result and [out]. *)
Definition aes_encrypt (input out : list Z) (ctx : aes_context) : Z * list Z :=
  if nz (rnd ctx) then
    let n := Z.to_nat (rnd ctx) in
    let s1 := copy_and_key input (ksch ctx) in
    let s1 := foldl (fun s1 r =>
                let s1 := mix_sub_columns s1 in add_round_key s1 (round_key (ksch ctx) r))
                s1 (seq 1 (n - 1)) in
    let s1 := shift_sub_rows s1 in
    (0, copy_and_key s1 (round_key (ksch ctx) n))
  else (255, out).

Definition aes_decrypt (input out : list Z) (ctx : aes_context) : Z * list Z :=
  if nz (rnd ctx) then
    let n := Z.to_nat (rnd ctx) in
    let s1 := copy_and_key input (round_key (ksch ctx) n) in
    let s1 := inv_shift_sub_rows s1 in
    let s1 := foldl (fun s1 r =>
                let s1 := add_round_key s1 (round_key (ksch ctx) r) in inv_mix_sub_columns s1)
                s1 (rev (seq 1 (n - 1))) in
    (0, copy_and_key s1 (ksch ctx))
  else (255, out).

(** ** Cipher block chaining

    The result, the octets written to [out] and the chaining value.  [in] has at
    least [n_block] blocks; [EXIT_SUCCESS] is 0 and [EXIT_FAILURE] 1. *)
Fixpoint aes_cbc_encrypt (input : list Z) (n_block : nat) (iv : list Z) (ctx : aes_context) :
    Z * list Z * list Z :=
  match n_block with
  | O => (0, [], iv)
  | S n_block =>
      let iv := xor_block iv (take 16 input) in
      let '(ret, iv) := aes_encrypt iv iv ctx in
      if nz ret then (1, [], iv)
      else
        let '(ret, out, iv') := aes_cbc_encrypt (drop 16 input) n_block iv ctx in
        (ret, iv ++ out, iv')
  end.

Fixpoint aes_cbc_decrypt (input : list Z) (n_block : nat) (iv : list Z) (ctx : aes_context) :
    Z * list Z * list Z :=
  match n_block with
  | O => (0, [], iv)
  | S n_block =>
      let tmp := take 16 input in
      let '(ret, out) := aes_decrypt tmp tmp ctx in
      if nz ret then (1, [], iv)
      else
        let out := xor_block out iv in
        let iv := tmp in
        let '(ret, rest, iv) := aes_cbc_decrypt (drop 16 input) n_block iv ctx in
        (ret, out ++ rest, iv)
  end.
