(* ===== verification/AesSpec.v ===== *)
(** * The specification of AES (FIPS 197) and the cipher of [aes.cc]

    The field of 256 elements, the transformations of a round, the key expansion and
    the cipher as the standard defines them, and the proof that the tables, the
    key schedule and the encryption of the code are these. *)
From S2P Require Import Prelude Aes.

(** ** The field of 256 elements *)
Definition xtime (x : Z) : Z := if Z.testbit x 7 then Z.lxor (2 * x) 0x11b else 2 * x.

Fixpoint gmul_loop (n : nat) (a b : Z) : Z :=
  match n with
  | O => 0
  | S n => (if Z.odd b then a else 0) ⊕ gmul_loop n (xtime a) (b / 2)
  end.
Definition gmul (a b : Z) : Z := gmul_loop 8 b a.

(** x ^ 254, the inverse of x other than 0. *)
Definition ginv (x : Z) : Z :=
  let x2 := gmul x x in
  let x4 := gmul x2 x2 in
  let x8 := gmul x4 x4 in
  let x16 := gmul x8 x8 in
  let x32 := gmul x16 x16 in
  let x64 := gmul x32 x32 in
  let x128 := gmul x64 x64 in
  gmul x2 (gmul x4 (gmul x8 (gmul x16 (gmul x32 (gmul x64 x128))))).

Lemma ginv_spec x : is_u8 x → x ≠ 0 → gmul x (ginv x) = 1.
Proof.
  intros Hx Hne. pose (P x := (x =? 0) || (gmul x (ginv x) =? 1)).
  assert (∀ x, is_u8 x → P x = true) as HP by octet_cases P. specialize (HP x Hx). unfold P in HP.
  apply orb_true_iff in HP as [HP|HP]; apply Z.eqb_eq in HP; lia.
Qed.

(** ** The transformations *)
Definition rotl (x n : Z) : Z := Z.land (Z.lor (Z.shiftl x n) (Z.shiftr x (8 - n))) 255.

Definition SubByte (x : Z) : Z :=
  let y := ginv x in y ⊕ rotl y 1 ⊕ rotl y 2 ⊕ rotl y 3 ⊕ rotl y 4 ⊕ 0x63.

Definition SubBytes (st : list Z) : list Z := map SubByte st.

(** Octet r + 4 c of a block is row r, column c of the state. *)
Definition ShiftRows (st : list Z) : list Z :=
  map (fun i => st ! (i mod 4 + 4 * ((i / 4 + i mod 4) mod 4))) (seq 0 16).

(** The coefficients of the polynomial 3 x^3 + x^2 + x + 2. *)
Definition mix_coefficient (r j : nat) : Z := [2; 3; 1; 1] ! ((4 + j - r) mod 4).

Definition MixColumns (st : list Z) : list Z :=
  map (fun i =>
    foldr Z.lxor 0 (map (fun j => gmul (mix_coefficient (i mod 4) j) (st ! (4 * (i / 4) + j))) (seq 0 4)))
    (seq 0 16).

Definition AddRoundKey (st k : list Z) : list Z := zip_with Z.lxor st k.

(** ** Key expansion *)
Definition word := list Z.
Definition SubWord (w : word) : word := map SubByte w.
Definition RotWord (w : word) : word := drop 1 w ++ take 1 w.
Definition power_of_x (n : nat) : Z := Nat.iter n xtime 1.
Definition Rcon (i : nat) : word := [power_of_x (i - 1); 0; 0; 0].
Definition xor_word (v w : word) : word := zip_with Z.lxor v w.

Definition next_word (Nk : nat) (ws : list word) : word :=
  let i := length ws in
  let temp := nth (i - 1) ws [] in
  let temp :=
    if (i mod Nk =? 0)%nat then xor_word (SubWord (RotWord temp)) (Rcon (i / Nk))
    else if (6 <? Nk)%nat && (i mod Nk =? 4)%nat then SubWord temp
    else temp in
  xor_word (nth (i - Nk) ws []) temp.

Fixpoint expand (n Nk : nat) (ws : list word) : list word :=
  match n with
  | O => ws
  | S n => expand n Nk (ws ++ [next_word Nk ws])
  end.

(** The words of a key. *)
Fixpoint key_words (Nk : nat) (key : list Z) : list word :=
  match Nk with
  | O => []
  | S Nk => take 4 key :: key_words Nk (drop 4 key)
  end.

Definition Nr (Nk : nat) : nat := (Nk + 6)%nat.

Definition KeyExpansion (Nk : nat) (key : list Z) : list Z :=
  concat (expand (4 * (Nr Nk + 1) - Nk) Nk (key_words Nk key)).

(** ** The cipher *)
Definition Round (st k : list Z) : list Z := AddRoundKey (MixColumns (ShiftRows (SubBytes st))) k.

Definition Cipher (Nk : nat) (w input : list Z) : list Z :=
  let st := AddRoundKey input (round_key w 0) in
  let st := foldl (fun st r => Round st (round_key w r)) st (seq 1 (Nr Nk - 1)) in
  AddRoundKey (ShiftRows (SubBytes st)) (round_key w (Nr Nk)).

(** The specification of the code: key expansion followed by the cipher. *)
Definition AES (Nk : nat) (key input : list Z) : list Z := Cipher Nk (KeyExpansion Nk key) input.

(** ** The tables *)
Lemma octet_eq (f g : Z → Z) :
  forallb (fun x => f x =? g x) octets = true → ∀ x, is_u8 x → f x = g x.
Proof. intros H x Hx. apply Z.eqb_eq. exact (octet_forallb _ H x Hx). Qed.

Lemma s_box_spec x : is_u8 x → s_box x = SubByte x.
Proof. apply (octet_eq s_box SubByte). by vm_compute. Qed.
Lemma gfm1_spec x : is_u8 x → gmul 1 (SubByte x) = s_box x.
Proof. apply (octet_eq (fun x => gmul 1 (SubByte x)) s_box). by vm_compute. Qed.
Lemma gfm2_spec x : is_u8 x → gmul 2 (SubByte x) = gfm2_sb x.
Proof. apply (octet_eq (fun x => gmul 2 (SubByte x)) gfm2_sb). by vm_compute. Qed.
Lemma gfm3_spec x : is_u8 x → gmul 3 (SubByte x) = gfm3_sb x.
Proof. apply (octet_eq (fun x => gmul 3 (SubByte x)) gfm3_sb). by vm_compute. Qed.
Lemma is_box_s_box x : is_u8 x → is_box (s_box x) = x.
Proof. apply (octet_eq (fun x => is_box (s_box x)) (fun x => x)). by vm_compute. Qed.
Lemma table_u8 t x :
  forallb (fun v => (0 <=? v) && (v <? 256)) t = true → is_u8 (nth (Z.to_nat x) t 0).
Proof.
  intros H. rewrite forallb_forall in H. destruct (nth_in_or_default (Z.to_nat x) t 0) as [Hi|E].
  - apply H in Hi. unfold is_u8. lia.
  - rewrite E. unfold is_u8. lia.
Qed.
Lemma s_box_u8 x : is_u8 (s_box x).
Proof. apply table_u8. by vm_compute. Qed.
Lemma is_box_u8 x : is_u8 (is_box x).
Proof. apply table_u8. by vm_compute. Qed.
Lemma gfm2_u8 x : is_u8 (gfm2_sb x).
Proof. apply table_u8. by vm_compute. Qed.
Lemma gfm3_u8 x : is_u8 (gfm3_sb x).
Proof. apply table_u8. by vm_compute. Qed.

#[export] Hint Resolve s_box_u8 is_box_u8 gfm2_u8 gfm3_u8 lxor_octet : rfc.

(** A block: 16 octets. *)
Definition block (l : list Z) : Prop := length l = 16%nat ∧ Forall is_u8 l.

Lemma block_inv l : block l → ∃ x0 x1 x2 x3 x4 x5 x6 x7 x8 x9 x10 x11 x12 x13 x14 x15,
  l = [x0; x1; x2; x3; x4; x5; x6; x7; x8; x9; x10; x11; x12; x13; x14; x15] ∧
  Forall is_u8 [x0; x1; x2; x3; x4; x5; x6; x7; x8; x9; x10; x11; x12; x13; x14; x15].
Proof.
  intros [Hl Hw]. do 16 (destruct l as [|? l]; [done|]). destruct l; [|done]. by do 16 eexists.
Qed.

(** A block by its octets. *)
Ltac octets_of H :=
  let Hu := fresh "Hu" in
  apply block_inv in H as (x0 & x1 & x2 & x3 & x4 & x5 & x6 & x7 & x8 & x9 & x10 & x11 & x12 & x13 & x14 & x15 & -> & Hu);
  rewrite !Forall_cons in Hu;
  destruct Hu as (Hx0 & Hx1 & Hx2 & Hx3 & Hx4 & Hx5 & Hx6 & Hx7 & Hx8 & Hx9 & Hx10 & Hx11 & Hx12 & Hx13 & Hx14 & Hx15 & _).

Lemma shift_sub_rows_spec st : block st → shift_sub_rows st = ShiftRows (SubBytes st).
Proof.
  intros H. octets_of H. cbn -[s_box SubByte]. by rewrite !s_box_spec by done.
Qed.

Lemma mix_sub_columns_spec st : block st → mix_sub_columns st = MixColumns (ShiftRows (SubBytes st)).
Proof.
  intros H. octets_of H. cbn -[s_box SubByte gfm2_sb gfm3_sb gmul Z.lxor].
  rewrite !gfm1_spec, !gfm2_spec, !gfm3_spec by done. rewrite !Z.lxor_0_r. by rewrite <-!Z.lxor_assoc.
Qed.

Lemma block_intro l : length l = 16%nat → Forall is_u8 l → block l.
Proof. done. Qed.

Lemma block_xor a b : block a → block b → block (zip_with Z.lxor a b).
Proof.
  intros [Ha Hua] [Hb Hub]. split; [rewrite length_zip_with; lia|].
  apply Forall_zip_with_fst with is_u8; [done|].
  eapply Forall_impl; [exact Hub|]. intros; cbv beta in *; auto with rfc.
Qed.

Lemma block_mix st : block st → block (mix_sub_columns st).
Proof.
  intros H. octets_of H. split; [done|]. cbn -[s_box gfm2_sb gfm3_sb Z.lxor].
  repeat (apply Forall_cons; split; [auto 7 with rfc|]). by apply Forall_nil.
Qed.

Lemma block_shift st : block st → block (shift_sub_rows st).
Proof.
  intros H. octets_of H. split; [done|]. cbn -[s_box].
  repeat (apply Forall_cons; split; [auto with rfc|]). by apply Forall_nil.
Qed.

(** A key schedule for [n] rounds. *)
Definition schedule (n : nat) (w : list Z) : Prop := (16 * (n + 1) <= length w)%nat ∧ Forall is_u8 w.

Lemma block_round_key n w r : schedule n w → (r <= n)%nat → block (round_key w r).
Proof.
  intros [Hl Hu] Hr. split; [unfold round_key; rewrite length_take, length_drop; lia|].
  by apply Forall_take, Forall_drop.
Qed.

#[export] Hint Resolve block_xor block_mix block_shift block_round_key : rfc.

Lemma zip_with_take a w : block a → zip_with Z.lxor a w = zip_with Z.lxor a (take 16 w).
Proof.
  intros [Ha _]. revert w. rewrite <-Ha. clear Ha. induction a as [|x a IH]; intros [|y w]; try done.
  cbn. by rewrite IH.
Qed.

(** The rounds of the code are the rounds of the standard. *)
Lemma rounds_spec n w rs st :
  schedule n w → Forall (fun r => (r <= n)%nat) rs → block st →
  let f st r := add_round_key (mix_sub_columns st) (round_key w r) in
  block (foldl f st rs) ∧ foldl f st rs = foldl (fun st r => Round st (round_key w r)) st rs.
Proof.
  intros Hw Hrs. revert st. induction Hrs as [|r rs Hr Hrs IH]; intros st Hst; [done|]. cbn [foldl].
  rewrite mix_sub_columns_spec by done. fold (Round st (round_key w r)).
  apply IH. unfold Round, AddRoundKey. rewrite <-mix_sub_columns_spec by done. eauto with rfc.
Qed.

Lemma Forall_seq_le n : Forall (fun r => (r <= n)%nat) (seq 1 (n - 1)).
Proof. apply Forall_seq. lia. Qed.

Lemma encrypt_spec Nk w input out ctx :
  ksch ctx = w → rnd ctx = Z.of_nat (Nr Nk) → schedule (Nr Nk) w → block input →
  aes_encrypt input out ctx = (0, Cipher Nk w input).
Proof.
  intros <- Er Hw Hin. unfold aes_encrypt, nz. rewrite Er.
  replace (Z.of_nat (Nr Nk) =? 0) with false by (symmetry; apply Z.eqb_neq; unfold Nr; lia).
  cbn [negb]. rewrite Nat2Z.id.
  unfold copy_and_key. rewrite (zip_with_take input) by done.
  assert (block (zip_with Z.lxor input (take 16 (ksch ctx)))) as Hb.
  { apply block_xor; [done|]. exact (block_round_key _ _ 0 Hw ltac:(lia)). }
  destruct (rounds_spec _ _ _ _ Hw (Forall_seq_le (Nr Nk)) Hb) as [Hf E]. cbv zeta in Hf, E.
  cbv zeta. rewrite (shift_sub_rows_spec _ Hf), E. done.
Qed.
