(* ===== verification/AesKey.v ===== *)
(** * The key schedule of [aes_set_key] is the key expansion of FIPS 197 *)
From S2P Require Import Prelude Aes AesSpec.

(** A word: four octets. *)
Definition word_ok (w : word) : Prop := length w = 4%nat ∧ Forall is_u8 w.

Lemma word_inv w : word_ok w → ∃ a b c d, w = [a; b; c; d] ∧ is_u8 a ∧ is_u8 b ∧ is_u8 c ∧ is_u8 d.
Proof.
  intros [Hl Hu]. do 4 (destruct w as [|? w]; [done|]). destruct w; [|done].
  rewrite !Forall_cons in Hu. do 4 eexists. split; [done|]. tauto.
Qed.

Lemma word_intro a b c d : is_u8 a → is_u8 b → is_u8 c → is_u8 d → word_ok [a; b; c; d].
Proof. intros. split; [done|]. repeat (apply Forall_cons; split; [done|]). by apply Forall_nil. Qed.

Lemma xor_word_ok v w : word_ok v → word_ok w → word_ok (xor_word v w).
Proof.
  intros Hv Hw. apply word_inv in Hv as (a & b & c & d & -> & ? & ? & ? & ?).
  apply word_inv in Hw as (a' & b' & c' & d' & -> & ? & ? & ? & ?).
  apply word_intro; auto with rfc.
Qed.

Lemma length_concat_words ws : Forall word_ok ws → length (concat ws) = (4 * length ws)%nat.
Proof.
  induction 1 as [|w ws [Hw _] Hws IH]; [done|]. cbn [concat]. rewrite length_app, IH, Hw. cbn. lia.
Qed.

Lemma concat_u8 ws : Forall word_ok ws → Forall is_u8 (concat ws).
Proof. induction 1 as [|w ws [_ Hw] Hws IH]; [done|]. cbn [concat]. by apply Forall_app. Qed.

(** An octet of a word in the array. *)
Lemma nth_word ws rest j r :
  Forall word_ok ws → (j < length ws)%nat → (r < 4)%nat →
  nth (4 * j + r) (concat ws ++ rest) 0 = nth r (nth j ws []) 0.
Proof.
  intros Hws. revert j. induction Hws as [|w ws [Hw _] Hws IH]; intros j Hj Hr; [simpl in Hj; lia|].
  cbn [concat]. rewrite <-app_assoc. destruct j as [|j].
  - by rewrite app_nth1 by (rewrite Hw; lia).
  - rewrite app_nth2 by (rewrite Hw; lia). rewrite Hw.
    replace (4 * S j + r - 4)%nat with (4 * j + r)%nat by lia. apply IH; [simpl in Hj; lia|done].
Qed.

Lemma nth_word_ok ws j : Forall word_ok ws → (j < length ws)%nat → word_ok (nth j ws []).
Proof. intros Hws Hj. rewrite Forall_forall in Hws. by apply Hws, list_elem_of_In, nth_In. Qed.

(** Four stores behind the part of the array that is read. *)
Lemma upd_word (A B : list Z) c a0 a1 a2 a3 :
  length A = c → (4 <= length B)%nat →
  upd (upd (upd (upd (A ++ B) (c + 0) a0) (c + 1) a1) (c + 2) a2) (c + 3) a3 = A ++ [a0; a1; a2; a3] ++ drop 4 B.
Proof.
  intros <- HB. do 4 (destruct B as [|? B]; [simpl in HB; lia|]). unfold upd.
  by rewrite !insert_app_r.
Qed.

Lemma nth_upd_lt k i j v : (j < i)%nat → nth j (upd k i v) 0 = nth j k 0.
Proof.
  intros Hij. unfold upd. rewrite !nth_lookup. by rewrite list_lookup_insert_ne by lia.
Qed.

Lemma xtime_spec x : is_u8 x → u8 (f2 x) = xtime x ∧ is_u8 (xtime x).
Proof.
  intros Hx. pose (P x := (u8 (f2 x) =? xtime x) && (0 <=? xtime x) && (xtime x <? 256)).
  assert (∀ x, is_u8 x → P x = true) as HP by octet_cases P. specialize (HP x Hx). unfold P in HP.
  rewrite !andb_true_iff, Z.eqb_eq, Z.leb_le, Z.ltb_lt in HP. unfold is_u8. lia.
Qed.

Lemma power_u8 n : is_u8 (power_of_x n).
Proof.
  induction n as [|n IH]; [done|]. change (power_of_x (S n)) with (xtime (power_of_x n)).
  by apply xtime_spec.
Qed.

Lemma ltb_words n : (24 <? Z.of_nat (4 * n)) = (6 <? n)%nat.
Proof. destruct (Nat.ltb_spec 6 n); [apply Z.ltb_lt|apply Z.ltb_ge]; lia. Qed.

(** ** One word *)
Section key.
Context (Nk : nat) (HNk : (4 <= Nk <= 8)%nat).

(** The round constant before word [i]. *)
Definition rc_at (i : nat) : Z := power_of_x ((i - 1) / Nk).

Lemma next_word_ok ws : Forall word_ok ws → (Nk <= length ws)%nat → word_ok (next_word Nk ws).
Proof.
  intros Hws Hl. unfold next_word. set (i := length ws) in *.
  pose proof (nth_word_ok ws (i - 1) Hws ltac:(lia)) as Hp.
  pose proof (nth_word_ok ws (i - Nk) Hws ltac:(lia)) as Hn.
  apply xor_word_ok; [done|]. apply word_inv in Hp as (a & b & c & d & -> & ? & ? & ? & ?).
  assert (∀ x, is_u8 x → is_u8 (SubByte x)) by (intros; rewrite <-s_box_spec by done; auto with rfc).
  case_match; [|case_match].
  - apply xor_word_ok; apply word_intro; auto; [apply power_u8|done..].
  - apply word_intro; auto.
  - by apply word_intro.
Qed.

Lemma rc_step i : (Nk <= i)%nat →
  rc_at (i + 1) = if (i mod Nk =? 0)%nat then xtime (rc_at i) else rc_at i.
Proof.
  intros Hi. unfold rc_at. replace (i + 1 - 1)%nat with i by lia.
  pose proof (Nat.div_mod_eq i Nk). pose proof (Nat.mod_upper_bound i Nk ltac:(lia)).
  destruct (Nat.eqb_spec (i mod Nk) 0) as [E|Hne].
  - assert (i / Nk = S ((i - 1) / Nk))%nat as ->; [|done].
    assert ((i - 1) / Nk = i / Nk - 1)%nat as ->.
    { symmetry. apply (Nat.div_unique _ _ _ (Nk - 1)); nia. }
    assert (1 <= i / Nk)%nat by nia. lia.
  - f_equal. apply (Nat.div_unique _ _ _ (i mod Nk - 1)); nia.
Qed.

Lemma rc_multiple i : (Nk <= i)%nat → (i mod Nk = 0)%nat → rc_at i = power_of_x (i / Nk - 1).
Proof.
  intros Hi E. unfold rc_at. f_equal. symmetry. pose proof (Nat.div_mod_eq i Nk).
  assert (1 <= i / Nk)%nat by nia. apply (Nat.div_unique _ _ _ (Nk - 1)); nia.
Qed.

Lemma mod_words i : Z.of_nat (4 * i) mod Z.of_nat (4 * Nk) = 4 * Z.of_nat (i mod Nk).
Proof.
  rewrite !Nat2Z.inj_mul, Z.mul_mod_distr_l by lia. by rewrite Nat2Z.inj_mod.
Qed.

Lemma expand_ok n ws :
  Forall word_ok ws → (Nk <= length ws)%nat →
  Forall word_ok (expand n Nk ws) ∧ length (expand n Nk ws) = (length ws + n)%nat.
Proof.
  revert ws. induction n as [|n IH]; intros ws Hws Hl; [cbn; split; [done|lia]|]. cbn [expand].
  destruct (IH (ws ++ [next_word Nk ws])) as [H1 H2].
  - apply Forall_app. split; [done|]. apply Forall_cons. split; [by apply next_word_ok|by apply Forall_nil].
  - rewrite length_app. lia.
  - split; [done|]. rewrite H2, length_app. cbn. lia.
Qed.

(** The array, of which [k0] was the contents before, with the words so far. *)
Context (k0 : list Z) (Hk0 : length k0 = 240%nat).

Definition array (ws : list word) : list Z := concat ws ++ drop (4 * length ws) k0.

(** The stores of a pass. *)
Lemma stores_spec ws t0 t1 t2 t3 :
  Forall word_ok ws → (Nk <= length ws < 60)%nat →
  let c := (4 * length ws)%nat in
  let tt := (4 * (length ws - Nk))%nat in
  let k := array ws in
  let k := upd k (c + 0) (nth (tt + 0) k 0 ⊕ t0) in
  let k := upd k (c + 1) (nth (tt + 1) k 0 ⊕ t1) in
  let k := upd k (c + 2) (nth (tt + 2) k 0 ⊕ t2) in
  let k := upd k (c + 3) (nth (tt + 3) k 0 ⊕ t3) in
  k = array (ws ++ [xor_word (nth (length ws - Nk) ws []) [t0; t1; t2; t3]]).
Proof.
  intros Hws Hi. cbv zeta. rewrite !nth_upd_lt by lia.
  pose proof (nth_word_ok ws (length ws - Nk) Hws ltac:(lia)) as Hn.
  assert (∀ r, (r < 4)%nat → nth (4 * (length ws - Nk) + r) (array ws) 0 = nth r (nth (length ws - Nk) ws []) 0)
    as Hr by (intros; apply nth_word; [done|lia|done]).
  rewrite (Hr 0%nat), (Hr 1%nat), (Hr 2%nat), (Hr 3%nat) by lia. clear Hr.
  unfold array. rewrite upd_word; [|by apply length_concat_words|rewrite length_drop; lia].
  apply word_inv in Hn as (a & b & c & d & -> & _). rewrite concat_app, length_app, <-app_assoc.
  cbn [concat app xor_word zip_with nth length]. rewrite drop_drop. do 6 f_equal. lia.
Qed.

(** A pass adds the next word of the expansion. *)
Lemma key_word_spec ws :
  Forall word_ok ws → (Nk <= length ws < 60)%nat →
  key_word (Z.of_nat (4 * Nk)) (Z.of_nat (4 * length ws)) (rc_at (length ws)) (array ws) =
  (array (ws ++ [next_word Nk ws]), rc_at (length ws + 1)).
Proof.
  intros Hws Hi.
  pose proof (nth_word_ok ws (length ws - 1) Hws ltac:(lia)) as Hp.
  assert (Hpn : ∀ r, (r < 4)%nat → nth (4 * length ws - (4 - r)) (array ws) 0 = nth r (nth (length ws - 1) ws []) 0).
  { intros r Hr. replace (4 * length ws - (4 - r))%nat with (4 * (length ws - 1) + r)%nat by lia.
    apply nth_word; [done|lia|done]. }
  pose proof (Hpn 0%nat ltac:(lia)) as H0. pose proof (Hpn 1%nat ltac:(lia)) as H1.
  pose proof (Hpn 2%nat ltac:(lia)) as H2. pose proof (Hpn 3%nat ltac:(lia)) as H3. cbn [Nat.sub] in H0, H1, H2, H3.
  unfold key_word. rewrite Nat2Z.id, !mod_words, H0, H1, H2, H3.
  assert (Z.to_nat (u8 (Z.of_nat (4 * length ws) - Z.of_nat (4 * Nk))) = (4 * (length ws - Nk))%nat) as ->.
  { rewrite u8_small by (unfold is_u8; lia). lia. }
  rewrite rc_step by lia. unfold next_word.
  apply word_inv in Hp as (a & b & c & d & -> & Ha & Hb & Hc & Hd). cbn [nth].
  destruct (Nat.eqb_spec (length ws mod Nk) 0) as [E|Hne].
  - rewrite E. change (4 * Z.of_nat 0 =? 0) with true. cbv iota.
    rewrite stores_spec by done. unfold Rcon. rewrite <-(rc_multiple (length ws)) by (done || lia).
    pose proof (power_u8 ((length ws - 1) / Nk)) as Hrc. fold (rc_at (length ws)) in Hrc.
    rewrite (proj1 (xtime_spec _ Hrc)), u8_small by auto with rfc. f_equal.
    cbn [SubWord RotWord map drop take app xor_word zip_with].
    by rewrite !Z.lxor_0_r, !s_box_spec by done.
  - replace (4 * Z.of_nat (length ws mod Nk) =? 0) with false by lia.
    replace (4 * Z.of_nat (length ws mod Nk) =? 16) with (length ws mod Nk =? 4)%nat
      by (destruct (Nat.eqb_spec (length ws mod Nk) 4); lia).
    rewrite ltb_words.
    destruct ((6 <? Nk)%nat && _); cbv iota; rewrite stores_spec by done; [|done].
    cbn [SubWord map]. by rewrite !s_box_spec by done.
Qed.

(** The number of words of the schedule. *)
Abbreviation total_words := (4 * (Nr Nk + 1))%nat.

Lemma key_loop_spec fuel n ws :
  Forall word_ok ws → (Nk <= length ws)%nat → (length ws + n = total_words)%nat → (n <= fuel)%nat →
  key_loop fuel (Z.of_nat (4 * Nk)) (Z.of_nat (4 * total_words)) (Z.of_nat (4 * length ws))
    (rc_at (length ws)) (array ws) = array (expand n Nk ws).
Proof.
  revert n ws. induction fuel as [|fuel IH]; intros n ws Hws Hl Ht Hf; [by assert (n = 0%nat) as -> by lia|].
  cbn [key_loop]. unfold Nr in *. destruct n as [|n].
  - replace (_ <? _) with false; [done|]. symmetry. apply Z.ltb_ge. lia.
  - replace (Z.of_nat (4 * length ws) <? _) with true; [|symmetry; apply Z.ltb_lt; lia].
    rewrite key_word_spec by (done || lia). rewrite u8_small by (unfold is_u8; lia).
    cbn [expand]. rewrite <-IH.
    + rewrite length_app. cbn [length]. do 2 f_equal. lia.
    + apply Forall_app. split; [done|]. apply Forall_cons. split; [by apply next_word_ok|by apply Forall_nil].
    + rewrite length_app. lia.
    + rewrite length_app. cbn. lia.
    + lia.
Qed.
End key.

Lemma key_words_ok Nk key :
  (4 * Nk <= length key)%nat → Forall is_u8 key →
  Forall word_ok (key_words Nk key) ∧ length (key_words Nk key) = Nk ∧
  concat (key_words Nk key) = take (4 * Nk) key.
Proof.
  revert key. induction Nk as [|Nk IH]; intros key Hl Hu; [done|].
  destruct (IH (drop 4 key)) as (H1 & H2 & H3); [rewrite length_drop; lia|by apply Forall_drop|].
  cbn [key_words concat length]. split; [|split; [lia|]].
  - apply Forall_cons. split; [|done]. split; [rewrite length_take; lia|by apply Forall_take].
  - rewrite H3. replace (4 * S Nk)%nat with (4 + 4 * Nk)%nat by lia. by rewrite take_take_drop.
Qed.

(** A context as the code declares it. *)
Definition context_ok (ctx : aes_context) : Prop := length (ksch ctx) = 240%nat ∧ Forall is_u8 (ksch ctx).

(** The accepted lengths of a key, in octets or in bits, and its number of words. *)
Definition key_length (Nk : nat) (keylen : Z) : Prop :=
  (Nk = 4%nat ∧ (keylen = 16 ∨ keylen = 128)) ∨ (Nk = 6%nat ∧ (keylen = 24 ∨ keylen = 192)) ∨
  (Nk = 8%nat ∧ keylen = 32).

Lemma set_key_run Nk key ctx :
  (4 <= Nk <= 8)%nat → (4 * Nk <= length key)%nat → Forall is_u8 key → context_ok ctx →
  key_loop 60 (Z.of_nat (4 * Nk)) (Z.of_nat (4 * (4 * (Nr Nk + 1)))) (Z.of_nat (4 * Nk)) 1
    (take (4 * Nk) key ++ drop (4 * Nk) (ksch ctx)) =
  KeyExpansion Nk key ++ drop (16 * (Nr Nk + 1)) (ksch ctx).
Proof.
  intros HNk Hl Hu [Hc _]. destruct (key_words_ok Nk key Hl Hu) as (Hw & Hn & Hk).
  pose proof (key_loop_spec Nk HNk (ksch ctx) Hc 60 (4 * (Nr Nk + 1) - Nk) (key_words Nk key) Hw) as E.
  rewrite Hn in E. unfold rc_at in E. rewrite Nat.div_small in E by lia.
  unfold array in E at 1. rewrite Hk, Hn in E. change (power_of_x 0) with 1 in E. rewrite E by (unfold Nr; lia).
  unfold array, KeyExpansion. destruct (expand_ok Nk HNk (4 * (Nr Nk + 1) - Nk)%nat (key_words Nk key) Hw) as [_ ->]; [lia|].
  do 2 f_equal. unfold Nr. lia.
Qed.

Lemma set_key_spec Nk key keylen ctx :
  key_length Nk keylen → (4 * Nk <= length key)%nat → Forall is_u8 key → context_ok ctx →
  ∃ ctx', aes_set_key key keylen ctx = (0, ctx') ∧ rnd ctx' = Z.of_nat (Nr Nk) ∧
    ksch ctx' = KeyExpansion Nk key ++ drop (16 * (Nr Nk + 1)) (ksch ctx) ∧
    context_ok ctx' ∧ schedule (Nr Nk) (KeyExpansion Nk key) ∧
    length (KeyExpansion Nk key) = (16 * (Nr Nk + 1))%nat.
Proof.
  intros HN Hl Hu Hctx.
  assert (4 <= Nk <= 8)%nat as HNk by (unfold key_length in HN; lia).
  destruct (key_words_ok Nk key Hl Hu) as (Hw & Hn & Hk).
  destruct (expand_ok Nk HNk (4 * (Nr Nk + 1) - Nk)%nat (key_words Nk key) Hw) as [He Hel]; [lia|].
  assert (length (KeyExpansion Nk key) = (16 * (Nr Nk + 1))%nat) as Hke.
  { unfold KeyExpansion. rewrite length_concat_words, Hel, Hn by done. unfold Nr. lia. }
  assert (schedule (Nr Nk) (KeyExpansion Nk key)) as Hs.
  { split; [lia|]. by apply concat_u8. }
  pose proof (set_key_run Nk key ctx HNk Hl Hu Hctx) as E.
  exists {| ksch := KeyExpansion Nk key ++ drop (16 * (Nr Nk + 1)) (ksch ctx); rnd := Z.of_nat (Nr Nk) |}.
  split; [|split; [done|split; [done|split; [|done]]]].
  - destruct HN as [[-> [-> | ->]]|[[-> [-> | ->]]|[-> ->]]]; by rewrite <-E.
  - destruct Hctx as [Hc1 Hc2]. split.
    + cbn [ksch]. rewrite length_app, length_drop, Hke. unfold Nr. lia.
    + apply Forall_app. split; [apply Hs|by apply Forall_drop].
Qed.

(** ** Encryption *)
Lemma round_key_app w t r : (16 * (r + 1) <= length w)%nat → round_key (w ++ t) r = round_key w r.
Proof.
  intros Hl. unfold round_key. rewrite drop_app_le by lia. rewrite take_app_le; [done|].
  rewrite length_drop. lia.
Qed.

Lemma Cipher_app Nk w t input :
  length w = (16 * (Nr Nk + 1))%nat → Cipher Nk (w ++ t) input = Cipher Nk w input.
Proof.
  intros Hl. unfold Cipher. rewrite !round_key_app by (unfold Nr in *; lia). do 3 f_equal.
  generalize (AddRoundKey input (round_key w 0)). intros st.
  pose proof (Forall_seq_le (Nr Nk)) as Hr. revert st. induction Hr as [|r rs Hr Hrs IH]; intros st; [done|].
  cbn [foldl]. rewrite round_key_app by lia. apply IH.
Qed.

(** C28: encryption is AES.  For keys of 128, 192 and 256 bits, with their length in
    octets or (128 and 192) in bits, and whatever the context held before,
    [aes_set_key] succeeds and [aes_encrypt] with its key schedule is the cipher of
    FIPS 197 under the expanded key; for any other length [aes_set_key] fails and
    leaves a context with which [aes_encrypt] fails and writes nothing. *)
Theorem aes_encrypt_is_AES key keylen ctx input out :
  Forall is_u8 key → context_ok ctx → block input →
  (∀ Nk, key_length Nk keylen → (4 * Nk <= length key)%nat →
    ∃ ctx', aes_set_key key keylen ctx = (0, ctx') ∧ context_ok ctx' ∧
      aes_encrypt input out ctx' = (0, AES Nk key input)) ∧
  ((∀ Nk, ¬ key_length Nk keylen) →
    ∃ ctx', aes_set_key key keylen ctx = (255, ctx') ∧ context_ok ctx' ∧ aes_encrypt input out ctx' = (255, out)).
Proof.
  intros Hu Hctx Hin. split.
  - intros Nk HN Hl. destruct (set_key_spec Nk key keylen ctx HN Hl Hu Hctx) as (ctx' & E & Er & Ek & Hc' & _ & Hlen).
    exists ctx'. split; [done|]. split; [done|].
    rewrite (encrypt_spec Nk (ksch ctx') input out ctx' eq_refl Er); [|by split; [destruct Hc' as [-> _]; unfold Nr, key_length in *; lia|apply Hc']|done].
    unfold AES. by rewrite Ek, Cipher_app.
  - intros HN. exists {| ksch := ksch ctx; rnd := 0 |}. split; [|done]. unfold aes_set_key.
    pose proof (HN 4%nat) as H4. pose proof (HN 6%nat) as H6. pose proof (HN 8%nat) as H8. unfold key_length in *.
    replace ((keylen =? 16) || (keylen =? 128)) with false by lia.
    replace ((keylen =? 24) || (keylen =? 192)) with false by lia.
    by replace (keylen =? 32) with false by lia.
Qed.

Definition ctx0 : aes_context := {| ksch := replicate 240 0; rnd := 0 |}.

Lemma ctx0_ok : context_ok ctx0.
Proof. split; [done|]. apply Forall_replicate. unfold is_u8. lia. Qed.

(** The first example of the standard's appendix C. *)
Lemma aes_encrypt_is_AES_witness :
  (∃ ctx', aes_set_key (seqZ 0 16) 16 ctx0 = (0, ctx') ∧ context_ok ctx' ∧
    aes_encrypt (map (Z.mul 17) (seqZ 0 16)) [] ctx' = (0, AES 4 (seqZ 0 16) (map (Z.mul 17) (seqZ 0 16)))) ∧
  AES 4 (seqZ 0 16) (map (Z.mul 17) (seqZ 0 16)) =
    [0x69; 0xc4; 0xe0; 0xd8; 0x6a; 0x7b; 0x04; 0x30; 0xd8; 0xcd; 0xb7; 0x80; 0x70; 0xb4; 0xc5; 0x5a].
Proof.
  split; [|by vm_compute].
  assert (Forall is_u8 (seqZ 0 16)) as Hk by (apply Forall_seqZ; unfold is_u8; lia).
  assert (block (map (Z.mul 17) (seqZ 0 16))) as Hb.
  { split; [done|]. apply Forall_fmap, Forall_seqZ. unfold is_u8. simpl. lia. }
  refine (proj1 (aes_encrypt_is_AES (seqZ 0 16) 16 ctx0 (map (Z.mul 17) (seqZ 0 16)) [] Hk ctx0_ok Hb) 4%nat _ _).
  - left. auto.
  - done.
Defined.
