(* ===== verification/AesInverse.v ===== *)
(** * Decryption undoes encryption, and chaining *)
From Stdlib Require Import Btauto.
From S2P Require Import Prelude Aes AesSpec AesKey.

(** ** The multiplication tables are linear *)
Definition by_bits (t : Z → Z) (js : list Z) (x : Z) : Z :=
  foldr (fun i acc => (if Z.testbit x i then t (2 ^ i) else 0) ⊕ acc) 0 js.

Lemma by_bits_lxor t js x y : by_bits t js (x ⊕ y) = by_bits t js x ⊕ by_bits t js y.
Proof.
  induction js as [|i js IH]; [done|]. cbn [by_bits foldr]. fold (by_bits t js x) (by_bits t js y) (by_bits t js (x ⊕ y)).
  rewrite IH, Z.lxor_spec. destruct (Z.testbit x i), (Z.testbit y i); cbn [xorb];
    apply Z.bits_inj'; intros n _; rewrite !Z.lxor_spec, ?Z.bits_0; btauto.
Qed.

Definition linear (t : Z → Z) : bool := forallb (fun x => t x =? by_bits t (seqZ 0 8) x) octets.

Lemma linear_lxor t x y : linear t = true → is_u8 x → is_u8 y → t (x ⊕ y) = t x ⊕ t y.
Proof.
  intros Ht Hx Hy. pose proof (octet_eq _ _ Ht) as E.
  rewrite (E (x ⊕ y)), (E x), (E y) by auto with rfc. apply by_bits_lxor.
Qed.

(** ** Columns *)

(** Four linear tables applied to sums of four octets, by summands. *)
Lemma linear_column e b d n x0 y0 z0 w0 x1 y1 z1 w1 x2 y2 z2 w2 x3 y3 z3 w3 :
  linear e = true → linear b = true → linear d = true → linear n = true →
  Forall is_u8 [x0; y0; z0; w0; x1; y1; z1; w1; x2; y2; z2; w2; x3; y3; z3; w3] →
  e (x0 ⊕ y0 ⊕ z0 ⊕ w0) ⊕ b (x1 ⊕ y1 ⊕ z1 ⊕ w1) ⊕ d (x2 ⊕ y2 ⊕ z2 ⊕ w2) ⊕ n (x3 ⊕ y3 ⊕ z3 ⊕ w3) =
  (e x0 ⊕ b x1 ⊕ d x2 ⊕ n x3) ⊕ (e y0 ⊕ b y1 ⊕ d y2 ⊕ n y3) ⊕
  (e z0 ⊕ b z1 ⊕ d z2 ⊕ n z3) ⊕ (e w0 ⊕ b w1 ⊕ d w2 ⊕ n w3).
Proof.
  intros He Hb Hd Hn Hu. rewrite !Forall_cons in Hu.
  rewrite !(linear_lxor e), !(linear_lxor b), !(linear_lxor d), !(linear_lxor n) by intuition auto with rfc.
  apply Z.bits_inj'. intros i _. rewrite !Z.lxor_spec. btauto.
Qed.

(** The product of the two matrices: the summand of one octet in one row. *)
Definition unmix (t0 t1 t2 t3 m0 m1 m2 m3 : Z → Z) (x : Z) : Z :=
  t0 (m0 x) ⊕ t1 (m1 x) ⊕ t2 (m2 x) ⊕ t3 (m3 x).

Definition unmix_row (t0 t1 t2 t3 : Z → Z) (f g h k : Z → Z) : bool :=
  linear t0 && linear t1 && linear t2 && linear t3 &&
  forallb (fun x => (unmix t0 t1 t2 t3 gfm2_sb s_box s_box gfm3_sb x =? f x)
    && (unmix t0 t1 t2 t3 gfm3_sb gfm2_sb s_box s_box x =? g x)
    && (unmix t0 t1 t2 t3 s_box gfm3_sb gfm2_sb s_box x =? h x)
    && (unmix t0 t1 t2 t3 s_box s_box gfm3_sb gfm2_sb x =? k x)) octets.

Lemma unmix_row_spec t0 t1 t2 t3 f g h k x y z w :
  unmix_row t0 t1 t2 t3 f g h k = true → is_u8 x → is_u8 y → is_u8 z → is_u8 w →
  t0 (gfm2_sb x ⊕ gfm3_sb y ⊕ s_box z ⊕ s_box w) ⊕ t1 (s_box x ⊕ gfm2_sb y ⊕ gfm3_sb z ⊕ s_box w) ⊕
  t2 (s_box x ⊕ s_box y ⊕ gfm2_sb z ⊕ gfm3_sb w) ⊕ t3 (gfm3_sb x ⊕ s_box y ⊕ s_box z ⊕ gfm2_sb w) =
  f x ⊕ g y ⊕ h z ⊕ k w.
Proof.
  intros H Hx Hy Hz Hw. unfold unmix_row in H. rewrite !andb_true_iff in H.
  destruct H as [[[[H0 H1] H2] H3] H].
  rewrite linear_column by (try done; repeat (apply Forall_cons; split; [auto with rfc|]); by apply Forall_nil).
  assert (∀ v, is_u8 v → unmix t0 t1 t2 t3 gfm2_sb s_box s_box gfm3_sb v = f v ∧
    unmix t0 t1 t2 t3 gfm3_sb gfm2_sb s_box s_box v = g v ∧ unmix t0 t1 t2 t3 s_box gfm3_sb gfm2_sb s_box v = h v ∧
    unmix t0 t1 t2 t3 s_box s_box gfm3_sb gfm2_sb v = k v) as HP.
  { intros v Hv. pose proof (octet_forallb _ H v Hv) as Hv'. cbv beta in Hv'.
    rewrite !andb_true_iff, !Z.eqb_eq in Hv'. tauto. }
  destruct (HP x Hx) as (<- & _), (HP y Hy) as (_ & <- & _), (HP z Hz) as (_ & _ & <- & _), (HP w Hw) as (_ & _ & _ & <-).
  done.
Qed.

Definition zero_of (x : Z) : Z := 0.

Lemma row_0 : unmix_row gfm_e gfm_b gfm_d gfm_9 s_box zero_of zero_of zero_of = true.
Proof. by vm_compute. Qed.
Lemma row_1 : unmix_row gfm_9 gfm_e gfm_b gfm_d zero_of s_box zero_of zero_of = true.
Proof. by vm_compute. Qed.
Lemma row_2 : unmix_row gfm_d gfm_9 gfm_e gfm_b zero_of zero_of s_box zero_of = true.
Proof. by vm_compute. Qed.
Lemma row_3 : unmix_row gfm_b gfm_d gfm_9 gfm_e zero_of zero_of zero_of s_box = true.
Proof. by vm_compute. Qed.

Lemma inv_mix_sub st : block st → inv_mix_sub_columns (mix_sub_columns st) = st.
Proof.
  intros H. octets_of H. cbn -[s_box is_box gfm2_sb gfm3_sb gfm_9 gfm_b gfm_d gfm_e Z.lxor].
  rewrite !(unmix_row_spec _ _ _ _ _ _ _ _ _ _ _ _ row_0), !(unmix_row_spec _ _ _ _ _ _ _ _ _ _ _ _ row_1),
    !(unmix_row_spec _ _ _ _ _ _ _ _ _ _ _ _ row_2), !(unmix_row_spec _ _ _ _ _ _ _ _ _ _ _ _ row_3) by done.
  unfold zero_of. rewrite !Z.lxor_0_r, !Z.lxor_0_l. by rewrite !is_box_s_box by done.
Qed.

Lemma shift_sub_rows_list x0 x1 x2 x3 x4 x5 x6 x7 x8 x9 x10 x11 x12 x13 x14 x15 :
  shift_sub_rows [x0; x1; x2; x3; x4; x5; x6; x7; x8; x9; x10; x11; x12; x13; x14; x15] =
  [s_box x0; s_box x5; s_box x10; s_box x15; s_box x4; s_box x9; s_box x14; s_box x3; s_box x8; s_box x13; s_box x2; s_box x7; s_box x12; s_box x1; s_box x6; s_box x11].
Proof. reflexivity. Qed.

Lemma inv_shift_sub_rows_list x0 x1 x2 x3 x4 x5 x6 x7 x8 x9 x10 x11 x12 x13 x14 x15 :
  inv_shift_sub_rows [x0; x1; x2; x3; x4; x5; x6; x7; x8; x9; x10; x11; x12; x13; x14; x15] =
  [is_box x0; is_box x13; is_box x10; is_box x7; is_box x4; is_box x1; is_box x14; is_box x11; is_box x8; is_box x5; is_box x2; is_box x15; is_box x12; is_box x9; is_box x6; is_box x3].
Proof. reflexivity. Qed.

Lemma inv_shift_sub st : block st → inv_shift_sub_rows (shift_sub_rows st) = st.
Proof.
  intros H. octets_of H. rewrite shift_sub_rows_list, inv_shift_sub_rows_list.
  by rewrite !is_box_s_box by done.
Qed.

(** ** Blocks *)
Lemma xor_twice a k : block a → block k → zip_with Z.lxor (zip_with Z.lxor a k) k = a.
Proof.
  intros [Ha _] [Hk _]. rewrite <-Hk in Ha. clear Hk. revert k Ha.
  induction a as [|x a IH]; intros [|y k] E; try done. cbn. injection E as E. rewrite IH by done.
  by rewrite Z.lxor_assoc, Z.lxor_nilpotent, Z.lxor_0_r.
Qed.

Lemma xor_comm a b : zip_with Z.lxor a b = zip_with Z.lxor b a.
Proof. revert b. induction a as [|x a IH]; intros [|y b]; try done. cbn. by rewrite IH, Z.lxor_comm. Qed.

(** Steps undone in the opposite order. *)
Lemma foldl_undo {A B} (P : A → Prop) (Q : B → Prop) (f g : A → B → A) l s :
  (∀ s r, P s → Q r → P (f s r) ∧ g (f s r) r = s) → Forall Q l → P s →
  P (foldl f s l) ∧ foldl g (foldl f s l) (rev l) = s.
Proof.
  intros H Hl. revert s. induction Hl as [|r l Hr Hl IH]; intros s Hs; [done|]. cbn [foldl rev].
  destruct (H s r Hs Hr) as [Hf E]. destruct (IH _ Hf) as [Hp E']. split; [done|].
  by rewrite foldl_app, E'.
Qed.

Lemma encrypt_block n input out ctx :
  rnd ctx = Z.of_nat n → (0 < n)%nat → schedule n (ksch ctx) → block input →
  ∃ c, aes_encrypt input out ctx = (0, c) ∧ block c ∧
    ∀ out', aes_decrypt c out' ctx = (0, input).
Proof.
  intros Er Hn Hw Hin. unfold aes_encrypt, aes_decrypt, nz. rewrite Er, Nat2Z.id.
  replace (Z.of_nat n =? 0) with false by (symmetry; apply Z.eqb_neq; lia). cbn [negb].
  unfold copy_and_key. rewrite (zip_with_take input) by done.
  set (k := ksch ctx) in *. change (take 16 k) with (round_key k 0).
  assert (Hk0 : block (round_key k 0)) by (apply (block_round_key n); [done|lia]).
  assert (Hkn : block (round_key k n)) by (by apply (block_round_key n)).
  pose proof (Forall_seq_le n) as Hseq.
  destruct (foldl_undo block (fun r => (r <= n)%nat)
    (fun s1 r => add_round_key (mix_sub_columns s1) (round_key k r))
    (fun s1 r => inv_mix_sub_columns (add_round_key s1 (round_key k r)))
    (seq 1 (n - 1)) (zip_with Z.lxor input (round_key k 0))) as [Hs E].
  { intros s r Hs Hr. pose proof (block_round_key n k r Hw Hr). unfold add_round_key, xor_block.
    split; [auto with rfc|]. rewrite xor_twice by auto with rfc. by apply inv_mix_sub. }
  { done. } { auto with rfc. }
  eexists. split; [reflexivity|]. split; [auto with rfc|]. intros out'. cbv zeta.
  rewrite xor_twice by auto with rfc. rewrite inv_shift_sub by done. cbv zeta in E. rewrite E.
  rewrite (zip_with_take (zip_with Z.lxor input (round_key k 0))) by auto with rfc.
  change (take 16 k) with (round_key k 0). by rewrite xor_twice.
Qed.

(** C29: decryption undoes encryption, for every key schedule that [aes_set_key]
    makes and every block. *)
Theorem aes_decrypt_encrypt Nk key keylen ctx input out out' :
  key_length Nk keylen → (4 * Nk <= length key)%nat → Forall is_u8 key → context_ok ctx → block input →
  ∃ ctx' c, aes_set_key key keylen ctx = (0, ctx') ∧ aes_encrypt input out ctx' = (0, c) ∧
    aes_decrypt c out' ctx' = (0, input).
Proof.
  intros HN Hl Hu Hctx Hin. destruct (set_key_spec Nk key keylen ctx HN Hl Hu Hctx) as (ctx' & E & Er & _ & Hc' & _).
  destruct (encrypt_block (Nr Nk) input out ctx' Er) as (c & Ec & _ & Ed).
  - unfold Nr. lia.
  - destruct Hc' as [Hl' Hu']. split; [|done]. rewrite Hl'. unfold Nr, key_length in *. lia.
  - done.
  - exists ctx', c. auto.
Qed.

(** ** Chaining *)

(** [n] blocks of octets. *)
Definition blocks (n : nat) (l : list Z) : Prop := length l = (16 * n)%nat ∧ Forall is_u8 l.

Lemma blocks_S n l : blocks (S n) l → block (take 16 l) ∧ blocks n (drop 16 l).
Proof.
  intros [Hl Hu]. split; split; [rewrite length_take; lia|by apply Forall_take|rewrite length_drop; lia|by apply Forall_drop].
Qed.

(** C30: cipher block chaining round trip.  With any usable key schedule,
    [aes_cbc_decrypt] of what [aes_cbc_encrypt] wrote, from the same initial value,
    gives the message back, and both leave the same chaining value: the last block
    of the ciphertext, or the initial value when there is none. *)
Theorem aes_cbc_roundtrip nr ctx n msg iv :
  rnd ctx = Z.of_nat nr → (0 < nr)%nat → schedule nr (ksch ctx) → blocks n msg → block iv →
  ∃ c iv', aes_cbc_encrypt msg n iv ctx = (0, c, iv') ∧ blocks n c ∧
    aes_cbc_decrypt c n iv ctx = (0, msg, iv') ∧ iv' = (if (n =? 0)%nat then iv else drop (16 * (n - 1)) c).
Proof.
  intros Er Hn Hw. revert msg iv. induction n as [|n IH]; intros msg iv Hm Hiv.
  - exists [], iv. destruct Hm as [Hl _]. destruct msg; [|done]. done.
  - destruct (blocks_S n msg Hm) as [Hb Hr].
    assert (block (xor_block iv (take 16 msg))) as Hx by (by apply block_xor).
    destruct (encrypt_block nr _ (xor_block iv (take 16 msg)) ctx Er Hn Hw Hx) as (c1 & Ec & Hc1 & Ed).
    destruct (IH (drop 16 msg) c1 Hr Hc1) as (c & iv' & E & [Hcl Hcu] & E' & Eiv).
    pose proof Hc1 as [Hc1l Hc1u].
    exists (c1 ++ c), iv'. cbn [aes_cbc_encrypt aes_cbc_decrypt]. rewrite Ec. cbn [nz Z.eqb negb]. rewrite E.
    rewrite take_app_length', drop_app_length' by done. rewrite Ed. cbn [nz Z.eqb negb]. rewrite E'.
    split; [done|]. split; [|split].
    + split; [rewrite length_app; lia|by apply Forall_app].
    + f_equal. f_equal. unfold xor_block. rewrite (xor_comm iv), xor_twice by done. apply take_drop.
    + rewrite Eiv. cbn [Nat.eqb Nat.sub]. rewrite Nat.sub_0_r. destruct n as [|n]; cbn [Nat.eqb].
      * destruct c; [by rewrite app_nil_r|done].
      * rewrite drop_app_ge by lia. f_equal. lia.
Qed.

Definition key_1 : list Z := seqZ 0 16.
Definition msg_1 : list Z := map (Z.mul 5) (seqZ 0 48).

Lemma key_1_u8 : Forall is_u8 key_1.
Proof. apply Forall_seqZ. unfold is_u8. lia. Qed.
Lemma msg_1_u8 : Forall is_u8 msg_1.
Proof. apply Forall_fmap, Forall_seqZ. unfold is_u8. simpl. lia. Qed.

Lemma aes_decrypt_encrypt_witness :
  ∃ ctx' c, aes_set_key key_1 128 ctx0 = (0, ctx') ∧ aes_encrypt (take 16 msg_1) [] ctx' = (0, c) ∧
    aes_decrypt c [] ctx' = (0, take 16 msg_1).
Proof.
  apply (aes_decrypt_encrypt 4 key_1 128 ctx0 (take 16 msg_1) [] []).
  - left. auto.
  - done.
  - apply key_1_u8.
  - apply ctx0_ok.
  - split; [done|]. by apply Forall_take, msg_1_u8.
Defined.

Lemma aes_cbc_roundtrip_witness :
  let ctx := snd (aes_set_key key_1 16 ctx0) in
  ∃ c iv', aes_cbc_encrypt msg_1 3 (replicate 16 0) ctx = (0, c, iv') ∧ blocks 3 c ∧
    aes_cbc_decrypt c 3 (replicate 16 0) ctx = (0, msg_1, iv') ∧ iv' = drop 32 c.
Proof.
  cbv zeta. destruct (set_key_spec 4 key_1 16 ctx0) as (ctx & E & Er & _ & Hc & _).
  { left. auto. } { done. } { apply key_1_u8. } { apply ctx0_ok. }
  rewrite E. cbn [snd]. apply (aes_cbc_roundtrip 10 ctx 3 msg_1 (replicate 16 0) Er).
  - lia.
  - destruct Hc as [Hl Hu]. split; [rewrite Hl; lia|done].
  - split; [done|]. apply msg_1_u8.
  - split; [done|]. apply Forall_replicate. unfold is_u8. lia.
Defined.
