(* ===== verification/AesOtf.v ===== *)
(** * AES with keys made on the fly ([gd/crypto_toolbox/aes.cc])

    [aes_encrypt_128], [aes_decrypt_128] and their counterparts for keys of 256 bits
    carry the round key along instead of reading it from a schedule.  The key array
    a function returns is the one the opposite function starts from. *)
From S2P Require Import Prelude Aes AesSpec AesKey AesInverse.

(** ** The functions *)

(** The body of [for (cc = ...) { k[cc + 0] ^= k[cc - 4]; ... }]. *)
Definition chain_word (k : list Z) (cc : nat) : list Z :=
  let k := upd k (cc + 0) (nth (cc + 0) k 0 ⊕ nth (cc - 4) k 0) in
  let k := upd k (cc + 1) (nth (cc + 1) k 0 ⊕ nth (cc - 3) k 0) in
  let k := upd k (cc + 2) (nth (cc + 2) k 0 ⊕ nth (cc - 2) k 0) in
  let k := upd k (cc + 3) (nth (cc + 3) k 0 ⊕ nth (cc - 1) k 0) in
  k.

Definition update_encrypt_key_128 (k : list Z) (rc : Z) : list Z * Z :=
  let k := upd k 0 (k ! 0 ⊕ (s_box (k ! 13) ⊕ rc)) in
  let k := upd k 1 (k ! 1 ⊕ s_box (k ! 14)) in
  let k := upd k 2 (k ! 2 ⊕ s_box (k ! 15)) in
  let k := upd k 3 (k ! 3 ⊕ s_box (k ! 12)) in
  let rc := u8 (f2 rc) in
  (foldl chain_word k [4; 8; 12]%nat, rc).

(** The block and the key for decryption. *)
Definition aes_encrypt_128 (input key : list Z) : list Z * list Z :=
  let rc := 1 in
  let o_key := take 16 key in
  let s1 := copy_and_key input o_key in
  let '(s1, o_key, rc) :=
    foldl (fun '(s1, o_key, rc) r =>
      let s1 := mix_sub_columns s1 in
      let '(o_key, rc) := update_encrypt_key_128 o_key rc in
      (add_round_key s1 o_key, o_key, rc)) (s1, o_key, rc) (seq 1 9) in
  let s1 := shift_sub_rows s1 in
  let '(o_key, rc) := update_encrypt_key_128 o_key rc in
  (copy_and_key s1 o_key, o_key).

Definition update_decrypt_key_128 (k : list Z) (rc : Z) : list Z * Z :=
  let k := foldl chain_word k [12; 8; 4]%nat in
  let rc := u8 (d2 rc) in
  let k := upd k 0 (k ! 0 ⊕ (s_box (k ! 13) ⊕ rc)) in
  let k := upd k 1 (k ! 1 ⊕ s_box (k ! 14)) in
  let k := upd k 2 (k ! 2 ⊕ s_box (k ! 15)) in
  let k := upd k 3 (k ! 3 ⊕ s_box (k ! 12)) in
  (k, rc).

Definition aes_decrypt_128 (input key : list Z) : list Z * list Z :=
  let rc := 0x6c in
  let o_key := take 16 key in
  let s1 := copy_and_key input o_key in
  let s1 := inv_shift_sub_rows s1 in
  let '(s1, o_key, rc) :=
    foldl (fun '(s1, o_key, rc) r =>
      let '(o_key, rc) := update_decrypt_key_128 o_key rc in
      let s1 := add_round_key s1 o_key in
      (inv_mix_sub_columns s1, o_key, rc)) (s1, o_key, rc) (rev (seq 1 9)) in
  let '(o_key, rc) := update_decrypt_key_128 o_key rc in
  (copy_and_key s1 o_key, o_key).

Definition update_encrypt_key_256 (k : list Z) (rc : Z) : list Z * Z :=
  let k := upd k 0 (k ! 0 ⊕ (s_box (k ! 29) ⊕ rc)) in
  let k := upd k 1 (k ! 1 ⊕ s_box (k ! 30)) in
  let k := upd k 2 (k ! 2 ⊕ s_box (k ! 31)) in
  let k := upd k 3 (k ! 3 ⊕ s_box (k ! 28)) in
  let rc := u8 (f2 rc) in
  let k := foldl chain_word k [4; 8; 12]%nat in
  let k := upd k 16 (k ! 16 ⊕ s_box (k ! 12)) in
  let k := upd k 17 (k ! 17 ⊕ s_box (k ! 13)) in
  let k := upd k 18 (k ! 18 ⊕ s_box (k ! 14)) in
  let k := upd k 19 (k ! 19 ⊕ s_box (k ! 15)) in
  (foldl chain_word k [20; 24; 28]%nat, rc).

Definition aes_encrypt_256 (input key : list Z) : list Z * list Z :=
  let rc := 1 in
  let o_key := take 32 key in
  let s1 := copy_and_key input o_key in
  let '(s1, o_key, rc) :=
    foldl (fun '(s1, o_key, rc) r =>
      let s1 := mix_sub_columns s1 in
      if Nat.odd r then (add_round_key s1 (drop 16 o_key), o_key, rc)
      else
        let '(o_key, rc) := update_encrypt_key_256 o_key rc in
        (add_round_key s1 o_key, o_key, rc)) (s1, o_key, rc) (seq 1 13) in
  let s1 := shift_sub_rows s1 in
  let '(o_key, rc) := update_encrypt_key_256 o_key rc in
  (copy_and_key s1 o_key, o_key).

Definition update_decrypt_key_256 (k : list Z) (rc : Z) : list Z * Z :=
  let k := foldl chain_word k [28; 24; 20]%nat in
  let k := upd k 16 (k ! 16 ⊕ s_box (k ! 12)) in
  let k := upd k 17 (k ! 17 ⊕ s_box (k ! 13)) in
  let k := upd k 18 (k ! 18 ⊕ s_box (k ! 14)) in
  let k := upd k 19 (k ! 19 ⊕ s_box (k ! 15)) in
  let k := foldl chain_word k [12; 8; 4]%nat in
  let rc := u8 (d2 rc) in
  let k := upd k 0 (k ! 0 ⊕ (s_box (k ! 29) ⊕ rc)) in
  let k := upd k 1 (k ! 1 ⊕ s_box (k ! 30)) in
  let k := upd k 2 (k ! 2 ⊕ s_box (k ! 31)) in
  let k := upd k 3 (k ! 3 ⊕ s_box (k ! 28)) in
  (k, rc).

Definition aes_decrypt_256 (input key : list Z) : list Z * list Z :=
  let rc := 0x80 in
  let o_key := take 32 key in
  let s1 := copy_and_key input o_key in
  let s1 := inv_shift_sub_rows s1 in
  let '(s1, o_key, rc) :=
    foldl (fun '(s1, o_key, rc) r =>
      let '(s1, o_key, rc) :=
        if Nat.odd r then
          let '(o_key, rc) := update_decrypt_key_256 o_key rc in
          (add_round_key s1 (drop 16 o_key), o_key, rc)
        else (add_round_key s1 o_key, o_key, rc) in
      (inv_mix_sub_columns s1, o_key, rc)) (s1, o_key, rc) (rev (seq 1 13)) in
  (copy_and_key s1 o_key, o_key).

(** ** The updates, word by word *)

Lemma halve_xtime x : is_u8 x → u8 (d2 (xtime x)) = x.
Proof. apply (octet_eq (fun x => u8 (d2 (xtime x))) (fun x => x)). by vm_compute. Qed.

Lemma double_power n : u8 (f2 (power_of_x n)) = power_of_x (S n).
Proof. apply xtime_spec, power_u8. Qed.
Lemma halve_power n : u8 (d2 (power_of_x (S n))) = power_of_x n.
Proof. exact (halve_xtime _ (power_u8 n)). Qed.

Lemma lxor_undo x y : (x ⊕ y) ⊕ y = x.
Proof. by rewrite Z.lxor_assoc, Z.lxor_nilpotent, Z.lxor_0_r. Qed.

(** The words of a key are four octets each. *)
Ltac word_of H a b c d := apply word_inv in H as (a & b & c & d & -> & ? & ? & ? & ?).

(** A word mixed with a substituted one, as at the start of a group of words. *)
Definition stepped (w last : word) (n : nat) : word :=
  xor_word w (xor_word (SubWord (RotWord last)) [power_of_x n; 0; 0; 0]).

(** The words of the next key of 128 bits. *)
Definition next_128 (w0 w1 w2 w3 : word) (n : nat) : list word :=
  let v0 := stepped w0 w3 n in
  let v1 := xor_word w1 v0 in
  let v2 := xor_word w2 v1 in
  let v3 := xor_word w3 v2 in
  [v0; v1; v2; v3].

(** The words of the next key of 256 bits. *)
Definition next_256 (w0 w1 w2 w3 w4 w5 w6 w7 : word) (n : nat) : list word :=
  let v0 := stepped w0 w7 n in
  let v1 := xor_word w1 v0 in
  let v2 := xor_word w2 v1 in
  let v3 := xor_word w3 v2 in
  let v4 := xor_word w4 (SubWord v3) in
  let v5 := xor_word w5 v4 in
  let v6 := xor_word w6 v5 in
  let v7 := xor_word w7 v6 in
  [v0; v1; v2; v3; v4; v5; v6; v7].

(** What the code of decryption makes of a key, by octets. *)
Lemma update_decrypt_128_octets a0 a1 a2 a3 b0 b1 b2 b3 c0 c1 c2 c3 e0 e1 e2 e3 rc :
  update_decrypt_key_128 [a0; a1; a2; a3; b0; b1; b2; b3; c0; c1; c2; c3; e0; e1; e2; e3] rc =
  (let v3 := xor_word [e0; e1; e2; e3] [c0; c1; c2; c3] in
   let v2 := xor_word [c0; c1; c2; c3] [b0; b1; b2; b3] in
   let v1 := xor_word [b0; b1; b2; b3] [a0; a1; a2; a3] in
   let v0 := [a0 ⊕ (s_box (v3 ! 1) ⊕ u8 (d2 rc)); a1 ⊕ s_box (v3 ! 2); a2 ⊕ s_box (v3 ! 3); a3 ⊕ s_box (v3 ! 0)] in
   concat [v0; v1; v2; v3], u8 (d2 rc)).
Proof. reflexivity. Qed.

Lemma update_decrypt_256_octets a0 a1 a2 a3 b0 b1 b2 b3 c0 c1 c2 c3 e0 e1 e2 e3 h0 h1 h2 h3 i0 i1 i2 i3 j0 j1 j2 j3 k0 k1 k2 k3 rc :
  update_decrypt_key_256 [a0; a1; a2; a3; b0; b1; b2; b3; c0; c1; c2; c3; e0; e1; e2; e3; h0; h1; h2; h3; i0; i1; i2; i3; j0; j1; j2; j3; k0; k1; k2; k3] rc =
  (let v7 := xor_word [k0; k1; k2; k3] [j0; j1; j2; j3] in
   let v6 := xor_word [j0; j1; j2; j3] [i0; i1; i2; i3] in
   let v5 := xor_word [i0; i1; i2; i3] [h0; h1; h2; h3] in
   let v4 := [h0 ⊕ s_box e0; h1 ⊕ s_box e1; h2 ⊕ s_box e2; h3 ⊕ s_box e3] in
   let v3 := xor_word [e0; e1; e2; e3] [c0; c1; c2; c3] in
   let v2 := xor_word [c0; c1; c2; c3] [b0; b1; b2; b3] in
   let v1 := xor_word [b0; b1; b2; b3] [a0; a1; a2; a3] in
   let v0 := [a0 ⊕ (s_box (v7 ! 1) ⊕ u8 (d2 rc)); a1 ⊕ s_box (v7 ! 2); a2 ⊕ s_box (v7 ! 3); a3 ⊕ s_box (v7 ! 0)] in
   concat [v0; v1; v2; v3; v4; v5; v6; v7], u8 (d2 rc)).
Proof. reflexivity. Qed.

Lemma update_128_spec w0 w1 w2 w3 n :
  word_ok w0 → word_ok w1 → word_ok w2 → word_ok w3 →
  update_encrypt_key_128 (concat [w0; w1; w2; w3]) (power_of_x n) =
    (concat (next_128 w0 w1 w2 w3 n), power_of_x (S n)) ∧
  update_decrypt_key_128 (concat (next_128 w0 w1 w2 w3 n)) (power_of_x (S n)) =
    (concat [w0; w1; w2; w3], power_of_x n).
Proof.
  intros H0 H1 H2 H3. word_of H0 a0 a1 a2 a3. word_of H1 b0 b1 b2 b3. word_of H2 c0 c1 c2 c3. word_of H3 e0 e1 e2 e3.
  unfold next_128, stepped. cbn [SubWord RotWord drop take app map xor_word zip_with concat].
  rewrite <-!s_box_spec, !Z.lxor_0_r by done. rewrite update_decrypt_128_octets, halve_power. split.
  - unfold update_encrypt_key_128. rewrite double_power. reflexivity.
  - cbn [xor_word zip_with nth concat app]. by rewrite !lxor_undo.
Qed.

Lemma update_256_spec w0 w1 w2 w3 w4 w5 w6 w7 n :
  word_ok w0 → word_ok w1 → word_ok w2 → word_ok w3 → word_ok w4 → word_ok w5 → word_ok w6 → word_ok w7 →
  update_encrypt_key_256 (concat [w0; w1; w2; w3; w4; w5; w6; w7]) (power_of_x n) =
    (concat (next_256 w0 w1 w2 w3 w4 w5 w6 w7 n), power_of_x (S n)) ∧
  update_decrypt_key_256 (concat (next_256 w0 w1 w2 w3 w4 w5 w6 w7 n)) (power_of_x (S n)) =
    (concat [w0; w1; w2; w3; w4; w5; w6; w7], power_of_x n).
Proof.
  intros H0 H1 H2 H3 H4 H5 H6 H7. pose proof (power_u8 n).
  word_of H0 a0 a1 a2 a3. word_of H1 b0 b1 b2 b3. word_of H2 c0 c1 c2 c3. word_of H3 e0 e1 e2 e3.
  word_of H4 h0 h1 h2 h3. word_of H5 i0 i1 i2 i3. word_of H6 j0 j1 j2 j3. word_of H7 k0 k1 k2 k3.
  unfold next_256, stepped. cbn [SubWord RotWord drop take app map xor_word zip_with concat].
  rewrite <-(s_box_spec k0), <-(s_box_spec k1), <-(s_box_spec k2), <-(s_box_spec k3), !Z.lxor_0_r by done.
  rewrite <-!s_box_spec by auto 9 with rfc. rewrite update_decrypt_256_octets, halve_power. split.
  - unfold update_encrypt_key_256. rewrite double_power. reflexivity.
  - cbn [xor_word zip_with nth concat app]. by rewrite !lxor_undo.
Qed.

(** ** The words of the expansion *)
Lemma expand_prefix n Nk ws : ∃ t, expand n Nk ws = ws ++ t.
Proof.
  revert ws. induction n as [|n IH]; intros ws; [exists []; by rewrite app_nil_r|]. cbn [expand].
  destruct (IH (ws ++ [next_word Nk ws])) as [t ->]. rewrite <-app_assoc. by eexists.
Qed.

Lemma expand_add n m Nk ws : expand (n + m) Nk ws = expand m Nk (expand n Nk ws).
Proof. revert ws. induction n as [|n IH]; intros ws; [done|]. cbn [Nat.add expand]. apply IH. Qed.

Lemma expand_nth n Nk ws i :
  (length ws <= i < length ws + n)%nat →
  nth i (expand n Nk ws) [] = next_word Nk (take i (expand n Nk ws)).
Proof.
  revert ws. induction n as [|n IH]; intros ws Hi; [lia|]. cbn [expand].
  destruct (decide (i = length ws)) as [->|Hne].
  - destruct (expand_prefix n Nk (ws ++ [next_word Nk ws])) as [t ->]. rewrite <-app_assoc.
    rewrite take_app_length. by rewrite app_nth2, Nat.sub_diag by lia.
  - apply IH. rewrite length_app. cbn. lia.
Qed.

Lemma nth_take {A} (l : list A) i j d : (j < i)%nat → nth j (take i l) d = nth j l d.
Proof. intros H. by rewrite !nth_lookup, lookup_take_lt. Qed.

Lemma group_words {A} (l : list A) m n d :
  (m + n <= length l)%nat → take n (drop m l) = map (fun j => nth (m + j) l d) (seq 0 n).
Proof.
  intros Hl. apply (nth_ext _ _ d d).
  - rewrite length_take, length_drop, length_map, length_seq. lia.
  - intros i Hi. rewrite length_take, length_drop in Hi. rewrite nth_take by lia.
    rewrite !nth_lookup, lookup_drop, list_lookup_fmap, lookup_seq_lt by lia. cbn. by rewrite nth_lookup.
Qed.

Lemma take_concat n ws : Forall word_ok ws → take (4 * n) (concat ws) = concat (take n ws).
Proof.
  intros H. revert n. induction H as [|w ws [Hw _] Hws IH]; intros [|n]; try done.
  cbn [concat take]. rewrite <-IH, <-Hw. replace (length w * S n)%nat with (length w + length w * n)%nat by lia.
  by rewrite take_app_add.
Qed.

Lemma drop_concat n ws : Forall word_ok ws → drop (4 * n) (concat ws) = concat (drop n ws).
Proof.
  intros H. revert n. induction H as [|w ws [Hw _] Hws IH]; intros [|n]; try done.
  cbn [concat drop]. rewrite <-IH, <-Hw. replace (length w * S n)%nat with (length w + length w * n)%nat by lia.
  by rewrite drop_app_add.
Qed.

Lemma round_key_concat ws m : Forall word_ok ws → round_key (concat ws) m = concat (take 4 (drop (4 * m) ws)).
Proof.
  intros H. unfold round_key. replace (m * 16)%nat with (4 * (4 * m))%nat by lia.
  rewrite drop_concat by done. exact (take_concat 4 _ (Forall_drop _ _ _ H)).
Qed.

Section words.
Context (Nk n : nat) (key : list Z).
Context (HNk : (4 <= Nk <= 8)%nat) (Hl : (4 * Nk <= length key)%nat) (Hu : Forall is_u8 key).

Definition words := expand n Nk (key_words Nk key).
Definition word_at (i : nat) : word := nth i words [].

Lemma words_ok : Forall word_ok words ∧ length words = (Nk + n)%nat.
Proof.
  destruct (key_words_ok Nk key Hl Hu) as (Hw & Hn & _).
  destruct (expand_ok Nk HNk n (key_words Nk key) Hw) as [H1 H2]; [lia|]. split; [done|]. unfold words. lia.
Qed.

Lemma word_at_ok i : (i < Nk + n)%nat → word_ok (word_at i).
Proof. destruct words_ok as [Hw E]. intros Hi. apply nth_word_ok; [done|lia]. Qed.

Lemma word_step i : (Nk <= i < Nk + n)%nat →
  word_at i = xor_word (word_at (i - Nk))
    (if (i mod Nk =? 0)%nat then xor_word (SubWord (RotWord (word_at (i - 1)))) (Rcon (i / Nk))
     else if (6 <? Nk)%nat && (i mod Nk =? 4)%nat then SubWord (word_at (i - 1)) else word_at (i - 1)).
Proof.
  intros Hi. destruct words_ok as [_ E]. unfold word_at at 1, words.
  rewrite expand_nth by (rewrite (proj1 (proj2 (key_words_ok Nk key Hl Hu))); lia). fold words.
  unfold next_word. rewrite length_take, E. replace (i `min` (Nk + n))%nat with i by lia.
  by rewrite !nth_take by lia.
Qed.
End words.

Lemma group_at Nk n key m k :
  (m + k <= length (words Nk n key))%nat →
  take k (drop m (words Nk n key)) = map (fun j => word_at Nk n key (m + j)) (seq 0 k).
Proof. exact (group_words _ m k []). Qed.

(** ** The keys of the rounds *)
Definition words_128 (key : list Z) : list word := words 4 40 key.
Definition words_256 (key : list Z) : list word := words 8 56 key.

(** The keys of 256 bits the code goes through. *)
Definition pair_key (ws : list word) (m : nat) : list Z := concat (take 8 (drop (8 * m) ws)).

Lemma mod_group k m j : (j < k)%nat → ((k * m + j) mod k = j)%nat.
Proof. intros Hj. symmetry. by apply (Nat.mod_unique _ _ m). Qed.
Lemma div_group k m j : (j < k)%nat → ((k * m + j) / k = m)%nat.
Proof. intros Hj. symmetry. by apply (Nat.div_unique _ _ _ j). Qed.

(** What word [j] of group [m + 1] of the expansion is, by the words before it. *)
Definition steps (Nk : nat) (w : nat → word) (m : nat) : Prop :=
  ∀ j, (j < Nk)%nat →
    w (Nk * (m + 1) + j)%nat = xor_word (w (Nk * m + j)%nat)
      (let prev := w (Nk * (m + 1) + j - 1)%nat in
       if (j =? 0)%nat then xor_word (SubWord (RotWord prev)) [power_of_x m; 0; 0; 0]
       else if (6 <? Nk)%nat && (j =? 4)%nat then SubWord prev else prev).

Lemma group_step Nk n key m :
  (4 <= Nk <= 8)%nat → (4 * Nk <= length key)%nat → Forall is_u8 key → (Nk * (m + 1) <= n)%nat →
  steps Nk (word_at Nk n key) m.
Proof.
  intros HNk Hl Hu Hm j Hj. rewrite word_step by (done || lia). rewrite mod_group, div_group by done.
  unfold Rcon. replace (m + 1 - 1)%nat with m by lia.
  by replace (Nk * (m + 1) + j - Nk)%nat with (Nk * m + j)%nat by lia.
Qed.

(** The word [j] of a group by the word before it. *)
Ltac back Hg j :=
  rewrite (Hg j) by lia; rewrite <-(Nat.add_sub_assoc _ j) by lia; cbn [Nat.eqb Nat.ltb Nat.leb Nat.sub andb].

Lemma next_128_words w m : steps 4 w m →
  map (fun j => w (4 * (m + 1) + j)%nat) (seq 0 4) =
  next_128 (w (4 * m + 0)%nat) (w (4 * m + 1)%nat) (w (4 * m + 2)%nat) (w (4 * m + 3)%nat) m.
Proof.
  intros Hg. cbn [map seq]. unfold next_128, stepped. cbv zeta.
  back Hg 3%nat. back Hg 2%nat. back Hg 1%nat. rewrite (Hg 0%nat) by lia. cbn [Nat.eqb].
  by replace (4 * (m + 1) + 0 - 1)%nat with (4 * m + 3)%nat by lia.
Qed.

Lemma next_256_words w m : steps 8 w m →
  map (fun j => w (8 * (m + 1) + j)%nat) (seq 0 8) =
  next_256 (w (8 * m + 0)%nat) (w (8 * m + 1)%nat) (w (8 * m + 2)%nat) (w (8 * m + 3)%nat)
    (w (8 * m + 4)%nat) (w (8 * m + 5)%nat) (w (8 * m + 6)%nat) (w (8 * m + 7)%nat) m.
Proof.
  intros Hg. cbn [map seq]. unfold next_256, stepped. cbv zeta.
  back Hg 7%nat. back Hg 6%nat. back Hg 5%nat. back Hg 4%nat. back Hg 3%nat. back Hg 2%nat. back Hg 1%nat.
  rewrite (Hg 0%nat) by lia. cbn [Nat.eqb].
  by replace (8 * (m + 1) + 0 - 1)%nat with (8 * m + 7)%nat by lia.
Qed.

Lemma keys_128 key m :
  length key = 16%nat → Forall is_u8 key → (m < 10)%nat →
  let K := round_key (concat (words_128 key)) in
  update_encrypt_key_128 (K m) (power_of_x m) = (K (m + 1)%nat, power_of_x (S m)) ∧
  update_decrypt_key_128 (K (m + 1)%nat) (power_of_x (S m)) = (K m, power_of_x m).
Proof.
  intros Hl Hu Hm. cbv zeta. destruct (words_ok 4 40 key ltac:(lia) ltac:(lia) Hu) as [Hw E].
  rewrite !round_key_concat by done. unfold words_128. rewrite !group_at by lia.
  rewrite (next_128_words _ m (group_step 4 40 key m ltac:(lia) ltac:(lia) Hu ltac:(lia))).
  apply update_128_spec; apply word_at_ok; first [exact Hu | lia].
Qed.

Lemma keys_256 key m :
  length key = 32%nat → Forall is_u8 key → (m < 7)%nat →
  let E := pair_key (words_256 key) in
  update_encrypt_key_256 (E m) (power_of_x m) = (E (m + 1)%nat, power_of_x (S m)) ∧
  update_decrypt_key_256 (E (m + 1)%nat) (power_of_x (S m)) = (E m, power_of_x m).
Proof.
  intros Hl Hu Hm. cbv zeta. destruct (words_ok 8 56 key ltac:(lia) ltac:(lia) Hu) as [Hw E].
  unfold pair_key, words_256. rewrite !group_at by lia.
  rewrite (next_256_words _ m (group_step 8 56 key m ltac:(lia) ltac:(lia) Hu ltac:(lia))).
  apply update_256_spec; apply word_at_ok; first [exact Hu | lia].
Qed.

Lemma first_words Nk n key :
  (4 * Nk <= length key)%nat → Forall is_u8 key → take (4 * Nk) (concat (words Nk n key)) = take (4 * Nk) key.
Proof.
  intros Hl Hu. destruct (key_words_ok Nk key Hl Hu) as (_ & _ & E). unfold words.
  destruct (expand_prefix n Nk (key_words Nk key)) as [t ->]. rewrite concat_app, E, take_app_le, take_take.
  - by rewrite Nat.min_id.
  - rewrite length_take. lia.
Qed.

Lemma schedule_words Nk n key r :
  (4 <= Nk <= 8)%nat → (4 * Nk <= length key)%nat → Forall is_u8 key → (4 * (r + 1) <= Nk + n)%nat →
  schedule r (concat (words Nk n key)).
Proof.
  intros HNk Hl Hu Hr. destruct (words_ok Nk n key HNk Hl Hu) as [Hw E].
  split; [rewrite length_concat_words, E by done; lia|]. by apply concat_u8.
Qed.

(** ** The rounds *)

(** The state after round [r] of encryption with the round keys of [w]. *)
Fixpoint state_at (w input : list Z) (r : nat) : list Z :=
  match r with
  | O => copy_and_key input (round_key w 0)
  | S r' => add_round_key (mix_sub_columns (state_at w input r')) (round_key w r)
  end.

Lemma state_block n w input r : schedule n w → block input → (r <= n)%nat → block (state_at w input r).
Proof.
  intros Hw Hi. induction r as [|r IH]; intros Hr; cbn [state_at]; unfold copy_and_key, add_round_key, xor_block.
  - apply block_xor; [done|]. by apply (block_round_key n).
  - apply block_xor; [apply block_mix, IH; lia|]. by apply (block_round_key n).
Qed.

Lemma state_undo n w input r : schedule n w → block input → (r < n)%nat →
  inv_mix_sub_columns (add_round_key (state_at w input (S r)) (round_key w (S r))) = state_at w input r.
Proof.
  intros Hw Hi Hr. pose proof (state_block n w input r Hw Hi ltac:(lia)) as Hb. cbn [state_at].
  pose proof (block_round_key n w (S r) Hw Hr). unfold add_round_key, xor_block.
  rewrite xor_twice by auto with rfc. by apply inv_mix_sub.
Qed.

Lemma foldl_up {S} (f : S → nat → S) (st : nat → S) n :
  (∀ r, (r < n)%nat → f (st r) (r + 1)%nat = st (r + 1)%nat) → foldl f (st 0%nat) (seq 1 n) = st n.
Proof.
  induction n as [|n IH]; intros H; [done|]. rewrite seq_S, foldl_app, IH by (intros; apply H; lia).
  cbn [foldl]. replace (1 + n)%nat with (n + 1)%nat by lia. rewrite H by lia. f_equal. lia.
Qed.

Lemma foldl_down {S} (g : S → nat → S) (st : nat → S) n :
  (∀ r, (r < n)%nat → g (st (r + 1)%nat) (r + 1)%nat = st r) → foldl g (st n) (rev (seq 1 n)) = st 0%nat.
Proof.
  induction n as [|n IH]; intros H; [done|]. rewrite seq_S, rev_app_distr. cbn [rev app foldl].
  replace (1 + n)%nat with (n + 1)%nat by lia. replace (Datatypes.S n) with (n + 1)%nat by lia.
  rewrite H by lia. apply IH. intros. apply H. lia.
Qed.

Lemma Cipher_states Nk w input :
  schedule (Nr Nk) w → block input →
  Cipher Nk w input = copy_and_key (shift_sub_rows (state_at w input (Nr Nk - 1))) (round_key w (Nr Nk)).
Proof.
  intros Hw Hin. unfold Cipher.
  assert (block (state_at w input 0)) as H0 by (apply (state_block (Nr Nk)); [done|done|lia]).
  destruct (rounds_spec _ _ _ _ Hw (Forall_seq_le (Nr Nk)) H0) as [Hf E]. cbv zeta in Hf, E.
  change (AddRoundKey input (round_key w 0)) with (state_at w input 0). cbv zeta. rewrite <-E, <-shift_sub_rows_spec by done.
  unfold AddRoundKey, copy_and_key. do 2 f_equal.
  apply (foldl_up (fun s r => add_round_key (mix_sub_columns s) (round_key w r)) (state_at w input)).
  intros r _. by rewrite Nat.add_1_r.
Qed.

(** ** Keys of 128 bits *)
Section on_the_fly_128.
Context (key input : list Z) (Hl : length key = 16%nat) (Hu : Forall is_u8 key) (Hin : block input).

Let w := concat (words_128 key).
Let st (r : nat) := (state_at w input r, round_key w r, power_of_x r).
(** The state of decryption before round [r] is undone. *)
Let dst (r : nat) := (state_at w input r, round_key w (r + 1), power_of_x (S r)).

Lemma schedule_128 : schedule 10 w.
Proof. apply schedule_words; (exact Hu || lia). Qed.

Lemma step_128 m : (m < 10)%nat →
  update_encrypt_key_128 (round_key w m) (power_of_x m) = (round_key w (m + 1), power_of_x (S m)) ∧
  update_decrypt_key_128 (round_key w (m + 1)) (power_of_x (S m)) = (round_key w m, power_of_x m).
Proof. exact (keys_128 key m Hl Hu). Qed.

Lemma first_key_128 : take 16 key = round_key w 0.
Proof. exact (eq_sym (first_words 4 40 key ltac:(lia) Hu)). Qed.

Lemma encrypt_128_run : aes_encrypt_128 input key = (Cipher 4 w input, round_key w 10).
Proof.
  unfold aes_encrypt_128. rewrite Cipher_states by (done || apply schedule_128).
  rewrite first_key_128. cbv zeta.
  change (copy_and_key input (round_key w 0), round_key w 0, 1) with (st 0).
  rewrite (foldl_up _ st 9).
  - unfold st. rewrite (proj1 (step_128 9 ltac:(lia))). done.
  - intros r Hr. unfold st. rewrite (proj1 (step_128 r ltac:(lia))), Nat.add_1_r. done.
Qed.

Lemma decrypt_128_run : aes_decrypt_128 (Cipher 4 w input) (round_key w 10) = (input, key).
Proof.
  unfold aes_decrypt_128. rewrite Cipher_states by (done || apply schedule_128).
  pose proof schedule_128 as Hs. pose proof (block_round_key 10 w 10 Hs ltac:(lia)) as H10.
  pose proof (state_block 10 w input 9 Hs Hin ltac:(lia)) as H9.
  rewrite (take_ge (round_key w 10)) by (destruct H10; lia). unfold copy_and_key. cbv zeta.
  change (Nr 4) with 10%nat. change (10 - 1)%nat with 9%nat.
  rewrite (xor_twice (shift_sub_rows _)) by (apply block_shift, H9 || apply H10). rewrite (inv_shift_sub _ H9).
  change (state_at w input 9, round_key w 10, 0x6c) with (dst 9). rewrite (foldl_down _ dst 9).
  - unfold dst. rewrite (proj2 (step_128 0 ltac:(lia))). cbn [state_at]. unfold copy_and_key.
    rewrite (xor_twice _ _ Hin (block_round_key 10 w 0 Hs ltac:(lia))). f_equal.
    rewrite <-first_key_128. apply take_ge. lia.
  - intros r Hr. unfold dst. rewrite (proj2 (step_128 (r + 1) ltac:(lia))).
    rewrite Nat.add_1_r, (state_undo 10) by (done || lia). done.
Qed.
End on_the_fly_128.

(** ** Keys of 256 bits *)
Section on_the_fly_256.
Context (key input : list Z) (Hl : length key = 32%nat) (Hu : Forall is_u8 key) (Hin : block input).

Let w := concat (words_256 key).
Let pk := pair_key (words_256 key).
Let st (r : nat) := (state_at w input r, pk (r / 2)%nat, power_of_x (r / 2)).
Let dst (r : nat) := (state_at w input r, pk ((r + 1) / 2)%nat, power_of_x ((r + 1) / 2)).

Lemma schedule_256 : schedule 15 w.
Proof. apply schedule_words; (exact Hu || lia). Qed.

Lemma step_256 m : (m < 7)%nat →
  update_encrypt_key_256 (pk m) (power_of_x m) = (pk (m + 1)%nat, power_of_x (S m)) ∧
  update_decrypt_key_256 (pk (m + 1)%nat) (power_of_x (S m)) = (pk m, power_of_x m).
Proof. exact (keys_256 key m Hl Hu). Qed.

Lemma pair_first m : take 16 (pk m) = round_key w (2 * m).
Proof.
  destruct (words_ok 8 56 key ltac:(lia) ltac:(lia) Hu) as [Hw _]. unfold pk, pair_key, w, words_256.
  rewrite round_key_concat by done. rewrite (take_concat 4) by (by apply Forall_take, Forall_drop).
  rewrite take_take. by replace (4 * (2 * m))%nat with (8 * m)%nat by lia.
Qed.

Lemma pair_second m : drop 16 (pk m) = round_key w (2 * m + 1).
Proof.
  destruct (words_ok 8 56 key ltac:(lia) ltac:(lia) Hu) as [Hw _]. unfold pk, pair_key, w, words_256.
  rewrite round_key_concat by done. rewrite (drop_concat 4) by (by apply Forall_take, Forall_drop).
  rewrite skipn_firstn_comm, drop_drop. by replace (4 * (2 * m + 1))%nat with (8 * m + 4)%nat by lia.
Qed.

Lemma xor_pair s m : block s → zip_with Z.lxor s (pk m) = zip_with Z.lxor s (round_key w (2 * m)).
Proof. intros Hs. by rewrite zip_with_take, pair_first. Qed.

Lemma half_even r : Nat.odd (r + 1) = true → (r = 2 * (r / 2) ∧ (r + 1) / 2 = r / 2 ∧ (r + 1 + 1) / 2 = r / 2 + 1)%nat.
Proof.
  intros H. apply Nat.odd_spec in H as [k E]. assert (r = 2 * k)%nat as -> by lia.
  rewrite (Nat.mul_comm 2 k), Nat.div_mul, Nat.div_add_l by lia.
  replace (k * 2 + 1 + 1)%nat with ((k + 1) * 2)%nat by lia. rewrite Nat.div_mul by lia. change (1 / 2)%nat with 0%nat. lia.
Qed.

Lemma half_odd r : Nat.odd (r + 1) = false → (r + 1 = 2 * (r / 2 + 1) ∧ (r + 1) / 2 = r / 2 + 1 ∧ (r + 1 + 1) / 2 = r / 2 + 1)%nat.
Proof.
  intros H. assert (Nat.even (r + 1) = true) as H' by (by rewrite <-Nat.negb_odd, H).
  apply Nat.even_spec in H' as [k E]. assert (r = (k - 1) * 2 + 1)%nat as -> by lia.
  rewrite Nat.div_add_l by lia. change (1 / 2)%nat with 0%nat.
  replace ((k - 1) * 2 + 1 + 1)%nat with (k * 2)%nat by lia. rewrite Nat.div_mul, Nat.div_add_l by lia.
  change (1 / 2)%nat with 0%nat. lia.
Qed.

Lemma first_key_256 : take 32 key = pk 0.
Proof.
  destruct (words_ok 8 56 key ltac:(lia) ltac:(lia) Hu) as [Hw _].
  rewrite <-(first_words 8 56 key ltac:(lia) Hu : take 32 _ = take 32 key). exact (take_concat 8 _ Hw).
Qed.

Lemma encrypt_256_run : aes_encrypt_256 input key = (Cipher 8 w input, pk 7).
Proof.
  pose proof schedule_256 as Hs. assert (schedule 14 w) as Hs' by (destruct Hs; split; [lia|done]).
  unfold aes_encrypt_256. rewrite Cipher_states by done.
  rewrite first_key_256. unfold copy_and_key. cbv zeta. rewrite (xor_pair input 0 Hin).
  change (zip_with Z.lxor input (round_key w (2 * 0)), pk 0, 1) with (st 0). rewrite (foldl_up _ st 13).
  - unfold st. change (13 / 2)%nat with 6%nat. rewrite (proj1 (step_256 6 ltac:(lia))).
    rewrite (xor_pair _ (6 + 1)); [done|]. apply block_shift. by apply (state_block 14); [..|lia].
  - intros r Hr. unfold st. assert (block (mix_sub_columns (state_at w input r))) as Hb.
    { apply block_mix. by apply (state_block 14); [..|lia]. }
    destruct (Nat.odd (r + 1)) eqn:Ho.
    + destruct (half_even r Ho) as (E & -> & _). rewrite pair_second, <-E. by rewrite Nat.add_1_r.
    + destruct (half_odd r Ho) as (E & -> & _). rewrite (proj1 (step_256 (r / 2) ltac:(lia))).
      unfold add_round_key, xor_block. rewrite xor_pair, <-E by done. by rewrite !Nat.add_1_r.
Qed.

Lemma decrypt_256_run : aes_decrypt_256 (Cipher 8 w input) (pk 7) = (input, key).
Proof.
  pose proof schedule_256 as Hs. assert (schedule 14 w) as Hs' by (destruct Hs; split; [lia|done]).
  pose proof (block_round_key 14 w 14 Hs' ltac:(lia)) as H14.
  pose proof (state_block 14 w input 13 Hs' Hin ltac:(lia)) as H13.
  assert (take 32 (pk 7) = pk 7) as E7.
  { apply take_ge. destruct (words_ok 8 56 key ltac:(lia) ltac:(lia) Hu) as [Hw E].
    unfold pk, pair_key. rewrite length_concat_words by (by apply Forall_take, Forall_drop).
    rewrite length_take. lia. }
  unfold aes_decrypt_256. rewrite Cipher_states by done. rewrite E7. unfold copy_and_key. cbv zeta.
  rewrite (xor_pair _ 7) by auto with rfc. change (Nr 8) with 14%nat. change (2 * 7)%nat with 14%nat.
  change (14 - 1)%nat with 13%nat. rewrite (xor_twice (shift_sub_rows _) _ (block_shift _ H13) H14), (inv_shift_sub _ H13).
  change (state_at w input 13, pk 7, 0x80) with (dst 13). rewrite (foldl_down _ dst 13).
  - unfold dst. change ((0 + 1) / 2)%nat with 0%nat. rewrite xor_pair by (apply (state_block 14); [done|done|lia]).
    cbn [state_at Nat.mul Nat.add]. unfold copy_and_key. rewrite (xor_twice _ _ Hin (block_round_key 14 w 0 Hs' ltac:(lia))).
    f_equal. rewrite <-first_key_256. apply take_ge. lia.
  - intros r Hr. unfold dst. destruct (Nat.odd (r + 1)) eqn:Ho.
    + destruct (half_even r Ho) as (E & -> & ->). rewrite (Nat.add_1_r (r / 2)) at 2.
      rewrite (proj2 (step_256 (r / 2) ltac:(lia))), pair_second, <-E.
      rewrite (Nat.add_1_r r), (state_undo 14 w input r Hs' Hin ltac:(lia)). reflexivity.
    + destruct (half_odd r Ho) as (E & -> & ->). unfold add_round_key, xor_block.
      rewrite xor_pair, <-E by (apply (state_block 14); [done|done|lia]).
      fold (xor_block (state_at w input (r + 1)) (round_key w (r + 1))).
      fold (add_round_key (state_at w input (r + 1)) (round_key w (r + 1))).
      rewrite (Nat.add_1_r r), (state_undo 14 w input r Hs' Hin ltac:(lia)). reflexivity.
Qed.
End on_the_fly_256.

Lemma expansion_words Nk key : KeyExpansion Nk key = concat (words Nk (4 * (Nr Nk + 1) - Nk) key).
Proof. reflexivity. Qed.

Lemma expansion_128 key : KeyExpansion 4 key = concat (words_128 key).
Proof. rewrite expansion_words. unfold words_128. f_equal. Qed.

Lemma Cipher_256 key input :
  length key = 32%nat → Forall is_u8 key → Cipher 8 (concat (words_256 key)) input = AES 8 key input.
Proof.
  intros Hl Hu. destruct (words_ok 8 52 key ltac:(lia) ltac:(lia) Hu) as [Hw E].
  assert (words_256 key = expand 4 8 (words 8 52 key)) as -> by exact (expand_add 52 4 8 _).
  destruct (expand_prefix 4 8 (words 8 52 key)) as [t ->]. rewrite concat_app. unfold AES.
  rewrite expansion_words. replace (4 * (Nr 8 + 1) - 8)%nat with 52%nat by done.
  apply (Cipher_app 8). by rewrite length_concat_words, E.
Qed.

(** C31: encryption with keys made on the fly is AES, and decryption starts from the key
    it leaves.  For keys of 128 and of 256 bits the ciphertext is that of the cipher of
    FIPS 197, so that of [aes_encrypt] with a key schedule; the decryption function,
    given the ciphertext and the key the encryption function returned, gives back the
    block and the key itself. *)
Theorem aes_on_the_fly key input :
  Forall is_u8 key → block input →
  (length key = 16%nat → ∃ o_key, aes_encrypt_128 input key = (AES 4 key input, o_key) ∧
    o_key = round_key (KeyExpansion 4 key) 10 ∧ aes_decrypt_128 (AES 4 key input) o_key = (input, key)) ∧
  (length key = 32%nat → ∃ o_key, aes_encrypt_256 input key = (AES 8 key input, o_key) ∧
    aes_decrypt_256 (AES 8 key input) o_key = (input, key)).
Proof.
  intros Hu Hin. split; intros Hl.
  - exists (round_key (KeyExpansion 4 key) 10).
    pose proof (encrypt_128_run key input Hl Hu Hin) as H1. pose proof (decrypt_128_run key input Hl Hu Hin) as H2.
    rewrite <-expansion_128 in H1, H2. auto.
  - exists (pair_key (words_256 key) 7).
    pose proof (encrypt_256_run key input Hl Hu Hin) as H1. pose proof (decrypt_256_run key input Hl Hu Hin) as H2.
    rewrite Cipher_256 in H1, H2 by done. auto.
Qed.

Lemma aes_on_the_fly_witness :
  ∃ o_key, aes_encrypt_128 (take 16 msg_1) key_1 = (AES 4 key_1 (take 16 msg_1), o_key) ∧
    o_key = round_key (KeyExpansion 4 key_1) 10 ∧
    aes_decrypt_128 (AES 4 key_1 (take 16 msg_1)) o_key = (take 16 msg_1, key_1).
Proof.
  apply (aes_on_the_fly key_1 (take 16 msg_1)).
  - apply key_1_u8.
  - split; [done|]. by apply Forall_take, msg_1_u8.
  - done.
Defined.
