(* ===== verification/Cmac.v ===== *)
(** * AES-CMAC ([gd/crypto_toolbox/aes_cmac.cc])

    The message authentication code of RFC 4493, computed on octets in the opposite
    order: octet 0 of a key, of a message and of the code is the least significant.
    The control block is the [thread_local] record of the text, which a call sets up
    and clears.  Local objects that the code does not initialise have the contents
    that [memory] gives them. *)
From S2P Require Import Prelude Aes AesSpec AesKey AesInverse.

(** ** The code *)

(** What memory not yet written holds: a context, and the octets [alloca] returns. *)
Record memory := { stack_ctx : aes_context; stack_block : list Z; stack_octets : nat → list Z }.

Record tCMAC_CB := { text : list Z; len : Z; round : Z }.

Definition const_Rb : list Z := [0x87; 0; 0; 0; 0; 0; 0; 0; 0; 0; 0; 0; 0; 0; 0; 0].

Definition kOctet16Length : nat := 16.

Definition xor_128 (a b : list Z) : list Z :=
  foldl (fun aa i => upd aa i (nth i aa 0 ⊕ nth i b 0)) a (seq 0 kOctet16Length).

Definition padding (dest : list Z) (length : Z) : list Z :=
  foldl (fun p i => upd p (kOctet16Length - i - 1) (if Z.of_nat i =? length then 0x80 else 0)) dest
    (seq (Z.to_nat length) (kOctet16Length - Z.to_nat length)).

Definition leftshift_onebit (input output : list Z) : list Z :=
  fst (foldl (fun '(output, overflow) i =>
    let next_overflow := if nz (Z.land (nth i input 0) 0x80) then 1 else 0 in
    (upd output i (u8 (Z.lor (Z.shiftl (nth i input 0) 1) overflow)), next_overflow))
    (output, 0) (seq 0 kOctet16Length)).

(** The 16 octets of the text from [off] on, and the text with them replaced. *)
Definition octet16_at (t : list Z) (off : nat) : list Z := take kOctet16Length (drop off t).
Definition store_octet16 (t : list Z) (off : nat) (b : list Z) : list Z :=
  take off t ++ b ++ drop (off + kOctet16Length) t.

Section code.
Context (m : memory).

Definition aes_128 (key message : list Z) : list Z :=
  let key_reversed := rev key in
  let message_reversed := rev message in
  let '(_, ctx) := aes_set_key key_reversed (Z.of_nat (length key_reversed)) (stack_ctx m) in
  let '(_, output) := aes_encrypt message_reversed (stack_block m) ctx in
  rev output.

Definition cmac_aes_k_calculate (cb : tCMAC_CB) (key : list Z) : list Z * tCMAC_CB :=
  let '(t, _, output) :=
    foldl (fun '(t, x, _) i =>
      let off := ((Z.to_nat (round cb) - i) * kOctet16Length)%nat in
      let t := store_octet16 t off (xor_128 (octet16_at t off) x) in
      let output := aes_128 key (octet16_at t off) in
      (t, output, output))
      (text cb, replicate kOctet16Length 0, stack_block m) (seq 1 (Z.to_nat (round cb))) in
  (output, {| text := t; len := len cb; round := round cb |}).

Definition cmac_prepare_last_block (cb : tCMAC_CB) (k1 k2 : list Z) : tCMAC_CB :=
  let flag := (len cb mod Z.of_nat kOctet16Length =? 0) && negb (len cb =? 0) in
  let t :=
    if flag then store_octet16 (text cb) 0 (xor_128 (octet16_at (text cb) 0) k1)
    else
      let t := store_octet16 (text cb) 0 (padding (octet16_at (text cb) 0) (u8 (len cb mod 16))) in
      store_octet16 t 0 (xor_128 (octet16_at t 0) k2) in
  {| text := t; len := len cb; round := round cb |}.

Definition cmac_generate_subkey (cb : tCMAC_CB) (key : list Z) : tCMAC_CB :=
  let zero := replicate kOctet16Length 0 in
  let p := aes_128 key zero in
  let k1 :=
    if nz (Z.land (nth (kOctet16Length - 1) p 0) 0x80) then xor_128 (leftshift_onebit p (stack_block m)) const_Rb
    else leftshift_onebit p (stack_block m) in
  let k2 :=
    if nz (Z.land (nth (kOctet16Length - 1) k1 0) 0x80) then xor_128 (leftshift_onebit k1 (stack_block m)) const_Rb
    else leftshift_onebit k1 (stack_block m) in
  cmac_prepare_last_block cb k1 k2.

(** The null pointer as [None]; the code, and the control block it leaves. *)
Definition aes_cmac (key : list Z) (input : option (list Z)) (length : Z) : list Z * tCMAC_CB :=
  let n := u16 ((length + Z.of_nat kOctet16Length - 1) / Z.of_nat kOctet16Length) in
  let n := if n =? 0 then 1 else n in
  let ln := u32 (n * Z.of_nat kOctet16Length) in
  let t := stack_octets m (Z.to_nat ln) in
  let diff := u16 (ln - length) in
  let '(t, l) :=
    match input with
    | Some inp =>
        if 0 <? length then (take (Z.to_nat diff) t ++ take (Z.to_nat length) inp ++ drop (Z.to_nat diff + Z.to_nat length) t, length)
        else (t, 0)
    | None => (t, 0)
    end in
  let cb := {| text := t; len := l; round := n |} in
  let cb := cmac_generate_subkey cb key in
  let '(signature, cb) := cmac_aes_k_calculate cb key in
  (signature, {| text := []; len := 0; round := 0 |}).
End code.

(** ** The specification (RFC 4493), most significant octet first *)
Fixpoint le_number (l : list Z) : Z :=
  match l with
  | [] => 0
  | x :: l => x + 256 * le_number l
  end.
Fixpoint le_octets (n : nat) (v : Z) : list Z :=
  match n with
  | O => []
  | S n => v mod 256 :: le_octets n (v / 256)
  end.
Definition number (l : list Z) : Z := le_number (rev l).
Definition be_octets (n : nat) (v : Z) : list Z := rev (le_octets n v).

Definition zero_block : list Z := replicate 16 0.

(** Multiplication by x in the field of 2 ^ 128 elements. *)
Definition times_x (l : list Z) : list Z :=
  be_octets 16 ((2 * number l) mod 2 ^ 128 ⊕ (if 2 ^ 127 <=? number l then 0x87 else 0)).

Definition pad (l : list Z) : list Z := l ++ 0x80 :: replicate (15 - length l) 0.

Definition block_count (n : nat) : nat := Nat.max 1 ((n + 15) / 16).

Fixpoint cbc_mac (n : nat) (K X msg : list Z) : list Z :=
  match n with
  | O => X
  | S n => cbc_mac n K (AES 4 K (zip_with Z.lxor X (take 16 msg))) (drop 16 msg)
  end.

Definition CMAC (K M : list Z) : list Z :=
  let K1 := times_x (AES 4 K zero_block) in
  let K2 := times_x K1 in
  let n := block_count (length M) in
  let front := take (16 * (n - 1)) M in
  let last := drop (16 * (n - 1)) M in
  let last := if (length last =? 16)%nat then zip_with Z.lxor last K1 else zip_with Z.lxor (pad last) K2 in
  cbc_mac n K zero_block (front ++ last).

(** ** Octets and numbers *)
Lemma le_number_bound l : Forall is_u8 l → 0 <= le_number l < 256 ^ Z.of_nat (length l).
Proof.
  induction 1 as [|x l Hx Hl IH]; [done|]. cbn [le_number length]. rewrite Nat2Z.inj_succ, Z.pow_succ_r by lia.
  unfold is_u8 in Hx. lia.
Qed.

Lemma le_octets_number l : Forall is_u8 l → le_octets (length l) (le_number l) = l.
Proof.
  induction 1 as [|x l Hx Hl IH]; [done|]. cbn [le_number length le_octets]. unfold is_u8 in Hx.
  replace ((x + 256 * le_number l) mod 256) with x by (apply (Z.mod_unique _ _ (le_number l)); lia).
  replace ((x + 256 * le_number l) / 256) with (le_number l) by (apply (Z.div_unique _ _ _ x); lia).
  by rewrite IH.
Qed.

Lemma le_number_app l x : le_number (l ++ [x]) = le_number l + 256 ^ Z.of_nat (length l) * x.
Proof.
  induction l as [|y l IH]; [cbn; lia|]. cbn [le_number length app]. rewrite Nat2Z.inj_succ, Z.pow_succ_r by lia. lia.
Qed.

Lemma msb_spec p : block p → nz (Z.land (nth 15 p 0) 0x80) = (2 ^ 127 <=? le_number p).
Proof.
  intros [Hl Hu]. destruct p as [|y l _] using rev_ind; [done|].
  apply Forall_app in Hu as [Hu Hy]. apply Forall_cons in Hy as [Hy _].
  rewrite length_app in Hl. cbn in Hl. assert (length l = 15%nat) as E by lia.
  rewrite le_number_app, E, app_nth2, E by lia. change (nth (15 - 15) [y] 0) with y.
  pose proof (le_number_bound l Hu) as Hb. rewrite E in Hb. change (256 ^ Z.of_nat 15) with (2 ^ 120) in *.
  assert (nz (Z.land y 0x80) = (128 <=? y)) as ->.
  { pose (P x := Bool.eqb (nz (Z.land x 0x80)) (128 <=? x)).
    assert (∀ x, is_u8 x → P x = true) as HP by octet_cases P. by apply Bool.eqb_prop, HP. }
  unfold is_u8 in Hy. destruct (Z.leb_spec 128 y), (Z.leb_spec (2 ^ 127) (le_number l + 2 ^ 120 * y)); lia.
Qed.

(** ** Shifting *)
Fixpoint shl (c : Z) (l : list Z) : list Z :=
  match l with
  | [] => []
  | x :: l => u8 (Z.lor (Z.shiftl x 1) c) :: shl (if nz (Z.land x 0x80) then 1 else 0) l
  end.

Lemma list16_inv (l : list Z) : length l = 16%nat → ∃ x0 x1 x2 x3 x4 x5 x6 x7 x8 x9 x10 x11 x12 x13 x14 x15,
  l = [x0; x1; x2; x3; x4; x5; x6; x7; x8; x9; x10; x11; x12; x13; x14; x15].
Proof. intros Hl. do 16 (destruct l as [|? l]; [done|]). destruct l; [|done]. by do 16 eexists. Qed.

Ltac octets16 H := apply list16_inv in H as (? & ? & ? & ? & ? & ? & ? & ? & ? & ? & ? & ? & ? & ? & ? & ? & ->).

Lemma leftshift_spec p out : length p = 16%nat → length out = 16%nat → leftshift_onebit p out = shl 0 p.
Proof. intros Hp Ho. octets16 Hp. octets16 Ho. reflexivity. Qed.

Lemma xor_128_spec a b : length a = 16%nat → length b = 16%nat → xor_128 a b = zip_with Z.lxor a b.
Proof. intros Ha Hb. octets16 Ha. octets16 Hb. reflexivity. Qed.

Lemma padding_spec t k : length t = 16%nat → (k < 16)%nat →
  padding t (Z.of_nat k) = replicate (15 - k) 0 ++ 0x80 :: drop (16 - k) t.
Proof. intros Ht Hk. octets16 Ht. do 16 (destruct k as [|k]; [reflexivity|]). lia. Qed.

Lemma shl_octet x c : is_u8 x → 0 <= c <= 1 →
  u8 (Z.lor (Z.shiftl x 1) c) + 256 * (if nz (Z.land x 0x80) then 1 else 0) = 2 * x + c ∧
  is_u8 (u8 (Z.lor (Z.shiftl x 1) c)).
Proof.
  intros Hx Hc. split; [|apply u8_range].
  pose (P c x := u8 (Z.lor (Z.shiftl x 1) c) + 256 * (if nz (Z.land x 0x80) then 1 else 0) =? 2 * x + c).
  assert (∀ x, is_u8 x → P 0 x = true) as H0 by octet_cases (P 0).
  assert (∀ x, is_u8 x → P 1 x = true) as H1 by octet_cases (P 1).
  assert (c = 0 ∨ c = 1) as [-> | ->] by lia; apply Z.eqb_eq; [by apply H0|by apply H1].
Qed.

Lemma shl_spec l c : Forall is_u8 l → 0 <= c <= 1 →
  le_number (shl c l) = (2 * le_number l + c) mod 256 ^ Z.of_nat (length l) ∧
  Forall is_u8 (shl c l) ∧ length (shl c l) = length l.
Proof.
  intros Hl. revert c. induction Hl as [|x l Hx Hl IH]; intros c Hc; [by rewrite Z.mod_1_r|].
  cbn [shl le_number length]. destruct (shl_octet x c Hx Hc) as [E Hu].
  destruct (IH (if nz (Z.land x 128) then 1 else 0)) as (IH1 & IH2 & IH3); [case_match; lia|].
  set (c' := if nz (Z.land x 128) then 1 else 0) in *. split; [|split].
  - rewrite IH1, Nat2Z.inj_succ, Z.pow_succ_r by lia. set (N := 256 ^ Z.of_nat (length l)).
    assert (0 < N) by (apply Z.pow_pos_nonneg; lia). set (y := u8 _) in *.
    set (a := 2 * le_number l + c') in *. pose proof (Z.div_mod a N ltac:(lia)). pose proof (Z.mod_pos_bound a N ltac:(lia)).
    unfold is_u8 in Hu. apply (Z.mod_unique _ _ (a / N)); nia.
  - by apply Forall_cons.
  - by rewrite IH3.
Qed.

Lemma lxor_low x v c : is_u8 x → is_u8 c → (x ⊕ c) + 256 * v = (x + 256 * v) ⊕ c.
Proof.
  intros Hx Hc. assert (∀ y, is_u8 y → y + 256 * v = y ⊕ Z.shiftl v 8) as E.
  { intros y Hy. rewrite <-Z.add_nocarry_lxor; [by rewrite Z.shiftl_mul_pow2, Z.mul_comm by lia|].
    apply Z.bits_inj'. intros n Hn. rewrite Z.land_spec, Z.bits_0. destruct (Z.ltb_spec n 8).
    - rewrite Z.shiftl_spec_low by lia. apply andb_false_r.
    - rewrite <-(Z.mod_small y (2 ^ 8)) by (unfold is_u8 in Hy; lia). by rewrite Z.mod_pow2_bits_high by lia. }
  rewrite !E by auto with rfc. by rewrite !Z.lxor_assoc, (Z.lxor_comm c).
Qed.

Lemma zip_zero l : zip_with Z.lxor l (replicate (length l) 0) = l.
Proof. induction l as [|x l IH]; [done|]. cbn. by rewrite IH, Z.lxor_0_r. Qed.

(** A subkey of the code is one of the specification. *)
Lemma subkey_spec p out : block p → length out = 16%nat →
  (if nz (Z.land (nth (kOctet16Length - 1) p 0) 0x80) then xor_128 (leftshift_onebit p out) const_Rb
   else leftshift_onebit p out) = rev (times_x (rev p)) ∧ block (rev (times_x (rev p))).
Proof.
  intros Hp Ho. pose proof Hp as [Hl Hu]. rewrite leftshift_spec by done.
  change (kOctet16Length - 1)%nat with 15%nat. rewrite msb_spec by done.
  destruct (shl_spec p 0 Hu ltac:(lia)) as (E & Hs & Hsl). rewrite Hl, Z.add_0_r in E. rewrite Hl in Hsl.
  change (256 ^ Z.of_nat 16) with (2 ^ 128) in E.
  unfold times_x, be_octets, number. rewrite !rev_involutive.
  assert (∀ l v, block l → le_number l = v → l = le_octets 16 v ∧ block (le_octets 16 v)) as Hfin.
  { intros l v [Hll Hlu] <-. rewrite <-Hll, le_octets_number by done. done. }
  destruct (2 ^ 127 <=? le_number p).
  - apply Hfin.
    + rewrite xor_128_spec by done. apply block_xor; [done|].
      split; [done|]. repeat (apply Forall_cons; split; [unfold is_u8; lia|]). by apply Forall_nil.
    + rewrite xor_128_spec, <-E by done. destruct (shl 0 p) as [|x l]; [done|]. apply Forall_cons in Hs as [Hx Hs].
      injection Hsl as Hsl. change const_Rb with (0x87 :: replicate 15 0). cbn [zip_with]. rewrite <-Hsl, zip_zero.
      cbn [le_number]. apply lxor_low; [done|unfold is_u8; lia].
  - rewrite Z.lxor_0_r. by apply Hfin.
Qed.

(** ** The code computes the specification *)
Definition memory_ok (m : memory) : Prop :=
  context_ok (stack_ctx m) ∧ block (stack_block m) ∧ ∀ n, length (stack_octets m n) = n ∧ Forall is_u8 (stack_octets m n).

Lemma block_rev l : block l → block (rev l).
Proof. intros [Hl Hu]. split; [by rewrite length_rev|]. by apply Forall_rev. Qed.

Lemma rev_replicate n (x : Z) : rev (replicate n x) = replicate n x.
Proof. rewrite rev_alt. exact (reverse_replicate n x). Qed.

Lemma zip_rev a b : length a = length b → zip_with Z.lxor (rev a) (rev b) = rev (zip_with Z.lxor a b).
Proof.
  revert b. induction a as [|x a IH]; intros [|y b] E; try done. injection E as E. cbn [rev zip_with].
  by rewrite zip_with_app, IH by (by rewrite ?length_rev).
Qed.

Lemma Cipher_block Nk w input : schedule (Nr Nk) w → block input → block (Cipher Nk w input).
Proof.
  intros Hw Hin. unfold Cipher.
  assert (block (AddRoundKey input (round_key w 0))) as H0.
  { apply block_xor; [done|]. apply (block_round_key _ _ 0 Hw). lia. }
  destruct (rounds_spec _ _ _ _ Hw (Forall_seq_le (Nr Nk)) H0) as [Hf E]. cbv zeta in Hf, E. cbv zeta.
  rewrite <-E, <-shift_sub_rows_spec by done. apply block_xor; [by apply block_shift|].
  by apply (block_round_key _ _ _ Hw).
Qed.

Section spec.
Context (m : memory) (key : list Z) (Hm : memory_ok m) (Hkey : block key).

Lemma aes_128_spec msg : block msg →
  aes_128 m key msg = rev (AES 4 (rev key) (rev msg)) ∧ block (aes_128 m key msg).
Proof.
  intros Hb. destruct Hm as [Hctx _]. pose proof (block_rev _ Hkey) as [Hkl Hku]. unfold aes_128. rewrite Hkl.
  destruct (set_key_spec 4 (rev key) 16 (stack_ctx m)) as (ctx' & E & Er & Ek & Hc' & Hs & Hlen);
    [by left; auto|rewrite Hkl; lia|done|done|].
  change (Z.of_nat 16) with 16. rewrite E.
  rewrite (encrypt_spec 4 (ksch ctx') (rev msg) (stack_block m) ctx' eq_refl Er); [|split; [destruct Hc' as [-> _]; cbn; lia|apply Hc']|by apply block_rev].
  unfold AES. rewrite Ek, Cipher_app by done. split; [done|]. by apply block_rev, Cipher_block, block_rev.
Qed.

(** A pass of the loop. *)
Definition calculate_pass (n : nat) : list Z * list Z * list Z → nat → list Z * list Z * list Z :=
  fun '(t, x, _) i =>
    let off := ((n - i) * kOctet16Length)%nat in
    let t := store_octet16 t off (xor_128 (octet16_at t off) x) in
    let output := aes_128 m key (octet16_at t off) in
    (t, output, output).

Lemma octets_sub t off n : Forall is_u8 t → length t = (16 * n)%nat → (off + 16 <= length t)%nat → block (octet16_at t off).
Proof.
  intros Hu Hl Ho. split; [unfold octet16_at, kOctet16Length; rewrite length_take, length_drop; lia|].
  by apply Forall_take, Forall_drop.
Qed.

Lemma store_spec t off b : block b → Forall is_u8 t → (off + 16 <= length t)%nat →
  Forall is_u8 (store_octet16 t off b) ∧ length (store_octet16 t off b) = length t ∧
  octet16_at (store_octet16 t off b) off = b ∧ take off (store_octet16 t off b) = take off t.
Proof.
  intros [Hl Hb] Hu Ho. unfold store_octet16, octet16_at, kOctet16Length.
  assert (length (take off t) = off) as E by (rewrite length_take; lia). split; [|split; [|split]].
  - apply Forall_app. split; [by apply Forall_take|]. apply Forall_app. split; [done|by apply Forall_drop].
  - rewrite !length_app, length_drop, E, Hl. lia.
  - rewrite drop_app_length' by done. by rewrite take_app_length'.
  - by rewrite take_app_length' by done.
Qed.

Lemma calculate_spec n j t x out :
  (j <= n)%nat → length t = (16 * n)%nat → Forall is_u8 t → block x →
  ∃ t', foldl (calculate_pass n) (t, x, out) (seq (n - j + 1) j) =
    (t', rev (cbc_mac j (rev key) (rev x) (rev (take (16 * j) t))),
     if (j =? 0)%nat then out else rev (cbc_mac j (rev key) (rev x) (rev (take (16 * j) t)))).
Proof.
  revert t x out. induction j as [|j IH]; intros t x out Hj Hl Hu Hx.
  { exists t. cbn. by rewrite rev_involutive. }
  cbn [seq foldl]. set (off := (16 * j)%nat).
  assert (block (octet16_at t off)) as Hb by (apply (octets_sub _ _ n); [done|done|unfold off; lia]).
  assert (block (xor_128 (octet16_at t off) x)) as Hxb.
  { rewrite xor_128_spec by (apply Hb || apply Hx). by apply block_xor. }
  destruct (store_spec t off _ Hxb Hu) as (Hu' & Hl' & E1 & E2); [unfold off; lia|].
  destruct (aes_128_spec _ Hxb) as [Ea Hba].
  unfold calculate_pass at 2. replace ((n - (n - S j + 1)) * kOctet16Length)%nat with off by (unfold off, kOctet16Length; lia).
  rewrite E1. destruct (IH (store_octet16 t off (xor_128 (octet16_at t off) x))
    (aes_128 m key (xor_128 (octet16_at t off) x)) (aes_128 m key (xor_128 (octet16_at t off) x))) as [t' E];
    [lia|lia|done|done|].
  replace (S (n - S j + 1)) with (n - j + 1)%nat by lia. fold off in E. rewrite E. exists t'.
  assert (take (16 * S j) t = take off t ++ octet16_at t off) as ->.
  { unfold octet16_at, kOctet16Length, off. replace (16 * S j)%nat with (16 * j + 16)%nat by lia. by rewrite take_take_drop. }
  rewrite rev_app_distr. cbn [cbc_mac]. destruct Hb as [Hbl Hbu]. destruct Hx as [Hxl Hxu].
  rewrite take_app_length', drop_app_length' by (by rewrite length_rev).
  rewrite zip_rev by congruence. rewrite E2, Ea, rev_involutive, xor_128_spec, (xor_comm x) by done.
  destruct j; cbn [Nat.eqb cbc_mac]; reflexivity.
Qed.
Lemma calculate_run cb n :
  length (text cb) = (16 * n)%nat → Forall is_u8 (text cb) → round cb = Z.of_nat n → (0 < n)%nat →
  fst (cmac_aes_k_calculate m cb key) = rev (cbc_mac n (rev key) zero_block (rev (text cb))).
Proof.
  intros Hl Hu Hr Hn. unfold cmac_aes_k_calculate. rewrite Hr, Nat2Z.id.
  assert (block (replicate kOctet16Length 0)) as Hz.
  { split; [done|]. apply Forall_replicate. unfold is_u8. lia. }
  destruct (calculate_spec n n (text cb) (replicate kOctet16Length 0) (stack_block m)) as [t' E]; try done.
  replace (n - n + 1)%nat with 1%nat in E by lia. rewrite <-Hl, firstn_all in E. fold (calculate_pass n). rewrite E.
  cbn [fst]. destruct n; [lia|]. reflexivity.
Qed.

Lemma block_count_spec L :
  (1 <= block_count L ∧ L <= 16 * block_count L ∧ 16 * (block_count L - 1) <= L ∧ (L = 0 ∨ 16 * (block_count L - 1) < L))%nat.
Proof.
  unfold block_count. pose proof (Nat.div_mod_eq (L + 15) 16). pose proof (Nat.mod_upper_bound (L + 15) 16 ltac:(lia)). lia.
Qed.

(** The text with its last block, the first in memory, prepared. *)
Lemma prepare_text t b : block b → (16 <= length t)%nat →
  store_octet16 t 0 b = b ++ drop 16 t ∧ octet16_at (store_octet16 t 0 b) 0 = b ∧
  ∀ b', store_octet16 (store_octet16 t 0 b) 0 b' = b' ++ drop 16 t.
Proof.
  intros [Hl _] Ht. unfold store_octet16, octet16_at, kOctet16Length. change (0 + 16)%nat with 16%nat.
  rewrite !take_0, !drop_0. cbn [app]. split; [done|]. split; [by rewrite take_app_length'|]. intros b'.
  by rewrite drop_app_length'.
Qed.

(** What [cmac_prepare_last_block] makes of the first octets in memory. *)
Lemma prepare_complete L t n k1 k2 :
  (0 < n)%nat → L = (16 * n)%nat → block (octet16_at t 0) → block k1 → (16 <= length t)%nat →
  text (cmac_prepare_last_block {| text := t; len := Z.of_nat L; round := Z.of_nat n |} k1 k2) =
  zip_with Z.lxor (octet16_at t 0) k1 ++ drop 16 t.
Proof.
  intros Hn -> Hb Hk Hl. unfold cmac_prepare_last_block. cbn [len text].
  replace (_ mod _ =? 0) with true
    by (symmetry; apply Z.eqb_eq; apply Z.mod_divide; [done|exists (Z.of_nat n); unfold kOctet16Length; lia]).
  replace (Z.of_nat (16 * n) =? 0) with false by (symmetry; apply Z.eqb_neq; lia). cbn [andb negb].
  rewrite xor_128_spec by (apply Hb || apply Hk). apply prepare_text; [by apply block_xor|done].
Qed.

Lemma prepare_padded L t n k k1 k2 :
  (L = 16 * (n - 1) + k)%nat → (k < 16)%nat → L = 0%nat ∨ (0 < k)%nat →
  block (octet16_at t 0) → block k2 → (16 <= length t)%nat →
  let padded := replicate (15 - k) 0 ++ 0x80 :: drop (16 - k) (octet16_at t 0) in
  block padded ∧
  text (cmac_prepare_last_block {| text := t; len := Z.of_nat L; round := Z.of_nat n |} k1 k2) =
  zip_with Z.lxor padded k2 ++ drop 16 t.
Proof.
  intros HL Hk H0 Hb Hk2 Hl padded. pose proof Hb as [Hbl Hbu].
  assert (block padded) as Hp.
  { split; [unfold padded; rewrite length_app, length_replicate; cbn [length]; rewrite length_drop; lia|].
    apply Forall_app. split; [apply Forall_replicate; unfold is_u8; lia|].
    apply Forall_cons. split; [unfold is_u8; lia|by apply Forall_drop]. }
  split; [done|]. assert (Z.of_nat L mod 16 = Z.of_nat k) as E by (symmetry; apply (Z.mod_unique _ _ (Z.of_nat (n - 1))); lia).
  unfold cmac_prepare_last_block. cbn [len text]. change (Z.of_nat kOctet16Length) with 16. rewrite E.
  replace ((Z.of_nat k =? 0) && negb (Z.of_nat L =? 0)) with false by lia.
  rewrite u8_small by (unfold is_u8; lia). rewrite padding_spec by done. fold padded. cbv zeta.
  destruct (prepare_text t padded Hp Hl) as (_ & -> & E').
  rewrite xor_128_spec by (apply Hp || apply Hk2). apply E'.
Qed.

Lemma prepare_spec L t K1 K2 :
  let n := block_count L in
  length t = (16 * n)%nat → Forall is_u8 t → block (rev K1) → block (rev K2) →
  let M := rev (drop (16 * n - L) t) in
  let cb := cmac_prepare_last_block {| text := t; len := Z.of_nat L; round := Z.of_nat n |} (rev K1) (rev K2) in
  let last := drop (16 * (n - 1)) M in
  length (text cb) = (16 * n)%nat ∧ Forall is_u8 (text cb) ∧
  rev (text cb) = take (16 * (n - 1)) M ++
    (if (length last =? 16)%nat then zip_with Z.lxor last K1 else zip_with Z.lxor (pad last) K2).
Proof.
  intros n Hl Hu HK1 HK2 M cb last. destruct (block_count_spec L) as (Hn1 & Hn2 & Hn3 & Hn4). fold n in Hn1, Hn2, Hn3, Hn4.
  assert (length M = L) as HM by (unfold M; rewrite length_rev, length_drop; lia).
  assert (block (octet16_at t 0)) as Hb by (apply (octets_sub _ _ n); [done|done|lia]).
  assert (take (16 * (n - 1)) M = rev (drop 16 t)) as ->.
  { unfold M. rewrite firstn_rev, length_drop, drop_drop. do 2 f_equal. lia. }
  assert (length last = (L - 16 * (n - 1))%nat) as Hlast by (unfold last; rewrite length_drop; lia).
  assert (last = rev (take (length last) (drop (16 * n - L) t))) as El.
  { rewrite Hlast. unfold last, M. rewrite skipn_rev, length_drop. do 2 f_equal. lia. }
  assert (∀ b K, block b → block (rev K) → text cb = zip_with Z.lxor b (rev K) ++ drop 16 t →
    length (text cb) = (16 * n)%nat ∧ Forall is_u8 (text cb) ∧
    rev (text cb) = rev (drop 16 t) ++ zip_with Z.lxor (rev b) K) as Hfin.
  { intros b K Hbb HK ->. destruct (block_xor b (rev K) Hbb HK) as [Hxl Hxu].
    split; [rewrite length_app, length_drop, Hxl; lia|]. split; [apply Forall_app; split; [done|by apply Forall_drop]|].
    rewrite rev_app_distr, <-zip_rev, rev_involutive; [done|]. destruct Hbb as [-> _], HK as [-> _]. done. }
  destruct (Nat.eqb_spec (length last) 16) as [E|Hne].
  - assert (last = rev (octet16_at t 0)) as ->.
    { rewrite El, E. unfold octet16_at. by replace (16 * n - L)%nat with 0%nat by lia. }
    apply Hfin; [done|done|]. apply prepare_complete; (done || lia).
  - destruct (prepare_padded L t n (length last) (rev K1) (rev K2)) as [Hp Et]; [lia|lia|lia|done|done|lia|].
    assert (pad last = rev (replicate (15 - length last) 0 ++ 0x80 :: drop (16 - length last) (octet16_at t 0))) as ->.
    { unfold pad. rewrite rev_app_distr, rev_replicate. cbn [rev]. rewrite <-app_assoc. cbn [app]. f_equal.
      rewrite El at 1. unfold octet16_at. rewrite drop_0, skipn_firstn_comm. do 2 f_equal; [|f_equal]; unfold kOctet16Length; lia. }
    by apply Hfin.
Qed.

Lemma rev_zero : rev (replicate kOctet16Length 0) = zero_block.
Proof. reflexivity. Qed.

(** The code of a text: its first octets are whatever the memory held when the message
    does not fill a block. *)
Lemma cbc_mac_block n X msg :
  block X → (16 * n <= length msg)%nat → Forall is_u8 msg → block (cbc_mac n (rev key) X msg).
Proof.
  revert X msg. induction n as [|n IH]; intros X msg HX Hl Hu; [done|]. cbn [cbc_mac].
  assert (block (zip_with Z.lxor X (take 16 msg))) as Hb.
  { apply block_xor; [done|]. split; [rewrite length_take; lia|by apply Forall_take]. }
  apply IH; [|rewrite length_drop; lia|by apply Forall_drop].
  destruct (aes_128_spec _ (block_rev _ Hb)) as [E Ha]. rewrite E, rev_involutive in Ha.
  apply block_rev in Ha. by rewrite rev_involutive in Ha.
Qed.

Lemma cmac_run L t :
  let n := block_count L in
  length t = (16 * n)%nat → Forall is_u8 t →
  let cb := {| text := t; len := Z.of_nat L; round := Z.of_nat n |} in
  fst (cmac_aes_k_calculate m (cmac_generate_subkey m cb key) key) = rev (CMAC (rev key) (rev (drop (16 * n - L) t))) ∧
  block (CMAC (rev key) (rev (drop (16 * n - L) t))).
Proof.
  intros n Hl Hu cb. unfold cb. pose proof Hm as (_ & [Hbl _] & _).
  assert (block (replicate kOctet16Length 0)) as Hz.
  { split; [done|]. apply Forall_replicate. unfold is_u8. lia. }
  destruct (aes_128_spec _ Hz) as [Ep Hp]. unfold cmac_generate_subkey. cbv zeta.
  destruct (subkey_spec _ (stack_block m) Hp Hbl) as [-> HK1].
  destruct (subkey_spec _ (stack_block m) HK1 Hbl) as [-> HK2]. rewrite rev_involutive in HK2 |- *.
  rewrite Ep, rev_involutive, rev_zero in HK1, HK2 |- *.
  destruct (prepare_spec L t _ _ Hl Hu HK1 HK2) as (Hl' & Hu' & E). fold n in Hl', Hu', E.
  rewrite (calculate_run _ n); [|done|done|done|apply block_count_spec].
  destruct (block_count_spec L) as (_ & Hn & _). fold n in Hn. unfold CMAC.
  rewrite length_rev, length_drop, Hl. replace (16 * n - (16 * n - L))%nat with L by lia. fold n.
  rewrite <-E. split; [reflexivity|]. apply cbc_mac_block.
  - by apply block_rev in Hz.
  - by rewrite length_rev, Hl'.
  - by apply Forall_rev.
Qed.
End spec.

(** The number of blocks as the code computes it. *)
Lemma block_count_code L : 0 <= L < 65536 →
  (if u16 ((L + Z.of_nat kOctet16Length - 1) / Z.of_nat kOctet16Length) =? 0 then 1
   else u16 ((L + Z.of_nat kOctet16Length - 1) / Z.of_nat kOctet16Length)) = Z.of_nat (block_count (Z.to_nat L)).
Proof.
  intros HL. change (Z.of_nat kOctet16Length) with 16. replace (L + 16 - 1) with (L + 15) by lia.
  assert ((L + 15) / 16 = Z.of_nat ((Z.to_nat L + 15) / 16)) as E by (rewrite Nat2Z.inj_div; f_equal; lia).
  pose proof (Z.div_mod (L + 15) 16 ltac:(lia)). pose proof (Z.mod_pos_bound (L + 15) 16 ltac:(lia)).
  rewrite u16_small by (unfold is_u16; lia). unfold block_count. rewrite E in *. case_match; lia.
Qed.

Lemma aes_cmac_ok m key input length' :
  memory_ok m → block key → 0 <= length' < 65536 →
  (∀ inp, input = Some inp → Forall is_u8 inp ∧ (Z.to_nat length' <= length inp)%nat) →
  (input = None → length' = 0) →
  aes_cmac m key input length' =
  (rev (CMAC (rev key) (rev (take (Z.to_nat length') (default [] input)))), {| text := []; len := 0; round := 0 |}) ∧
  block (CMAC (rev key) (rev (take (Z.to_nat length') (default [] input)))).
Proof.
  intros Hm Hkey HL Hinp Hnone. set (L := Z.to_nat length'). unfold aes_cmac. rewrite block_count_code by done.
  fold L. set (n := block_count L). destruct (block_count_spec L) as (Hn1 & Hn2 & Hn3 & Hn4). fold n in Hn1, Hn2, Hn3, Hn4.
  rewrite u32_small by (unfold is_u32, kOctet16Length; lia). rewrite u16_small by (unfold is_u16, kOctet16Length; lia).
  replace (Z.to_nat (Z.of_nat n * Z.of_nat kOctet16Length)) with (16 * n)%nat by (unfold kOctet16Length; lia).
  replace (Z.to_nat (Z.of_nat n * Z.of_nat kOctet16Length - length')) with (16 * n - L)%nat by (unfold kOctet16Length; lia).
  destruct (proj2 (proj2 Hm) (16 * n)%nat) as [Htl Htu]. set (t := stack_octets m (16 * n)) in *.
  assert (∃ t', length t' = (16 * n)%nat ∧ Forall is_u8 t' ∧ drop (16 * n - L) t' = take L (default [] input) ∧
    match input with
    | Some inp =>
        if 0 <? length' then (take (16 * n - L) t ++ take L inp ++ drop (16 * n - L + L) t, length') else (t, 0)
    | None => (t, 0)
    end = (t', Z.of_nat L)) as (t' & Hl' & Hu' & Ed & ->).
  { destruct (Z.ltb_spec 0 length') as [Hpos|H0].
    - destruct input as [inp|]; [|specialize (Hnone eq_refl); lia]. destruct (Hinp inp eq_refl) as [Hiu Hil].
      exists (take (16 * n - L) t ++ take L inp ++ drop (16 * n - L + L) t). split; [|split; [|split]].
      + rewrite !length_app, length_drop, !length_take. lia.
      + apply Forall_app. split; [by apply Forall_take|]. apply Forall_app. split; [by apply Forall_take|by apply Forall_drop].
      + rewrite drop_app_length' by (rewrite length_take; lia). by rewrite (drop_ge t), app_nil_r by lia.
      + f_equal. lia.
    - exists t. assert (L = 0%nat) as E0 by lia. assert (n = 1%nat) as En by (unfold n; by rewrite E0).
      split; [done|]. split; [done|]. split; [|rewrite E0; by destruct input].
      rewrite E0, take_0, drop_ge by lia. done. }
  pose proof (cmac_run m key Hm Hkey L t' Hl' Hu') as [E Hb]. cbv zeta in E, Hb. fold n in E, Hb. rewrite Ed in E, Hb.
  split; [|exact Hb]. destruct (cmac_aes_k_calculate m _ key) as [sig cb']. cbn [fst] in E. rewrite E. reflexivity.
Qed.

(** C32: the code of a message is AES-CMAC.  For every key of 16 octets, every message of up
    to 65535 octets, the empty one included, and whatever memory held, [aes_cmac] computes the code
    of RFC 4493 of the reversed message under the reversed key, reversed; it ends with
    a cleared control block. *)
Theorem aes_cmac_is_CMAC m key input length' :
  memory_ok m → block key → 0 <= length' < 65536 →
  (∀ inp, input = Some inp → Forall is_u8 inp ∧ (Z.to_nat length' <= length inp)%nat) →
  (input = None → length' = 0) →
  aes_cmac m key input length' =
  (rev (CMAC (rev key) (rev (take (Z.to_nat length') (default [] input)))), {| text := []; len := 0; round := 0 |}).
Proof. intros Hm Hk HL Hi Hn. exact (proj1 (aes_cmac_ok m key input length' Hm Hk HL Hi Hn)). Qed.

(** The third example of the RFC. *)
Definition memory_1 : memory :=
  {| stack_ctx := ctx0; stack_block := replicate 16 7; stack_octets := fun n => replicate n 9 |}.

Lemma memory_1_ok : memory_ok memory_1.
Proof.
  split; [apply ctx0_ok|]. split.
  - split; [done|]. apply Forall_replicate. unfold is_u8. lia.
  - intros n. split; [apply length_replicate|]. apply Forall_replicate. unfold is_u8. lia.
Qed.

Definition rfc_key : list Z :=
  [0x2b; 0x7e; 0x15; 0x16; 0x28; 0xae; 0xd2; 0xa6; 0xab; 0xf7; 0x15; 0x88; 0x09; 0xcf; 0x4f; 0x3c].
Definition rfc_message : list Z :=
  [0x6b; 0xc1; 0xbe; 0xe2; 0x2e; 0x40; 0x9f; 0x96; 0xe9; 0x3d; 0x7e; 0x11; 0x73; 0x93; 0x17; 0x2a;
   0xae; 0x2d; 0x8a; 0x57; 0x1e; 0x03; 0xac; 0x9c; 0x9e; 0xb7; 0x6f; 0xac; 0x45; 0xaf; 0x8e; 0x51;
   0x30; 0xc8; 0x1c; 0x46; 0xa3; 0x5c; 0xe4; 0x11].

Lemma aes_cmac_is_CMAC_witness :
  fst (aes_cmac memory_1 (rev rfc_key) (Some (rev rfc_message)) 40) =
    rev (CMAC (rev (rev rfc_key)) (rev (take 40 (rev rfc_message)))) ∧
  CMAC rfc_key rfc_message =
    [0xdf; 0xa6; 0x67; 0x47; 0xde; 0x9a; 0xe6; 0x30; 0x30; 0xca; 0x32; 0x61; 0x14; 0x97; 0xc8; 0x27].
Proof.
  split; [|by vm_compute].
  rewrite (aes_cmac_is_CMAC memory_1 (rev rfc_key) (Some (rev rfc_message)) 40); [reflexivity| | |lia| |done].
  - apply memory_1_ok.
  - split; [done|]. apply octets_check. by vm_compute.
  - intros inp [= <-]. split; [apply octets_check; by vm_compute|done].
Defined.
