(* ===== verification/CryptoToolbox.v ===== *)
(** * The cryptographic toolbox of the security manager ([gd/crypto_toolbox/crypto_toolbox.cc])

    The functions of the Core Specification, volume 3, part H, section 2.2, on octets
    with the least significant first. *)
From S2P Require Import Prelude Aes AesSpec AesKey AesInverse Cmac.

(** ** The code *)
Definition kOctet32Length : nat := 32.

Section toolbox.
Context (m : memory).

(** [aes_cmac(key, message.data(), message.size())]. *)
Definition aes_cmac_of (key message : list Z) : list Z :=
  fst (aes_cmac m key (Some message) (Z.of_nat (length message))).

(** [aes_cmac] with the length of the signature: its most significant octets. *)
Definition aes_cmac_tlen (key : list Z) (message : option (list Z)) (length tlen : Z) : list Z :=
  let signature := fst (aes_cmac m key message length) in
  take (Z.to_nat tlen) (drop (kOctet16Length - Z.to_nat tlen) signature).

Definition h6 (w keyid : list Z) : list Z := aes_cmac_of w keyid.

Definition h7 (salt w : list Z) : list Z := aes_cmac_of salt w.

Definition f4 (u v x : list Z) (z : Z) : list Z :=
  let msg := [z] ++ take kOctet32Length v ++ take kOctet32Length u in
  aes_cmac_of x msg.

Definition calculate_mac_key_or_ltk (t : list Z) (counter : Z) (key_id n1 n2 a1 a2 length : list Z) : list Z :=
  let msg := take 2 length ++ take 7 a2 ++ take 7 a1 ++ n2 ++ n1 ++ take 4 key_id ++ [counter] in
  aes_cmac_of t msg.

Definition f5_salt : list Z :=
  [0xBE; 0x83; 0x60; 0x5A; 0xDB; 0x0B; 0x37; 0x60; 0x38; 0xA5; 0xF5; 0xAA; 0x91; 0x83; 0x88; 0x6C].

(** [mac_key] and [ltk]. *)
Definition f5 (w n1 n2 a1 a2 : list Z) : list Z * list Z :=
  let t := fst (aes_cmac m f5_salt (Some w) (Z.of_nat kOctet32Length)) in
  let key_id := [0x65; 0x6c; 0x74; 0x62] in
  let length := [0x00; 0x01] in
  let mac_key := calculate_mac_key_or_ltk t 0 key_id n1 n2 a1 a2 length in
  let ltk := calculate_mac_key_or_ltk t 1 key_id n1 n2 a1 a2 length in
  (mac_key, ltk).

Definition f6 (w n1 n2 r iocap a1 a2 : list Z) : list Z :=
  let msg := take 7 a2 ++ take 7 a1 ++ take 3 iocap ++ r ++ n2 ++ n1 in
  aes_cmac_of w msg.

(** [le32toh] of the first octets of an array. *)
Definition le32 (l : list Z) : Z :=
  u32 (nth 0 l 0 + Z.shiftl (nth 1 l 0) 8 + Z.shiftl (nth 2 l 0) 16 + Z.shiftl (nth 3 l 0) 24).

Definition g2 (u v x y : list Z) : Z :=
  let msg := y ++ take kOctet32Length v ++ take kOctet32Length u in
  let cmac := aes_cmac_of x msg in
  le32 cmac mod 1000000.

Definition ltk_to_link_key (ltk : list Z) (use_h7 : bool) : list Z :=
  let ilk :=
    if use_h7 then
      let salt := [0x31; 0x70; 0x6D; 0x74; 0; 0; 0; 0; 0; 0; 0; 0; 0; 0; 0; 0] in
      h7 salt ltk
    else
      let keyID_tmp1 := [0x31; 0x70; 0x6D; 0x74] in
      h6 ltk keyID_tmp1 in
  let keyID_lebr := [0x72; 0x62; 0x65; 0x6c] in
  h6 ilk keyID_lebr.

Definition link_key_to_ltk (link_key : list Z) (use_h7 : bool) : list Z :=
  let iltk :=
    if use_h7 then
      let salt := [0x32; 0x70; 0x6D; 0x74; 0; 0; 0; 0; 0; 0; 0; 0; 0; 0; 0; 0] in
      h7 salt link_key
    else
      let keyID_tmp2 := [0x32; 0x70; 0x6D; 0x74] in
      h6 link_key keyID_tmp2 in
  let keyID_brle := [0x65; 0x6c; 0x72; 0x62] in
  h6 iltk keyID_brle.

(** [for (i = 0; i < kOctet16Length; i++) p[i] = r[i] ^ p[i]]. *)
Definition xor_into (p r : list Z) : list Z :=
  foldl (fun p i => upd p i (nth i r 0 ⊕ nth i p 0)) p (seq 0 kOctet16Length).

Definition c1 (k r preq pres : list Z) (iat : Z) (ia : list Z) (rat : Z) (ra : list Z) : list Z :=
  let p1 := [iat] ++ [rat] ++ take 7 preq ++ take 7 pres in
  let p1 := xor_into p1 r in
  let p1bis := aes_128 m k p1 in
  let padding := [0; 0; 0; 0] in
  let p2 := take 6 ra ++ take 6 ia ++ padding in
  let p2 := xor_into p2 p1bis in
  aes_128 m k p2.

Definition s1 (k r1 r2 : list Z) : list Z :=
  let text := replicate kOctet16Length 0 in
  let text := take (kOctet16Length / 2) r1 ++ drop (kOctet16Length / 2) text in
  let text := take (kOctet16Length / 2) text ++ take (kOctet16Length / 2) r2 in
  aes_128 m k text.
End toolbox.

(** ** The specification, most significant octet first *)

(** The security function e. *)
Definition spec_e (key plain : list Z) : list Z := AES 4 key plain.

Definition spec_f4 (U V X : list Z) (Z' : Z) : list Z := CMAC X (U ++ V ++ [Z']).

Definition spec_SALT : list Z :=
  [0x6C; 0x88; 0x83; 0x91; 0xAA; 0xF5; 0xA5; 0x38; 0x60; 0x37; 0x0B; 0xDB; 0x5A; 0x60; 0x83; 0xBE].
(** The key "btle" and the length, 256 bits. *)
Definition spec_f5 (W N1 N2 A1 A2 : list Z) : list Z * list Z :=
  let T := CMAC spec_SALT W in
  let key_of (counter : Z) := CMAC T ([counter] ++ [0x62; 0x74; 0x6c; 0x65] ++ N1 ++ N2 ++ A1 ++ A2 ++ [0x01; 0x00]) in
  (key_of 0, key_of 1).

Definition spec_f6 (W N1 N2 R IOcap A1 A2 : list Z) : list Z := CMAC W (N1 ++ N2 ++ R ++ IOcap ++ A1 ++ A2).

Definition spec_g2 (U V X Y : list Z) : Z := number (CMAC X (U ++ V ++ Y)) mod 2 ^ 32.

Definition spec_h6 (W keyID : list Z) : list Z := CMAC W keyID.
Definition spec_h7 (SALT W : list Z) : list Z := CMAC SALT W.

Definition tmp1 : list Z := [0x74; 0x6D; 0x70; 0x31].
Definition tmp2 : list Z := [0x74; 0x6D; 0x70; 0x32].
Definition lebr : list Z := [0x6c; 0x65; 0x62; 0x72].
Definition brle : list Z := [0x62; 0x72; 0x6c; 0x65].

(** The conversion of a key between the transports, by the names of its two steps. *)
Definition spec_convert (step1 step2 : list Z) (use_h7 : bool) (key : list Z) : list Z :=
  spec_h6 (if use_h7 then spec_h7 (replicate 12 0 ++ step1) key else spec_h6 key step1) step2.

Definition spec_c1 (k r pres preq : list Z) (rat iat : Z) (ia ra : list Z) : list Z :=
  let p1 := pres ++ preq ++ [rat; iat] in
  let p2 := replicate 4 0 ++ ia ++ ra in
  spec_e k (zip_with Z.lxor (spec_e k (zip_with Z.lxor r p1)) p2).

(** The halves with the less significant octets. *)
Definition spec_s1 (k r1 r2 : list Z) : list Z := spec_e k (drop 8 r1 ++ drop 8 r2).

(** ** The code computes the specification *)
Lemma xor_into_spec p r : length p = 16%nat → length r = 16%nat → xor_into p r = zip_with Z.lxor r p.
Proof. intros Hp Hr. octets16 Hp. octets16 Hr. reflexivity. Qed.

Lemma le32_number l : octs 16 l → le32 l = le_number l mod 2 ^ 32.
Proof.
  intros [Hl Hu]. do 4 (destruct l as [|? l]; [done|]). unfold le32, u32. cbn [nth].
  rewrite !Z.shiftl_mul_pow2 by lia. cbn [le_number].
  rewrite <-(Z.mod_add _ (le_number l) (2 ^ 32)) by lia. f_equal. lia.
Qed.

Section correct.
Context (m : memory) (Hm : memory_ok m).

Lemma cmac_spec n key msg : octs 16 key → octs n msg → Z.of_nat n < 65536 →
  aes_cmac_of m key msg = rev (CMAC (rev key) (rev msg)) ∧ octs 16 (aes_cmac_of m key msg).
Proof.
  intros Hk [<- Hu] Hn. unfold aes_cmac_of.
  destruct (aes_cmac_ok m key (Some msg) (Z.of_nat (length msg)) Hm Hk) as [E Hb]; [lia| |done|].
  - intros inp [= <-]. split; [done|lia].
  - rewrite Nat2Z.id in E, Hb. cbn [default from_option] in E, Hb. rewrite firstn_all in E, Hb. rewrite E. cbn [fst].
    split; [done|]. exact (block_rev _ Hb).
Qed.

Lemma e_spec k p : octs 16 k → octs 16 p →
  aes_128 m k p = rev (spec_e (rev k) (rev p)) ∧ octs 16 (aes_128 m k p).
Proof. intros Hk Hp. exact (aes_128_spec m k Hm Hk p Hp). Qed.

(** The code of a message of [n] octets given in parts. *)
Ltac cmac_of n :=
  match goal with
  | |- context [aes_cmac_of _ ?k ?msg] =>
      let H := fresh "Hmsg" in
      assert (octs n msg) as H by auto 20 with rfc;
      rewrite (proj1 (cmac_spec n k msg ltac:(assumption) H ltac:(lia)))
  end.

Lemma f4_spec u v x z : octs 32 u → octs 32 v → octs 16 x → is_u8 z →
  f4 m u v x z = rev (spec_f4 (rev u) (rev v) (rev x) z).
Proof.
  intros Hu Hv Hx Hz. unfold f4, kOctet32Length. rewrite !(octs_take 32) by done.
  cmac_of (1 + (32 + 32))%nat.
  unfold spec_f4. by rewrite !rev_app_distr, <-app_assoc.
Qed.

Lemma mac_key_spec t counter n1 n2 a1 a2 : octs 16 t → is_u8 counter → octs 16 n1 → octs 16 n2 → octs 7 a1 → octs 7 a2 →
  calculate_mac_key_or_ltk m t counter [0x65; 0x6c; 0x74; 0x62] n1 n2 a1 a2 [0x00; 0x01] =
  rev (CMAC (rev t) ([counter] ++ [0x62; 0x74; 0x6c; 0x65] ++ rev n1 ++ rev n2 ++ rev a1 ++ rev a2 ++ [0x01; 0x00])).
Proof.
  intros Ht Hc Hn1 Hn2 Ha1 Ha2. unfold calculate_mac_key_or_ltk. rewrite !(octs_take 7) by done.
  assert (octs 2 [0; 1]) as H2 by (by apply octs_check). assert (octs 4 [0x65; 0x6c; 0x74; 0x62]) as H4 by (by apply octs_check).
  cmac_of (2 + (7 + (7 + (16 + (16 + (4 + 1))))))%nat.
  rewrite !rev_app_distr, <-!app_assoc. reflexivity.
Qed.

Lemma f5_spec w n1 n2 a1 a2 : octs 32 w → octs 16 n1 → octs 16 n2 → octs 7 a1 → octs 7 a2 →
  f5 m w n1 n2 a1 a2 =
  (rev (fst (spec_f5 (rev w) (rev n1) (rev n2) (rev a1) (rev a2))), rev (snd (spec_f5 (rev w) (rev n1) (rev n2) (rev a1) (rev a2)))).
Proof.
  intros Hw Hn1 Hn2 Ha1 Ha2. unfold f5.
  assert (octs 16 f5_salt) as Hs by (by apply octs_check). assert (is_u8 0 ∧ is_u8 1) as [H0 H1] by (unfold is_u8; lia).
  destruct (cmac_spec 32 f5_salt w Hs Hw ltac:(lia)) as [Et Ht]. unfold aes_cmac_of in Et, Ht.
  rewrite (proj1 Hw) in Et, Ht. unfold kOctet32Length.
  rewrite !mac_key_spec by assumption. rewrite Et, rev_involutive. reflexivity.
Qed.

Lemma f6_spec w n1 n2 r iocap a1 a2 :
  octs 16 w → octs 16 n1 → octs 16 n2 → octs 16 r → octs 3 iocap → octs 7 a1 → octs 7 a2 →
  f6 m w n1 n2 r iocap a1 a2 = rev (spec_f6 (rev w) (rev n1) (rev n2) (rev r) (rev iocap) (rev a1) (rev a2)).
Proof.
  intros Hw Hn1 Hn2 Hr Hi Ha1 Ha2. unfold f6. rewrite !(octs_take 7), (octs_take 3) by done.
  cmac_of (7 + (7 + (3 + (16 + (16 + 16)))))%nat.
  unfold spec_f6. by rewrite !rev_app_distr, <-!app_assoc.
Qed.

Lemma g2_spec u v x y : octs 32 u → octs 32 v → octs 16 x → octs 16 y →
  g2 m u v x y = spec_g2 (rev u) (rev v) (rev x) (rev y) mod 1000000.
Proof.
  intros Hu Hv Hx Hy. unfold g2, kOctet32Length. rewrite !(octs_take 32) by done.
  destruct (cmac_spec (16 + (32 + 32)) x (y ++ v ++ u) Hx) as [E Ho]; [auto with rfc|lia|].
  cbv zeta. rewrite le32_number by done. rewrite E. unfold spec_g2, number.
  by rewrite !rev_app_distr, <-app_assoc.
Qed.

Lemma h6_spec w keyid : octs 16 w → octs 4 keyid →
  h6 m w keyid = rev (spec_h6 (rev w) (rev keyid)) ∧ octs 16 (h6 m w keyid).
Proof. intros Hw Hk. by apply (cmac_spec 4). Qed.

Lemma h7_spec salt w : octs 16 salt → octs 16 w →
  h7 m salt w = rev (spec_h7 (rev salt) (rev w)) ∧ octs 16 (h7 m salt w).
Proof. intros Hs Hw. by apply (cmac_spec 16). Qed.

(** Both conversions of a key. *)
Lemma convert_spec key use_h7 step1 step2 : octs 16 key → octs 4 step1 → octs 4 step2 →
  h6 m (if use_h7 : bool then h7 m (step1 ++ replicate 12 0) key else h6 m key step1) step2 =
  rev (spec_convert (rev step1) (rev step2) use_h7 (rev key)).
Proof.
  intros Hk H1 H2. unfold spec_convert.
  assert (octs 16 (step1 ++ replicate 12 0)) as Hs by (apply (octs_app 4 12); [done|by apply octs_check]).
  destruct (h6_spec key step1 Hk H1) as [E6 Ho6]. destruct (h7_spec _ key Hs Hk) as [E7 Ho7].
  rewrite rev_app_distr, rev_replicate in E7.
  destruct use_h7; [rewrite (proj1 (h6_spec _ step2 Ho7 H2)), E7|rewrite (proj1 (h6_spec _ step2 Ho6 H2)), E6]; by rewrite rev_involutive.
Qed.

Lemma c1_spec k r preq pres iat ia rat ra :
  octs 16 k → octs 16 r → octs 7 preq → octs 7 pres → is_u8 iat → is_u8 rat → octs 6 ia → octs 6 ra →
  c1 m k r preq pres iat ia rat ra = rev (spec_c1 (rev k) (rev r) (rev pres) (rev preq) rat iat (rev ia) (rev ra)).
Proof.
  intros Hk Hr Hpq Hps Hi Ht Hia Hra. unfold c1. rewrite !(octs_take 7), !(octs_take 6) by done.
  assert (octs 16 ([iat] ++ [rat] ++ preq ++ pres)) as Hp1
    by exact (octs_app 1 15 _ _ (octs_one _ Hi) (octs_app 1 14 _ _ (octs_one _ Ht) (octs_app 7 7 _ _ Hpq Hps))).
  assert (octs 16 (ra ++ ia ++ [0; 0; 0; 0])) as Hp2.
  { apply (octs_app 6 10); [done|]. apply (octs_app 6 4); [done|]. by apply octs_check. }
  set (p1 := [iat] ++ _) in *. set (p2 := ra ++ _) in *. cbv zeta.
  rewrite (xor_into_spec p1 r) by (apply Hp1 || apply Hr).
  destruct (e_spec k (zip_with Z.lxor r p1) Hk) as [E1 Ho1]; [by apply block_xor|].
  rewrite xor_into_spec by (apply Hp2 || apply Ho1).
  rewrite (proj1 (e_spec k _ Hk (block_xor _ _ Ho1 Hp2))). unfold spec_c1. cbv zeta.
  rewrite <-zip_rev by (rewrite (proj1 Ho1), (proj1 Hp2); done). rewrite E1, rev_involutive.
  rewrite <-zip_rev by (rewrite (proj1 Hr), (proj1 Hp1); done). unfold p1, p2.
  rewrite !rev_app_distr, <-!app_assoc. reflexivity.
Qed.

(** The arguments of [s1] are in the opposite order. *)
Lemma s1_spec k r1 r2 : octs 16 k → octs 16 r1 → octs 16 r2 → s1 m k r1 r2 = rev (spec_s1 (rev k) (rev r2) (rev r1)).
Proof.
  intros Hk Hr1 Hr2. unfold s1, kOctet16Length. change (16 / 2)%nat with 8%nat.
  destruct (octs_half r1 Hr1) as [H1 _]. destruct (octs_half r2 Hr2) as [H2 _].
  cbv zeta. rewrite (take_app_length' (take 8 r1)) by (by rewrite (proj1 H1)).
  rewrite (proj1 (e_spec k _ Hk (octs_app 8 8 _ _ H1 H2))). unfold spec_s1.
  rewrite rev_app_distr, !skipn_rev, (proj1 Hr1), (proj1 Hr2). reflexivity.
Qed.
End correct.

(** C33: the functions of the toolbox are those of the Core Specification: for arguments
    of the right lengths, whatever memory held, f4, f5, f6, g2 (modulo 10 ^ 6), h6, h7, the
    conversions between a long term key and a link key, with either first step, and the
    functions c1 and s1 of legacy pairing, whose two random values [s1] takes in the
    opposite order. *)
Theorem toolbox_is_spec m :
  memory_ok m →
  (∀ u v x z, octs 32 u → octs 32 v → octs 16 x → is_u8 z → f4 m u v x z = rev (spec_f4 (rev u) (rev v) (rev x) z)) ∧
  (∀ w n1 n2 a1 a2, octs 32 w → octs 16 n1 → octs 16 n2 → octs 7 a1 → octs 7 a2 →
    let '(mac_key, ltk) := spec_f5 (rev w) (rev n1) (rev n2) (rev a1) (rev a2) in
    f5 m w n1 n2 a1 a2 = (rev mac_key, rev ltk)) ∧
  (∀ w n1 n2 r iocap a1 a2, octs 16 w → octs 16 n1 → octs 16 n2 → octs 16 r → octs 3 iocap → octs 7 a1 → octs 7 a2 →
    f6 m w n1 n2 r iocap a1 a2 = rev (spec_f6 (rev w) (rev n1) (rev n2) (rev r) (rev iocap) (rev a1) (rev a2))) ∧
  (∀ u v x y, octs 32 u → octs 32 v → octs 16 x → octs 16 y →
    g2 m u v x y = spec_g2 (rev u) (rev v) (rev x) (rev y) mod 10 ^ 6) ∧
  (∀ w keyid, octs 16 w → octs 4 keyid → h6 m w keyid = rev (spec_h6 (rev w) (rev keyid))) ∧
  (∀ salt w, octs 16 salt → octs 16 w → h7 m salt w = rev (spec_h7 (rev salt) (rev w))) ∧
  (∀ key use_h7, octs 16 key →
    ltk_to_link_key m key use_h7 = rev (spec_convert tmp1 lebr use_h7 (rev key)) ∧
    link_key_to_ltk m key use_h7 = rev (spec_convert tmp2 brle use_h7 (rev key))) ∧
  (∀ k r preq pres iat ia rat ra, octs 16 k → octs 16 r → octs 7 preq → octs 7 pres → is_u8 iat → is_u8 rat →
    octs 6 ia → octs 6 ra →
    c1 m k r preq pres iat ia rat ra = rev (spec_c1 (rev k) (rev r) (rev pres) (rev preq) rat iat (rev ia) (rev ra))) ∧
  (∀ k r1 r2, octs 16 k → octs 16 r1 → octs 16 r2 → s1 m k r1 r2 = rev (spec_s1 (rev k) (rev r2) (rev r1))).
Proof.
  intros Hm. split; [exact (f4_spec m Hm)|]. split; [exact (f5_spec m Hm)|]. split; [exact (f6_spec m Hm)|].
  split; [exact (g2_spec m Hm)|]. split; [intros; by apply h6_spec|]. split; [intros; by apply h7_spec|].
  split; [|split; [exact (c1_spec m Hm)|exact (s1_spec m Hm)]].
  intros key use_h7 Hk. split.
  - exact (convert_spec m Hm key use_h7 (rev tmp1) (rev lebr) Hk (octs_check 4 (rev tmp1) eq_refl) (octs_check 4 (rev lebr) eq_refl)).
  - exact (convert_spec m Hm key use_h7 (rev tmp2) (rev brle) Hk (octs_check 4 (rev tmp2) eq_refl) (octs_check 4 (rev brle) eq_refl)).
Qed.

(** The sample data of the Core Specification, volume 3, part H, appendix D.2. *)
Definition sample_u : list Z :=
  [0x20; 0xb0; 0x03; 0xd2; 0xf2; 0x97; 0xbe; 0x2c; 0x5e; 0x2c; 0x83; 0xa7; 0xe9; 0xf9; 0xa5; 0xb9;
   0xef; 0xf4; 0x91; 0x11; 0xac; 0xf4; 0xfd; 0xdb; 0xcc; 0x03; 0x01; 0x48; 0x0e; 0x35; 0x9d; 0xe6].
Definition sample_v : list Z :=
  [0x55; 0x18; 0x8b; 0x3d; 0x32; 0xf6; 0xbb; 0x9a; 0x90; 0x0a; 0xfc; 0xfb; 0xee; 0xd4; 0xe7; 0x2a;
   0x59; 0xcb; 0x9a; 0xc2; 0xf1; 0x9d; 0x7c; 0xfb; 0x6b; 0x4f; 0xdd; 0x49; 0xf4; 0x7f; 0xc5; 0xfd].
Definition sample_x : list Z :=
  [0xd5; 0xcb; 0x84; 0x54; 0xd1; 0x77; 0x73; 0x3e; 0xff; 0xff; 0xb2; 0xec; 0x71; 0x2b; 0xae; 0xab].

Lemma toolbox_is_spec_witness :
  f4 memory_1 (rev sample_u) (rev sample_v) (rev sample_x) 0 =
    rev (spec_f4 (rev (rev sample_u)) (rev (rev sample_v)) (rev (rev sample_x)) 0) ∧
  spec_f4 sample_u sample_v sample_x 0 =
    [0xf2; 0xc9; 0x16; 0xf1; 0x07; 0xa9; 0xbd; 0x1c; 0xf1; 0xed; 0xa1; 0xbe; 0xa9; 0x74; 0x87; 0x2d].
Proof.
  split; [|by vm_compute]. assert (is_u8 0) as H0 by (unfold is_u8; lia).
  exact (proj1 (toolbox_is_spec memory_1 memory_1_ok) (rev sample_u) (rev sample_v) (rev sample_x) 0
    (octs_check 32 (rev sample_u) eq_refl) (octs_check 32 (rev sample_v) eq_refl) (octs_check 16 (rev sample_x) eq_refl) H0).
Defined.
