(* ===== verification/SmpDefs.v ===== *)
(** * Data of the Security Manager Protocol (SMP)

    The constants, enumerations and structures of [stack/smp/smp_int.h],
    [stack/include/smp_api_types.h] and [stack/include/smp_status.h].  Octets and
    enumerations are [Z], octet arrays are lists of octets.  [NULL] pointers are
    [None], or the constructor [NULL] of the union [tSMP_INT_DATA]. *)
From S2P Require Import Prelude.

(** ** Constants *)
(** tHCI_ROLE *)
Definition HCI_ROLE_CENTRAL : Z := 0.
Definition HCI_ROLE_PERIPHERAL : Z := 1.

Definition OCTET16_LEN : Z := 16.
Definition BT_OCTET8_LEN : Z := 8.
Definition BT_OCTET32_LEN : Z := 32.
Definition BD_ADDR_LEN : Z := 6.

(** tSMP_ASSO_MODEL *)
Definition SMP_MODEL_ENCRYPTION_ONLY : Z := 0.
Definition SMP_MODEL_PASSKEY : Z := 1.
Definition SMP_MODEL_OOB : Z := 2.
Definition SMP_MODEL_KEY_NOTIF : Z := 3.
Definition SMP_MODEL_SEC_CONN_JUSTWORKS : Z := 4.
Definition SMP_MODEL_SEC_CONN_NUM_COMP : Z := 5.
Definition SMP_MODEL_SEC_CONN_PASSKEY_ENT : Z := 6.
Definition SMP_MODEL_SEC_CONN_PASSKEY_DISP : Z := 7.
Definition SMP_MODEL_SEC_CONN_OOB : Z := 8.
Definition SMP_MODEL_OUT_OF_RANGE : Z := 9.

Definition SMP_WAIT_FOR_RSP_TIMEOUT_MS : Z := 30 * 1000.
Definition SMP_DELAYED_AUTH_TIMEOUT_MS : Z := 500.

(** tSMP_OPCODE *)
Definition SMP_OPCODE_PAIRING_REQ : Z := 0x01.
Definition SMP_OPCODE_PAIRING_RSP : Z := 0x02.
Definition SMP_OPCODE_CONFIRM : Z := 0x03.
Definition SMP_OPCODE_RAND : Z := 0x04.
Definition SMP_OPCODE_PAIRING_FAILED : Z := 0x05.
Definition SMP_OPCODE_ENCRYPT_INFO : Z := 0x06.
Definition SMP_OPCODE_CENTRAL_ID : Z := 0x07.
Definition SMP_OPCODE_IDENTITY_INFO : Z := 0x08.
Definition SMP_OPCODE_ID_ADDR : Z := 0x09.
Definition SMP_OPCODE_SIGN_INFO : Z := 0x0A.
Definition SMP_OPCODE_SEC_REQ : Z := 0x0B.
Definition SMP_OPCODE_PAIR_PUBLIC_KEY : Z := 0x0C.
Definition SMP_OPCODE_PAIR_DHKEY_CHECK : Z := 0x0D.
Definition SMP_OPCODE_PAIR_KEYPR_NOTIF : Z := 0x0E.
Definition SMP_OPCODE_MAX : Z := SMP_OPCODE_PAIR_KEYPR_NOTIF.
Definition SMP_OPCODE_MIN : Z := SMP_OPCODE_PAIRING_REQ.
Definition SMP_OPCODE_PAIR_COMMITM : Z := 0x0F.

(** tSMP_EVENT *)
Definition SMP_NOP_EVT : Z := 0.
Definition SMP_CONFIRM_EVT : Z := SMP_OPCODE_CONFIRM.
Definition SMP_RAND_EVT : Z := SMP_OPCODE_RAND.
Definition SMP_PAIR_COMMITM_EVT : Z := SMP_OPCODE_PAIR_COMMITM.
Definition SMP_SELF_DEF_EVT : Z := SMP_PAIR_COMMITM_EVT + 1.
Definition SMP_KEY_READY_EVT : Z := SMP_SELF_DEF_EVT.
Definition SMP_ENCRYPTED_EVT : Z := SMP_SELF_DEF_EVT + 1.
Definition SMP_L2CAP_CONN_EVT : Z := SMP_SELF_DEF_EVT + 2.
Definition SMP_L2CAP_DISCONN_EVT : Z := SMP_SELF_DEF_EVT + 3.
Definition SMP_IO_RSP_EVT : Z := SMP_SELF_DEF_EVT + 4.
Definition SMP_API_SEC_GRANT_EVT : Z := SMP_SELF_DEF_EVT + 5.
Definition SMP_TK_REQ_EVT : Z := SMP_SELF_DEF_EVT + 6.
Definition SMP_AUTH_CMPL_EVT : Z := SMP_SELF_DEF_EVT + 7.
Definition SMP_ENC_REQ_EVT : Z := SMP_SELF_DEF_EVT + 8.
Definition SMP_BOND_REQ_EVT : Z := SMP_SELF_DEF_EVT + 9.
Definition SMP_DISCARD_SEC_REQ_EVT : Z := SMP_SELF_DEF_EVT + 10.

Definition SMP_BR_PAIR_KEYPR_NOTIF_EVT : Z := SMP_OPCODE_PAIR_KEYPR_NOTIF.
Definition SMP_BR_SELF_DEF_EVT : Z := SMP_BR_PAIR_KEYPR_NOTIF_EVT.
Definition SMP_BR_L2CAP_CONN_EVT : Z := SMP_BR_SELF_DEF_EVT + 3.
Definition SMP_BR_L2CAP_DISCONN_EVT : Z := SMP_BR_SELF_DEF_EVT + 4.
Definition SMP_BR_KEYS_RSP_EVT : Z := SMP_BR_SELF_DEF_EVT + 5.
Definition SMP_BR_API_SEC_GRANT_EVT : Z := SMP_BR_SELF_DEF_EVT + 6.
Definition SMP_BR_AUTH_CMPL_EVT : Z := SMP_BR_SELF_DEF_EVT + 8.
Definition SMP_BR_BOND_REQ_EVT : Z := SMP_BR_SELF_DEF_EVT + 10.
Definition SMP_BR_MAX_EVT : Z := SMP_BR_SELF_DEF_EVT + 12.

Definition SMP_PAIR_DHKEY_CHCK_EVT : Z := SMP_OPCODE_PAIR_DHKEY_CHECK.
Definition SMP_PUBL_KEY_EXCH_REQ_EVT : Z := SMP_SELF_DEF_EVT + 11.
Definition SMP_LOC_PUBL_KEY_CRTD_EVT : Z := SMP_SELF_DEF_EVT + 12.
Definition SMP_BOTH_PUBL_KEYS_RCVD_EVT : Z := SMP_SELF_DEF_EVT + 13.
Definition SMP_SC_DHKEY_CMPLT_EVT : Z := SMP_SELF_DEF_EVT + 14.
Definition SMP_HAVE_LOC_NONCE_EVT : Z := SMP_SELF_DEF_EVT + 15.
Definition SMP_SC_PHASE1_CMPLT_EVT : Z := SMP_SELF_DEF_EVT + 16.
Definition SMP_SC_CALC_NC_EVT : Z := SMP_SELF_DEF_EVT + 17.
Definition SMP_SC_DSPL_NC_EVT : Z := SMP_SELF_DEF_EVT + 18.
Definition SMP_SC_NC_OK_EVT : Z := SMP_SELF_DEF_EVT + 19.
Definition SMP_SC_2_DHCK_CHKS_PRES_EVT : Z := SMP_SELF_DEF_EVT + 20.
Definition SMP_SC_KEY_READY_EVT : Z := SMP_SELF_DEF_EVT + 21.
Definition SMP_KEYPRESS_NOTIFICATION_EVENT : Z := SMP_SELF_DEF_EVT + 22.
Definition SMP_SC_OOB_DATA_EVT : Z := SMP_SELF_DEF_EVT + 23.
Definition SMP_CR_LOC_SC_OOB_DATA_EVT : Z := SMP_SELF_DEF_EVT + 24.
Definition SMP_SIRK_DEVICE_VALID_EVT : Z := SMP_SELF_DEF_EVT + 25.
Definition SMP_MAX_EVT : Z := SMP_SIRK_DEVICE_VALID_EVT.

(** SMP pairing states *)
Definition SMP_STATE_IDLE : Z := 0.
Definition SMP_STATE_WAIT_APP_RSP : Z := 1.
Definition SMP_STATE_SEC_REQ_PENDING : Z := 2.
Definition SMP_STATE_PAIR_REQ_RSP : Z := 3.
Definition SMP_STATE_WAIT_CONFIRM : Z := 4.
Definition SMP_STATE_CONFIRM : Z := 5.
Definition SMP_STATE_RAND : Z := 6.
Definition SMP_STATE_PUBLIC_KEY_EXCH : Z := 7.
Definition SMP_STATE_SEC_CONN_PHS1_START : Z := 8.
Definition SMP_STATE_WAIT_COMMITMENT : Z := 9.
Definition SMP_STATE_WAIT_NONCE : Z := 10.
Definition SMP_STATE_SEC_CONN_PHS2_START : Z := 11.
Definition SMP_STATE_WAIT_DHK_CHECK : Z := 12.
Definition SMP_STATE_DHK_CHECK : Z := 13.
Definition SMP_STATE_ENCRYPTION_PENDING : Z := 14.
Definition SMP_STATE_BOND_PENDING : Z := 15.
Definition SMP_STATE_CREATE_LOCAL_SEC_CONN_OOB_DATA : Z := 16.
Definition SMP_STATE_MAX : Z := 17.

Definition SMP_BR_STATE_IDLE : Z := SMP_STATE_IDLE.
Definition SMP_BR_STATE_WAIT_APP_RSP : Z := 1.
Definition SMP_BR_STATE_PAIR_REQ_RSP : Z := 2.
Definition SMP_BR_STATE_BOND_PENDING : Z := 3.
Definition SMP_BR_STATE_MAX : Z := 4.

(** tSMP_KEY key types *)
Definition SMP_KEY_TYPE_TK : Z := 0.
Definition SMP_KEY_TYPE_CFM : Z := 1.
Definition SMP_KEY_TYPE_CMP : Z := 2.
Definition SMP_KEY_TYPE_PEER_DHK_CHCK : Z := 3.
Definition SMP_KEY_TYPE_STK : Z := 4.
Definition SMP_KEY_TYPE_LTK : Z := 5.

Definition SMP_PAIR_FLAGS_WE_STARTED_DD : Z := 1.
Definition SMP_PAIR_FLAGS_CMD_CONFIRM_RCVD : Z := Z.shiftl 1 SMP_OPCODE_CONFIRM.
Definition SMP_PAIR_FLAG_ENC_AFTER_PAIR : Z := Z.shiftl 1 4.
Definition SMP_PAIR_FLAG_HAVE_PEER_DHK_CHK : Z := Z.shiftl 1 5.
Definition SMP_PAIR_FLAG_HAVE_PEER_PUBL_KEY : Z := Z.shiftl 1 6.
Definition SMP_PAIR_FLAG_HAVE_PEER_COMM : Z := Z.shiftl 1 7.
Definition SMP_PAIR_FLAG_HAVE_LOCAL_PUBL_KEY : Z := Z.shiftl 1 8.
Definition SMP_PAIR_FLAGS_CMD_CONFIRM_SENT : Z := Z.shiftl 1 9.

(** tSMP_EVT *)
Definition SMP_EVT_NONE : Z := 0.
Definition SMP_IO_CAP_REQ_EVT : Z := 1.
Definition SMP_SEC_REQUEST_EVT : Z := 2.
Definition SMP_PASSKEY_NOTIF_EVT : Z := 3.
Definition SMP_PASSKEY_REQ_EVT : Z := 4.
Definition SMP_OOB_REQ_EVT : Z := 5.
Definition SMP_NC_REQ_EVT : Z := 6.
Definition SMP_COMPLT_EVT : Z := 7.
Definition SMP_PEER_KEYPR_NOT_EVT : Z := 8.
Definition SMP_SC_OOB_REQ_EVT : Z := 9.
Definition SMP_SC_LOC_OOB_DATA_UP_EVT : Z := 10.
Definition SMP_BR_KEYS_REQ_EVT : Z := 12.
Definition SMP_CONSENT_REQ_EVT : Z := 14.
Definition SMP_LE_ADDR_ASSOC_EVT : Z := 15.
Definition SMP_SIRK_VERIFICATION_REQ_EVT : Z := 16.

Definition SMP_IO_CAP_IO : Z := 1.
Definition SMP_IO_CAP_KBDISP : Z := 4.
Definition SMP_IO_CAP_MAX : Z := 5.

Definition SMP_OOB_NONE : Z := 0.
Definition SMP_OOB_PRESENT : Z := 1.
Definition SMP_OOB_UNKNOWN : Z := 2.

(** tSMP_OOB_DATA_TYPE *)
Definition SMP_OOB_INVALID_TYPE : Z := 0.
Definition SMP_OOB_PEER : Z := 1.
Definition SMP_OOB_LOCAL : Z := 2.
Definition SMP_OOB_BOTH : Z := 3.

Definition SMP_AUTH_NO_BOND : Z := 0x00.
Definition SMP_AUTH_NB_ENC_ONLY : Z := 0x00.
Definition SMP_AUTH_BOND : Z := 1.
Definition SMP_AUTH_YN_BIT : Z := 4.
Definition SMP_SC_SUPPORT_BIT : Z := 8.
Definition SMP_KP_SUPPORT_BIT : Z := 16.
Definition SMP_H7_SUPPORT_BIT : Z := 32.

Definition SMP_SEC_NONE : Z := 0.
Definition SMP_SEC_UNAUTHENTICATE : Z := 1.
Definition SMP_SEC_AUTHENTICATED : Z := 2.

Definition SMP_ENCR_KEY_SIZE_MIN : Z := 7.
Definition SMP_ENCR_KEY_SIZE_MAX : Z := 16.
Definition SMP_MAX_ENC_KEY_SIZE : Z := 16.

Definition SMP_SEC_KEY_TYPE_ENC : Z := 1.
Definition SMP_SEC_KEY_TYPE_ID : Z := 2.
Definition SMP_SEC_KEY_TYPE_CSRK : Z := 4.
Definition SMP_SEC_KEY_TYPE_LK : Z := 8.
Definition SMP_BR_SEC_DEFAULT_KEY : Z := 7.
Definition SMP_SEC_DEFAULT_KEY : Z := 15.
Definition SMP_SC_KEY_OUT_OF_RANGE : Z := 5.
Definition SMP_DEFAULT_AUTH_REQ : Z := SMP_AUTH_NB_ENC_ONLY.

(** tSMP_STATUS *)
Definition SMP_SUCCESS : Z := 0.
Definition SMP_PASSKEY_ENTRY_FAIL : Z := 0x01.
Definition SMP_OOB_FAIL : Z := 0x02.
Definition SMP_PAIR_AUTH_FAIL : Z := 0x03.
Definition SMP_CONFIRM_VALUE_ERR : Z := 0x04.
Definition SMP_PAIR_NOT_SUPPORT : Z := 0x05.
Definition SMP_ENC_KEY_SIZE : Z := 0x06.
Definition SMP_PAIR_FAIL_UNKNOWN : Z := 0x08.
Definition SMP_REPEATED_ATTEMPTS : Z := 0x09.
Definition SMP_INVALID_PARAMETERS : Z := 0x0A.
Definition SMP_DHKEY_CHK_FAIL : Z := 0x0B.
Definition SMP_NUMERIC_COMPAR_FAIL : Z := 0x0C.
Definition SMP_XTRANS_DERIVE_NOT_ALLOW : Z := 0x0E.
Definition SMP_MAX_FAIL_RSN_PER_SPEC : Z := SMP_XTRANS_DERIVE_NOT_ALLOW.
Definition SMP_PAIR_INTERNAL_ERR : Z := SMP_MAX_FAIL_RSN_PER_SPEC + 0x01.
Definition SMP_UNKNOWN_IO_CAP : Z := SMP_MAX_FAIL_RSN_PER_SPEC + 0x02.
Definition SMP_BUSY : Z := SMP_MAX_FAIL_RSN_PER_SPEC + 0x05.
Definition SMP_ENC_FAIL : Z := SMP_MAX_FAIL_RSN_PER_SPEC + 0x06.
Definition SMP_STARTED : Z := SMP_MAX_FAIL_RSN_PER_SPEC + 0x07.
Definition SMP_RSP_TIMEOUT : Z := SMP_MAX_FAIL_RSN_PER_SPEC + 0x08.
Definition SMP_FAIL : Z := SMP_MAX_FAIL_RSN_PER_SPEC + 0x0A.
Definition SMP_CONN_TOUT : Z := SMP_MAX_FAIL_RSN_PER_SPEC + 0x0B.
Definition SMP_SIRK_DEVICE_INVALID : Z := SMP_MAX_FAIL_RSN_PER_SPEC + 0x0C.
Definition SMP_USER_CANCELLED : Z := SMP_MAX_FAIL_RSN_PER_SPEC + 0x0D.

Definition SMP_METRIC_COMMAND_LE_FLAG : Z := 0x0000.
Definition SMP_METRIC_COMMAND_BR_FLAG : Z := 0x0100.
Definition SMP_METRIC_COMMAND_LE_PAIRING_CMPL : Z := 0xFF00.
Definition SMP_METRIC_COMMAND_BR_PAIRING_CMPL : Z := 0xFF01.
Definition SMP_METRIC_STATUS_INTERNAL_FLAG : Z := 0x0100.

(** Constants of the security manager, L2CAP and HCI *)
Definition BTM_SUCCESS : Z := 0.
Definition BTM_CMD_STARTED : Z := 1.
Definition BTM_BUSY : Z := 2.
Definition BTM_SUCCESS_NO_SECURITY : Z := 17.
Definition BTM_SEC_MODE_SP : Z := 4.
Definition BTM_SEC_MODE_SC : Z := 6.
Definition BTM_MAX_PASSKEY_VAL : Z := 999999.
Definition BTM_SEC_LINK_KEY_AUTHED : Z := 0x0020.
Definition BTM_SEC_LE_LINK_KEY_AUTHED : Z := 0x2000.
Definition BTM_BLE_SEC_REQ_ACT_ENCRYPT : Z := 1.
Definition BTM_BLE_SEC_REQ_ACT_PAIR : Z := 2.
Definition BTM_BLE_SEC_REQ_ACT_DISCARD : Z := 3.
Definition BTM_LE_KEY_PENC : Z := SMP_SEC_KEY_TYPE_ENC.
Definition BTM_LE_KEY_PID : Z := SMP_SEC_KEY_TYPE_ID.
Definition BTM_LE_KEY_PCSRK : Z := SMP_SEC_KEY_TYPE_CSRK.
Definition BTM_LE_KEY_LENC : Z := Z.shiftl SMP_SEC_KEY_TYPE_ENC 4.
Definition BTM_LE_KEY_LID : Z := Z.shiftl SMP_SEC_KEY_TYPE_ID 4.
Definition BTM_LE_KEY_LCSRK : Z := Z.shiftl SMP_SEC_KEY_TYPE_CSRK 4.
Definition BTM_LKEY_TYPE_UNAUTH_COMB : Z := 4.
Definition BTM_LKEY_TYPE_AUTH_COMB : Z := 5.
Definition BTM_LKEY_TYPE_UNAUTH_COMB_P_256 : Z := 7.
Definition BTM_LKEY_TYPE_AUTH_COMB_P_256 : Z := 8.
Definition BTM_LKEY_TYPE_IGNORE : Z := 0xff.
Definition BTM_LTK_DERIVED_LKEY_OFFSET : Z := 0x20.
Definition BLE_ADDR_PUBLIC : Z := 0.
Definition HCI_PROTO_VERSION_4_2 : Z := 8.
Definition HCI_PROTO_VERSION_5_0 : Z := 9.
Definition L2CAP_SMP_CID : Z := 6.
Definition L2CAP_SMP_BR_CID : Z := 7.
Definition SMP_LINK_TOUT_MIN : Z := 4.
Definition BT_TRANSPORT_BR_EDR : Z := 1.
Definition BT_TRANSPORT_LE : Z := 2.

(** [x & ~m] on an octet or a 16-bit word, and [x & bit] as a condition. *)
Definition clear (x m : Z) : Z := Z.ldiff x m.
Definition has (x bit : Z) : bool := nz (Z.land x bit).

(** ** Structures *)
(** [RawAddress]: its octets, [address[0]] first. *)
Abbreviation RawAddress := (list Z) (only parsing).
Definition kEmpty : RawAddress := replicate 6 0.
Abbreviation zero8 := (replicate 8 0) (only parsing).
Abbreviation zero16 := (replicate 16 0) (only parsing).
Abbreviation zero32 := (replicate 32 0) (only parsing).

(** [alarm_t*]: no alarm, an alarm, an alarm that is set (milliseconds). *)
Inductive alarm_t := alarm_null | alarm_idle | alarm_scheduled (ms : Z).

(** tBLE_BD_ADDR *)
Record tBLE_BD_ADDR := mk_tBLE_BD_ADDR {
  bd_type : Z;
  bd_bda : RawAddress;
}.
#[export] Instance eta_tBLE_BD_ADDR : Eta tBLE_BD_ADDR := fun r =>
  mk_tBLE_BD_ADDR (bd_type r) (bd_bda r).
Definition zero_tBLE_BD_ADDR : tBLE_BD_ADDR :=
  mk_tBLE_BD_ADDR 0 kEmpty.

(** tSMP_PUBLIC_KEY *)
Record tSMP_PUBLIC_KEY := mk_tSMP_PUBLIC_KEY {
  pk_x : list Z;
  pk_y : list Z;
}.
#[export] Instance eta_tSMP_PUBLIC_KEY : Eta tSMP_PUBLIC_KEY := fun r =>
  mk_tSMP_PUBLIC_KEY (pk_x r) (pk_y r).
Definition zero_tSMP_PUBLIC_KEY : tSMP_PUBLIC_KEY :=
  mk_tSMP_PUBLIC_KEY zero32 zero32.

(** tSMP_LOC_OOB_DATA *)
Record tSMP_LOC_OOB_DATA := mk_tSMP_LOC_OOB_DATA {
  loc_present : bool;
  loc_randomizer : list Z;
  loc_commitment : list Z;
  addr_sent_to : tBLE_BD_ADDR;
  private_key_used : list Z;
  publ_key_used : tSMP_PUBLIC_KEY;
}.
#[export] Instance eta_tSMP_LOC_OOB_DATA : Eta tSMP_LOC_OOB_DATA := fun r =>
  mk_tSMP_LOC_OOB_DATA (loc_present r) (loc_randomizer r) (loc_commitment r) (addr_sent_to r)
    (private_key_used r) (publ_key_used r).
Definition zero_tSMP_LOC_OOB_DATA : tSMP_LOC_OOB_DATA :=
  mk_tSMP_LOC_OOB_DATA false zero16 zero16 zero_tBLE_BD_ADDR zero32 zero_tSMP_PUBLIC_KEY.

(** tSMP_PEER_OOB_DATA *)
Record tSMP_PEER_OOB_DATA := mk_tSMP_PEER_OOB_DATA {
  peer_present : bool;
  peer_randomizer : list Z;
  peer_commitment : list Z;
  addr_rcvd_from : tBLE_BD_ADDR;
}.
#[export] Instance eta_tSMP_PEER_OOB_DATA : Eta tSMP_PEER_OOB_DATA := fun r =>
  mk_tSMP_PEER_OOB_DATA (peer_present r) (peer_randomizer r) (peer_commitment r)
    (addr_rcvd_from r).
Definition zero_tSMP_PEER_OOB_DATA : tSMP_PEER_OOB_DATA :=
  mk_tSMP_PEER_OOB_DATA false zero16 zero16 zero_tBLE_BD_ADDR.

(** tSMP_SC_OOB_DATA *)
Record tSMP_SC_OOB_DATA := mk_tSMP_SC_OOB_DATA {
  loc_oob_data : tSMP_LOC_OOB_DATA;
  peer_oob_data : tSMP_PEER_OOB_DATA;
}.
#[export] Instance eta_tSMP_SC_OOB_DATA : Eta tSMP_SC_OOB_DATA := fun r =>
  mk_tSMP_SC_OOB_DATA (loc_oob_data r) (peer_oob_data r).
Definition zero_tSMP_SC_OOB_DATA : tSMP_SC_OOB_DATA :=
  mk_tSMP_SC_OOB_DATA zero_tSMP_LOC_OOB_DATA zero_tSMP_PEER_OOB_DATA.

(** tSMP_IO_REQ *)
Record tSMP_IO_REQ := mk_tSMP_IO_REQ {
  io_cap : Z;
  oob_data : Z;
  auth_req : Z;
  max_key_size : Z;
  init_keys : Z;
  resp_keys : Z;
}.
#[export] Instance eta_tSMP_IO_REQ : Eta tSMP_IO_REQ := fun r =>
  mk_tSMP_IO_REQ (io_cap r) (oob_data r) (auth_req r) (max_key_size r) (init_keys r) (resp_keys
    r).

(** tSMP_CMPL *)
Record tSMP_CMPL := mk_tSMP_CMPL {
  cmpl_reason : Z;
  cmpl_sec_level : Z;
  cmpl_is_pair_cancel : bool;
  cmpl_smp_over_br : bool;
}.
#[export] Instance eta_tSMP_CMPL : Eta tSMP_CMPL := fun r =>
  mk_tSMP_CMPL (cmpl_reason r) (cmpl_sec_level r) (cmpl_is_pair_cancel r) (cmpl_smp_over_br r).

(** [tSMP_EVT_DATA], by the member that was set; [evt_none] when none was, or for a
    null pointer. *)
Inductive tSMP_EVT_DATA :=
| evt_none
| evt_passkey (passkey : Z)
| evt_io_req (io_req : tSMP_IO_REQ)
| evt_cmplt (cmplt : tSMP_CMPL)
| evt_req_oob_type (t : Z)
| evt_loc_oob_data (d : tSMP_LOC_OOB_DATA)
| evt_id_addr_with_type (a : tBLE_BD_ADDR).

(** The pointer in [tSMP_KEY]: to [p_cb->tk], or to octets nothing changes. *)
Inductive key_ptr := ptr_tk | ptr_octets (l : list Z).

(** [tSMP_INT_DATA*]: null, or the union by the member that was set last. *)
Inductive tSMP_INT_DATA :=
| NULL
| u_unset
| u_p_data (p : list Z)
| u_key (key_type : Z) (p_data : key_ptr)
| u_status (status : Z)
| u_passkey (passkey : Z)
| u_req_oob_type (t : Z).

(** [tBTM_LE_KEY_VALUE], by its member *)
Inductive tBTM_LE_KEY_VALUE :=
| penc_key (ltk : list Z) (rand : list Z) (ediv sec_level key_size : Z)
| lenc_key (ltk : list Z) (div key_size sec_level : Z)
| pcsrk_key (counter : Z) (csrk : list Z) (sec_level : Z)
| lcsrk_key (counter div sec_level : Z) (csrk : list Z)
| pid_key (irk : list Z) (identity_addr_type : Z) (identity_addr : RawAddress).

(** What SMP reads of a [tBTM_SEC_DEV_REC]. *)
Record tBTM_SEC_DEV_REC := mk_dev_rec {
  dev_pseudo_addr : RawAddress;
  dev_RemoteAddress : RawAddress;
  new_encryption_key_is_p256 : bool;
  sec_flags : Z;
  dev_link_key : list Z;
  is_link_key_known : bool;
}.

(** The control block, [smp_cb] *)
Record tSMP_CB := mk_tSMP_CB {
  init_security_mode : Z;
  p_callback : option Z;
  smp_rsp_timer_ent : alarm_t;
  pairing_bda : RawAddress;
  state : Z;
  derive_lk : bool;
  id_addr_rcvd : bool;
  id_addr_type : Z;
  id_addr : RawAddress;
  smp_over_br : bool;
  br_state : Z;
  failure : Z;
  status : Z;
  role : Z;
  flags : Z;
  cb_evt : Z;
  sec_level : Z;
  connect_initialized : bool;
  confirm : list Z;
  rconfirm : list Z;
  rrand : list Z;
  rand : list Z;
  private_key : list Z;
  dhkey : list Z;
  commitment : list Z;
  remote_commitment : list Z;
  local_random : list Z;
  peer_random : list Z;
  dhkey_check : list Z;
  remote_dhkey_check : list Z;
  loc_publ_key : tSMP_PUBLIC_KEY;
  peer_publ_key : tSMP_PUBLIC_KEY;
  req_oob_type : Z;
  sc_oob_data : tSMP_SC_OOB_DATA;
  peer_io_caps : Z;
  local_io_capability : Z;
  peer_oob_flag : Z;
  loc_oob_flag : Z;
  peer_auth_req : Z;
  loc_auth_req : Z;
  sc_only_mode_locally_required : bool;
  sc_mode_required_by_peer : bool;
  selected_association_model : Z;
  key_derivation_h7_used : bool;
  le_sc_kp_notif_is_used : bool;
  local_keypress_notification : Z;
  peer_keypress_notification : Z;
  round : Z;
  number_to_display : Z;
  mac_key : list Z;
  peer_enc_size : Z;
  loc_enc_size : Z;
  peer_i_key : Z;
  peer_r_key : Z;
  local_i_key : Z;
  local_r_key : Z;
  tk : list Z;
  ltk : list Z;
  div : Z;
  csrk : list Z;
  ediv : Z;
  enc_rand : list Z;
  addr_type : Z;
  local_bda : RawAddress;
  is_pair_cancel : bool;
  discard_sec_req : bool;
  rcvd_cmd_code : Z;
  rcvd_cmd_len : Z;
  total_tx_unacked : Z;
  wait_for_authorization_complete : bool;
  cert_failure : Z;
  delayed_auth_timer_ent : alarm_t;
  pairing_ble_bd_addr : tBLE_BD_ADDR;
}.
#[export] Instance eta_tSMP_CB : Eta tSMP_CB := fun r =>
  mk_tSMP_CB (init_security_mode r) (p_callback r) (smp_rsp_timer_ent r) (pairing_bda r) (state
    r) (derive_lk r) (id_addr_rcvd r) (id_addr_type r) (id_addr r) (smp_over_br r) (br_state r)
    (failure r) (status r) (role r) (flags r) (cb_evt r) (sec_level r) (connect_initialized r)
    (confirm r) (rconfirm r) (rrand r) (rand r) (private_key r) (dhkey r) (commitment r)
    (remote_commitment r) (local_random r) (peer_random r) (dhkey_check r) (remote_dhkey_check
    r) (loc_publ_key r) (peer_publ_key r) (req_oob_type r) (sc_oob_data r) (peer_io_caps r)
    (local_io_capability r) (peer_oob_flag r) (loc_oob_flag r) (peer_auth_req r) (loc_auth_req
    r) (sc_only_mode_locally_required r) (sc_mode_required_by_peer r)
    (selected_association_model r) (key_derivation_h7_used r) (le_sc_kp_notif_is_used r)
    (local_keypress_notification r) (peer_keypress_notification r) (round r) (number_to_display
    r) (mac_key r) (peer_enc_size r) (loc_enc_size r) (peer_i_key r) (peer_r_key r)
    (local_i_key r) (local_r_key r) (tk r) (ltk r) (div r) (csrk r) (ediv r) (enc_rand r)
    (addr_type r) (local_bda r) (is_pair_cancel r) (discard_sec_req r) (rcvd_cmd_code r)
    (rcvd_cmd_len r) (total_tx_unacked r) (wait_for_authorization_complete r) (cert_failure r)
    (delayed_auth_timer_ent r) (pairing_ble_bd_addr r).
Definition zero_tSMP_CB : tSMP_CB :=
  mk_tSMP_CB 0 None alarm_null kEmpty 0 false false 0 kEmpty false 0 0 0 0 0 0 0 false zero16
    zero16 zero16 zero16 zero32 zero32 zero16 zero16 zero16 zero16 zero16 zero16
    zero_tSMP_PUBLIC_KEY zero_tSMP_PUBLIC_KEY 0 zero_tSMP_SC_OOB_DATA 0 0 0 0 0 0 false false 0
    false false 0 0 0 0 zero16 0 0 0 0 0 0 zero16 zero16 0 zero16 0 zero8 0 kEmpty false false
    0 0 0 false 0 alarm_null zero_tBLE_BD_ADDR.

