(* ===== verification/SmpTables.v ===== *)
(** * The state machine tables of the Security Manager Protocol

    The tables of [stack/smp/smp_main.cc] (LE) and [stack/smp/smp_br_main.cc]
    (BR/EDR), row by row.  An entry map gives, for an event and a state, 0 (ignore)
    or the 1-based row of the table of that state; bit 0x80 selects the table shared
    by all states.  A row holds two actions and the next state. *)
From S2P Require Import Prelude SmpDefs.

(** The actions of [smp_main.cc] *)
Inductive action :=
| SMP_PROC_SEC_REQ | SMP_SEND_PAIR_REQ | SMP_SEND_PAIR_RSP | SMP_SEND_CONFIRM |
SMP_SEND_PAIR_FAIL | SMP_SEND_RAND | SMP_SEND_ENC_INFO | SMP_SEND_ID_INFO | SMP_SEND_LTK_REPLY
| SMP_PROC_PAIR_CMD | SMP_PROC_PAIR_FAIL | SMP_PROC_CONFIRM | SMP_PROC_RAND | SMP_PROC_ENC_INFO
| SMP_PROC_CENTRAL_ID | SMP_PROC_ID_INFO | SMP_PROC_ID_ADDR | SMP_PROC_SRK_INFO |
SMP_PROC_SEC_GRANT | SMP_PROC_SL_KEY | SMP_PROC_COMPARE | SMP_PROC_IO_RSP |
SMP_GENERATE_COMPARE | SMP_GENERATE_CONFIRM | SMP_GENERATE_STK | SMP_KEY_DISTRIBUTE |
SMP_START_ENC | SMP_PAIRING_CMPL | SMP_DECIDE_ASSO_MODEL | SMP_SEND_APP_CBACK |
SMP_CHECK_AUTH_REQ | SMP_PAIR_TERMINATE | SMP_ENC_CMPL | SMP_SIRK_VERIFY | SMP_PROC_DISCARD |
SMP_CREATE_PRIVATE_KEY | SMP_USE_OOB_PRIVATE_KEY | SMP_SEND_PAIR_PUBLIC_KEY |
SMP_PROCESS_PAIR_PUBLIC_KEY | SMP_HAVE_BOTH_PUBLIC_KEYS | SMP_START_SEC_CONN_PHASE1 |
SMP_PROCESS_LOCAL_NONCE | SMP_SEND_COMMITMENT | SMP_PROCESS_PAIRING_COMMITMENT |
SMP_PROCESS_PEER_NONCE | SMP_CALCULATE_LOCAL_DHKEY_CHECK | SMP_SEND_DHKEY_CHECK |
SMP_PROCESS_DHKEY_CHECK | SMP_CALCULATE_PEER_DHKEY_CHECK | SMP_MATCH_DHKEY_CHECKS |
SMP_CALCULATE_NUMERIC_COMPARISON_DISPLAY_NUMBER | SMP_MOVE_TO_SEC_CONN_PHASE2 |
SMP_PH2_DHKEY_CHECKS_ARE_PRESENT | SMP_WAIT_FOR_BOTH_PUBLIC_KEYS |
SMP_START_PASSKEY_VERIFICATION | SMP_SEND_KEYPRESS_NOTIFICATION |
SMP_PROCESS_KEYPRESS_NOTIFICATION | SMP_PROCESS_SECURE_CONNECTION_OOB_DATA |
SMP_SET_LOCAL_OOB_KEYS | SMP_SET_LOCAL_OOB_RAND_COMMITMENT | SMP_IDLE_TERMINATE |
SMP_SM_NO_ACTION.

Definition smp_central_entry_map : list (list Z) := [
  [0; 0; 0; 0; 0; 0; 0; 0; 0; 0; 0; 0; 0; 0; 0; 0; 0];
  [0; 0; 0; 1; 0; 0; 0; 0; 0; 0; 0; 0; 0; 0; 0; 0; 0];
  [0; 0; 0; 0; 0; 1; 0; 0; 0; 0; 0; 0; 0; 0; 0; 0; 0];
  [0; 0; 0; 0; 0; 0; 1; 0; 0; 0; 1; 0; 0; 0; 0; 0; 0];
  [0; 0x81; 0; 0x81; 0x81; 0x81; 0x81; 0x81; 0x81; 0x81; 0x81; 0x81; 0x81; 0x81; 0; 0x81; 0];
  [0; 0; 0; 0; 0; 0; 0; 0; 0; 0; 0; 0; 0; 0; 0; 1; 0];
  [0; 0; 0; 0; 0; 0; 0; 0; 0; 0; 0; 0; 0; 0; 0; 4; 0];
  [0; 0; 0; 0; 0; 0; 0; 0; 0; 0; 0; 0; 0; 0; 0; 2; 0];
  [0; 0; 0; 0; 0; 0; 0; 0; 0; 0; 0; 0; 0; 0; 0; 5; 0];
  [0; 0; 0; 0; 0; 0; 0; 0; 0; 0; 0; 0; 0; 0; 0; 3; 0];
  [2; 0; 0; 0; 0; 0; 0; 0; 0; 0; 0; 0; 0; 0; 0; 0; 0];
  [0; 0; 0; 0; 0; 0; 0; 2; 0; 0; 0; 0; 0; 0; 0; 0; 0];
  [0; 0; 0; 0; 0; 0; 0; 0; 0; 0; 0; 0; 1; 0; 0; 0; 0];
  [0; 8; 0; 0; 0; 0; 0; 0; 5; 2; 0; 0; 0; 0; 0; 0; 0];
  [0; 0; 0; 0; 0; 0; 0; 0; 6; 1; 0; 0; 0; 0; 0; 0; 0];
  [0; 3; 0; 3; 1; 0; 2; 0; 4; 0; 0; 0; 0; 0; 1; 6; 0];
  [0; 0; 0; 0; 0; 0; 0; 0; 0; 0; 0; 0; 0; 0; 2; 0; 0];
  [1; 0; 0; 0; 0; 0; 0; 0; 0; 0; 0; 0; 0; 0; 0; 0; 0];
  [3; 0x83; 0; 0x83; 0x83; 0x83; 0x83; 0x83; 0x83; 0x83; 0x83; 0x83; 0x83; 0x83; 0x83; 0x83; 0];
  [0; 2; 0; 0; 0; 0; 0; 0; 0; 0; 0; 0; 0; 0; 0; 0; 0];
  [0; 1; 0; 0; 0; 0; 0; 0; 0; 0; 0; 0; 0; 0; 0; 0; 0];
  [0; 0; 0; 2; 0; 0; 0; 0; 3; 0; 0; 0; 0; 0; 0; 0; 0];
  [4; 0x82; 0; 0x82; 0x82; 0x82; 0x82; 0x82; 0x82; 0x82; 0x82; 0x82; 0x82; 0x82; 0x82; 7; 0];
  [0; 4; 0; 0; 0; 0; 3; 0; 0; 0; 0; 0; 0; 2; 0; 0; 0];
  [0; 0; 0; 0; 0; 0; 0; 0; 0; 0; 0; 0; 0; 0; 3; 0; 0];
  [0; 5; 0; 0; 0; 0; 0; 0; 0; 0; 0; 0; 0; 0; 3; 0; 0];
  [0; 0; 0; 4; 0; 0; 0; 0; 0; 0; 0; 0; 0; 0; 0; 0; 0];
  [0; 0; 0; 0; 0; 0; 0; 1; 0; 0; 0; 0; 0; 0; 0; 0; 1];
  [0; 0; 0; 0; 0; 0; 0; 3; 0; 0; 0; 0; 0; 0; 0; 0; 0];
  [0; 0; 0; 0; 0; 0; 0; 0; 1; 0; 0; 0; 0; 0; 0; 0; 0];
  [0; 0; 0; 0; 0; 0; 0; 0; 2; 0; 0; 0; 0; 0; 0; 0; 2];
  [0; 0; 0; 0; 0; 0; 0; 0; 0; 0; 0; 1; 0; 0; 0; 0; 0];
  [0; 0; 0; 0; 0; 0; 0; 0; 0; 0; 2; 0; 0; 0; 0; 0; 0];
  [0; 0; 0; 0; 0; 0; 0; 0; 0; 0; 3; 0; 0; 0; 0; 0; 0];
  [0; 6; 0; 0; 0; 0; 0; 0; 0; 0; 0; 0; 0; 0; 0; 0; 0];
  [0; 0; 0; 0; 0; 0; 0; 0; 0; 0; 0; 0; 0; 0; 0; 0; 0];
  [0; 7; 0; 0; 0; 0; 0; 0; 0; 0; 0; 0; 0; 1; 0; 0; 0];
  [0; 9; 0; 0; 0; 0; 0; 0; 0; 0; 0; 0; 0; 0; 0; 0; 0];
  [0; 10; 0; 0; 0; 0; 0; 0; 0; 0; 0; 0; 0; 0; 0; 0; 0];
  [5; 0; 0; 0; 0; 0; 0; 0; 0; 0; 0; 0; 0; 0; 0; 0; 0];
  [0; 0; 0; 0; 0; 0; 0; 0; 0; 0; 0; 0; 0; 0; 0; 0x82; 0]].

Definition smp_all_table : list (action * action * Z) := [
  (SMP_PROC_PAIR_FAIL, SMP_PAIRING_CMPL, SMP_STATE_IDLE);
  (SMP_SEND_PAIR_FAIL, SMP_PAIRING_CMPL, SMP_STATE_IDLE);
  (SMP_PAIR_TERMINATE, SMP_SM_NO_ACTION, SMP_STATE_IDLE)].

Definition smp_central_idle_table : list (action * action * Z) := [
  (SMP_SEND_APP_CBACK, SMP_SM_NO_ACTION, SMP_STATE_WAIT_APP_RSP);
  (SMP_PROC_SEC_REQ, SMP_SEND_APP_CBACK, SMP_STATE_WAIT_APP_RSP);
  (SMP_IDLE_TERMINATE, SMP_SM_NO_ACTION, SMP_STATE_IDLE);
  (SMP_PAIRING_CMPL, SMP_SM_NO_ACTION, SMP_STATE_IDLE);
  (SMP_CREATE_PRIVATE_KEY, SMP_SM_NO_ACTION, SMP_STATE_CREATE_LOCAL_SEC_CONN_OOB_DATA)].

Definition smp_central_wait_for_app_response_table : list (action * action * Z) := [
  (SMP_PROC_SEC_GRANT, SMP_SEND_APP_CBACK, SMP_STATE_WAIT_APP_RSP);
  (SMP_SEND_PAIR_REQ, SMP_SM_NO_ACTION, SMP_STATE_PAIR_REQ_RSP);
  (SMP_GENERATE_CONFIRM, SMP_SM_NO_ACTION, SMP_STATE_WAIT_CONFIRM);
  (SMP_START_ENC, SMP_SM_NO_ACTION, SMP_STATE_ENCRYPTION_PENDING);
  (SMP_PROC_DISCARD, SMP_SM_NO_ACTION, SMP_STATE_IDLE);
  (SMP_MOVE_TO_SEC_CONN_PHASE2, SMP_SM_NO_ACTION, SMP_STATE_SEC_CONN_PHS2_START);
  (SMP_START_PASSKEY_VERIFICATION, SMP_SM_NO_ACTION, SMP_STATE_SEC_CONN_PHS1_START);
  (SMP_PROCESS_KEYPRESS_NOTIFICATION, SMP_SEND_APP_CBACK, SMP_STATE_WAIT_APP_RSP);
  (SMP_SEND_KEYPRESS_NOTIFICATION, SMP_SM_NO_ACTION, SMP_STATE_WAIT_APP_RSP);
  (SMP_USE_OOB_PRIVATE_KEY, SMP_SM_NO_ACTION, SMP_STATE_PUBLIC_KEY_EXCH)].

Definition smp_central_pair_request_response_table : list (action * action * Z) := [
  (SMP_PROC_PAIR_CMD, SMP_SM_NO_ACTION, SMP_STATE_PAIR_REQ_RSP);
  (SMP_SEND_APP_CBACK, SMP_SM_NO_ACTION, SMP_STATE_WAIT_APP_RSP);
  (SMP_GENERATE_CONFIRM, SMP_SM_NO_ACTION, SMP_STATE_WAIT_CONFIRM);
  (SMP_CREATE_PRIVATE_KEY, SMP_SM_NO_ACTION, SMP_STATE_PUBLIC_KEY_EXCH)].

Definition smp_central_wait_for_confirm_table : list (action * action * Z) := [
  (SMP_SEND_CONFIRM, SMP_SM_NO_ACTION, SMP_STATE_CONFIRM)].

Definition smp_central_confirm_table : list (action * action * Z) := [
  (SMP_PROC_CONFIRM, SMP_SEND_RAND, SMP_STATE_RAND)].

Definition smp_central_rand_table : list (action * action * Z) := [
  (SMP_PROC_RAND, SMP_GENERATE_COMPARE, SMP_STATE_RAND);
  (SMP_PROC_COMPARE, SMP_SM_NO_ACTION, SMP_STATE_RAND);
  (SMP_GENERATE_STK, SMP_SM_NO_ACTION, SMP_STATE_ENCRYPTION_PENDING)].

Definition smp_central_public_key_exchange_table : list (action * action * Z) := [
  (SMP_SEND_PAIR_PUBLIC_KEY, SMP_SM_NO_ACTION, SMP_STATE_PUBLIC_KEY_EXCH);
  (SMP_PROCESS_PAIR_PUBLIC_KEY, SMP_SM_NO_ACTION, SMP_STATE_PUBLIC_KEY_EXCH);
  (SMP_HAVE_BOTH_PUBLIC_KEYS, SMP_SM_NO_ACTION, SMP_STATE_SEC_CONN_PHS1_START)].

Definition smp_central_sec_conn_phs1_start_table : list (action * action * Z) := [
  (SMP_START_SEC_CONN_PHASE1, SMP_SM_NO_ACTION, SMP_STATE_SEC_CONN_PHS1_START);
  (SMP_PROCESS_LOCAL_NONCE, SMP_SM_NO_ACTION, SMP_STATE_WAIT_COMMITMENT);
  (SMP_SEND_APP_CBACK, SMP_SM_NO_ACTION, SMP_STATE_WAIT_APP_RSP);
  (SMP_START_PASSKEY_VERIFICATION, SMP_SM_NO_ACTION, SMP_STATE_SEC_CONN_PHS1_START);
  (SMP_PROCESS_KEYPRESS_NOTIFICATION, SMP_SEND_APP_CBACK, SMP_STATE_SEC_CONN_PHS1_START);
  (SMP_PROCESS_PAIRING_COMMITMENT, SMP_SM_NO_ACTION, SMP_STATE_SEC_CONN_PHS1_START)].

Definition smp_central_wait_commitment_table : list (action * action * Z) := [
  (SMP_PROCESS_PAIRING_COMMITMENT, SMP_SEND_RAND, SMP_STATE_WAIT_NONCE);
  (SMP_PROCESS_KEYPRESS_NOTIFICATION, SMP_SEND_APP_CBACK, SMP_STATE_WAIT_COMMITMENT)].

Definition smp_central_wait_nonce_table : list (action * action * Z) := [
  (SMP_PROC_RAND, SMP_PROCESS_PEER_NONCE, SMP_STATE_SEC_CONN_PHS2_START);
  (SMP_CALCULATE_NUMERIC_COMPARISON_DISPLAY_NUMBER, SMP_SM_NO_ACTION, SMP_STATE_WAIT_NONCE);
  (SMP_SEND_APP_CBACK, SMP_SM_NO_ACTION, SMP_STATE_WAIT_APP_RSP)].

Definition smp_central_sec_conn_phs2_start_table : list (action * action * Z) := [
  (SMP_CALCULATE_LOCAL_DHKEY_CHECK, SMP_SEND_DHKEY_CHECK, SMP_STATE_WAIT_DHK_CHECK)].

Definition smp_central_wait_dhk_check_table : list (action * action * Z) := [
  (SMP_PROCESS_DHKEY_CHECK, SMP_CALCULATE_PEER_DHKEY_CHECK, SMP_STATE_DHK_CHECK)].

Definition smp_central_dhk_check_table : list (action * action * Z) := [
  (SMP_MATCH_DHKEY_CHECKS, SMP_SM_NO_ACTION, SMP_STATE_DHK_CHECK);
  (SMP_GENERATE_STK, SMP_SM_NO_ACTION, SMP_STATE_ENCRYPTION_PENDING)].

Definition smp_central_enc_pending_table : list (action * action * Z) := [
  (SMP_START_ENC, SMP_SM_NO_ACTION, SMP_STATE_ENCRYPTION_PENDING);
  (SMP_CHECK_AUTH_REQ, SMP_SM_NO_ACTION, SMP_STATE_ENCRYPTION_PENDING);
  (SMP_KEY_DISTRIBUTE, SMP_SM_NO_ACTION, SMP_STATE_BOND_PENDING)].

Definition smp_central_bond_pending_table : list (action * action * Z) := [
  (SMP_PROC_ENC_INFO, SMP_SM_NO_ACTION, SMP_STATE_BOND_PENDING);
  (SMP_PROC_ID_INFO, SMP_SM_NO_ACTION, SMP_STATE_BOND_PENDING);
  (SMP_PROC_SRK_INFO, SMP_SM_NO_ACTION, SMP_STATE_BOND_PENDING);
  (SMP_PROC_CENTRAL_ID, SMP_SM_NO_ACTION, SMP_STATE_BOND_PENDING);
  (SMP_PROC_ID_ADDR, SMP_SM_NO_ACTION, SMP_STATE_BOND_PENDING);
  (SMP_SEND_ENC_INFO, SMP_SM_NO_ACTION, SMP_STATE_BOND_PENDING);
  (SMP_SIRK_VERIFY, SMP_SM_NO_ACTION, SMP_STATE_BOND_PENDING)].

Definition smp_central_create_local_sec_conn_oob_data : list (action * action * Z) := [
  (SMP_SET_LOCAL_OOB_KEYS, SMP_SM_NO_ACTION, SMP_STATE_CREATE_LOCAL_SEC_CONN_OOB_DATA);
  (SMP_SET_LOCAL_OOB_RAND_COMMITMENT, SMP_SM_NO_ACTION, SMP_STATE_IDLE)].

Definition smp_peripheral_entry_map : list (list Z) := [
  [2; 0; 1; 0; 0; 0; 0; 0; 0; 0; 0; 0; 0; 0; 0; 0; 0];
  [0; 0; 0; 0; 0; 0; 0; 0; 0; 0; 0; 0; 0; 0; 0; 0; 0];
  [0; 4; 0; 1; 1; 0; 0; 0; 0; 0; 0; 0; 0; 0; 0; 0; 0];
  [0; 0; 0; 0; 0; 1; 2; 0; 0; 0; 1; 0; 0; 0; 0; 0; 0];
  [0; 0x81; 0x81; 0x81; 0x81; 0x81; 0x81; 0x81; 0x81; 0x81; 0x81; 0x81; 0x81; 0x81; 0x81; 0; 0];
  [0; 0; 0; 0; 0; 0; 0; 0; 0; 0; 0; 0; 0; 0; 0; 3; 0];
  [0; 0; 0; 0; 0; 0; 0; 0; 0; 0; 0; 0; 0; 0; 0; 5; 0];
  [0; 0; 0; 0; 0; 0; 0; 0; 0; 0; 0; 0; 0; 0; 0; 4; 0];
  [0; 0; 0; 0; 0; 0; 0; 0; 0; 0; 0; 0; 0; 0; 0; 6; 0];
  [0; 0; 0; 0; 0; 0; 0; 0; 0; 0; 0; 0; 0; 0; 0; 2; 0];
  [0; 0; 0; 0; 0; 0; 0; 0; 0; 0; 0; 0; 0; 0; 0; 0; 0];
  [0; 0; 0; 5; 0; 0; 0; 2; 0; 0; 0; 0; 0; 0; 0; 0; 0];
  [0; 5; 0; 0; 0; 0; 0; 0; 0; 0; 0; 2; 1; 2; 0; 0; 0];
  [0; 9; 0; 0; 0; 0; 0; 0; 5; 2; 0; 0; 0; 0; 0; 0; 0];
  [0; 8; 0; 0; 0; 0; 0; 0; 6; 1; 0; 0; 0; 0; 0; 0; 0];
  [0; 3; 0; 3; 2; 2; 1; 0; 4; 0; 0; 0; 0; 0; 2; 1; 0];
  [0; 0; 2; 0; 0; 0; 0; 0; 0; 0; 0; 0; 0; 0; 3; 0; 0];
  [1; 0; 0; 0; 0; 0; 0; 0; 0; 0; 0; 0; 0; 0; 0; 0; 0];
  [0; 0x83; 0x83; 0x83; 0x83; 0x83; 0x83; 0x83; 0x83; 0x83; 0x83; 0x83; 0x83; 0x83; 0x83; 0x83; 0];
  [0; 1; 0; 0; 0; 0; 0; 0; 0; 0; 0; 0; 0; 0; 0; 0; 0];
  [0; 2; 0; 0; 0; 0; 0; 0; 0; 0; 0; 0; 0; 0; 0; 0; 0];
  [0; 0; 0; 2; 0; 0; 0; 0; 3; 0; 0; 0; 0; 0; 0; 0; 0];
  [0; 0x82; 0x82; 0x82; 0x82; 0x82; 0x82; 0x82; 0x82; 0x82; 0x82; 0x82; 0x82; 0x82; 0x82; 0x82; 0];
  [0; 0; 0; 0; 0; 0; 0; 0; 0; 0; 0; 0; 0; 0; 1; 0; 0];
  [0; 0; 0; 0; 0; 0; 0; 0; 0; 0; 0; 0; 0; 0; 4; 0; 1];
  [0; 0; 0; 0; 0; 0; 0; 0; 0; 0; 0; 0; 0; 0; 0; 0; 0];
  [0; 0; 0; 4; 0; 0; 0; 0; 0; 0; 0; 0; 0; 0; 0; 0; 0];
  [0; 0; 0; 0; 0; 0; 0; 1; 0; 0; 0; 0; 0; 0; 0; 0; 1];
  [0; 0; 0; 0; 0; 0; 0; 3; 0; 0; 0; 0; 0; 0; 0; 0; 0];
  [0; 0; 0; 0; 0; 0; 0; 0; 1; 0; 0; 0; 0; 0; 0; 0; 0];
  [0; 0; 0; 0; 0; 0; 0; 0; 2; 0; 0; 0; 0; 0; 0; 0; 2];
  [0; 0; 0; 0; 0; 0; 0; 0; 0; 0; 0; 1; 0; 0; 0; 0; 0];
  [0; 0; 0; 0; 0; 0; 0; 0; 0; 0; 2; 0; 0; 0; 0; 0; 0];
  [0; 0; 0; 0; 0; 0; 0; 0; 0; 0; 3; 0; 0; 0; 0; 0; 0];
  [0; 6; 0; 0; 0; 0; 0; 0; 0; 0; 0; 0; 0; 0; 0; 0; 0];
  [0; 0; 0; 0; 0; 0; 0; 0; 0; 0; 0; 0; 2; 0; 0; 0; 0];
  [0; 7; 0; 0; 0; 0; 0; 0; 0; 0; 0; 0; 0; 1; 0; 0; 0];
  [0; 10; 0; 0; 0; 0; 0; 0; 0; 0; 0; 0; 0; 0; 0; 0; 0];
  [0; 11; 0; 0; 0; 0; 0; 0; 0; 0; 0; 0; 0; 0; 0; 0; 0];
  [3; 0; 0; 0; 0; 0; 0; 0; 0; 0; 0; 0; 0; 0; 0; 0; 0];
  [0; 0; 0; 0; 0; 0; 0; 0; 0; 0; 0; 0; 0; 0; 0; 0; 0]].

Definition smp_peripheral_idle_table : list (action * action * Z) := [
  (SMP_SEND_APP_CBACK, SMP_SM_NO_ACTION, SMP_STATE_WAIT_APP_RSP);
  (SMP_PROC_PAIR_CMD, SMP_SEND_APP_CBACK, SMP_STATE_WAIT_APP_RSP);
  (SMP_CREATE_PRIVATE_KEY, SMP_SM_NO_ACTION, SMP_STATE_CREATE_LOCAL_SEC_CONN_OOB_DATA)].

Definition smp_peripheral_wait_for_app_response_table : list (action * action * Z) := [
  (SMP_PROC_IO_RSP, SMP_SM_NO_ACTION, SMP_STATE_PAIR_REQ_RSP);
  (SMP_PROC_SEC_GRANT, SMP_SEND_APP_CBACK, SMP_STATE_WAIT_APP_RSP);
  (SMP_PROC_SL_KEY, SMP_SM_NO_ACTION, SMP_STATE_WAIT_APP_RSP);
  (SMP_PROC_CONFIRM, SMP_SM_NO_ACTION, SMP_STATE_CONFIRM);
  (SMP_PROCESS_DHKEY_CHECK, SMP_SM_NO_ACTION, SMP_STATE_WAIT_APP_RSP);
  (SMP_MOVE_TO_SEC_CONN_PHASE2, SMP_SM_NO_ACTION, SMP_STATE_SEC_CONN_PHS2_START);
  (SMP_START_PASSKEY_VERIFICATION, SMP_SM_NO_ACTION, SMP_STATE_SEC_CONN_PHS1_START);
  (SMP_PROCESS_PAIRING_COMMITMENT, SMP_SM_NO_ACTION, SMP_STATE_WAIT_APP_RSP);
  (SMP_PROCESS_KEYPRESS_NOTIFICATION, SMP_SEND_APP_CBACK, SMP_STATE_WAIT_APP_RSP);
  (SMP_SEND_KEYPRESS_NOTIFICATION, SMP_SM_NO_ACTION, SMP_STATE_WAIT_APP_RSP);
  (SMP_SEND_PAIR_RSP, SMP_SM_NO_ACTION, SMP_STATE_PAIR_REQ_RSP)].

Definition smp_peripheral_sec_request_table : list (action * action * Z) := [
  (SMP_PROC_PAIR_CMD, SMP_SM_NO_ACTION, SMP_STATE_PAIR_REQ_RSP);
  (SMP_ENC_CMPL, SMP_SM_NO_ACTION, SMP_STATE_PAIR_REQ_RSP)].

Definition smp_peripheral_pair_request_response_table : list (action * action * Z) := [
  (SMP_PROC_CONFIRM, SMP_SM_NO_ACTION, SMP_STATE_CONFIRM);
  (SMP_SEND_APP_CBACK, SMP_SM_NO_ACTION, SMP_STATE_WAIT_APP_RSP);
  (SMP_PROC_SL_KEY, SMP_SM_NO_ACTION, SMP_STATE_PAIR_REQ_RSP);
  (SMP_CREATE_PRIVATE_KEY, SMP_SM_NO_ACTION, SMP_STATE_PUBLIC_KEY_EXCH);
  (SMP_PROCESS_PAIR_PUBLIC_KEY, SMP_SM_NO_ACTION, SMP_STATE_PAIR_REQ_RSP)].

Definition smp_peripheral_wait_confirm_table : list (action * action * Z) := [
  (SMP_PROC_CONFIRM, SMP_SEND_CONFIRM, SMP_STATE_CONFIRM);
  (SMP_PROC_SL_KEY, SMP_SM_NO_ACTION, SMP_STATE_WAIT_CONFIRM)].

Definition smp_peripheral_confirm_table : list (action * action * Z) := [
  (SMP_PROC_RAND, SMP_GENERATE_COMPARE, SMP_STATE_RAND);
  (SMP_PROC_SL_KEY, SMP_SM_NO_ACTION, SMP_STATE_CONFIRM)].

Definition smp_peripheral_rand_table : list (action * action * Z) := [
  (SMP_PROC_COMPARE, SMP_SM_NO_ACTION, SMP_STATE_RAND);
  (SMP_SEND_RAND, SMP_SM_NO_ACTION, SMP_STATE_ENCRYPTION_PENDING)].

Definition smp_peripheral_public_key_exch_table : list (action * action * Z) := [
  (SMP_WAIT_FOR_BOTH_PUBLIC_KEYS, SMP_SM_NO_ACTION, SMP_STATE_PUBLIC_KEY_EXCH);
  (SMP_PROCESS_PAIR_PUBLIC_KEY, SMP_SM_NO_ACTION, SMP_STATE_PUBLIC_KEY_EXCH);
  (SMP_HAVE_BOTH_PUBLIC_KEYS, SMP_SM_NO_ACTION, SMP_STATE_SEC_CONN_PHS1_START)].

Definition smp_peripheral_sec_conn_phs1_start_table : list (action * action * Z) := [
  (SMP_START_SEC_CONN_PHASE1, SMP_SM_NO_ACTION, SMP_STATE_SEC_CONN_PHS1_START);
  (SMP_PROCESS_LOCAL_NONCE, SMP_SM_NO_ACTION, SMP_STATE_WAIT_COMMITMENT);
  (SMP_SEND_APP_CBACK, SMP_SM_NO_ACTION, SMP_STATE_WAIT_APP_RSP);
  (SMP_START_PASSKEY_VERIFICATION, SMP_SM_NO_ACTION, SMP_STATE_SEC_CONN_PHS1_START);
  (SMP_PROCESS_KEYPRESS_NOTIFICATION, SMP_SEND_APP_CBACK, SMP_STATE_SEC_CONN_PHS1_START);
  (SMP_PROCESS_PAIRING_COMMITMENT, SMP_SM_NO_ACTION, SMP_STATE_SEC_CONN_PHS1_START)].

Definition smp_peripheral_wait_commitment_table : list (action * action * Z) := [
  (SMP_PROCESS_PAIRING_COMMITMENT, SMP_SEND_COMMITMENT, SMP_STATE_WAIT_NONCE);
  (SMP_PROCESS_KEYPRESS_NOTIFICATION, SMP_SEND_APP_CBACK, SMP_STATE_WAIT_COMMITMENT)].

Definition smp_peripheral_wait_nonce_table : list (action * action * Z) := [
  (SMP_PROC_RAND, SMP_PROCESS_PEER_NONCE, SMP_STATE_SEC_CONN_PHS2_START);
  (SMP_CALCULATE_NUMERIC_COMPARISON_DISPLAY_NUMBER, SMP_SM_NO_ACTION, SMP_STATE_WAIT_NONCE);
  (SMP_SEND_APP_CBACK, SMP_SM_NO_ACTION, SMP_STATE_WAIT_APP_RSP)].

Definition smp_peripheral_sec_conn_phs2_start_table : list (action * action * Z) := [
  (SMP_CALCULATE_LOCAL_DHKEY_CHECK, SMP_PH2_DHKEY_CHECKS_ARE_PRESENT, SMP_STATE_WAIT_DHK_CHECK);
  (SMP_PROCESS_DHKEY_CHECK, SMP_SM_NO_ACTION, SMP_STATE_SEC_CONN_PHS2_START)].

Definition smp_peripheral_wait_dhk_check_table : list (action * action * Z) := [
  (SMP_PROCESS_DHKEY_CHECK, SMP_CALCULATE_PEER_DHKEY_CHECK, SMP_STATE_DHK_CHECK);
  (SMP_CALCULATE_PEER_DHKEY_CHECK, SMP_SM_NO_ACTION, SMP_STATE_DHK_CHECK)].

Definition smp_peripheral_dhk_check_table : list (action * action * Z) := [
  (SMP_MATCH_DHKEY_CHECKS, SMP_SM_NO_ACTION, SMP_STATE_DHK_CHECK);
  (SMP_SEND_DHKEY_CHECK, SMP_SM_NO_ACTION, SMP_STATE_ENCRYPTION_PENDING)].

Definition smp_peripheral_enc_pending_table : list (action * action * Z) := [
  (SMP_GENERATE_STK, SMP_SM_NO_ACTION, SMP_STATE_ENCRYPTION_PENDING);
  (SMP_SEND_LTK_REPLY, SMP_SM_NO_ACTION, SMP_STATE_ENCRYPTION_PENDING);
  (SMP_CHECK_AUTH_REQ, SMP_SM_NO_ACTION, SMP_STATE_ENCRYPTION_PENDING);
  (SMP_KEY_DISTRIBUTE, SMP_SM_NO_ACTION, SMP_STATE_BOND_PENDING)].

Definition smp_peripheral_bond_pending_table : list (action * action * Z) := [
  (SMP_SEND_ENC_INFO, SMP_SM_NO_ACTION, SMP_STATE_BOND_PENDING);
  (SMP_PROC_SRK_INFO, SMP_SM_NO_ACTION, SMP_STATE_BOND_PENDING);
  (SMP_PROC_ENC_INFO, SMP_SM_NO_ACTION, SMP_STATE_BOND_PENDING);
  (SMP_PROC_ID_INFO, SMP_SM_NO_ACTION, SMP_STATE_BOND_PENDING);
  (SMP_PROC_CENTRAL_ID, SMP_SM_NO_ACTION, SMP_STATE_BOND_PENDING);
  (SMP_PROC_ID_ADDR, SMP_SM_NO_ACTION, SMP_STATE_BOND_PENDING);
  (SMP_SIRK_VERIFY, SMP_SM_NO_ACTION, SMP_STATE_BOND_PENDING)].

Definition smp_peripheral_create_local_sec_conn_oob_data : list (action * action * Z) := [
  (SMP_SET_LOCAL_OOB_KEYS, SMP_SM_NO_ACTION, SMP_STATE_CREATE_LOCAL_SEC_CONN_OOB_DATA);
  (SMP_SET_LOCAL_OOB_RAND_COMMITMENT, SMP_SM_NO_ACTION, SMP_STATE_IDLE)].

Definition smp_state_table : list (option (list (action * action * Z)) * option (list (action * action * Z))) := [
  (Some smp_central_idle_table, Some smp_peripheral_idle_table);
  (Some smp_central_wait_for_app_response_table, Some smp_peripheral_wait_for_app_response_table);
  (None, Some smp_peripheral_sec_request_table);
  (Some smp_central_pair_request_response_table, Some smp_peripheral_pair_request_response_table);
  (Some smp_central_wait_for_confirm_table, Some smp_peripheral_wait_confirm_table);
  (Some smp_central_confirm_table, Some smp_peripheral_confirm_table);
  (Some smp_central_rand_table, Some smp_peripheral_rand_table);
  (Some smp_central_public_key_exchange_table, Some smp_peripheral_public_key_exch_table);
  (Some smp_central_sec_conn_phs1_start_table, Some smp_peripheral_sec_conn_phs1_start_table);
  (Some smp_central_wait_commitment_table, Some smp_peripheral_wait_commitment_table);
  (Some smp_central_wait_nonce_table, Some smp_peripheral_wait_nonce_table);
  (Some smp_central_sec_conn_phs2_start_table, Some smp_peripheral_sec_conn_phs2_start_table);
  (Some smp_central_wait_dhk_check_table, Some smp_peripheral_wait_dhk_check_table);
  (Some smp_central_dhk_check_table, Some smp_peripheral_dhk_check_table);
  (Some smp_central_enc_pending_table, Some smp_peripheral_enc_pending_table);
  (Some smp_central_bond_pending_table, Some smp_peripheral_bond_pending_table);
  (Some smp_central_create_local_sec_conn_oob_data, Some smp_peripheral_create_local_sec_conn_oob_data)].

Definition smp_entry_table : list (list (list Z)) := [smp_central_entry_map; smp_peripheral_entry_map].

(** The actions of [smp_br_main.cc] *)
Inductive br_action :=
| BR_SMP_SEND_PAIR_REQ | SMP_BR_SEND_PAIR_RSP | BR_SMP_SEND_PAIR_FAIL | BR_SMP_SEND_ID_INFO |
SMP_BR_PROC_PAIR_CMD | BR_SMP_PROC_PAIR_FAIL | BR_SMP_PROC_ID_INFO | BR_SMP_PROC_ID_ADDR |
BR_SMP_PROC_SRK_INFO | SMP_BR_PROC_SEC_GRANT | SMP_BR_PROC_SL_KEYS_RSP |
SMP_BR_KEY_DISTRIBUTION | SMP_BR_PAIRING_COMPLETE | BR_SMP_SEND_APP_CBACK |
SMP_BR_CHECK_AUTH_REQ | BR_SMP_PAIR_TERMINATE | BR_SMP_IDLE_TERMINATE | SMP_BR_SM_NO_ACTION.

Definition smp_br_all_table : list (br_action * br_action * Z) := [
  (BR_SMP_PROC_PAIR_FAIL, SMP_BR_PAIRING_COMPLETE, SMP_BR_STATE_IDLE);
  (BR_SMP_SEND_PAIR_FAIL, SMP_BR_PAIRING_COMPLETE, SMP_BR_STATE_IDLE);
  (BR_SMP_PAIR_TERMINATE, SMP_BR_SM_NO_ACTION, SMP_BR_STATE_IDLE)].

Definition smp_br_central_entry_map : list (list Z) := [
  [0; 0; 0; 0];
  [0; 0; 1; 0];
  [0; 0; 0; 0];
  [0; 0; 0; 0];
  [0; 0x81; 0x81; 0];
  [0; 0; 0; 0];
  [0; 0; 0; 0];
  [0; 0; 0; 1];
  [0; 0; 0; 2];
  [0; 0; 0; 3];
  [0; 0; 0; 0];
  [0; 0; 0; 0];
  [0; 0; 0; 0];
  [0; 0; 0; 0];
  [0; 0; 0; 0];
  [0; 0; 0; 0];
  [1; 0; 0; 0];
  [2; 0x83; 0x83; 0x83];
  [0; 1; 0; 0];
  [0; 0; 0; 0];
  [0; 0; 0; 0];
  [0; 0x82; 0x82; 0x82];
  [0; 0; 0; 0];
  [0; 0; 2; 0];
  [0; 0; 0; 0]].

Definition smp_br_central_idle_table : list (br_action * br_action * Z) := [
  (BR_SMP_SEND_APP_CBACK, SMP_BR_SM_NO_ACTION, SMP_BR_STATE_WAIT_APP_RSP);
  (BR_SMP_IDLE_TERMINATE, SMP_BR_SM_NO_ACTION, SMP_BR_STATE_IDLE)].

Definition smp_br_central_wait_appln_response_table : list (br_action * br_action * Z) := [
  (BR_SMP_SEND_PAIR_REQ, SMP_BR_SM_NO_ACTION, SMP_BR_STATE_PAIR_REQ_RSP)].

Definition smp_br_central_pair_request_response_table : list (br_action * br_action * Z) := [
  (SMP_BR_PROC_PAIR_CMD, SMP_BR_CHECK_AUTH_REQ, SMP_BR_STATE_PAIR_REQ_RSP);
  (SMP_BR_SM_NO_ACTION, SMP_BR_SM_NO_ACTION, SMP_BR_STATE_BOND_PENDING)].

Definition smp_br_central_bond_pending_table : list (br_action * br_action * Z) := [
  (BR_SMP_PROC_ID_INFO, SMP_BR_SM_NO_ACTION, SMP_BR_STATE_BOND_PENDING);
  (BR_SMP_PROC_ID_ADDR, SMP_BR_SM_NO_ACTION, SMP_BR_STATE_BOND_PENDING);
  (BR_SMP_PROC_SRK_INFO, SMP_BR_SM_NO_ACTION, SMP_BR_STATE_BOND_PENDING)].

Definition smp_br_peripheral_entry_map : list (list Z) := [
  [1; 0; 0; 0];
  [0; 0; 0; 0];
  [0; 0; 0; 0];
  [0; 0; 0; 0];
  [0; 0x81; 0x81; 0x81];
  [0; 0; 0; 0];
  [0; 0; 0; 0];
  [0; 0; 0; 1];
  [0; 0; 0; 2];
  [0; 0; 0; 3];
  [0; 0; 0; 0];
  [0; 0; 0; 0];
  [0; 0; 0; 0];
  [0; 0; 0; 0];
  [0; 0; 0; 0];
  [0; 0; 0; 0];
  [0; 0; 0; 0];
  [0; 0x83; 0x83; 0x83];
  [0; 2; 0; 0];
  [0; 1; 0; 0];
  [0; 0; 0; 0];
  [0; 0x82; 0x82; 0x82];
  [0; 0; 0; 0];
  [0; 3; 0; 0];
  [0; 0; 0; 0]].

Definition smp_br_peripheral_idle_table : list (br_action * br_action * Z) := [
  (SMP_BR_PROC_PAIR_CMD, BR_SMP_SEND_APP_CBACK, SMP_BR_STATE_WAIT_APP_RSP)].

Definition smp_br_peripheral_wait_appln_response_table : list (br_action * br_action * Z) := [
  (SMP_BR_PROC_SEC_GRANT, BR_SMP_SEND_APP_CBACK, SMP_BR_STATE_WAIT_APP_RSP);
  (SMP_BR_PROC_SL_KEYS_RSP, SMP_BR_CHECK_AUTH_REQ, SMP_BR_STATE_WAIT_APP_RSP);
  (SMP_BR_KEY_DISTRIBUTION, SMP_BR_SM_NO_ACTION, SMP_BR_STATE_BOND_PENDING)].

Definition smp_br_peripheral_bond_pending_table : list (br_action * br_action * Z) := [
  (BR_SMP_PROC_ID_INFO, SMP_BR_SM_NO_ACTION, SMP_BR_STATE_BOND_PENDING);
  (BR_SMP_PROC_ID_ADDR, SMP_BR_SM_NO_ACTION, SMP_BR_STATE_BOND_PENDING);
  (BR_SMP_PROC_SRK_INFO, SMP_BR_SM_NO_ACTION, SMP_BR_STATE_BOND_PENDING)].

Definition smp_br_state_table : list (option (list (br_action * br_action * Z)) * option (list (br_action * br_action * Z))) := [
  (Some smp_br_central_idle_table, Some smp_br_peripheral_idle_table);
  (Some smp_br_central_wait_appln_response_table, Some smp_br_peripheral_wait_appln_response_table);
  (Some smp_br_central_pair_request_response_table, None);
  (Some smp_br_central_bond_pending_table, Some smp_br_peripheral_bond_pending_table)].

Definition smp_br_entry_table : list (list (list Z)) := [smp_br_central_entry_map; smp_br_peripheral_entry_map].

Definition smp_association_table : list (list (list Z)) := [
  [
   [SMP_MODEL_ENCRYPTION_ONLY; SMP_MODEL_ENCRYPTION_ONLY; SMP_MODEL_PASSKEY; SMP_MODEL_ENCRYPTION_ONLY; SMP_MODEL_PASSKEY];
   [SMP_MODEL_ENCRYPTION_ONLY; SMP_MODEL_ENCRYPTION_ONLY; SMP_MODEL_PASSKEY; SMP_MODEL_ENCRYPTION_ONLY; SMP_MODEL_PASSKEY];
   [SMP_MODEL_KEY_NOTIF; SMP_MODEL_KEY_NOTIF; SMP_MODEL_PASSKEY; SMP_MODEL_ENCRYPTION_ONLY; SMP_MODEL_KEY_NOTIF];
   [SMP_MODEL_ENCRYPTION_ONLY; SMP_MODEL_ENCRYPTION_ONLY; SMP_MODEL_ENCRYPTION_ONLY; SMP_MODEL_ENCRYPTION_ONLY; SMP_MODEL_ENCRYPTION_ONLY];
   [SMP_MODEL_KEY_NOTIF; SMP_MODEL_KEY_NOTIF; SMP_MODEL_PASSKEY; SMP_MODEL_ENCRYPTION_ONLY; SMP_MODEL_KEY_NOTIF]];
  [
   [SMP_MODEL_ENCRYPTION_ONLY; SMP_MODEL_ENCRYPTION_ONLY; SMP_MODEL_KEY_NOTIF; SMP_MODEL_ENCRYPTION_ONLY; SMP_MODEL_KEY_NOTIF];
   [SMP_MODEL_ENCRYPTION_ONLY; SMP_MODEL_ENCRYPTION_ONLY; SMP_MODEL_KEY_NOTIF; SMP_MODEL_ENCRYPTION_ONLY; SMP_MODEL_KEY_NOTIF];
   [SMP_MODEL_PASSKEY; SMP_MODEL_PASSKEY; SMP_MODEL_PASSKEY; SMP_MODEL_ENCRYPTION_ONLY; SMP_MODEL_PASSKEY];
   [SMP_MODEL_ENCRYPTION_ONLY; SMP_MODEL_ENCRYPTION_ONLY; SMP_MODEL_ENCRYPTION_ONLY; SMP_MODEL_ENCRYPTION_ONLY; SMP_MODEL_ENCRYPTION_ONLY];
   [SMP_MODEL_PASSKEY; SMP_MODEL_PASSKEY; SMP_MODEL_KEY_NOTIF; SMP_MODEL_ENCRYPTION_ONLY; SMP_MODEL_PASSKEY]]].

Definition smp_association_table_sc : list (list (list Z)) := [
  [
   [SMP_MODEL_SEC_CONN_JUSTWORKS; SMP_MODEL_SEC_CONN_JUSTWORKS; SMP_MODEL_SEC_CONN_PASSKEY_ENT; SMP_MODEL_SEC_CONN_JUSTWORKS; SMP_MODEL_SEC_CONN_PASSKEY_ENT];
   [SMP_MODEL_SEC_CONN_JUSTWORKS; SMP_MODEL_SEC_CONN_NUM_COMP; SMP_MODEL_SEC_CONN_PASSKEY_ENT; SMP_MODEL_SEC_CONN_JUSTWORKS; SMP_MODEL_SEC_CONN_NUM_COMP];
   [SMP_MODEL_SEC_CONN_PASSKEY_DISP; SMP_MODEL_SEC_CONN_PASSKEY_DISP; SMP_MODEL_SEC_CONN_PASSKEY_ENT; SMP_MODEL_SEC_CONN_JUSTWORKS; SMP_MODEL_SEC_CONN_PASSKEY_DISP];
   [SMP_MODEL_SEC_CONN_JUSTWORKS; SMP_MODEL_SEC_CONN_JUSTWORKS; SMP_MODEL_SEC_CONN_JUSTWORKS; SMP_MODEL_SEC_CONN_JUSTWORKS; SMP_MODEL_SEC_CONN_JUSTWORKS];
   [SMP_MODEL_SEC_CONN_PASSKEY_DISP; SMP_MODEL_SEC_CONN_NUM_COMP; SMP_MODEL_SEC_CONN_PASSKEY_ENT; SMP_MODEL_SEC_CONN_JUSTWORKS; SMP_MODEL_SEC_CONN_NUM_COMP]];
  [
   [SMP_MODEL_SEC_CONN_JUSTWORKS; SMP_MODEL_SEC_CONN_JUSTWORKS; SMP_MODEL_SEC_CONN_PASSKEY_DISP; SMP_MODEL_SEC_CONN_JUSTWORKS; SMP_MODEL_SEC_CONN_PASSKEY_DISP];
   [SMP_MODEL_SEC_CONN_JUSTWORKS; SMP_MODEL_SEC_CONN_NUM_COMP; SMP_MODEL_SEC_CONN_PASSKEY_DISP; SMP_MODEL_SEC_CONN_JUSTWORKS; SMP_MODEL_SEC_CONN_NUM_COMP];
   [SMP_MODEL_SEC_CONN_PASSKEY_ENT; SMP_MODEL_SEC_CONN_PASSKEY_ENT; SMP_MODEL_SEC_CONN_PASSKEY_ENT; SMP_MODEL_SEC_CONN_JUSTWORKS; SMP_MODEL_SEC_CONN_PASSKEY_ENT];
   [SMP_MODEL_SEC_CONN_JUSTWORKS; SMP_MODEL_SEC_CONN_JUSTWORKS; SMP_MODEL_SEC_CONN_JUSTWORKS; SMP_MODEL_SEC_CONN_JUSTWORKS; SMP_MODEL_SEC_CONN_JUSTWORKS];
   [SMP_MODEL_SEC_CONN_PASSKEY_ENT; SMP_MODEL_SEC_CONN_NUM_COMP; SMP_MODEL_SEC_CONN_PASSKEY_DISP; SMP_MODEL_SEC_CONN_JUSTWORKS; SMP_MODEL_SEC_CONN_NUM_COMP]]].
