(* ===== verification/SmpMonad.v ===== *)
(** * The machine the Security Manager runs on

    SMP is one thread that owns [smp_cb].  A function of the code is a computation
    [M A]: it reads and writes the control block, appends the calls it makes to
    L2CAP, the security database, the controller and the application to a trace,
    and stops with a [fault] where the C++ program would dereference a null or a
    wild pointer or index outside an array.  [OutOfFuel] marks a recursion bound of
    the model that was too small.

    [send_ble_rand] asks the controller for a random number and names the closure
    that is to run with it; the closures wait in [rands], oldest first, until the
    controller answers.  [Env] is what SMP asks of the rest of the stack: an answer
    may depend on the whole history of calls.  [Crypto] is the interface of the
    cryptographic toolbox and of the P-256 code.  The two state machines call the
    actions and the actions call the machines: [Machines] is how an action sees
    them. *)
From S2P Require Import Prelude SmpDefs.

Inductive fault := NullDeref | WildPointer | OutOfBounds | AssertFailed | OutOfFuel.

(** ** Calls to other subsystems *)
Inductive output :=
| L2CA_SendFixedChnlData (cid : Z) (bda : RawAddress) (len : Z) (octets : list Z)
| L2CA_ConnectFixedChnl (cid : Z) (bda : RawAddress)
| L2CA_RemoveFixedChnl (cid : Z) (bda : RawAddress)
| L2CA_RegisterFixedChannel (cid : Z)
| L2CA_SetIdleTimeoutByBdAddr (bda : RawAddress) (tout transport : Z)
| btm_sec_clear_ble_keys (bda : RawAddress)
| btm_sec_save_le_key (bda : RawAddress) (key_type : Z) (value : option tBTM_LE_KEY_VALUE)
    (pass_to_application : bool)
| btm_ble_ltk_request_reply (bda : RawAddress) (use_stk : bool) (stk : list Z)
| btm_ble_start_encrypt (bda : RawAddress) (use_stk : bool) (stk : option (list Z))
| btm_ble_link_sec_check (bda : RawAddress) (auth_req : Z)
| btm_ble_update_sec_key_size (bda : RawAddress) (enc_key_size : Z)
| btm_sec_link_key_notification (bda : RawAddress) (link_key : list Z) (key_type : Z)
| btm_dev_consolidate_existing_connections (bda : RawAddress)
| set_device_type_ble (bda : RawAddress)
| clear_new_encryption_key_is_p256 (bda : RawAddress)
| smp_callback (cb evt : Z) (bda : RawAddress) (data : tSMP_EVT_DATA)
| log_smp_pairing_event (bda : RawAddress) (cmd : Z) (outgoing : bool) (reason : Z)
| log_le_pairing_fail (bda : RawAddress) (reason : Z) (outgoing : bool)
| LeRand.

(** ** What the rest of the stack answers *)
Class Env := mkEnv {
  (** [L2CA_SendFixedChnlData] did not return [FAILED] *)
  env_SendFixedChnlData : list output → bool;
  env_ConnectFixedChnl : list output → RawAddress → bool;
  (** [L2CA_GetBleConnRole], a [tHCI_ROLE] *)
  env_GetBleConnRole : list output → RawAddress → Z;
  (** what the application's callback returns, and what it leaves in [io_req] *)
  env_callback : list output → Z → RawAddress → tSMP_EVT_DATA → Z * tSMP_IO_REQ;
  (** [BTM_ReadRemoteVersion], 0 when it is not known *)
  env_lmp_version : list output → RawAddress → Z;
  (** [interop_match_addr] for [INTEROP_DISABLE_LE_SECURE_CONNECTIONS] *)
  env_disable_le_sc : RawAddress → bool;
  env_find_dev : list output → RawAddress → option tBTM_SEC_DEV_REC;
  (** [BTM_ReadConnectionAddr]: the local address and its type *)
  env_ReadConnectionAddr : list output → RawAddress → RawAddress * Z;
  (** [BTM_ReadRemoteConnectionAddr]: the peer's address and its type, if known *)
  env_ReadRemoteConnectionAddr : list output → RawAddress → option (RawAddress * Z);
  (** [btm_get_local_div] *)
  env_local_div : list output → RawAddress → bool * Z;
  env_DeviceEncRoot : list Z;
  env_DeviceIDRoot : list Z;
  env_DeviceDHK : list Z;
  env_MacAddress : RawAddress;
  env_SupportsSecureConnections : bool;
  (** [BTM_SecGetDeviceLinkKeyType] *)
  env_LinkKeyType : list output → RawAddress → Z;
  env_link_sec_check : list output → RawAddress → Z → Z;
  env_start_encrypt : list output → RawAddress → Z;
  env_isAndroidTVDevice : bool;
  (** [get_pts_smp_failure_case] *)
  env_pts_smp_failure_case : Z;
  (** build flags *)
  env_l2cap_tx_complete_cb_info : bool;
  env_save_peer_csrk_after_ltk_gen : bool;
  env_remove_dup_pairing_response : bool;
  env_state_machine_stuck_fix : bool;
  (** octets nothing has set: the stack, and the address a pointer holds *)
  env_garbage : list output → Z → Z;
}.

(** ** The cryptographic toolbox and P-256, as SMP calls them *)
Class Crypto := mkCrypto {
  aes_128 : list Z → list Z → list Z;
  f4 : list Z → list Z → list Z → Z → list Z;
  f5 : list Z → list Z → list Z → list Z → list Z → list Z * list Z;
  f6 : list Z → list Z → list Z → list Z → list Z → list Z → list Z → list Z;
  g2 : list Z → list Z → list Z → list Z → Z;
  ltk_to_link_key : list Z → bool → list Z;
  link_key_to_ltk : list Z → bool → list Z;
  (** the public key of a private key; [None] if the code leaves an array *)
  ECC_public_key : list Z → option (list Z * list Z);
  (** the multiple of a point given by its coordinates *)
  ECC_PointMult : list Z * list Z → list Z → option (list Z * list Z);
  ECC_ValidatePoint : list Z * list Z → option bool;
}.

(** A private key: the P-256 code leaves its array of digits for 2^256 - 1. *)
Definition private_key_ok (k : list Z) : Prop := octs 32 k ∧ k ≠ replicate 32 255.

(** What SMP relies on. *)
Class CryptoLaws `{Crypto} : Prop := {
  aes_128_octs k p : octs 16 k → octs 16 p → octs 16 (aes_128 k p);
  f4_octs u v x z : octs 32 u → octs 32 v → octs 16 x → is_u8 z → octs 16 (f4 u v x z);
  f5_octs w n1 n2 a1 a2 : octs 32 w → octs 16 n1 → octs 16 n2 → octs 7 a1 → octs 7 a2 →
    octs 16 (f5 w n1 n2 a1 a2).1 ∧ octs 16 (f5 w n1 n2 a1 a2).2;
  f6_octs w n1 n2 r io a1 a2 : octs 16 w → octs 16 n1 → octs 16 n2 → octs 16 r → octs 3 io →
    octs 7 a1 → octs 7 a2 → octs 16 (f6 w n1 n2 r io a1 a2);
  g2_range u v x y : 0 <= g2 u v x y <= BTM_MAX_PASSKEY_VAL;
  ltk_to_link_key_octs k h : octs 16 k → octs 16 (ltk_to_link_key k h);
  link_key_to_ltk_octs k h : octs 16 k → octs 16 (link_key_to_ltk k h);
  ECC_public_key_total k : private_key_ok k →
    ∃ x y, ECC_public_key k = Some (x, y) ∧ octs 32 x ∧ octs 32 y;
  ECC_PointMult_total x y k : octs 32 x → octs 32 y → private_key_ok k →
    ∃ x' y', ECC_PointMult (x, y) k = Some (x', y') ∧ octs 32 x' ∧ octs 32 y';
  ECC_public_key_overflow : ECC_public_key (replicate 32 255) = None;
  ECC_PointMult_overflow p : ECC_PointMult p (replicate 32 255) = None;
  ECC_ValidatePoint_total x y : octs 32 x → octs 32 y → ∃ b, ECC_ValidatePoint (x, y) = Some b;
}.

(** The closures that wait for a random number, named after their place in
    [smp_keys.cc]. *)
Inductive rand_callback :=
| rand_passkey
| rand_csrk_div
| rand_confirm_0 | rand_confirm_1
| rand_ltk_div
| rand_y
| rand_private_key (k : nat)
| rand_nonce_0 | rand_nonce_1.

Record world := mkWorld {
  smp_cb : tSMP_CB;
  saved_local_oob_data : tSMP_LOC_OOB_DATA;
  rands : list rand_callback;
  trace : list output;
}.
#[export] Instance eta_world : Eta world := fun r =>
  mkWorld (smp_cb r) (saved_local_oob_data r) (rands r) (trace r).

(** A value, or a fault and the state in which it happened. *)
Inductive res (A : Type) := Ok (a : A) | Fault (f : fault) (w : world).
Arguments Ok {A} a.
Arguments Fault {A} f w.

Definition M (A : Type) : Type := world → res (A * world).

#[export] Instance M_ret : MRet M := fun A a w => Ok (a, w).
#[export] Instance M_bind : MBind M := fun A B f m w =>
  match m w with
  | Ok (a, w') => f a w'
  | Fault e w' => Fault e w'
  end.

Definition fail {A} (e : fault) : M A := fun w => Fault e w.
Definition get : M tSMP_CB := fun w => Ok (smp_cb w, w).
Definition gets {A} (f : tSMP_CB → A) : M A := fun w => Ok (f (smp_cb w), w).
Definition upd (f : tSMP_CB → tSMP_CB) : M unit := fun w => Ok ((), w <| smp_cb ::= f |>).
Definition emit (o : output) : M unit := fun w => Ok ((), w <| trace ::= fun t => t ++ [o] |>).
Definition history : M (list output) := fun w => Ok (trace w, w).

Definition of_option {A} (e : fault) (o : option A) : M A :=
  match o with
  | Some a => mret a
  | None => fail e
  end.

Definition when (b : bool) (m : M unit) : M unit := if b then m else mret ().
Definition ignore {A} (m : M A) : M unit := _ ← m; mret ().

Definition wait_rand (k : rand_callback) : M unit := fun w =>
  Ok ((), w <| rands ::= fun l => l ++ [k] |>).
Definition get_saved_oob : M tSMP_LOC_OOB_DATA := fun w => Ok (saved_local_oob_data w, w).
Definition set_saved_oob (d : tSMP_LOC_OOB_DATA) : M unit := fun w =>
  Ok ((), w <| saved_local_oob_data := d |>).

Definition send_ble_rand (k : rand_callback) : M unit := emit LeRand ;; wait_rand k.

(** The functions that the actions and the key distribution call again. *)
Class Machines := mkMachines {
  smp_sm_event : Z → tSMP_INT_DATA → M bool;
  smp_br_state_machine_event : Z → tSMP_INT_DATA → M unit;
  smp_key_distribution : M unit;
  smp_br_select_next_key : M unit;
}.

(** ** Alarms ([osi/src/alarm.cc]) *)
Definition alarm_set_on_mloop (a : alarm_t) (ms : Z) : M alarm_t :=
  match a with
  | alarm_null => fail AssertFailed
  | _ => mret (alarm_scheduled ms)
  end.

Definition alarm_cancel (a : alarm_t) : alarm_t :=
  match a with
  | alarm_null => alarm_null
  | _ => alarm_idle
  end.

Definition alarm_is_scheduled (a : alarm_t) : bool :=
  match a with
  | alarm_scheduled _ => true
  | _ => false
  end.

(** ** Reading the members of the union *)
Section union.
Context `{Env}.

(** [p_data->p_data] *)
Definition member_p_data (d : tSMP_INT_DATA) : M (list Z) :=
  match d with
  | NULL => fail NullDeref
  | u_p_data p => mret p
  | _ => fail WildPointer
  end.

(** [p_data->status]: the first octet of the union *)
Definition member_status (d : tSMP_INT_DATA) : M Z :=
  match d with
  | NULL => fail NullDeref
  | u_status s => mret s
  | u_key t _ => mret t
  | u_passkey k => mret (u8 k)
  | u_req_oob_type t => mret t
  | u_unset | u_p_data _ => h ← history; mret (u8 (env_garbage h 0))
  end.

(** [p_data->passkey]: the first four octets of the union *)
Definition member_passkey (d : tSMP_INT_DATA) : M Z :=
  match d with
  | NULL => fail NullDeref
  | u_passkey k => mret k
  | _ => h ← history; mret (u32 (env_garbage h 0))
  end.

(** [p_data->req_oob_type]: the first octet of the union *)
Definition member_req_oob_type (d : tSMP_INT_DATA) : M Z := member_status d.

(** [p_data->key.key_type], and the sixteen octets [p_data->key.p_data] points to *)
Definition member_key_type (d : tSMP_INT_DATA) : M Z := member_status d.

Definition member_key (d : tSMP_INT_DATA) : M (list Z) :=
  match d with
  | NULL => fail NullDeref
  | u_key _ ptr_tk => gets tk
  | u_key _ (ptr_octets l) => mret l
  | _ => fail WildPointer
  end.
End union.

(** [STREAM_TO_ARRAY]: the first [n] octets at a pointer into received data. *)
Definition stream (p : list Z) (n : nat) : M (list Z * list Z) :=
  if (n <=? length p)%nat then mret (take n p, drop n p) else fail OutOfBounds.

(** [STREAM_TO_UINT8] *)
Definition stream_u8 (p : list Z) : M (Z * list Z) :=
  match p with
  | b :: p => mret (b, p)
  | [] => fail OutOfBounds
  end.

(** [memcpy(a, l, length l)] over the start of an array. *)
Definition overwrite (a l : list Z) : list Z := l ++ drop (length l) a.
Definition overwrite_at (a : list Z) (i : nat) (l : list Z) : list Z :=
  take i a ++ overwrite (drop i a) l.

(** [UINT16_TO_STREAM], [UINT32_TO_STREAM] and the octets of a [uint64_t]. *)
Fixpoint le_octets (n : nat) (v : Z) : list Z :=
  match n with
  | O => []
  | S n => v mod 256 :: le_octets n (v / 256)
  end.

Lemma le_octets_octs n v : octs n (le_octets n v).
Proof.
  revert v. induction n as [|n IH]; intros v; cbn; [by split|].
  apply octs_cons; [unfold is_u8; apply Z.mod_pos_bound; lia|done].
Qed.

(** [BDADDR_TO_STREAM] *)
Definition bdaddr_to_stream (a : RawAddress) : list Z := rev a.
