(* ===== verification/SmpCrypto.v ===== *)
(** * The cryptography behind SMP

    The interface [Crypto] of the Security Manager, given by the toolbox
    ([CryptoToolbox]) and by the P-256 code ([P256Ecc]), whose arrays of words share
    memory with SMP's arrays of octets; and the laws SMP relies on. *)
From S2P Require Import Prelude P256Arith P256Naf P256Ecc Aes AesSpec AesKey Cmac CryptoToolbox SmpDefs SmpMonad.

(** [(uint32_t* )octets] on a little-endian machine, and back *)
Fixpoint octets_words (l : list Z) : list Z :=
  match l with
  | a :: b :: c :: d :: l => (a + Z.shiftl b 8 + Z.shiftl c 16 + Z.shiftl d 24) :: octets_words l
  | _ => []
  end.

Definition words_octets (l : list Z) : list Z := l ≫= le_octets 4.

(** The coordinates of a result, as octets. *)
Definition result_octets (r : ecc (Point * Point * list Z)) : option (list Z * list Z) :=
  match r with
  | Some ((q, _, _), _) => Some (words_octets (pt_x q), words_octets (pt_y q))
  | None => None
  end.

(** A [Point] that was given two coordinates; its third holds what memory held. *)
Definition point_of (z : list Z) (p : list Z * list Z) : Point :=
  mkPoint (octets_words p.1) (octets_words p.2) z.

Definition toolbox (m : memory) (z : list Z) : Crypto := mkCrypto
  (Cmac.aes_128 m) (CryptoToolbox.f4 m) (CryptoToolbox.f5 m) (CryptoToolbox.f6 m) (CryptoToolbox.g2 m)
  (CryptoToolbox.ltk_to_link_key m) (CryptoToolbox.link_key_to_ltk m)
  (fun k => result_octets (ECC_PointMult_Bin_NAF (ec_G p_256_init_curve) (octets_words k)))
  (fun p k => result_octets (ECC_PointMult_Bin_NAF (point_of z p) (octets_words k)))
  (fun p => fst <$> P256Ecc.ECC_ValidatePoint (point_of z p)).

(** ** Octets and words *)
Lemma octs_S n l : octs (S n) l → ∃ a l', l = a :: l' ∧ is_u8 a ∧ octs n l'.
Proof.
  intros [Hl Hu]. destruct l as [|a l]; [done|]. apply Forall_cons in Hu as [Ha Hu].
  exists a, l. split; [done|]. split; [done|]. split; [by injection Hl|done].
Qed.

Lemma octets_words_spec n l : octs (4 * n) l →
  words n (octets_words l) ∧ val (octets_words l) = le_number l.
Proof.
  revert l. induction n as [|n IH]; intros l Hl.
  - destruct Hl as [Hl _]. by destruct l.
  - replace (4 * S n)%nat with (S (S (S (S (4 * n))))) in Hl by lia.
    apply octs_S in Hl as (a & l1 & -> & Ha & Hl). apply octs_S in Hl as (b & l2 & -> & Hb & Hl).
    apply octs_S in Hl as (c & l3 & -> & Hc & Hl). apply octs_S in Hl as (d & l4 & -> & Hd & Hl).
    destruct (IH _ Hl) as [[Hw Hu] Ev]. cbn [octets_words val le_number]. unfold is_u8 in *.
    rewrite !Z.shiftl_mul_pow2 by lia. split.
    + split; [cbn; lia|]. apply Forall_cons. split; [unfold is_u32; lia|done].
    + rewrite Ev. unfold W. lia.
Qed.

Lemma words_octets_octs n l : length l = n → octs (4 * n) (words_octets l).
Proof.
  revert n. induction l as [|x l IH]; intros n <-; [by split|].
  replace (4 * length (x :: l))%nat with (4 + 4 * length l)%nat by (cbn; lia).
  change (words_octets (x :: l)) with (le_octets 4 x ++ words_octets l).
  apply octs_app; [apply le_octets_octs|by apply IH].
Qed.

(** The number of an array of octets tells the array. *)
Lemma le_number_max n l : octs n l → le_number l = 256 ^ Z.of_nat n - 1 → l = replicate n 255.
Proof.
  revert l. induction n as [|n IH]; intros l Hl E.
  - destruct Hl as [Hl _]. by destruct l.
  - apply octs_S in Hl as (a & l' & -> & Ha & Hl). cbn [le_number] in E. unfold is_u8 in Ha.
    rewrite Nat2Z.inj_succ, Z.pow_succ_r in E by lia.
    assert (a = 255) as -> by (apply (f_equal (fun z => z mod 256)) in E; clear -E Ha;
      rewrite (Z.mul_comm 256 (le_number l')), Z.mod_add, Z.mod_small in E by lia;
      replace (256 * 256 ^ Z.of_nat n - 1) with (255 + (256 ^ Z.of_nat n - 1) * 256) in E by lia;
      rewrite Z.mod_add in E by lia; by rewrite E).
    cbn. f_equal. apply IH; [done|]. lia.
Qed.

Lemma private_key_words k : private_key_ok k →
  words 8 (octets_words k) ∧ val (octets_words k) ≠ (W ^ 8 - 1)%Z.
Proof.
  intros [Hk Hmax]. destruct (octets_words_spec 8 k Hk) as [Hw Ev]. split; [done|].
  rewrite Ev. intros E. apply Hmax, (le_number_max 32 k Hk). rewrite E. reflexivity.
Qed.

Lemma result_octets_total p n : point_words p → words 8 n → val n ≠ (W ^ 8 - 1)%Z →
  ∃ x y, result_octets (ECC_PointMult_Bin_NAF p n) = Some (x, y) ∧ octs 32 x ∧ octs 32 y.
Proof.
  intros Hp Hn Hmax. destruct (PointMult_total p n Hp Hn Hmax) as ([[q p'] n'] & ok & E & Hq).
  destruct Hq as ([Hx _] & [Hy _] & _). unfold result_octets. rewrite E.
  eexists _, _. split; [reflexivity|]. split; by apply (words_octets_octs 8).
Qed.

Lemma result_octets_overflow p : result_octets (ECC_PointMult_Bin_NAF p (octets_words (replicate 32 255))) = None.
Proof.
  unfold ECC_PointMult_Bin_NAF. rewrite ECC_NAF_max; [done| |by vm_compute].
  by apply (octets_words_spec 8), octs_check.
Qed.

(** ** The laws *)
Section laws.
Context (m : memory) (Hm : memory_ok m).

Lemma mac_octs n key msg : octs 16 key → octs n msg → Z.of_nat n < 65536 → octs 16 (aes_cmac_of m key msg).
Proof. intros Hk Hmsg Hn. exact (proj2 (cmac_spec m Hm n key msg Hk Hmsg Hn)). Qed.

Lemma f4_length u v x z : octs 32 u → octs 32 v → octs 16 x → is_u8 z → octs 16 (CryptoToolbox.f4 m u v x z).
Proof.
  intros Hu Hv Hx Hz. unfold CryptoToolbox.f4, kOctet32Length. rewrite !(octs_take 32) by done.
  apply (mac_octs (1 + (32 + 32))); [done|auto with rfc|lia].
Qed.

Lemma f5_length w n1 n2 a1 a2 : octs 32 w → octs 16 n1 → octs 16 n2 → octs 7 a1 → octs 7 a2 →
  octs 16 (CryptoToolbox.f5 m w n1 n2 a1 a2).1 ∧ octs 16 (CryptoToolbox.f5 m w n1 n2 a1 a2).2.
Proof.
  intros Hw Hn1 Hn2 Ha1 Ha2. unfold CryptoToolbox.f5.
  assert (octs 16 (fst (aes_cmac m f5_salt (Some w) (Z.of_nat kOctet32Length)))) as Ht.
  { pose proof (mac_octs 32 f5_salt w) as Ht. unfold aes_cmac_of in Ht. rewrite (proj1 Hw) in Ht.
    apply Ht; [by apply octs_check|done|lia]. }
  split; cbn [fst snd]; unfold calculate_mac_key_or_ltk; rewrite !(octs_take 7) by done;
    (apply (mac_octs (2 + (7 + (7 + (16 + (16 + (4 + 1))))))); [exact Ht| |lia]);
    (apply octs_app; [by apply octs_check|]); (apply octs_app; [done|]); (apply octs_app; [done|]);
    (apply octs_app; [done|]); (apply octs_app; [done|]); by apply octs_check.
Qed.

Lemma f6_length w n1 n2 r io a1 a2 : octs 16 w → octs 16 n1 → octs 16 n2 → octs 16 r → octs 3 io →
  octs 7 a1 → octs 7 a2 → octs 16 (CryptoToolbox.f6 m w n1 n2 r io a1 a2).
Proof.
  intros Hw Hn1 Hn2 Hr Hio Ha1 Ha2. unfold CryptoToolbox.f6.
  rewrite !(octs_take 7), (octs_take 3) by done.
  apply (mac_octs (7 + (7 + (3 + (16 + (16 + 16)))))); [done|auto 10 with rfc|lia].
Qed.

Lemma convert_length key use_h7 step1 step2 : octs 16 key → octs 4 step1 → octs 4 step2 →
  octs 16 (h6 m (if use_h7 : bool then h7 m (step1 ++ replicate 12 0) key else h6 m key step1) step2).
Proof.
  intros Hk H1 H2. apply (mac_octs 4); [|done|lia].
  destruct use_h7; [apply (mac_octs 16)|apply (mac_octs 4)]; try done; try lia.
  apply (octs_app 4 12); [done|apply octs_zero].
Qed.

#[export] Instance toolbox_laws z : words 8 z → @CryptoLaws (toolbox m z).
Proof.
  intros Hz. split; cbn [SmpMonad.aes_128 SmpMonad.f4 SmpMonad.f5 SmpMonad.f6 SmpMonad.g2
    SmpMonad.ltk_to_link_key SmpMonad.link_key_to_ltk ECC_public_key ECC_PointMult SmpMonad.ECC_ValidatePoint toolbox].
  - intros k p Hk Hp. exact (proj2 (e_spec m Hm k p Hk Hp)).
  - exact f4_length.
  - exact f5_length.
  - exact f6_length.
  - intros u v x y. unfold CryptoToolbox.g2, BTM_MAX_PASSKEY_VAL.
    pose proof (Z.mod_pos_bound (le32 (aes_cmac_of m x (y ++ take kOctet32Length v ++ take kOctet32Length u)))
      1000000 ltac:(lia)). cbv zeta. lia.
  - intros k h Hk. exact (convert_length k h (rev tmp1) (rev lebr) Hk (octs_check 4 (rev tmp1) eq_refl) (octs_check 4 (rev lebr) eq_refl)).
  - intros k h Hk. exact (convert_length k h (rev tmp2) (rev brle) Hk (octs_check 4 (rev tmp2) eq_refl) (octs_check 4 (rev brle) eq_refl)).
  - intros k Hk. destruct (private_key_words k Hk). apply result_octets_total; [|done|done].
    destruct G_valid as (Hx & Hy & _). split; [apply Hx|]. split; [apply Hy|].
    exact words_init.
  - intros x y k Hx Hy Hk. destruct (private_key_words k Hk). apply result_octets_total; [|done|done].
    split; [apply (octets_words_spec 8 x Hx)|]. split; [apply (octets_words_spec 8 y Hy)|exact Hz].
  - apply result_octets_overflow.
  - intros p. apply result_octets_overflow.
  - intros x y Hx Hy.
    destruct (ValidatePoint_total (point_of z (x, y))) as (r & ok & E & _);
      [apply (octets_words_spec 8 x Hx)|apply (octets_words_spec 8 y Hy)|].
    exists r. rewrite E. reflexivity.
Qed.
End laws.
