(* ===== verification/SmpUtils.v ===== *)
(** * SMP utilities

    [stack/smp/smp_utils.cc]: building and sending commands, checking received
    ones, choosing the association model, collecting what the key computations
    need, and ending a pairing. *)
From S2P Require Import Prelude SmpDefs SmpTables SmpMonad.

(** ** Command sizes *)
Definition SMP_PAIRING_REQ_SIZE : Z := 7.
Definition SMP_CONFIRM_CMD_SIZE : Z := OCTET16_LEN + 1.
Definition SMP_RAND_CMD_SIZE : Z := OCTET16_LEN + 1.
Definition SMP_ENC_INFO_SIZE : Z := OCTET16_LEN + 1.
Definition SMP_CENTRAL_ID_SIZE : Z := BT_OCTET8_LEN + 2 + 1.
Definition SMP_ID_INFO_SIZE : Z := OCTET16_LEN + 1.
Definition SMP_ID_ADDR_SIZE : Z := BD_ADDR_LEN + 1 + 1.
Definition SMP_SIGN_INFO_SIZE : Z := OCTET16_LEN + 1.
Definition SMP_PAIR_FAIL_SIZE : Z := 2.
Definition SMP_SECURITY_REQUEST_SIZE : Z := 2.
Definition SMP_PAIR_PUBL_KEY_SIZE : Z := 1 + 2 * BT_OCTET32_LEN.
Definition SMP_PAIR_COMMITM_SIZE : Z := 1 + OCTET16_LEN.
Definition SMP_PAIR_DHKEY_CHECK_SIZE : Z := 1 + OCTET16_LEN.
Definition SMP_PAIR_KEYPR_NOTIF_SIZE : Z := 1 + 1.

Definition smp_cmd_size_per_spec : list Z := [
  0; SMP_PAIRING_REQ_SIZE; SMP_PAIRING_REQ_SIZE; SMP_CONFIRM_CMD_SIZE; SMP_RAND_CMD_SIZE;
  SMP_PAIR_FAIL_SIZE; SMP_ENC_INFO_SIZE; SMP_CENTRAL_ID_SIZE; SMP_ID_INFO_SIZE;
  SMP_ID_ADDR_SIZE; SMP_SIGN_INFO_SIZE; SMP_SECURITY_REQUEST_SIZE; SMP_PAIR_PUBL_KEY_SIZE;
  SMP_PAIR_DHKEY_CHECK_SIZE; SMP_PAIR_KEYPR_NOTIF_SIZE; SMP_PAIR_COMMITM_SIZE].

(** Array indexing. *)
Definition index {A} (l : list A) (i : Z) : M A :=
  if 0 <=? i then of_option OutOfBounds (l !! Z.to_nat i) else fail OutOfBounds.

(** ** Checking received commands *)
Definition smp_parameter_unconditionally_valid : M bool := mret true.
Definition smp_parameter_unconditionally_invalid : M bool := mret false.

Definition smp_command_has_valid_fixed_length : M bool :=
  c ← get;
  n ← index smp_cmd_size_per_spec (rcvd_cmd_code c);
  mret (rcvd_cmd_len c =? n).

Definition smp_pairing_request_response_parameters_are_valid : M bool :=
  c ← get;
  let bond_flag := Z.land (peer_auth_req c) 0x03 in
  mret (if SMP_IO_CAP_MAX <=? peer_io_caps c then false
    else if negb ((peer_oob_flag c =? SMP_OOB_NONE) || (peer_oob_flag c =? SMP_OOB_PRESENT))
    then false
    else if negb ((bond_flag =? SMP_AUTH_NO_BOND) || (bond_flag =? SMP_AUTH_BOND)) then false
    else if (peer_enc_size c <? SMP_ENCR_KEY_SIZE_MIN) || (SMP_ENCR_KEY_SIZE_MAX <? peer_enc_size c)
    then false
    else true).

Definition smp_pairing_keypress_notification_is_valid : M bool :=
  k ← gets peer_keypress_notification;
  mret (negb (SMP_SC_KEY_OUT_OF_RANGE <=? k)).

Definition smp_cmd_len_is_valid : list (M bool) :=
  smp_parameter_unconditionally_invalid :: replicate 15 smp_command_has_valid_fixed_length.

Definition smp_cmd_param_ranges_are_valid : list (M bool) :=
  [smp_parameter_unconditionally_invalid;
   smp_pairing_request_response_parameters_are_valid;
   smp_pairing_request_response_parameters_are_valid] ++
  replicate 11 smp_parameter_unconditionally_valid ++
  [smp_pairing_keypress_notification_is_valid; smp_parameter_unconditionally_valid].

Definition reserved_code (cmd_code : Z) : bool :=
  (SMP_OPCODE_MAX + 1 <? cmd_code) || (cmd_code <? SMP_OPCODE_MIN).

Definition smp_command_has_invalid_length : M bool :=
  cmd_code ← gets rcvd_cmd_code;
  if reserved_code cmd_code then mret true else
  valid ← smp_command_has_valid_fixed_length;
  mret (negb valid).

Definition smp_command_has_invalid_parameters : M bool :=
  cmd_code ← gets rcvd_cmd_code;
  if reserved_code cmd_code then mret true else
  len_is_valid ← index smp_cmd_len_is_valid cmd_code;
  ok ← len_is_valid;
  if negb ok then mret true else
  ranges_are_valid ← index smp_cmd_param_ranges_are_valid cmd_code;
  ok ← ranges_are_valid;
  mret (negb ok).

(** ** The association model *)
Definition SMP_NO_MITM_REQUIRED (x : Z) : bool := Z.land x SMP_AUTH_YN_BIT =? 0.

(** [table[role][i][j]] *)
Definition index3 (t : list (list (list Z))) (r i j : Z) : M Z :=
  a ← index t r; b ← index a i; index b j.

Definition model_by_io_caps (t : list (list (list Z))) : M Z :=
  c ← get;
  if (peer_io_caps c <? SMP_IO_CAP_MAX) && (local_io_capability c <? SMP_IO_CAP_MAX) then
    if role c =? HCI_ROLE_CENTRAL
    then index3 t (role c) (peer_io_caps c) (local_io_capability c)
    else index3 t (role c) (local_io_capability c) (peer_io_caps c)
  else mret SMP_MODEL_OUT_OF_RANGE.

Definition smp_select_legacy_association_model : M Z :=
  c ← get;
  if (peer_oob_flag c =? SMP_OOB_PRESENT) && (loc_oob_flag c =? SMP_OOB_PRESENT)
  then mret SMP_MODEL_OOB
  else if SMP_NO_MITM_REQUIRED (peer_auth_req c) && SMP_NO_MITM_REQUIRED (loc_auth_req c)
  then mret SMP_MODEL_ENCRYPTION_ONLY
  else model_by_io_caps smp_association_table.

Definition smp_select_association_model_secure_connections : M Z :=
  c ← get;
  if (peer_oob_flag c =? SMP_OOB_PRESENT) || (loc_oob_flag c =? SMP_OOB_PRESENT)
  then mret SMP_MODEL_SEC_CONN_OOB
  else if SMP_NO_MITM_REQUIRED (peer_auth_req c) && SMP_NO_MITM_REQUIRED (loc_auth_req c)
  then mret SMP_MODEL_SEC_CONN_JUSTWORKS
  else model_by_io_caps smp_association_table_sc.

Definition smp_select_association_model : M Z :=
  upd (fun c => c <| sc_mode_required_by_peer := false |>) ;;
  c ← get;
  when (has (peer_auth_req c) SMP_SC_SUPPORT_BIT && has (loc_auth_req c) SMP_SC_SUPPORT_BIT)
    (upd (fun c => c <| sc_mode_required_by_peer := true |>)) ;;
  when (has (peer_auth_req c) SMP_H7_SUPPORT_BIT && has (loc_auth_req c) SMP_H7_SUPPORT_BIT)
    (upd (fun c => c <| key_derivation_h7_used := true |>)) ;;
  sc ← gets sc_mode_required_by_peer;
  if sc : bool then smp_select_association_model_secure_connections
  else smp_select_legacy_association_model.

(** ** Helpers of the key computations *)
Definition smp_mask_enc_key (loc_enc_size : Z) (p_data : list Z) : list Z :=
  if loc_enc_size <? OCTET16_LEN then
    take (Z.to_nat loc_enc_size) p_data ++ replicate (16 - Z.to_nat loc_enc_size) 0
  else p_data.

Definition smp_xor_128 (a b : list Z) : list Z := zip_with Z.lxor a b.

Definition smp_calculate_random_input (random : list Z) (round : Z) : M Z :=
  b ← index random (round / 8);
  mret (Z.lor (Z.land (Z.shiftr b (round mod 8)) 1) 0x80).

Definition smp_collect_local_io_capabilities (c : tSMP_CB) : list Z :=
  [local_io_capability c; loc_oob_flag c; loc_auth_req c].

Definition smp_collect_peer_io_capabilities (c : tSMP_CB) : list Z :=
  [peer_io_caps c; peer_oob_flag c; peer_auth_req c].

(** ** Building commands: the length field and the octets of the buffer *)
Section build.
Context `{Env}.

Definition smp_build_pairing_cmd (cmd_code : Z) (c : tSMP_CB) : Z * list Z :=
  (SMP_PAIRING_REQ_SIZE,
   [cmd_code; local_io_capability c; loc_oob_flag c; loc_auth_req c; loc_enc_size c;
    local_i_key c; local_r_key c]).

Definition smp_build_confirm_cmd (_ : Z) (c : tSMP_CB) : Z * list Z :=
  (SMP_CONFIRM_CMD_SIZE, SMP_OPCODE_CONFIRM :: confirm c).

Definition smp_build_rand_cmd (_ : Z) (c : tSMP_CB) : Z * list Z :=
  (SMP_RAND_CMD_SIZE, SMP_OPCODE_RAND :: rand c).

Definition smp_build_pairing_fail (_ : Z) (c : tSMP_CB) : Z * list Z :=
  (SMP_PAIR_FAIL_SIZE, [SMP_OPCODE_PAIRING_FAILED; failure c]).

Definition smp_build_encrypt_info_cmd (_ : Z) (c : tSMP_CB) : Z * list Z :=
  (SMP_ENC_INFO_SIZE, SMP_OPCODE_ENCRYPT_INFO :: ltk c).

Definition smp_build_central_id_cmd (_ : Z) (c : tSMP_CB) : Z * list Z :=
  (SMP_CENTRAL_ID_SIZE, SMP_OPCODE_CENTRAL_ID :: le_octets 2 (ediv c) ++ enc_rand c).

Definition smp_build_identity_info_cmd (_ : Z) (c : tSMP_CB) : Z * list Z :=
  (SMP_ID_INFO_SIZE, SMP_OPCODE_IDENTITY_INFO :: env_DeviceIDRoot).

Definition smp_build_id_addr_cmd (_ : Z) (c : tSMP_CB) : Z * list Z :=
  (SMP_ID_ADDR_SIZE, SMP_OPCODE_ID_ADDR :: 0 :: bdaddr_to_stream env_MacAddress).

Definition smp_build_signing_info_cmd (_ : Z) (c : tSMP_CB) : Z * list Z :=
  (SMP_SIGN_INFO_SIZE, SMP_OPCODE_SIGN_INFO :: csrk c).

Definition smp_build_security_request (_ : Z) (c : tSMP_CB) : Z * list Z :=
  (SMP_SECURITY_REQUEST_SIZE, [SMP_OPCODE_SEC_REQ; loc_auth_req c]).

Definition smp_build_pair_public_key_cmd (_ : Z) (c : tSMP_CB) : Z * list Z :=
  (SMP_PAIR_PUBL_KEY_SIZE,
   SMP_OPCODE_PAIR_PUBLIC_KEY :: pk_x (loc_publ_key c) ++ pk_y (loc_publ_key c)).

Definition smp_build_pairing_commitment_cmd (_ : Z) (c : tSMP_CB) : Z * list Z :=
  (SMP_PAIR_COMMITM_SIZE, SMP_OPCODE_CONFIRM :: commitment c).

Definition smp_build_pair_dhkey_check_cmd (_ : Z) (c : tSMP_CB) : Z * list Z :=
  (SMP_PAIR_DHKEY_CHECK_SIZE, SMP_OPCODE_PAIR_DHKEY_CHECK :: dhkey_check c).

Definition smp_build_pairing_keypress_notification_cmd (_ : Z) (c : tSMP_CB) : Z * list Z :=
  (SMP_PAIR_KEYPR_NOTIF_SIZE, [SMP_OPCODE_PAIR_KEYPR_NOTIF; local_keypress_notification c]).

Definition smp_cmd_build_act : list (option (Z → tSMP_CB → Z * list Z)) := [
  None;
  Some smp_build_pairing_cmd;
  Some smp_build_pairing_cmd;
  Some smp_build_confirm_cmd;
  Some smp_build_rand_cmd;
  Some smp_build_pairing_fail;
  Some smp_build_encrypt_info_cmd;
  Some smp_build_central_id_cmd;
  Some smp_build_identity_info_cmd;
  Some smp_build_id_addr_cmd;
  Some smp_build_signing_info_cmd;
  Some smp_build_security_request;
  Some smp_build_pair_public_key_cmd;
  Some smp_build_pair_dhkey_check_cmd;
  Some smp_build_pairing_keypress_notification_cmd;
  Some smp_build_pairing_commitment_cmd].
End build.

Section utils.
Context `{Env} `{Crypto} `{Machines}.

(** ** Sending *)
Definition smp_log_metrics (bd_addr : RawAddress) (is_outgoing : bool) (p_buf : list Z)
    (is_over_br : bool) : M unit :=
  match p_buf with
  | [] => mret ()
  | raw_cmd :: p_buf =>
      failure_reason ← match p_buf with
        | r :: _ =>
            if raw_cmd =? SMP_OPCODE_PAIRING_FAILED
            then emit (log_le_pairing_fail bd_addr r is_outgoing) ;; mret r
            else mret 0
        | [] => mret 0
        end;
      cancelled ← gets is_pair_cancel;
      let failure_reason := if cancelled : bool then SMP_USER_CANCELLED else failure_reason in
      let metric_cmd := if is_over_br then SMP_METRIC_COMMAND_BR_FLAG else SMP_METRIC_COMMAND_LE_FLAG in
      emit (log_smp_pairing_event bd_addr (Z.lor metric_cmd raw_cmd) is_outgoing failure_reason)
  end.

Definition L2CA_SendFixedChnlData_ (cid : Z) (bda : RawAddress) (p_buf : Z * list Z) : M bool :=
  h ← history;
  emit (L2CA_SendFixedChnlData cid bda p_buf.1 p_buf.2) ;;
  mret (env_SendFixedChnlData h).

Definition smp_send_msg_to_L2CAP (rem_bda : RawAddress) (p_toL2CAP : Z * list Z) : M bool :=
  over_br ← gets smp_over_br;
  let fixed_cid := if over_br : bool then L2CAP_SMP_BR_CID else L2CAP_SMP_CID in
  smp_log_metrics rem_bda true (take (Z.to_nat p_toL2CAP.1) p_toL2CAP.2) over_br ;;
  if env_l2cap_tx_complete_cb_info then
    upd (fun c => c <| total_tx_unacked ::= fun n => u16 (n + 1) |>) ;;
    sent ← L2CA_SendFixedChnlData_ fixed_cid rem_bda p_toL2CAP;
    if sent : bool then mret true
    else upd (fun c => c <| total_tx_unacked ::= fun n => u16 (n - 1) |>) ;; mret false
  else
    sent ← L2CA_SendFixedChnlData_ fixed_cid rem_bda p_toL2CAP;
    if sent : bool then
      wait ← gets wait_for_authorization_complete;
      when wait
        (if fixed_cid =? L2CAP_SMP_CID
         then ignore (smp_sm_event SMP_AUTH_CMPL_EVT (u_status SMP_SUCCESS))
         else smp_br_state_machine_event SMP_BR_AUTH_CMPL_EVT (u_status SMP_SUCCESS)) ;;
      mret true
    else mret false.

Definition start_rsp_timer : M unit :=
  t ← gets smp_rsp_timer_ent;
  t ← alarm_set_on_mloop t SMP_WAIT_FOR_RSP_TIMEOUT_MS;
  upd (fun c => c <| smp_rsp_timer_ent := t |>).

Definition smp_send_cmd (cmd_code : Z) : M bool :=
  build ← (if cmd_code <=? SMP_OPCODE_MAX + 1 then index smp_cmd_build_act cmd_code else mret None);
  sent ← match build with
    | Some build =>
        c ← get;
        sent ← smp_send_msg_to_L2CAP (pairing_bda c) (build cmd_code c);
        when sent start_rsp_timer ;; mret sent
    | None => mret false
    end;
  when (negb sent)
    (over_br ← gets smp_over_br;
     if over_br : bool
     then smp_br_state_machine_event SMP_BR_AUTH_CMPL_EVT (u_status SMP_PAIR_INTERNAL_ERR)
     else ignore (smp_sm_event SMP_AUTH_CMPL_EVT (u_status SMP_PAIR_INTERNAL_ERR))) ;;
  mret sent.

Definition smp_reject_unexpected_pairing_command (bd_addr : RawAddress) : M unit :=
  ignore (smp_send_msg_to_L2CAP bd_addr
    (SMP_PAIR_FAIL_SIZE, [SMP_OPCODE_PAIRING_FAILED; SMP_PAIR_NOT_SUPPORT])).

(** ** Timers *)
Definition smp_rsp_timeout : M unit :=
  over_br ← gets smp_over_br;
  if over_br : bool
  then smp_br_state_machine_event SMP_BR_AUTH_CMPL_EVT (u_status SMP_RSP_TIMEOUT)
  else ignore (smp_sm_event SMP_AUTH_CMPL_EVT (u_status SMP_RSP_TIMEOUT)).

Definition smp_delayed_auth_complete_timeout : M unit :=
  s ← gets state;
  when (s =? SMP_STATE_BOND_PENDING)
    (ignore (smp_sm_event SMP_AUTH_CMPL_EVT (u_status SMP_SUCCESS))).

(** ** The control block *)
Definition smp_set_state (s : Z) : M unit :=
  when (s <? SMP_STATE_MAX) (upd (fun c => c <| state := s |>)).

Definition smp_set_br_state (s : Z) : M unit :=
  when (s <? SMP_BR_STATE_MAX) (upd (fun c => c <| br_state := s |>)).

Definition smp_l2cap_if_init : M unit :=
  emit (L2CA_RegisterFixedChannel L2CAP_SMP_CID) ;;
  emit (L2CA_RegisterFixedChannel L2CAP_SMP_BR_CID).

(** [tSMP_CB::init] *)
Definition init (security_mode : Z) : M unit :=
  upd (fun _ => zero_tSMP_CB
    <| init_security_mode := security_mode |>
    <| smp_rsp_timer_ent := alarm_idle |>
    <| delayed_auth_timer_ent := alarm_idle |>) ;;
  smp_l2cap_if_init ;;
  upd (fun c => c <| cert_failure := env_pts_smp_failure_case |>).

(** [tSMP_CB::reset] *)
Definition reset : M unit :=
  upd (fun c => zero_tSMP_CB
    <| init_security_mode := init_security_mode c |>
    <| p_callback := p_callback c |>
    <| smp_rsp_timer_ent := alarm_cancel (smp_rsp_timer_ent c) |>
    <| delayed_auth_timer_ent := alarm_cancel (delayed_auth_timer_ent c) |>).

Definition smp_remove_fixed_channel : M unit :=
  c ← get;
  emit (L2CA_RemoveFixedChnl (if smp_over_br c then L2CAP_SMP_BR_CID else L2CAP_SMP_CID)
    (pairing_bda c)).

Definition smp_reset_control_value : M unit :=
  upd (fun c => c <| smp_rsp_timer_ent ::= alarm_cancel |> <| flags := 0 |>) ;;
  c ← get;
  emit (L2CA_SetIdleTimeoutByBdAddr (pairing_bda c) SMP_LINK_TOUT_MIN BT_TRANSPORT_LE) ;;
  smp_remove_fixed_channel ;;
  reset.

(** [( *p_callback)(evt, bda, &data)]; what the callback returns and leaves in [io_req] *)
Definition call_app (cb evt : Z) (bda : RawAddress) (data : tSMP_EVT_DATA) : M (Z * tSMP_IO_REQ) :=
  h ← history;
  emit (smp_callback cb evt bda data) ;;
  mret (env_callback h evt bda data).

Definition smp_proc_pairing_cmpl : M unit :=
  c ← get;
  let evt_data := evt_cmplt (mk_tSMP_CMPL (status c)
    (if status c =? SMP_SUCCESS then sec_level c else SMP_SEC_NONE)
    (is_pair_cancel c) (smp_over_br c)) in
  let metric_cmd := if smp_over_br c then SMP_METRIC_COMMAND_BR_PAIRING_CMPL
    else SMP_METRIC_COMMAND_LE_PAIRING_CMPL in
  let metric_status := if SMP_MAX_FAIL_RSN_PER_SPEC <? status c
    then Z.lor (status c) SMP_METRIC_STATUS_INTERNAL_FLAG else status c in
  emit (log_smp_pairing_event (pairing_bda c) metric_cmd
    (has (flags c) SMP_PAIR_FLAGS_WE_STARTED_DD) metric_status) ;;
  when ((status c =? SMP_SUCCESS) && smp_over_br c)
    (emit (btm_dev_consolidate_existing_connections (pairing_bda c))) ;;
  smp_reset_control_value ;;
  match p_callback c with
  | Some cb => ignore (call_app cb SMP_COMPLT_EVT (pairing_bda c) evt_data)
  | None => mret ()
  end.

(** ** Addresses and the DHKey *)
Definition smp_collect_local_ble_address : M (list Z) :=
  bda ← gets pairing_bda; h ← history;
  let '(a, t) := env_ReadConnectionAddr h bda in
  mret (bdaddr_to_stream a ++ [t]).

Definition smp_collect_peer_ble_address : M (list Z) :=
  bda ← gets pairing_bda; h ← history;
  mret (match env_ReadRemoteConnectionAddr h bda with
    | Some (a, t) => bdaddr_to_stream a ++ [t]
    | None => (fun i => u8 (env_garbage h i)) <$> seqZ 0 7
    end).

Definition smp_calculate_f5_mackey_and_long_term_key : M unit :=
  c ← get;
  local ← smp_collect_local_ble_address;
  peer ← smp_collect_peer_ble_address;
  let '(mac, key) :=
    if role c =? HCI_ROLE_CENTRAL
    then f5 (dhkey c) (rand c) (rrand c) local peer
    else f5 (dhkey c) (rrand c) (rand c) peer local in
  upd (fun c => c <| mac_key := mac |> <| ltk := key |>).

Definition smp_save_secure_connections_long_term_key : M unit :=
  c ← get;
  emit (btm_sec_save_le_key (pairing_bda c) BTM_LE_KEY_LENC
    (Some (lenc_key (ltk c) 0 (loc_enc_size c) (sec_level c))) true) ;;
  emit (btm_sec_save_le_key (pairing_bda c) BTM_LE_KEY_PENC
    (Some (penc_key (ltk c) zero8 0 (sec_level c) (loc_enc_size c))) true).

(** ** Requests to the application *)
Definition smp_convert_string_to_tk (passkey : Z) : M unit :=
  upd (fun c => c <| tk ::= fun t => overwrite t (le_octets 4 passkey) |>) ;;
  ignore (smp_sm_event SMP_KEY_READY_EVT (u_key SMP_KEY_TYPE_TK ptr_tk)).

Definition smp_request_oob_data : M bool :=
  c ← get;
  let t :=
    if (peer_oob_flag c =? SMP_OOB_PRESENT) && (loc_oob_flag c =? SMP_OOB_PRESENT)
    then SMP_OOB_BOTH
    else if peer_oob_flag c =? SMP_OOB_PRESENT then SMP_OOB_LOCAL
    else if loc_oob_flag c =? SMP_OOB_PRESENT then SMP_OOB_PEER
    else SMP_OOB_INVALID_TYPE in
  if t =? SMP_OOB_INVALID_TYPE then mret false else
  upd (fun c => c <| req_oob_type := t |> <| cb_evt := SMP_SC_OOB_REQ_EVT |>) ;;
  ignore (smp_sm_event SMP_TK_REQ_EVT (u_req_oob_type t)) ;;
  mret true.
End utils.
