(* ===== verification/SmpKeys.v ===== *)
(** * SMP key generation and distribution

    [stack/smp/smp_keys.cc], and the functions of [stack/smp/smp_act.cc] that it
    calls.  A closure that waits for a random number is a [rand_callback];
    [run_rand_callback] is the body of each. *)
From S2P Require Import Prelude SmpDefs SmpTables SmpMonad SmpUtils.

Definition SMP_PASSKEY_MASK : Z := 0x000fffff.

Section keys.
Context `{Env} `{Crypto} `{Machines}.

(** ** Saved out-of-band data *)
Definition smp_save_local_oob_data : M unit :=
  c ← get; set_saved_oob (loc_oob_data (sc_oob_data c)).

Definition smp_clear_local_oob_data : M unit := set_saved_oob zero_tSMP_LOC_OOB_DATA.

Definition zeros (l : list Z) : bool := forallb (Z.eqb 0) l.

Definition is_oob_data_empty (d : tSMP_LOC_OOB_DATA) : bool :=
  negb (loc_present d) && zeros (loc_randomizer d) && zeros (loc_commitment d) &&
  (bd_type (addr_sent_to d) =? 0) && zeros (bd_bda (addr_sent_to d)) &&
  zeros (private_key_used d) && zeros (pk_x (publ_key_used d)) && zeros (pk_y (publ_key_used d)).

Definition smp_has_local_oob_data : M bool :=
  d ← get_saved_oob; mret (negb (is_oob_data_empty d)).

(** ** Passkeys *)
(** [while (passkey > BTM_MAX_PASSKEY_VAL) passkey >>= 1]: at most one turn, since
    the mask leaves 20 bits. *)
Fixpoint truncate_passkey (fuel : nat) (passkey : Z) : option Z :=
  match fuel with
  | O => None
  | S n => if BTM_MAX_PASSKEY_VAL <? passkey then truncate_passkey n (Z.shiftr passkey 1)
           else Some passkey
  end.

Definition smp_proc_passkey (rand : Z) : M unit :=
  passkey ← of_option OutOfFuel (truncate_passkey 3 (u32 (Z.land rand SMP_PASSKEY_MASK)));
  upd (fun c => c <| tk := overwrite zero16 (le_octets 4 passkey) |>) ;;
  c ← get;
  match p_callback c with
  | Some cb => ignore (call_app cb SMP_PASSKEY_NOTIF_EVT (pairing_bda c) (evt_passkey passkey))
  | None => mret ()
  end ;;
  c ← get;
  if selected_association_model c =? SMP_MODEL_SEC_CONN_PASSKEY_DISP
  then ignore (smp_sm_event SMP_KEY_READY_EVT (u_passkey passkey))
  else ignore (smp_sm_event SMP_KEY_READY_EVT (u_key SMP_KEY_TYPE_TK ptr_tk)).

Definition smp_generate_passkey : M unit := send_ble_rand rand_passkey.

(** ** Legacy pairing: confirm values and the short term key *)
Definition smp_concatenate_local (c : tSMP_CB) (op_code : Z) : list Z :=
  [op_code; local_io_capability c; loc_oob_flag c; loc_auth_req c; loc_enc_size c;
   local_i_key c; local_r_key c].

Definition smp_concatenate_peer (c : tSMP_CB) (op_code : Z) : list Z :=
  [op_code; peer_io_caps c; peer_oob_flag c; peer_auth_req c; peer_enc_size c;
   peer_i_key c; peer_r_key c].

Definition smp_gen_p1_4_confirm (c : tSMP_CB) (remote_bd_addr_type : Z) : list Z :=
  if role c =? HCI_ROLE_CENTRAL then
    [addr_type c; remote_bd_addr_type] ++
    smp_concatenate_local c SMP_OPCODE_PAIRING_REQ ++
    smp_concatenate_peer c SMP_OPCODE_PAIRING_RSP
  else
    [remote_bd_addr_type; addr_type c] ++
    smp_concatenate_peer c SMP_OPCODE_PAIRING_REQ ++
    smp_concatenate_local c SMP_OPCODE_PAIRING_RSP.

Definition smp_gen_p2_4_confirm (c : tSMP_CB) (remote_bda : RawAddress) : list Z :=
  overwrite zero16
    (if role c =? HCI_ROLE_CENTRAL
     then bdaddr_to_stream remote_bda ++ bdaddr_to_stream (local_bda c)
     else bdaddr_to_stream (local_bda c) ++ bdaddr_to_stream remote_bda).

Definition smp_calculate_confirm (rand : list Z) : M (Z * list Z) :=
  bda ← gets pairing_bda; h ← history;
  match env_ReadRemoteConnectionAddr h bda with
  | None => mret (SMP_PAIR_FAIL_UNKNOWN, [])
  | Some (remote_bda, remote_bd_addr_type) =>
      let '(l, t) := env_ReadConnectionAddr h bda in
      upd (fun c => c <| local_bda := l |> <| addr_type := t |>) ;;
      c ← get;
      let p1 := smp_xor_128 (smp_gen_p1_4_confirm c remote_bd_addr_type) rand in
      let e1 := aes_128 (tk c) p1 in
      let p2 := smp_xor_128 (smp_gen_p2_4_confirm c remote_bda) e1 in
      mret (SMP_SUCCESS, aes_128 (tk c) p2)
  end.

Definition smp_generate_confirm : M unit :=
  r ← gets rand;
  '(status, output) ← smp_calculate_confirm r;
  if negb (status =? SMP_SUCCESS)
  then ignore (smp_sm_event SMP_AUTH_CMPL_EVT (u_status status))
  else
    upd (fun c => c <| confirm := output |>) ;;
    ignore (smp_sm_event SMP_KEY_READY_EVT (u_key SMP_KEY_TYPE_CFM (ptr_octets output))).

Definition smp_generate_srand_mrand_confirm : M unit := send_ble_rand rand_confirm_0.

Definition smp_generate_compare : M unit :=
  r ← gets rrand;
  '(status, output) ← smp_calculate_confirm r;
  if negb (status =? SMP_SUCCESS)
  then ignore (smp_sm_event SMP_AUTH_CMPL_EVT (u_status status))
  else ignore (smp_sm_event SMP_KEY_READY_EVT (u_key SMP_KEY_TYPE_CMP (ptr_octets output))).

Definition smp_calculate_legacy_short_term_key (c : tSMP_CB) : list Z :=
  let text :=
    if role c =? HCI_ROLE_CENTRAL then take 8 (rand c) ++ take 8 (rrand c)
    else take 8 (rrand c) ++ take 8 (rand c) in
  aes_128 (tk c) text.

Definition smp_process_stk (p : list Z) : M unit :=
  n ← gets loc_enc_size;
  ignore (smp_sm_event SMP_KEY_READY_EVT
    (u_key SMP_KEY_TYPE_STK (ptr_octets (smp_mask_enc_key n p)))).

Definition smp_generate_stk : M unit :=
  c ← get;
  smp_process_stk (if sc_mode_required_by_peer c then ltk c
    else smp_calculate_legacy_short_term_key c).

(** ** Key distribution *)
Definition smp_update_key_mask (key_type : Z) (recv : bool) : M unit :=
  c ← get;
  let i := upd (fun c => c <| local_i_key ::= fun k => clear k key_type |>) in
  let r := upd (fun c => c <| local_r_key ::= fun k => clear k key_type |>) in
  if (sc_mode_required_by_peer c || smp_over_br c) &&
     ((key_type =? SMP_SEC_KEY_TYPE_ENC) || (key_type =? SMP_SEC_KEY_TYPE_LK)) then i ;; r
  else if role c =? HCI_ROLE_PERIPHERAL then if recv then i else r
  else if recv then r else i.

Definition smp_key_distribution_by_transport : M unit :=
  over_br ← gets smp_over_br;
  if over_br : bool then smp_br_select_next_key else smp_key_distribution.

Definition both_bond (c : tSMP_CB) : bool :=
  has (peer_auth_req c) SMP_AUTH_BOND && has (loc_auth_req c) SMP_AUTH_BOND.

Definition smp_send_csrk_info : M unit :=
  smp_update_key_mask SMP_SEC_KEY_TYPE_CSRK false ;;
  sent ← smp_send_cmd SMP_OPCODE_SIGN_INFO;
  when sent
    (c ← get;
     emit (btm_sec_save_le_key (pairing_bda c) BTM_LE_KEY_LCSRK
       (Some (lcsrk_key 0 (div c) (sec_level c) (csrk c))) true)) ;;
  smp_key_distribution_by_transport.

Definition smp_compute_csrk (d : Z) : M unit :=
  upd (fun c => c <| div := d |>) ;;
  let buffer := overwrite zero16 (le_octets 2 d ++ le_octets 2 1) in
  upd (fun c => c <| csrk := aes_128 env_DeviceEncRoot buffer |>) ;;
  smp_send_csrk_info.

Definition btm_get_local_div : M bool :=
  bda ← gets pairing_bda; h ← history;
  let '(found, d) := env_local_div h bda in
  upd (fun c => c <| div := u16 d |>) ;; mret found.

Definition smp_generate_csrk : M unit :=
  div_status ← btm_get_local_div;
  if div_status : bool then d ← gets div; smp_compute_csrk d
  else send_ble_rand rand_csrk_div.

Definition smp_process_secure_connection_long_term_key : M unit :=
  smp_save_secure_connections_long_term_key ;;
  smp_update_key_mask SMP_SEC_KEY_TYPE_ENC false ;;
  smp_key_distribution.

Definition smp_set_derive_link_key : M unit :=
  upd (fun c => c <| derive_lk := true |>) ;;
  smp_update_key_mask SMP_SEC_KEY_TYPE_LK false ;;
  smp_key_distribution.

Definition smp_calculate_link_key_from_long_term_key : M bool :=
  c ← get; h ← history;
  match (if id_addr_rcvd c && (id_addr_type c =? BLE_ADDR_PUBLIC) then Some (id_addr c)
         else match env_ReadRemoteConnectionAddr h (pairing_bda c) with
              | Some (a, t) => if t =? BLE_ADDR_PUBLIC then Some a else None
              | None => None
              end) with
  | None => mret false
  | Some bda_for_lk =>
      match env_find_dev h (pairing_bda c) with
      | None => mret false
      | Some _ =>
          let link_key := ltk_to_link_key (ltk c) (key_derivation_h7_used c) in
          let authenticated := sec_level c =? SMP_SEC_AUTHENTICATED in
          match (if init_security_mode c =? BTM_SEC_MODE_SC then Some BTM_LKEY_TYPE_AUTH_COMB_P_256
                 else if env_SupportsSecureConnections then
                   Some (if authenticated then BTM_LKEY_TYPE_AUTH_COMB_P_256
                         else BTM_LKEY_TYPE_UNAUTH_COMB_P_256)
                 else if init_security_mode c =? BTM_SEC_MODE_SP then
                   Some (if authenticated then BTM_LKEY_TYPE_AUTH_COMB
                         else BTM_LKEY_TYPE_UNAUTH_COMB)
                 else None) with
          | None => mret false
          | Some link_key_type =>
              emit (btm_sec_link_key_notification bda_for_lk (rev link_key)
                (link_key_type + BTM_LTK_DERIVED_LKEY_OFFSET)) ;;
              mret true
          end
      end
  end.

Definition smp_derive_link_key_from_long_term_key : M unit :=
  ok ← smp_calculate_link_key_from_long_term_key;
  when (negb ok) (ignore (smp_sm_event SMP_AUTH_CMPL_EVT (u_status SMP_PAIR_FAIL_UNKNOWN))).

Definition smp_calculate_long_term_key_from_link_key : M bool :=
  c ← get; h ← history;
  match env_find_dev h (pairing_bda c) with
  | None => mret false
  | Some dev =>
      let t := env_LinkKeyType h (pairing_bda c) in
      if t =? BTM_LKEY_TYPE_IGNORE then mret false
      else if negb (t =? BTM_LKEY_TYPE_AUTH_COMB_P_256) && negb (t =? BTM_LKEY_TYPE_UNAUTH_COMB_P_256)
      then mret false
      else
        upd (fun c => c
          <| ltk := link_key_to_ltk (rev (dev_link_key dev)) (key_derivation_h7_used c) |>
          <| sec_level := if t =? BTM_LKEY_TYPE_AUTH_COMB_P_256 then SMP_SEC_AUTHENTICATED
                          else SMP_SEC_UNAUTHENTICATE |>) ;;
        mret true
  end.

(** The event goes to the LE machine ([smp_sm_event]), with a number that belongs to
    the BR/EDR machine. *)
Definition smp_br_process_link_key : M unit :=
  ok ← smp_calculate_long_term_key_from_link_key;
  if negb ok then ignore (smp_sm_event SMP_BR_AUTH_CMPL_EVT (u_status SMP_PAIR_FAIL_UNKNOWN))
  else
    c ← get; h ← history;
    match env_find_dev h (pairing_bda c) with
    | Some _ => emit (set_device_type_ble (pairing_bda c))
    | None => mret ()
    end ;;
    smp_save_secure_connections_long_term_key ;;
    smp_update_key_mask SMP_SEC_KEY_TYPE_ENC false ;;
    smp_br_select_next_key.

Definition smp_generate_ltk_cont (d : Z) : M unit :=
  upd (fun c => c <| div := d |>) ;;
  let div16 := overwrite zero16 [Z.land d 0xff; Z.shiftr d 8] in
  upd (fun c => c <| ltk := smp_mask_enc_key (loc_enc_size c) (aes_128 env_DeviceEncRoot div16) |>) ;;
  send_ble_rand rand_y.

Definition smp_generate_ltk : M unit :=
  c ← get;
  if br_state c =? SMP_BR_STATE_BOND_PENDING then smp_br_process_link_key
  else if sc_mode_required_by_peer c then smp_process_secure_connection_long_term_key
  else
    div_status ← btm_get_local_div;
    if div_status : bool then d ← gets div; smp_generate_ltk_cont d
    else send_ble_rand rand_ltk_div.

Definition smp_process_ediv (p : list Z) : M unit :=
  y ← (match p with y0 :: y1 :: _ => mret (y0 + Z.shiftl y1 8) | _ => fail OutOfBounds end);
  upd (fun c => c <| ediv := Z.lxor (div c) y |>) ;;
  ignore (smp_sm_event SMP_KEY_READY_EVT (u_key SMP_KEY_TYPE_LTK (ptr_octets p))).

Definition smp_generate_y (rand : Z) : M unit :=
  upd (fun c => c <| enc_rand := le_octets 8 rand |>) ;;
  smp_process_ediv (aes_128 env_DeviceDHK (overwrite zero16 (le_octets 8 rand))).

(** ** Secure connections *)
Definition smp_process_private_key : M unit :=
  k ← gets private_key;
  '(x, y) ← of_option OutOfBounds (ECC_public_key k);
  upd (fun c => c <| loc_publ_key := mk_tSMP_PUBLIC_KEY x y |>
    <| flags ::= fun f => Z.lor f SMP_PAIR_FLAG_HAVE_LOCAL_PUBL_KEY |>) ;;
  ignore (smp_sm_event SMP_LOC_PUBL_KEY_CRTD_EVT NULL).

(** The loop over the octets of the saved keys, and the two copies after it. *)
Definition load_saved_oob_keys (d : tSMP_LOC_OOB_DATA) : M unit :=
  upd (fun c => c <| private_key := private_key_used d |>
    <| loc_publ_key := publ_key_used d |>
    <| sc_oob_data ::= fun o => o <| loc_oob_data := d |> |>
    <| local_random := loc_randomizer d |>).

Definition smp_create_private_key : M unit :=
  c ← get; d ← get_saved_oob;
  if (selected_association_model c =? SMP_MODEL_SEC_CONN_OOB) && negb (is_oob_data_empty d)
  then load_saved_oob_keys d ;; smp_process_private_key
  else send_ble_rand (rand_private_key 0).

Definition smp_compute_dhkey : M unit :=
  c ← get;
  '(x, _) ← of_option OutOfBounds
    (ECC_PointMult (pk_x (peer_publ_key c), pk_y (peer_publ_key c)) (private_key c));
  upd (fun c => c <| dhkey := x |>).

Definition is_sc_passkey (m : Z) : bool :=
  (m =? SMP_MODEL_SEC_CONN_PASSKEY_ENT) || (m =? SMP_MODEL_SEC_CONN_PASSKEY_DISP).
Definition is_sc_justworks_or_nc (m : Z) : bool :=
  (m =? SMP_MODEL_SEC_CONN_JUSTWORKS) || (m =? SMP_MODEL_SEC_CONN_NUM_COMP).

Definition smp_calculate_local_commitment : M unit :=
  c ← get;
  let m := selected_association_model c in
  if is_sc_justworks_or_nc m then
    upd (fun c => c <| commitment := f4 (pk_x (loc_publ_key c)) (pk_x (peer_publ_key c)) (rand c) 0 |>)
  else if is_sc_passkey m then
    ri ← smp_calculate_random_input (local_random c) (round c);
    upd (fun c => c <| commitment := f4 (pk_x (loc_publ_key c)) (pk_x (peer_publ_key c)) (rand c) ri |>)
  else if m =? SMP_MODEL_SEC_CONN_OOB then
    upd (fun c => c <| commitment := f4 (pk_x (loc_publ_key c)) (pk_x (loc_publ_key c)) (local_random c) 0 |>)
  else mret ().

Definition smp_calculate_peer_commitment : M (list Z) :=
  c ← get;
  let m := selected_association_model c in
  if is_sc_justworks_or_nc m then
    mret (f4 (pk_x (peer_publ_key c)) (pk_x (loc_publ_key c)) (rrand c) 0)
  else if is_sc_passkey m then
    ri ← smp_calculate_random_input (peer_random c) (round c);
    mret (f4 (pk_x (peer_publ_key c)) (pk_x (loc_publ_key c)) (rrand c) ri)
  else if m =? SMP_MODEL_SEC_CONN_OOB then
    mret (f4 (pk_x (peer_publ_key c)) (pk_x (peer_publ_key c)) (peer_random c) 0)
  else mret zero16.

(** [memcmp(a, b, n) == 0] of two arrays of the same length *)
Definition same (a b : list Z) : bool := bool_decide (a = b).

Definition smp_check_commitment : M bool :=
  expected ← smp_calculate_peer_commitment;
  c ← get;
  mret (same (remote_commitment c) expected).

Definition smp_calculate_numeric_comparison_display_number : M unit :=
  upd (fun c => c <| number_to_display :=
    if role c =? HCI_ROLE_CENTRAL
    then g2 (pk_x (loc_publ_key c)) (pk_x (peer_publ_key c)) (rand c) (rrand c)
    else g2 (pk_x (peer_publ_key c)) (pk_x (loc_publ_key c)) (rrand c) (rand c) |>) ;;
  n ← gets number_to_display;
  if BTM_MAX_PASSKEY_VAL + 1 <=? n then
    upd (fun c => c <| failure := SMP_PAIR_FAIL_UNKNOWN |>) ;;
    ignore (smp_sm_event SMP_AUTH_CMPL_EVT (u_status SMP_PAIR_FAIL_UNKNOWN))
  else
    upd (fun c => c <| cb_evt := SMP_NC_REQ_EVT |>) ;;
    ignore (smp_sm_event SMP_SC_DSPL_NC_EVT (u_passkey n)).

Definition smp_calculate_local_dhkey_check : M unit :=
  smp_calculate_f5_mackey_and_long_term_key ;;
  c ← get;
  let iocap := smp_collect_local_io_capabilities c in
  a ← smp_collect_local_ble_address;
  b ← smp_collect_peer_ble_address;
  upd (fun c => c <| dhkey_check := f6 (mac_key c) (rand c) (rrand c) (peer_random c) iocap a b |>).

Definition smp_calculate_peer_dhkey_check : M unit :=
  c ← get;
  let iocap := smp_collect_peer_io_capabilities c in
  a ← smp_collect_local_ble_address;
  b ← smp_collect_peer_ble_address;
  let param_buf := f6 (mac_key c) (rrand c) (rand c) (local_random c) iocap b a in
  ignore (smp_sm_event SMP_SC_KEY_READY_EVT
    (u_key SMP_KEY_TYPE_PEER_DHK_CHCK (ptr_octets param_buf))).

Definition smp_start_nonce_generation : M unit := send_ble_rand rand_nonce_0.

(** ** The closures *)
Definition set_rand (i : nat) (r : Z) : M unit :=
  upd (fun c => c <| rand ::= fun l => overwrite_at l i (le_octets 8 r) |>).

Definition run_rand_callback (k : rand_callback) (r : Z) : M unit :=
  match k with
  | rand_passkey => smp_proc_passkey r
  | rand_csrk_div => smp_compute_csrk (u16 r)
  | rand_confirm_0 => set_rand 0 r ;; send_ble_rand rand_confirm_1
  | rand_confirm_1 => set_rand 8 r ;; smp_generate_confirm
  | rand_ltk_div => smp_generate_ltk_cont (u16 r)
  | rand_y => smp_generate_y r
  | rand_private_key k =>
      upd (fun c => c <| private_key ::= fun l => overwrite_at l (8 * k) (le_octets 8 r) |>) ;;
      if (k <? 3)%nat then send_ble_rand (rand_private_key (S k)) else smp_process_private_key
  | rand_nonce_0 => set_rand 0 r ;; send_ble_rand rand_nonce_1
  | rand_nonce_1 => set_rand 8 r ;; ignore (smp_sm_event SMP_HAVE_LOC_NONCE_EVT NULL)
  end.
End keys.
