(* ===== verification/SmpAct.v ===== *)
(** * The actions of the SMP state machines

    [stack/smp/smp_act.cc].  An action is given the event's data; [NULL] is passed
    where the code passes a null pointer.  Logging is left out. *)
From S2P Require Import Prelude SmpDefs SmpTables SmpMonad SmpUtils SmpKeys.

Definition SMP_KEY_DIST_TYPE_MAX : nat := 4.

Section act.
Context `{Env} `{Crypto} `{Machines}.

(** [smp_sm_event(p_cb, SMP_AUTH_CMPL_EVT, &smp_int_data)] with a status, and the
    same for the BR/EDR machine *)
Definition auth_cmpl (s : Z) : M unit := ignore (smp_sm_event SMP_AUTH_CMPL_EVT (u_status s)).
Definition br_auth_cmpl (s : Z) : M unit :=
  smp_br_state_machine_event SMP_BR_AUTH_CMPL_EVT (u_status s).

Definition set_flag (f : Z) : M unit := upd (fun c => c <| flags ::= fun x => Z.lor x f |>).
Definition clear_flag (f : Z) : M unit := upd (fun c => c <| flags ::= fun x => clear x f |>).

Definition pts_test_send_authentication_complete_failure : M bool :=
  reason ← gets cert_failure;
  if (reason =? SMP_PAIR_AUTH_FAIL) || (reason =? SMP_PAIR_FAIL_UNKNOWN) ||
     (reason =? SMP_PAIR_NOT_SUPPORT) || (reason =? SMP_PASSKEY_ENTRY_FAIL) ||
     (reason =? SMP_REPEATED_ATTEMPTS)
  then auth_cmpl reason ;; mret true
  else mret false.

(** ** Asking the application *)
(** The data passed to the callback, by the event. *)
Definition cback_data (p_data : tSMP_INT_DATA) : M tSMP_EVT_DATA :=
  c ← get;
  if cb_evt c =? SMP_IO_CAP_REQ_EVT then
    mret (evt_io_req (mk_tSMP_IO_REQ SMP_IO_CAP_KBDISP SMP_OOB_NONE (peer_auth_req c)
      SMP_MAX_ENC_KEY_SIZE (local_i_key c) (local_r_key c)))
  else if cb_evt c =? SMP_NC_REQ_EVT then k ← member_passkey p_data; mret (evt_passkey k)
  else if cb_evt c =? SMP_SC_OOB_REQ_EVT then
    t ← member_req_oob_type p_data; mret (evt_req_oob_type t)
  else if cb_evt c =? SMP_SC_LOC_OOB_DATA_UP_EVT then
    mret (evt_loc_oob_data (loc_oob_data (sc_oob_data c)))
  else if cb_evt c =? SMP_BR_KEYS_REQ_EVT then
    mret (evt_io_req (mk_tSMP_IO_REQ 0 SMP_OOB_NONE 0 SMP_MAX_ENC_KEY_SIZE
      SMP_BR_SEC_DEFAULT_KEY SMP_BR_SEC_DEFAULT_KEY))
  else if cb_evt c =? SMP_LE_ADDR_ASSOC_EVT then
    mret (evt_id_addr_with_type (mk_tBLE_BD_ADDR (id_addr_type c) (id_addr c)))
  else mret evt_none.

(** What [smp_send_app_cback] does with an answer to [SMP_IO_CAP_REQ_EVT]. *)
Definition take_io_caps (io : tSMP_IO_REQ) : M unit :=
  upd (fun c => c
    <| loc_auth_req := auth_req io |> <| local_io_capability := io_cap io |>
    <| loc_oob_flag := oob_data io |> <| loc_enc_size := max_key_size io |>
    <| local_i_key := init_keys io |> <| local_r_key := resp_keys io |>) ;;
  c ← get;
  when (negb (has (loc_auth_req c) SMP_AUTH_BOND))
    (upd (fun c => c <| local_i_key := 0 |> <| local_r_key := 0 |>)) ;;
  upd (fun c => c <| sc_only_mode_locally_required := init_security_mode c =? BTM_SEC_MODE_SC |>) ;;
  c ← get;
  when (sc_only_mode_locally_required c)
    (upd (fun c => c <| loc_auth_req ::= fun a => Z.lor a SMP_SC_SUPPORT_BIT |>)) ;;
  c ← get; h ← history;
  let remote_lmp_version := env_lmp_version h (pairing_bda c) in
  when (negb (sc_only_mode_locally_required c) &&
        (negb (has (loc_auth_req c) SMP_SC_SUPPORT_BIT) ||
         (nz remote_lmp_version && (remote_lmp_version <? HCI_PROTO_VERSION_4_2)) ||
         env_disable_le_sc (pairing_bda c)))
    (upd (fun c => c
      <| loc_auth_req ::= fun a => clear (clear a SMP_SC_SUPPORT_BIT) SMP_KP_SUPPORT_BIT |>
      <| local_i_key ::= fun k => clear k SMP_SEC_KEY_TYPE_LK |>
      <| local_r_key ::= fun k => clear k SMP_SEC_KEY_TYPE_LK |>)) ;;
  when (nz remote_lmp_version && (remote_lmp_version <? HCI_PROTO_VERSION_5_0))
    (upd (fun c => c <| loc_auth_req ::= fun a => clear a SMP_H7_SUPPORT_BIT |>)).

(** The same for [SMP_BR_KEYS_REQ_EVT]. *)
Definition take_br_keys (io : tSMP_IO_REQ) : M unit :=
  upd (fun c => c
    <| loc_enc_size := max_key_size io |>
    <| local_i_key := clear (init_keys io) SMP_SEC_KEY_TYPE_LK |>
    <| local_r_key := clear (resp_keys io) SMP_SEC_KEY_TYPE_LK |>
    <| loc_auth_req ::= fun a => Z.lor a SMP_H7_SUPPORT_BIT |>).

Definition smp_send_app_cback (p_data : tSMP_INT_DATA) : M unit :=
  c ← get;
  match p_callback c with
  | Some cb =>
      when (nz (cb_evt c))
        (cb_data ← cback_data p_data;
         '(callback_rc, io) ← call_app cb (cb_evt c) (pairing_bda c) cb_data;
         when (callback_rc =? BTM_SUCCESS)
           (if cb_evt c =? SMP_IO_CAP_REQ_EVT
            then take_io_caps io ;; ignore (smp_sm_event SMP_IO_RSP_EVT NULL)
            else when (cb_evt c =? SMP_BR_KEYS_REQ_EVT)
              (take_br_keys io ;; smp_br_state_machine_event SMP_BR_KEYS_RSP_EVT NULL)))
  | None => mret ()
  end ;;
  c ← get;
  when (negb (nz (cb_evt c)) && discard_sec_req c)
    (upd (fun c => c <| discard_sec_req := false |>) ;;
     ignore (smp_sm_event SMP_DISCARD_SEC_REQ_EVT NULL)).

(** ** The association model *)
Definition smp_decide_association_model : M unit :=
  c ← get;
  let m := selected_association_model c in
  if m =? SMP_MODEL_ENCRYPTION_ONLY then
    if (role c =? HCI_ROLE_CENTRAL) && has (peer_auth_req c) SMP_AUTH_YN_BIT &&
       negb (has (loc_auth_req c) SMP_AUTH_YN_BIT)
    then auth_cmpl SMP_PAIR_AUTH_FAIL
    else if negb env_isAndroidTVDevice &&
       ((local_io_capability c =? SMP_IO_CAP_IO) || (local_io_capability c =? SMP_IO_CAP_KBDISP))
    then
      upd (fun c => c <| cb_evt := SMP_CONSENT_REQ_EVT |>) ;;
      smp_set_state SMP_STATE_WAIT_NONCE ;;
      ignore (smp_sm_event SMP_SC_DSPL_NC_EVT NULL)
    else
      upd (fun c => c <| sec_level := SMP_SEC_UNAUTHENTICATE |> <| tk := zero16 |>) ;;
      ignore (smp_sm_event SMP_KEY_READY_EVT (u_key SMP_KEY_TYPE_TK ptr_tk))
  else if m =? SMP_MODEL_PASSKEY then
    upd (fun c => c <| sec_level := SMP_SEC_AUTHENTICATED |> <| cb_evt := SMP_PASSKEY_REQ_EVT |>) ;;
    ignore (smp_sm_event SMP_TK_REQ_EVT u_unset)
  else if m =? SMP_MODEL_OOB then
    upd (fun c => c <| sec_level := SMP_SEC_AUTHENTICATED |> <| cb_evt := SMP_OOB_REQ_EVT |>) ;;
    ignore (smp_sm_event SMP_TK_REQ_EVT u_unset)
  else if m =? SMP_MODEL_KEY_NOTIF then
    upd (fun c => c <| sec_level := SMP_SEC_AUTHENTICATED |>) ;;
    smp_generate_passkey
  else if (SMP_MODEL_SEC_CONN_JUSTWORKS <=? m) && (m <=? SMP_MODEL_SEC_CONN_OOB) then
    ignore (smp_sm_event SMP_PUBL_KEY_EXCH_REQ_EVT u_unset)
  else auth_cmpl SMP_UNKNOWN_IO_CAP.

(** [stack/smp/smp_keys.cc] *)
Definition smp_use_oob_private_key : M unit :=
  c ← get; d ← get_saved_oob;
  if (req_oob_type c =? SMP_OOB_BOTH) || (req_oob_type c =? SMP_OOB_LOCAL) then
    if (selected_association_model c =? SMP_MODEL_SEC_CONN_OOB) && negb (is_oob_data_empty d)
    then load_saved_oob_keys d ;; smp_process_private_key
    else
      upd (fun c => c <| private_key := private_key_used (loc_oob_data (sc_oob_data c)) |>) ;;
      smp_process_private_key
  else
    smp_set_state SMP_STATE_PAIR_REQ_RSP ;;
    smp_decide_association_model.

(** ** Sending *)
Definition smp_send_pair_fail (p_data : tSMP_INT_DATA) : M unit :=
  s ← member_status p_data;
  upd (fun c => c <| status := s |> <| failure := s |>) ;;
  when ((s <=? SMP_MAX_FAIL_RSN_PER_SPEC) && negb (s =? SMP_SUCCESS))
    (ignore (smp_send_cmd SMP_OPCODE_PAIRING_FAILED) ;;
     upd (fun c => c <| wait_for_authorization_complete := true |>)).

(** [if (p_dev_rec) btm_sec_clear_ble_keys(p_dev_rec)] *)
Definition erase_keys : M unit :=
  bda ← gets pairing_bda; h ← history;
  match env_find_dev h bda with
  | Some _ => emit (btm_sec_clear_ble_keys bda)
  | None => mret ()
  end.

Definition smp_send_pair_req : M unit := erase_keys ;; ignore (smp_send_cmd SMP_OPCODE_PAIRING_REQ).

Definition restrict_keys : M unit :=
  upd (fun c => c <| local_i_key ::= Z.land (peer_i_key c) |>
    <| local_r_key ::= Z.land (peer_r_key c) |>).

Definition smp_send_pair_rsp : M unit :=
  restrict_keys ;;
  sent ← smp_send_cmd SMP_OPCODE_PAIRING_RSP;
  when sent
    (m ← gets selected_association_model;
     if m =? SMP_MODEL_SEC_CONN_OOB then smp_use_oob_private_key
     else smp_decide_association_model).

Definition smp_send_confirm : M unit :=
  ignore (smp_send_cmd SMP_OPCODE_CONFIRM) ;; set_flag SMP_PAIR_FLAGS_CMD_CONFIRM_SENT.
Definition smp_send_rand : M unit := ignore (smp_send_cmd SMP_OPCODE_RAND).
Definition smp_send_pair_public_key : M unit := ignore (smp_send_cmd SMP_OPCODE_PAIR_PUBLIC_KEY).
Definition smp_send_commitment : M unit := ignore (smp_send_cmd SMP_OPCODE_PAIR_COMMITM).
Definition smp_send_dhkey_check : M unit := ignore (smp_send_cmd SMP_OPCODE_PAIR_DHKEY_CHECK).

Definition smp_send_keypress_notification (p_data : tSMP_INT_DATA) : M unit :=
  s ← member_status p_data;
  upd (fun c => c <| local_keypress_notification := s |>) ;;
  ignore (smp_send_cmd SMP_OPCODE_PAIR_KEYPR_NOTIF).

Definition smp_send_enc_info : M unit :=
  smp_update_key_mask SMP_SEC_KEY_TYPE_ENC false ;;
  ignore (smp_send_cmd SMP_OPCODE_ENCRYPT_INFO) ;;
  ignore (smp_send_cmd SMP_OPCODE_CENTRAL_ID) ;;
  c ← get;
  when (both_bond c)
    (emit (btm_sec_save_le_key (pairing_bda c) BTM_LE_KEY_LENC
      (Some (lenc_key (ltk c) (div c) (loc_enc_size c) (sec_level c))) true)) ;;
  smp_key_distribution.

Definition smp_send_id_info : M unit :=
  smp_update_key_mask SMP_SEC_KEY_TYPE_ID false ;;
  ignore (smp_send_cmd SMP_OPCODE_IDENTITY_INFO) ;;
  ignore (smp_send_cmd SMP_OPCODE_ID_ADDR) ;;
  c ← get;
  when (both_bond c)
    (emit (btm_sec_save_le_key (pairing_bda c) BTM_LE_KEY_LID None true)) ;;
  smp_key_distribution_by_transport.

Definition smp_send_ltk_reply (p_data : tSMP_INT_DATA) : M unit :=
  stk ← member_key p_data;
  bda ← gets pairing_bda;
  emit (btm_ble_ltk_request_reply bda true stk).

(** ** Receiving *)
Definition smp_proc_sec_req (p_data : tSMP_INT_DATA) : M unit :=
  bad ← smp_command_has_invalid_length;
  if bad : bool then auth_cmpl SMP_INVALID_PARAMETERS else
  p ← member_p_data p_data;
  '(auth_req, _) ← stream_u8 p;
  upd (fun c => c <| cb_evt := SMP_EVT_NONE |>) ;;
  bda ← gets pairing_bda; h ← history;
  emit (btm_ble_link_sec_check bda auth_req) ;;
  let sec_req_act := env_link_sec_check h bda auth_req in
  if sec_req_act =? BTM_BLE_SEC_REQ_ACT_ENCRYPT then ignore (smp_sm_event SMP_ENC_REQ_EVT NULL)
  else if sec_req_act =? BTM_BLE_SEC_REQ_ACT_PAIR then
    upd (fun c => c <| sc_only_mode_locally_required := init_security_mode c =? BTM_SEC_MODE_SC |>) ;;
    c ← get;
    if sc_only_mode_locally_required c && (Z.land auth_req SMP_SC_SUPPORT_BIT =? 0)
    then auth_cmpl SMP_PAIR_AUTH_FAIL
    else upd (fun c => c <| peer_auth_req := auth_req |> <| local_i_key := SMP_SEC_DEFAULT_KEY |>
      <| local_r_key := SMP_SEC_DEFAULT_KEY |> <| cb_evt := SMP_SEC_REQUEST_EVT |>)
  else when (sec_req_act =? BTM_BLE_SEC_REQ_ACT_DISCARD)
    (upd (fun c => c <| discard_sec_req := true |>)).

Definition smp_proc_sec_grant (p_data : tSMP_INT_DATA) : M unit :=
  res ← member_status p_data;
  if negb (res =? SMP_SUCCESS) then ignore (smp_sm_event SMP_AUTH_CMPL_EVT p_data)
  else upd (fun c => c <| cb_evt := SMP_IO_CAP_REQ_EVT |>).

Definition smp_proc_pair_fail (p_data : tSMP_INT_DATA) : M unit :=
  n ← gets rcvd_cmd_len;
  (if n <? 2 then upd (fun c => c <| status := SMP_INVALID_PARAMETERS |>)
   else
     p ← member_p_data p_data;
     '(s, _) ← stream_u8 p;
     upd (fun c => c <| status := s |>)) ;;
  upd (fun c => c <| delayed_auth_timer_ent ::= alarm_cancel |>).

(** The six octets of a pairing request or response. *)
Definition read_pairing_cmd (p : list Z) : M unit :=
  '(io, p) ← stream_u8 p; '(oob, p) ← stream_u8 p; '(auth, p) ← stream_u8 p;
  '(size, p) ← stream_u8 p; '(i, p) ← stream_u8 p; '(r, _) ← stream_u8 p;
  upd (fun c => c <| peer_io_caps := io |> <| peer_oob_flag := oob |>
    <| peer_auth_req := auth |> <| peer_enc_size := size |>
    <| peer_i_key := i |> <| peer_r_key := r |>).

(** [p_cb->selected_association_model = smp_select_association_model(p_cb)], and
    whether secure connections only mode rules the result out *)
Definition select_model : M bool :=
  m ← smp_select_association_model;
  upd (fun c => c <| selected_association_model := m |>) ;;
  c ← get;
  mret (sc_only_mode_locally_required c &&
    (negb (sc_mode_required_by_peer c) || (m =? SMP_MODEL_SEC_CONN_JUSTWORKS))).

Definition smp_proc_pair_cmd (p_data : tSMP_INT_DATA) : M unit :=
  p ← member_p_data p_data;
  c ← get;
  when (role c =? HCI_ROLE_PERIPHERAL) erase_keys ;;
  set_flag SMP_PAIR_FLAG_ENC_AFTER_PAIR ;;
  bad ← smp_command_has_invalid_length;
  if bad : bool then auth_cmpl SMP_INVALID_PARAMETERS else
  read_pairing_cmd p ;;
  reason ← gets cert_failure;
  if reason =? SMP_ENC_KEY_SIZE then auth_cmpl reason else
  bad ← smp_command_has_invalid_parameters;
  if bad : bool then auth_cmpl SMP_INVALID_PARAMETERS else
  stop ← pts_test_send_authentication_complete_failure;
  if stop : bool then mret () else
  c ← get;
  if role c =? HCI_ROLE_PERIPHERAL then
    if negb (has (flags c) SMP_PAIR_FLAGS_WE_STARTED_DD) then
      upd (fun c => c <| local_i_key := peer_i_key c |> <| local_r_key := peer_r_key c |>
        <| cb_evt := SMP_IO_CAP_REQ_EVT |>)
    else
      restrict_keys ;;
      ruled_out ← select_model;
      if ruled_out : bool then auth_cmpl SMP_PAIR_AUTH_FAIL else
      m ← gets selected_association_model;
      if m =? SMP_MODEL_SEC_CONN_OOB then ignore smp_request_oob_data
      else smp_send_pair_rsp
  else
    ruled_out ← select_model;
    if ruled_out : bool then auth_cmpl SMP_PAIR_AUTH_FAIL else
    m ← gets selected_association_model;
    if m =? SMP_MODEL_SEC_CONN_OOB then ignore smp_request_oob_data
    else smp_decide_association_model.

(** The guard most commands begin with. *)
Definition with_valid_parameters (m : M unit) : M unit :=
  bad ← smp_command_has_invalid_parameters;
  if bad : bool then auth_cmpl SMP_INVALID_PARAMETERS else m.

Definition smp_proc_confirm (p_data : tSMP_INT_DATA) : M unit :=
  with_valid_parameters
    (match p_data with
     | NULL => mret ()
     | _ => p ← member_p_data p_data; '(l, _) ← stream p 16; upd (fun c => c <| rconfirm := l |>)
     end ;;
     set_flag SMP_PAIR_FLAGS_CMD_CONFIRM_RCVD).

Definition smp_proc_rand (p_data : tSMP_INT_DATA) : M unit :=
  p ← member_p_data p_data;
  with_valid_parameters
    (c ← get;
     if negb (has (loc_auth_req c) SMP_SC_SUPPORT_BIT && has (peer_auth_req c) SMP_SC_SUPPORT_BIT) &&
        negb (has (flags c) SMP_PAIR_FLAGS_CMD_CONFIRM_SENT)
     then auth_cmpl SMP_INVALID_PARAMETERS
     else '(l, _) ← stream p 16; upd (fun c => c <| rrand := l |>)).

Definition smp_wait_for_both_public_keys : M unit :=
  c ← get;
  when (has (flags c) SMP_PAIR_FLAG_HAVE_PEER_PUBL_KEY &&
        has (flags c) SMP_PAIR_FLAG_HAVE_LOCAL_PUBL_KEY)
    (when ((role c =? HCI_ROLE_PERIPHERAL) &&
           ((req_oob_type c =? SMP_OOB_LOCAL) || (req_oob_type c =? SMP_OOB_BOTH)))
       (smp_set_state SMP_STATE_PUBLIC_KEY_EXCH) ;;
     ignore (smp_sm_event SMP_BOTH_PUBL_KEYS_RCVD_EVT NULL)).

Definition smp_process_pairing_public_key (p_data : tSMP_INT_DATA) : M unit :=
  p ← member_p_data p_data;
  with_valid_parameters
    ('(x, p) ← stream p 32; '(y, _) ← stream p 32;
     upd (fun c => c <| peer_publ_key := mk_tSMP_PUBLIC_KEY x y |>) ;;
     c ← get;
     if same x (pk_x (loc_publ_key c)) then auth_cmpl SMP_PAIR_AUTH_FAIL else
     valid ← of_option OutOfBounds (ECC_ValidatePoint (x, y));
     if negb valid then auth_cmpl SMP_PAIR_AUTH_FAIL else
     set_flag SMP_PAIR_FLAG_HAVE_PEER_PUBL_KEY ;;
     smp_wait_for_both_public_keys).

Definition smp_process_pairing_commitment (p_data : tSMP_INT_DATA) : M unit :=
  p ← member_p_data p_data;
  with_valid_parameters
    (set_flag SMP_PAIR_FLAG_HAVE_PEER_COMM ;;
     '(l, _) ← stream p 16; upd (fun c => c <| remote_commitment := l |>)).

Definition smp_process_dhkey_check (p_data : tSMP_INT_DATA) : M unit :=
  p ← member_p_data p_data;
  with_valid_parameters
    ('(l, _) ← stream p 16; upd (fun c => c <| remote_dhkey_check := l |>) ;;
     set_flag SMP_PAIR_FLAG_HAVE_PEER_DHK_CHK).

(** The status is read from the union that holds a pointer. *)
Definition smp_process_keypress_notification (p_data : tSMP_INT_DATA) : M unit :=
  p ← member_p_data p_data;
  s ← member_status p_data;
  upd (fun c => c <| status := s |>) ;;
  with_valid_parameters
    ('(k, _) ← stream_u8 p;
     upd (fun c => c <| peer_keypress_notification := k |> <| cb_evt := SMP_PEER_KEYPR_NOT_EVT |>)).

(** ** Pairing over BR/EDR *)
Definition smp_br_process_pairing_command (p_data : tSMP_INT_DATA) : M unit :=
  p ← member_p_data p_data;
  c ← get; h ← history;
  p_dev_rec ← of_option NullDeref (env_find_dev h (pairing_bda c));
  if negb (new_encryption_key_is_p256 p_dev_rec) && (role c =? HCI_ROLE_PERIPHERAL)
  then br_auth_cmpl SMP_XTRANS_DERIVE_NOT_ALLOW else
  when (role c =? HCI_ROLE_PERIPHERAL) (emit (btm_sec_clear_ble_keys (pairing_bda c))) ;;
  set_flag SMP_PAIR_FLAG_ENC_AFTER_PAIR ;;
  bad ← smp_command_has_invalid_length;
  if bad : bool then br_auth_cmpl SMP_INVALID_PARAMETERS else
  read_pairing_cmd p ;;
  bad ← smp_command_has_invalid_parameters;
  if bad : bool then br_auth_cmpl SMP_INVALID_PARAMETERS else
  upd (fun c => c <| local_i_key := peer_i_key c |> <| local_r_key := peer_r_key c |>) ;;
  c ← get;
  when (role c =? HCI_ROLE_PERIPHERAL)
    (emit (clear_new_encryption_key_is_p256 (pairing_bda c)) ;;
     upd (fun c => c <| cb_evt := SMP_BR_KEYS_REQ_EVT |>)) ;;
  upd (fun c => c <| peer_auth_req ::= fun a => Z.lor a SMP_AUTH_BOND |>
    <| loc_auth_req ::= fun a => Z.lor a SMP_AUTH_BOND |>).

Definition smp_br_process_security_grant (p_data : tSMP_INT_DATA) : M unit :=
  s ← member_status p_data;
  if negb (s =? SMP_SUCCESS) then smp_br_state_machine_event SMP_BR_AUTH_CMPL_EVT p_data
  else upd (fun c => c <| cb_evt := SMP_BR_KEYS_REQ_EVT |>).

Definition smp_br_check_authorization_request : M unit :=
  upd (fun c => c <| local_i_key ::= fun k => clear k SMP_SEC_KEY_TYPE_LK |>
    <| local_r_key ::= fun k => clear k SMP_SEC_KEY_TYPE_LK |>) ;;
  c ← get;
  when (role c =? HCI_ROLE_CENTRAL)
    (upd (fun c => c <| local_r_key ::= Z.land (Z.lor SMP_SEC_KEY_TYPE_ID SMP_SEC_KEY_TYPE_CSRK) |>)) ;;
  when (has (loc_auth_req c) SMP_H7_SUPPORT_BIT && has (peer_auth_req c) SMP_H7_SUPPORT_BIT)
    (upd (fun c => c <| key_derivation_h7_used := true |>)) ;;
  c ← get;
  if nz (local_i_key c) || nz (local_r_key c) then
    smp_br_state_machine_event SMP_BR_BOND_REQ_EVT NULL ;;
    c ← get;
    when ((role c =? HCI_ROLE_CENTRAL) && (local_r_key c =? 0)) smp_key_distribution_by_transport
  else br_auth_cmpl SMP_SUCCESS.

Definition smp_br_send_pair_response : M unit :=
  restrict_keys ;; ignore (smp_send_cmd SMP_OPCODE_PAIRING_RSP).

Definition smp_br_process_peripheral_keys_response : M unit := smp_br_send_pair_response.

(** ** Key distribution *)
Definition smp_distribute_act : list (M unit) :=
  [smp_generate_ltk; smp_send_id_info; smp_generate_csrk; smp_set_derive_link_key].

(** The first key of [key_to_dist] from bit [i] on. *)
Fixpoint pick_key (acts : list (M unit)) (key_to_dist : Z) (i : Z) : M unit :=
  match acts with
  | [] => mret ()
  | act :: acts => if has key_to_dist (Z.shiftl 1 i) then act else pick_key acts key_to_dist (i + 1)
  end.

Definition smp_key_pick_key : M unit :=
  c ← get;
  pick_key (take SMP_KEY_DIST_TYPE_MAX smp_distribute_act)
    (if role c =? HCI_ROLE_PERIPHERAL then local_r_key c else local_i_key c) 0.

Definition pick_if_our_turn : M unit :=
  c ← get;
  when ((role c =? HCI_ROLE_PERIPHERAL) || ((local_r_key c =? 0) && (role c =? HCI_ROLE_CENTRAL)))
    smp_key_pick_key.

(** [smp_key_distribution] *)
Definition key_distribution_body : M unit :=
  pick_if_our_turn ;;
  c ← get;
  when ((local_i_key c =? 0) && (local_r_key c =? 0) && (state c =? SMP_STATE_BOND_PENDING))
    (when (derive_lk c)
       (h ← history;
        p_dev_rec ← of_option NullDeref (env_find_dev h (pairing_bda c));
        (if negb (has (sec_flags p_dev_rec) BTM_SEC_LE_LINK_KEY_AUTHED) &&
            has (sec_flags p_dev_rec) BTM_SEC_LINK_KEY_AUTHED
         then mret () else smp_derive_link_key_from_long_term_key) ;;
        upd (fun c => c <| derive_lk := false |>)) ;;
     c ← get;
     if total_tx_unacked c =? 0 then
       when (negb (alarm_is_scheduled (delayed_auth_timer_ent c)))
         (t ← alarm_set_on_mloop (delayed_auth_timer_ent c) SMP_DELAYED_AUTH_TIMEOUT_MS;
          upd (fun c => c <| delayed_auth_timer_ent := t |>))
     else upd (fun c => c <| wait_for_authorization_complete := true |>)).

(** [smp_br_select_next_key] *)
Definition br_select_next_key_body : M unit :=
  pick_if_our_turn ;;
  c ← get;
  when ((local_i_key c =? 0) && (local_r_key c =? 0) && (br_state c =? SMP_BR_STATE_BOND_PENDING))
    (if total_tx_unacked c =? 0 then br_auth_cmpl SMP_SUCCESS
     else upd (fun c => c <| wait_for_authorization_complete := true |>)).

Definition smp_proc_enc_info (p_data : tSMP_INT_DATA) : M unit :=
  p ← member_p_data p_data;
  with_valid_parameters
    ('(l, _) ← stream p 16; upd (fun c => c <| ltk := l |>) ;; smp_key_distribution).

Definition smp_proc_central_id (p_data : tSMP_INT_DATA) : M unit :=
  p ← member_p_data p_data;
  n ← gets rcvd_cmd_len;
  if n <? 11 then mret () else
  smp_update_key_mask SMP_SEC_KEY_TYPE_ENC true ;;
  '(e0, p) ← stream_u8 p; '(e1, p) ← stream_u8 p; '(r, _) ← stream p 8;
  c ← get;
  when (both_bond c)
    (emit (btm_sec_save_le_key (pairing_bda c) BTM_LE_KEY_PENC
      (Some (penc_key (ltk c) r (e0 + Z.shiftl e1 8) (sec_level c) (loc_enc_size c))) true)) ;;
  smp_key_distribution.

Definition smp_proc_id_info (p_data : tSMP_INT_DATA) : M unit :=
  p ← member_p_data p_data;
  with_valid_parameters
    ('(l, _) ← stream p 16; upd (fun c => c <| tk := l |>) ;; smp_key_distribution_by_transport).

Definition smp_proc_id_addr (p_data : tSMP_INT_DATA) : M unit :=
  p ← member_p_data p_data;
  with_valid_parameters
    (smp_update_key_mask SMP_SEC_KEY_TYPE_ID true ;;
     '(t, p) ← stream_u8 p; '(a, _) ← stream p 6;
     upd (fun c => c <| id_addr_rcvd := true |> <| id_addr_type := t |> <| id_addr := rev a |>) ;;
     c ← get;
     when (both_bond c)
       (emit (btm_sec_save_le_key (pairing_bda c) BTM_LE_KEY_PID
          (Some (pid_key (tk c) t (rev a))) true) ;;
        upd (fun c => c <| cb_evt := SMP_LE_ADDR_ASSOC_EVT |>) ;;
        smp_send_app_cback NULL) ;;
     smp_key_distribution_by_transport).

Definition smp_proc_srk_info (p_data : tSMP_INT_DATA) : M unit :=
  with_valid_parameters
    (smp_update_key_mask SMP_SEC_KEY_TYPE_CSRK true ;;
     when env_save_peer_csrk_after_ltk_gen smp_key_distribution_by_transport ;;
     level ← gets sec_level;
     p ← member_p_data p_data;
     '(l, _) ← stream p 16;
     c ← get;
     when (both_bond c)
       (emit (btm_sec_save_le_key (pairing_bda c) BTM_LE_KEY_PCSRK
         (Some (pcsrk_key 0 l level)) true)) ;;
     when (negb env_save_peer_csrk_after_ltk_gen) smp_key_distribution_by_transport).

(** ** Legacy pairing *)
(** [if (p_cb->peer_enc_size < p_cb->loc_enc_size) p_cb->loc_enc_size = p_cb->peer_enc_size] *)
Definition save_smaller_key_size : M unit :=
  upd (fun c => if peer_enc_size c <? loc_enc_size c
    then c <| loc_enc_size := peer_enc_size c |> else c).

Definition take_peer_keys : M unit :=
  upd (fun c => c <| local_i_key := peer_i_key c |> <| local_r_key := peer_r_key c |>).

Definition smp_proc_compare (p_data : tSMP_INT_DATA) : M unit :=
  k ← member_key p_data;
  c ← get;
  if same (rconfirm c) k then
    save_smaller_key_size ;;
    if role c =? HCI_ROLE_PERIPHERAL then ignore (smp_sm_event SMP_RAND_EVT NULL)
    else take_peer_keys ;; ignore (smp_sm_event SMP_ENC_REQ_EVT NULL)
  else
    upd (fun c => c <| failure := SMP_CONFIRM_VALUE_ERR |>) ;; auth_cmpl SMP_CONFIRM_VALUE_ERR.

Definition smp_proc_sl_key (p_data : tSMP_INT_DATA) : M unit :=
  key_type ← member_key_type p_data;
  if key_type =? SMP_KEY_TYPE_TK then smp_generate_srand_mrand_confirm
  else when (key_type =? SMP_KEY_TYPE_CFM)
    (smp_set_state SMP_STATE_WAIT_CONFIRM ;;
     f ← gets flags;
     when (has f SMP_PAIR_FLAGS_CMD_CONFIRM_RCVD) (ignore (smp_sm_event SMP_CONFIRM_EVT NULL))).

(** ** Encryption and the end of a pairing *)
Definition btm_ble_start_encrypt_ (use_stk : bool) (stk : option (list Z)) : M Z :=
  bda ← gets pairing_bda; h ← history;
  emit (btm_ble_start_encrypt bda use_stk stk) ;; mret (env_start_encrypt h bda).

Definition smp_start_enc (p_data : tSMP_INT_DATA) : M unit :=
  cmd ← match p_data with
    | NULL => btm_ble_start_encrypt_ false None
    | _ => k ← member_key p_data; btm_ble_start_encrypt_ true (Some k)
    end;
  when (negb (cmd =? BTM_CMD_STARTED) && negb (cmd =? BTM_BUSY)) (auth_cmpl SMP_ENC_FAIL).

Definition smp_proc_discard : M unit :=
  f ← gets flags;
  when (negb (has f SMP_PAIR_FLAGS_WE_STARTED_DD)) smp_reset_control_value.

Definition smp_enc_cmpl (p_data : tSMP_INT_DATA) : M unit :=
  enc_enable ← member_status p_data;
  auth_cmpl (if nz enc_enable then SMP_SUCCESS else SMP_ENC_FAIL).

Definition smp_sirk_verify (p_data : tSMP_INT_DATA) : M unit :=
  s ← member_status p_data;
  if negb (s =? SMP_SUCCESS)
  then ignore (smp_sm_event SMP_SIRK_DEVICE_VALID_EVT (u_status SMP_SIRK_DEVICE_INVALID))
  else
    c ← get;
    match p_callback c with
    | Some cb =>
        upd (fun c => c <| cb_evt := SMP_SIRK_VERIFICATION_REQ_EVT |>) ;;
        '(callback_rc, _) ← call_app cb SMP_SIRK_VERIFICATION_REQ_EVT (pairing_bda c) evt_none;
        when (callback_rc =? BTM_SUCCESS_NO_SECURITY)
          (ignore (smp_sm_event SMP_SIRK_DEVICE_VALID_EVT (u_status SMP_SUCCESS)))
    | None => mret ()
    end.

(** The keys to exchange after encryption, in [smp_check_auth_req]. *)
Definition adjust_keys (c : tSMP_CB) : tSMP_CB :=
  let no_lk c := c <| local_i_key ::= fun k => clear k SMP_SEC_KEY_TYPE_LK |>
    <| local_r_key ::= fun k => clear k SMP_SEC_KEY_TYPE_LK |> in
  if sc_mode_required_by_peer c then
    let c := c <| local_i_key ::= fun k => Z.lor k SMP_SEC_KEY_TYPE_ENC |>
      <| local_r_key ::= fun k => Z.lor k SMP_SEC_KEY_TYPE_ENC |> in
    let c := if negb (has (local_i_key c) SMP_SEC_KEY_TYPE_LK) ||
        negb (has (local_r_key c) SMP_SEC_KEY_TYPE_LK) then no_lk c else c in
    if role c =? HCI_ROLE_CENTRAL
    then c <| local_r_key ::= Z.land (Z.lor SMP_SEC_KEY_TYPE_ID SMP_SEC_KEY_TYPE_CSRK) |>
    else c
  else no_lk c.

Definition smp_check_auth_req (p_data : tSMP_INT_DATA) : M unit :=
  enc_enable ← member_status p_data;
  if enc_enable =? 1 then
    upd adjust_keys ;;
    c ← get;
    if nz (local_i_key c) || nz (local_r_key c) then ignore (smp_sm_event SMP_BOND_REQ_EVT NULL)
    else auth_cmpl SMP_SUCCESS
  else when (enc_enable =? 0)
    (c ← get;
     if has (flags c) SMP_PAIR_FLAG_ENC_AFTER_PAIR then auth_cmpl SMP_ENC_FAIL
     else when (role c =? HCI_ROLE_CENTRAL) (auth_cmpl SMP_ENC_FAIL)).

Definition smp_process_io_response : M unit :=
  f ← gets flags;
  if has f SMP_PAIR_FLAGS_WE_STARTED_DD then
    smp_set_state SMP_STATE_SEC_REQ_PENDING ;;
    ignore (smp_send_cmd SMP_OPCODE_SEC_REQ)
  else
    ruled_out ← select_model;
    if ruled_out : bool then auth_cmpl SMP_PAIR_AUTH_FAIL else
    c ← get;
    (* whether the function has returned *)
    stop ← (if selected_association_model c =? SMP_MODEL_SEC_CONN_OOB then
        if loc_oob_flag c =? SMP_OOB_NONE then
          when (negb env_remove_dup_pairing_response) smp_send_pair_rsp ;; mret false
        else if loc_oob_flag c =? SMP_OOB_PRESENT then smp_request_oob_data
        else if loc_oob_flag c =? SMP_OOB_UNKNOWN then
          smp_send_pair_fail (u_status SMP_PAIR_AUTH_FAIL) ;; mret true
        else mret false
      else mret false);
    if stop : bool then mret () else
    stop ← pts_test_send_authentication_complete_failure;
    if stop : bool then mret () else smp_send_pair_rsp.

Definition smp_pairing_cmpl : M unit :=
  n ← gets total_tx_unacked; when (n =? 0) smp_proc_pairing_cmpl.
Definition smp_br_pairing_complete : M unit := smp_pairing_cmpl.

Definition smp_pair_terminate : M unit :=
  upd (fun c => c <| status := SMP_CONN_TOUT |>) ;; smp_proc_pairing_cmpl.

Definition smp_idle_terminate : M unit :=
  f ← gets flags;
  when (has f SMP_PAIR_FLAGS_WE_STARTED_DD)
    (upd (fun c => c <| status := SMP_FAIL |>) ;; smp_proc_pairing_cmpl).

(** ** Secure connections *)
Definition smp_both_have_public_keys : M unit :=
  smp_compute_dhkey ;;
  r ← gets role;
  when (r =? HCI_ROLE_PERIPHERAL) smp_send_pair_public_key ;;
  ignore (smp_sm_event SMP_SC_DHKEY_CMPLT_EVT NULL).

(** [p_cb->failure = s; smp_sm_event(p_cb, SMP_AUTH_CMPL_EVT, &s)] *)
Definition fail_pairing (s : Z) : M unit :=
  upd (fun c => c <| failure := s |>) ;; auth_cmpl s.

Definition smp_process_secure_connection_oob_data : M unit :=
  upd (fun c => c <| local_random :=
    if loc_present (loc_oob_data (sc_oob_data c)) then loc_randomizer (loc_oob_data (sc_oob_data c))
    else zero16 |>) ;;
  c ← get;
  let peer := peer_oob_data (sc_oob_data c) in
  if (peer_oob_flag c =? SMP_OOB_PRESENT) && negb (loc_present (loc_oob_data (sc_oob_data c)))
  then auth_cmpl SMP_OOB_FAIL
  else if negb (peer_present peer) then
    upd (fun c => c <| peer_random := zero16 |>) ;; smp_start_nonce_generation
  else
    upd (fun c => c <| peer_random := peer_randomizer peer |>
      <| remote_commitment := peer_commitment peer |>) ;;
    ok ← smp_check_commitment;
    if negb ok then fail_pairing SMP_CONFIRM_VALUE_ERR else
    when (negb (peer_oob_flag c =? SMP_OOB_PRESENT)) (upd (fun c => c <| local_random := zero16 |>)) ;;
    smp_start_nonce_generation.

Definition smp_start_secure_connection_phase1 : M unit :=
  c ← get;
  let m := selected_association_model c in
  upd (fun c => c <| sec_level := if m =? SMP_MODEL_SEC_CONN_JUSTWORKS
    then SMP_SEC_UNAUTHENTICATE else SMP_SEC_AUTHENTICATED |>) ;;
  if is_sc_justworks_or_nc m then
    upd (fun c => c <| local_random := zero16 |>) ;; smp_start_nonce_generation
  else if m =? SMP_MODEL_SEC_CONN_PASSKEY_ENT then
    upd (fun c => c <| cb_evt := SMP_PASSKEY_REQ_EVT |>) ;;
    ignore (smp_sm_event SMP_TK_REQ_EVT NULL)
  else if m =? SMP_MODEL_SEC_CONN_PASSKEY_DISP then smp_generate_passkey
  else when (m =? SMP_MODEL_SEC_CONN_OOB) smp_process_secure_connection_oob_data.

Definition smp_process_local_nonce : M unit :=
  c ← get;
  let m := selected_association_model c in
  let have_peer_comm := has (flags c) SMP_PAIR_FLAG_HAVE_PEER_COMM in
  if is_sc_justworks_or_nc m then
    if role c =? HCI_ROLE_PERIPHERAL then
      smp_calculate_local_commitment ;; smp_send_commitment ;; smp_set_state SMP_STATE_WAIT_NONCE
    else when have_peer_comm
      (clear_flag SMP_PAIR_FLAG_HAVE_PEER_COMM ;; smp_send_rand ;;
       smp_set_state SMP_STATE_WAIT_NONCE)
  else if is_sc_passkey m then
    smp_calculate_local_commitment ;;
    if role c =? HCI_ROLE_CENTRAL then smp_send_commitment
    else when have_peer_comm (smp_send_commitment ;; smp_set_state SMP_STATE_WAIT_NONCE)
  else when (m =? SMP_MODEL_SEC_CONN_OOB)
    (when (role c =? HCI_ROLE_CENTRAL) smp_send_rand ;; smp_set_state SMP_STATE_WAIT_NONCE).

(** [smp_process_peer_nonce] for Just Works and Numeric Comparison *)
Definition peer_nonce_justworks_or_nc : M unit :=
  c ← get;
  ok ← (if role c =? HCI_ROLE_CENTRAL then smp_check_commitment
        else smp_send_rand ;; mret true);
  if negb ok then fail_pairing SMP_CONFIRM_VALUE_ERR else
  c ← get;
  if selected_association_model c =? SMP_MODEL_SEC_CONN_JUSTWORKS then
    if negb env_isAndroidTVDevice &&
       ((local_io_capability c =? SMP_IO_CAP_IO) || (local_io_capability c =? SMP_IO_CAP_KBDISP))
    then
      upd (fun c => c <| cb_evt := SMP_CONSENT_REQ_EVT |>) ;;
      smp_set_state SMP_STATE_WAIT_NONCE ;;
      ignore (smp_sm_event SMP_SC_DSPL_NC_EVT NULL)
    else ignore (smp_sm_event SMP_SC_PHASE1_CMPLT_EVT NULL)
  else
    smp_set_state SMP_STATE_WAIT_NONCE ;;
    ignore (smp_sm_event SMP_SC_CALC_NC_EVT NULL).

(** [smp_process_peer_nonce] for the two Passkey Entry models *)
Definition peer_nonce_passkey : M unit :=
  ok ← smp_check_commitment;
  c ← get;
  if negb ok && negb (cert_failure c =? SMP_NUMERIC_COMPAR_FAIL)
  then fail_pairing SMP_CONFIRM_VALUE_ERR else
  when (role c =? HCI_ROLE_PERIPHERAL) smp_send_rand ;;
  upd (fun c => c <| round ::= fun n => u8 (n + 1) |>) ;;
  n ← gets round;
  if n <? 20 then
    smp_set_state SMP_STATE_SEC_CONN_PHS1_START ;;
    clear_flag SMP_PAIR_FLAG_HAVE_PEER_COMM ;;
    smp_start_nonce_generation
  else ignore (smp_sm_event SMP_SC_PHASE1_CMPLT_EVT NULL).

Definition smp_process_peer_nonce : M unit :=
  c ← get;
  let m := selected_association_model c in
  if cert_failure c =? SMP_CONFIRM_VALUE_ERR then fail_pairing SMP_CONFIRM_VALUE_ERR
  else if (cert_failure c =? SMP_NUMERIC_COMPAR_FAIL) && (m =? SMP_MODEL_SEC_CONN_JUSTWORKS) &&
    (role c =? HCI_ROLE_PERIPHERAL) then fail_pairing SMP_NUMERIC_COMPAR_FAIL
  else if is_sc_justworks_or_nc m then peer_nonce_justworks_or_nc
  else if is_sc_passkey m then peer_nonce_passkey
  else when (m =? SMP_MODEL_SEC_CONN_OOB)
    (when (role c =? HCI_ROLE_PERIPHERAL) smp_send_rand ;;
     ignore (smp_sm_event SMP_SC_PHASE1_CMPLT_EVT NULL)).

Definition smp_match_dhkey_checks (p_data : tSMP_INT_DATA) : M unit :=
  k ← member_key p_data;
  c ← get;
  if negb (same k (remote_dhkey_check c)) then fail_pairing SMP_DHKEY_CHK_FAIL else
  save_smaller_key_size ;;
  if role c =? HCI_ROLE_PERIPHERAL then ignore (smp_sm_event SMP_PAIR_DHKEY_CHCK_EVT NULL)
  else take_peer_keys ;; ignore (smp_sm_event SMP_ENC_REQ_EVT NULL).

Definition smp_move_to_secure_connections_phase2 : M unit :=
  ignore (smp_sm_event SMP_SC_PHASE1_CMPLT_EVT NULL).

Definition smp_phase_2_dhkey_checks_are_present : M unit :=
  f ← gets flags;
  when (has f SMP_PAIR_FLAG_HAVE_PEER_DHK_CHK)
    (ignore (smp_sm_event SMP_SC_2_DHCK_CHKS_PRES_EVT NULL)).

Definition smp_start_passkey_verification (p_data : tSMP_INT_DATA) : M unit :=
  k ← member_passkey p_data;
  upd (fun c => c <| local_random ::= fun l => overwrite l (le_octets 4 k) |>
    <| peer_random ::= fun l => overwrite l (le_octets 4 k) |> <| round := 0 |>) ;;
  smp_start_nonce_generation.

Definition smp_set_local_oob_keys : M unit :=
  upd (fun c => c <| sc_oob_data ::= fun o => o <| loc_oob_data ::= fun l =>
    l <| private_key_used := private_key c |> <| publ_key_used := loc_publ_key c |> |> |>) ;;
  smp_start_nonce_generation.

Definition smp_set_local_oob_random_commitment : M unit :=
  upd (fun c => c <| sc_oob_data ::= fun o => o <| loc_oob_data ::= fun l =>
    l <| loc_randomizer := rand c |>
      <| loc_commitment := f4 (pk_x (publ_key_used l)) (pk_x (publ_key_used l)) (rand c) 0 |>
      <| loc_present := true |> |> |>
    <| cb_evt := SMP_SC_LOC_OOB_DATA_UP_EVT |>) ;;
  smp_send_app_cback NULL ;;
  smp_save_local_oob_data ;;
  reset.
End act.
