(* ===== verification/SmpMain.v ===== *)
(** * The SMP state machines and what calls them

    The dispatchers of [stack/smp/smp_main.cc] and [stack/smp/smp_br_main.cc] with
    their action tables, tied into a knot by a recursion bound; the callbacks of
    [stack/smp/smp_l2c.cc]; the interface of [stack/smp/smp_api.cc]; and the inputs
    of the whole component as one type. *)
From S2P Require Import Prelude SmpDefs SmpTables SmpMonad SmpUtils SmpKeys SmpAct.

Definition SMP_SM_IGNORE : Z := 0.
Definition SMP_ALL_TBL_MASK : Z := 0x80.

Section dispatch.
Context `{Env} `{Crypto} `{Machines}.

(** The action an index of [smp_sm_action] stands for; none for [SMP_SM_NO_ACTION]. *)
Definition smp_sm_action (a : action) (p_data : tSMP_INT_DATA) : option (M unit) :=
  match a with
  | SMP_PROC_SEC_REQ => Some (smp_proc_sec_req p_data)
  | SMP_SEND_PAIR_REQ => Some smp_send_pair_req
  | SMP_SEND_PAIR_RSP => Some smp_send_pair_rsp
  | SMP_SEND_CONFIRM => Some smp_send_confirm
  | SMP_SEND_PAIR_FAIL => Some (smp_send_pair_fail p_data)
  | SMP_SEND_RAND => Some smp_send_rand
  | SMP_SEND_ENC_INFO => Some smp_send_enc_info
  | SMP_SEND_ID_INFO => Some smp_send_id_info
  | SMP_SEND_LTK_REPLY => Some (smp_send_ltk_reply p_data)
  | SMP_PROC_PAIR_CMD => Some (smp_proc_pair_cmd p_data)
  | SMP_PROC_PAIR_FAIL => Some (smp_proc_pair_fail p_data)
  | SMP_PROC_CONFIRM => Some (smp_proc_confirm p_data)
  | SMP_PROC_RAND => Some (smp_proc_rand p_data)
  | SMP_PROC_ENC_INFO => Some (smp_proc_enc_info p_data)
  | SMP_PROC_CENTRAL_ID => Some (smp_proc_central_id p_data)
  | SMP_PROC_ID_INFO => Some (smp_proc_id_info p_data)
  | SMP_PROC_ID_ADDR => Some (smp_proc_id_addr p_data)
  | SMP_PROC_SRK_INFO => Some (smp_proc_srk_info p_data)
  | SMP_PROC_SEC_GRANT => Some (smp_proc_sec_grant p_data)
  | SMP_PROC_SL_KEY => Some (smp_proc_sl_key p_data)
  | SMP_PROC_COMPARE => Some (smp_proc_compare p_data)
  | SMP_PROC_IO_RSP => Some smp_process_io_response
  | SMP_GENERATE_COMPARE => Some smp_generate_compare
  | SMP_GENERATE_CONFIRM => Some smp_generate_srand_mrand_confirm
  | SMP_GENERATE_STK => Some smp_generate_stk
  | SMP_KEY_DISTRIBUTE => Some smp_key_distribution
  | SMP_START_ENC => Some (smp_start_enc p_data)
  | SMP_PAIRING_CMPL => Some smp_pairing_cmpl
  | SMP_DECIDE_ASSO_MODEL => Some smp_decide_association_model
  | SMP_SEND_APP_CBACK => Some (smp_send_app_cback p_data)
  | SMP_CHECK_AUTH_REQ => Some (smp_check_auth_req p_data)
  | SMP_PAIR_TERMINATE => Some smp_pair_terminate
  | SMP_ENC_CMPL => Some (smp_enc_cmpl p_data)
  | SMP_SIRK_VERIFY => Some (smp_sirk_verify p_data)
  | SMP_PROC_DISCARD => Some smp_proc_discard
  | SMP_CREATE_PRIVATE_KEY => Some smp_create_private_key
  | SMP_USE_OOB_PRIVATE_KEY => Some smp_use_oob_private_key
  | SMP_SEND_PAIR_PUBLIC_KEY => Some smp_send_pair_public_key
  | SMP_PROCESS_PAIR_PUBLIC_KEY => Some (smp_process_pairing_public_key p_data)
  | SMP_HAVE_BOTH_PUBLIC_KEYS => Some smp_both_have_public_keys
  | SMP_START_SEC_CONN_PHASE1 => Some smp_start_secure_connection_phase1
  | SMP_PROCESS_LOCAL_NONCE => Some smp_process_local_nonce
  | SMP_SEND_COMMITMENT => Some smp_send_commitment
  | SMP_PROCESS_PAIRING_COMMITMENT => Some (smp_process_pairing_commitment p_data)
  | SMP_PROCESS_PEER_NONCE => Some smp_process_peer_nonce
  | SMP_CALCULATE_LOCAL_DHKEY_CHECK => Some smp_calculate_local_dhkey_check
  | SMP_SEND_DHKEY_CHECK => Some smp_send_dhkey_check
  | SMP_PROCESS_DHKEY_CHECK => Some (smp_process_dhkey_check p_data)
  | SMP_CALCULATE_PEER_DHKEY_CHECK => Some smp_calculate_peer_dhkey_check
  | SMP_MATCH_DHKEY_CHECKS => Some (smp_match_dhkey_checks p_data)
  | SMP_CALCULATE_NUMERIC_COMPARISON_DISPLAY_NUMBER => Some smp_calculate_numeric_comparison_display_number
  | SMP_MOVE_TO_SEC_CONN_PHASE2 => Some smp_move_to_secure_connections_phase2
  | SMP_PH2_DHKEY_CHECKS_ARE_PRESENT => Some smp_phase_2_dhkey_checks_are_present
  | SMP_WAIT_FOR_BOTH_PUBLIC_KEYS => Some smp_wait_for_both_public_keys
  | SMP_START_PASSKEY_VERIFICATION => Some (smp_start_passkey_verification p_data)
  | SMP_SEND_KEYPRESS_NOTIFICATION => Some (smp_send_keypress_notification p_data)
  | SMP_PROCESS_KEYPRESS_NOTIFICATION => Some (smp_process_keypress_notification p_data)
  | SMP_PROCESS_SECURE_CONNECTION_OOB_DATA => Some smp_process_secure_connection_oob_data
  | SMP_SET_LOCAL_OOB_KEYS => Some smp_set_local_oob_keys
  | SMP_SET_LOCAL_OOB_RAND_COMMITMENT => Some smp_set_local_oob_random_commitment
  | SMP_IDLE_TERMINATE => Some smp_idle_terminate
  | SMP_SM_NO_ACTION => None
  end.

Definition smp_br_sm_action (a : br_action) (p_data : tSMP_INT_DATA) : option (M unit) :=
  match a with
  | BR_SMP_SEND_PAIR_REQ => Some smp_send_pair_req
  | SMP_BR_SEND_PAIR_RSP => Some smp_br_send_pair_response
  | BR_SMP_SEND_PAIR_FAIL => Some (smp_send_pair_fail p_data)
  | BR_SMP_SEND_ID_INFO => Some smp_send_id_info
  | SMP_BR_PROC_PAIR_CMD => Some (smp_br_process_pairing_command p_data)
  | BR_SMP_PROC_PAIR_FAIL => Some (smp_proc_pair_fail p_data)
  | BR_SMP_PROC_ID_INFO => Some (smp_proc_id_info p_data)
  | BR_SMP_PROC_ID_ADDR => Some (smp_proc_id_addr p_data)
  | BR_SMP_PROC_SRK_INFO => Some (smp_proc_srk_info p_data)
  | SMP_BR_PROC_SEC_GRANT => Some (smp_br_process_security_grant p_data)
  | SMP_BR_PROC_SL_KEYS_RSP => Some smp_br_process_peripheral_keys_response
  | SMP_BR_KEY_DISTRIBUTION => Some smp_br_select_next_key
  | SMP_BR_PAIRING_COMPLETE => Some smp_br_pairing_complete
  | BR_SMP_SEND_APP_CBACK => Some (smp_send_app_cback p_data)
  | SMP_BR_CHECK_AUTH_REQ => Some smp_br_check_authorization_request
  | BR_SMP_PAIR_TERMINATE => Some smp_pair_terminate
  | BR_SMP_IDLE_TERMINATE => Some smp_idle_terminate
  | SMP_BR_SM_NO_ACTION => None
  end.

(** The loop over the two actions of a row: it ends at the first missing one. *)
Definition run_actions (a1 a2 : option (M unit)) : M unit :=
  match a1, a2 with
  | None, _ => mret ()
  | Some a1, None => a1
  | Some a1, Some a2 => a1 ;; a2
  end.

(** [entry_table[event - 1][curr_state]] where the event is within the table *)
Definition find_entry (entry_table : list (list Z)) (max event curr_state : Z) : M Z :=
  if event <=? max then row ← index entry_table (event - 1); index row curr_state
  else mret SMP_SM_IGNORE.

(** The row of the table of the state, or of the table of all states. *)
Definition find_row {A} (all : list A) (tables : list (option (list A) * option (list A)))
    (entry curr_state role : Z) : M A :=
  if has entry SMP_ALL_TBL_MASK then index all (clear entry SMP_ALL_TBL_MASK - 1)
  else
    row ← index tables curr_state;
    t ← of_option NullDeref (if role =? 0 then row.1 else row.2);
    index t (entry - 1).

(** [smp_sm_event] *)
Definition sm_event_body (event : Z) (p_data : tSMP_INT_DATA) : M bool :=
  c ← get;
  if 2 <=? role c then mret false else
  entry_table ← index smp_entry_table (role c);
  if SMP_STATE_MAX <=? state c then mret false else
  entry ← find_entry entry_table SMP_MAX_EVT event (state c);
  if entry =? SMP_SM_IGNORE then mret false else
  '(a1, a2, next) ← find_row smp_all_table smp_state_table entry (state c) (role c);
  smp_set_state next ;;
  run_actions (smp_sm_action a1 p_data) (smp_sm_action a2 p_data) ;;
  mret true.

(** [smp_br_state_machine_event] *)
Definition br_event_body (event : Z) (p_data : tSMP_INT_DATA) : M unit :=
  c ← get;
  if SMP_BR_STATE_MAX <=? br_state c then mret () else
  if HCI_ROLE_PERIPHERAL <? role c then mret () else
  entry_table ← index smp_br_entry_table (role c);
  entry ← find_entry entry_table SMP_BR_MAX_EVT event (br_state c);
  if entry =? SMP_SM_IGNORE then mret () else
  '(a1, a2, next) ← find_row smp_br_all_table smp_br_state_table entry (br_state c) (role c);
  smp_set_br_state next ;;
  run_actions (smp_br_sm_action a1 p_data) (smp_br_sm_action a2 p_data).
End dispatch.

(** ** The knot *)
Section knot.
Context `{Env} `{Crypto}.

Fixpoint machines (fuel : nat) : Machines :=
  match fuel with
  | O => mkMachines (fun _ _ => fail OutOfFuel) (fun _ _ => fail OutOfFuel)
      (fail OutOfFuel) (fail OutOfFuel)
  | S n =>
      let inner := machines n in
      mkMachines sm_event_body br_event_body key_distribution_body br_select_next_key_body
  end.
End knot.

Section inputs.
Context `{Env} `{Crypto} `{Machines}.

(** ** L2CAP callbacks *)
Definition smp_connect_callback (bd_addr : RawAddress) (connected : bool) (transport : Z) : M unit :=
  if same bd_addr kEmpty then mret () else
  if transport =? BT_TRANSPORT_BR_EDR then mret () else
  c ← get;
  when (same bd_addr (pairing_bda c))
    (if connected then
       when (negb (connect_initialized c))
         (h ← history;
          upd (fun c => c <| connect_initialized := true |>
            <| role := env_GetBleConnRole h bd_addr |>
            <| local_r_key := SMP_SEC_DEFAULT_KEY |> <| local_i_key := SMP_SEC_DEFAULT_KEY |>
            <| loc_auth_req := SMP_DEFAULT_AUTH_REQ |> <| peer_auth_req := SMP_DEFAULT_AUTH_REQ |>
            <| cb_evt := SMP_IO_CAP_REQ_EVT |>) ;;
          ignore (smp_sm_event SMP_L2CAP_CONN_EVT NULL))
     else ignore (smp_sm_event SMP_L2CAP_DISCONN_EVT u_unset)).

Definition smp_data_received (channel : Z) (bd_addr : RawAddress) (p_buf : list Z) : M unit :=
  match p_buf with
  | [] => mret ()
  | cmd :: p =>
      if (SMP_OPCODE_MAX <? cmd) || (cmd <? SMP_OPCODE_MIN) then mret () else
      c ← get;
      stop ← (if (cmd =? SMP_OPCODE_PAIRING_REQ) || (cmd =? SMP_OPCODE_SEC_REQ) then
          if (state c =? SMP_STATE_IDLE) && (br_state c =? SMP_BR_STATE_IDLE) &&
             negb (has (flags c) SMP_PAIR_FLAGS_WE_STARTED_DD) then
            h ← history;
            upd (fun c => c <| role := env_GetBleConnRole h bd_addr |> <| pairing_bda := bd_addr |>) ;;
            mret false
          else if negb (same bd_addr (pairing_bda c)) then
            smp_reject_unexpected_pairing_command bd_addr ;; mret true
          else mret false
        else mret false);
      if stop : bool then mret () else
      c ← get;
      if same bd_addr (pairing_bda c) then
        start_rsp_timer ;;
        smp_log_metrics (pairing_bda c) false p_buf false ;;
        let cmd := if (cmd =? SMP_OPCODE_CONFIRM) && has (peer_auth_req c) SMP_SC_SUPPORT_BIT &&
            has (loc_auth_req c) SMP_SC_SUPPORT_BIT then SMP_OPCODE_PAIR_COMMITM else cmd in
        upd (fun c => c <| rcvd_cmd_code := cmd |>
          <| rcvd_cmd_len := u8 (Z.of_nat (length p_buf)) |>) ;;
        ignore (smp_sm_event cmd (u_p_data p))
      else emit (L2CA_RemoveFixedChnl channel bd_addr)
  end.

Definition smp_tx_complete_callback (cid num_pkt : Z) : M unit :=
  if negb env_l2cap_tx_complete_cb_info then mret () else
  upd (fun c => if num_pkt <=? total_tx_unacked c
    then c <| total_tx_unacked ::= fun n => n - num_pkt |> else c) ;;
  c ← get;
  when ((total_tx_unacked c =? 0) && wait_for_authorization_complete c)
    (if cid =? L2CAP_SMP_CID then auth_cmpl SMP_SUCCESS else br_auth_cmpl SMP_SUCCESS).

Definition smp_br_connect_callback (bd_addr : RawAddress) (connected : bool) (transport : Z) : M unit :=
  if negb (transport =? BT_TRANSPORT_BR_EDR) then mret () else
  c ← get; h ← history;
  if negb (same bd_addr (pairing_bda c)) &&
     (negb env_state_machine_stuck_fix ||
      match env_find_dev h bd_addr with
      | None => true
      | Some dev => negb (same (dev_RemoteAddress dev) (pairing_bda c))
      end)
  then mret () else
  if ((state c =? SMP_STATE_BOND_PENDING) || (state c =? SMP_STATE_IDLE)) &&
     match env_find_dev h (pairing_bda c) with
     | Some dev => is_link_key_known dev
     | None => false
     end &&
     alarm_is_scheduled (delayed_auth_timer_ent c)
  then mret () else
  if connected then
    when (negb (connect_initialized c))
      (upd (fun c => c <| connect_initialized := true |>
         <| local_r_key := SMP_BR_SEC_DEFAULT_KEY |> <| local_i_key := SMP_BR_SEC_DEFAULT_KEY |>
         <| loc_auth_req := 0 |> <| peer_auth_req := 0 |> <| cb_evt := SMP_BR_KEYS_REQ_EVT |>) ;;
       smp_br_state_machine_event SMP_BR_L2CAP_CONN_EVT NULL)
  else when (smp_over_br c) (smp_br_state_machine_event SMP_BR_L2CAP_DISCONN_EVT u_unset).

Definition smp_br_data_received (bd_addr : RawAddress) (p_buf : list Z) : M unit :=
  match p_buf with
  | [] => mret ()
  | cmd :: p =>
      if (SMP_OPCODE_MAX <? cmd) || (cmd <? SMP_OPCODE_MIN) then mret () else
      c ← get;
      stop ← (if cmd =? SMP_OPCODE_PAIRING_REQ then
          if (state c =? SMP_STATE_IDLE) && (br_state c =? SMP_BR_STATE_IDLE) then
            upd (fun c => c <| role := HCI_ROLE_PERIPHERAL |> <| smp_over_br := true |>
              <| pairing_bda := bd_addr |>) ;;
            mret false
          else if negb (same bd_addr (pairing_bda c)) then
            smp_reject_unexpected_pairing_command bd_addr ;; mret true
          else mret false
        else mret false);
      if stop : bool then mret () else
      c ← get;
      when (same bd_addr (pairing_bda c))
        (start_rsp_timer ;;
         smp_log_metrics (pairing_bda c) false p_buf true ;;
         upd (fun c => c <| rcvd_cmd_code := cmd |>
           <| rcvd_cmd_len := u8 (Z.of_nat (length p_buf)) |>) ;;
         smp_br_state_machine_event cmd (u_p_data p))
  end.

(** ** Events of the security manager and of the link *)
Definition smp_link_encrypted (bda : RawAddress) (encr_enable : Z) : M unit :=
  c ← get;
  when (same (pairing_bda c) bda)
    (when (nz (loc_enc_size c) && nz encr_enable)
       (emit (btm_ble_update_sec_key_size bda (loc_enc_size c))) ;;
     ignore (smp_sm_event SMP_ENCRYPTED_EVT (u_status encr_enable))).

Definition smp_cancel_start_encryption_attempt : M unit :=
  ignore (smp_sm_event SMP_DISCARD_SEC_REQ_EVT NULL).

Definition smp_proc_ltk_request (bda : RawAddress) : M bool :=
  c ← get; h ← history;
  let is_match := same bda (pairing_bda c) ||
    match env_find_dev h bda with
    | Some dev => same (dev_pseudo_addr dev) (pairing_bda c) && negb (same (dev_pseudo_addr dev) kEmpty)
    | None => false
    end in
  if is_match && (state c =? SMP_STATE_ENCRYPTION_PENDING)
  then ignore (smp_sm_event SMP_ENC_REQ_EVT NULL) ;; mret true
  else mret false.

(** ** The application interface *)
Definition SMP_Init (init_security_mode : Z) : M unit := init init_security_mode.

Definition SMP_Register (p_cback : Z) : M bool :=
  upd (fun c => c <| p_callback := Some p_cback |>) ;; mret true.

Definition L2CA_ConnectFixedChnl_ (cid : Z) (bda : RawAddress) : M bool :=
  h ← history; emit (L2CA_ConnectFixedChnl cid bda) ;; mret (env_ConnectFixedChnl h bda).

Definition busy (c : tSMP_CB) : bool :=
  negb (state c =? SMP_STATE_IDLE) || has (flags c) SMP_PAIR_FLAGS_WE_STARTED_DD || smp_over_br c.

Definition SMP_Pair (bd_addr : RawAddress) (addr_type : Z) : M Z :=
  c ← get;
  if busy c then mret SMP_BUSY else
  upd (fun c => c <| flags := SMP_PAIR_FLAGS_WE_STARTED_DD |> <| pairing_bda := bd_addr |>
    <| pairing_ble_bd_addr := mk_tBLE_BD_ADDR addr_type bd_addr |>) ;;
  ok ← L2CA_ConnectFixedChnl_ L2CAP_SMP_CID bd_addr;
  if negb ok then
    upd (fun c => c <| status := SMP_PAIR_INTERNAL_ERR |>) ;;
    auth_cmpl SMP_PAIR_INTERNAL_ERR ;;
    mret SMP_PAIR_INTERNAL_ERR
  else mret SMP_STARTED.

Definition SMP_BR_PairWith (bd_addr : RawAddress) : M Z :=
  c ← get;
  if busy c then mret SMP_BUSY else
  upd (fun c => c <| role := HCI_ROLE_CENTRAL |> <| flags := SMP_PAIR_FLAGS_WE_STARTED_DD |>
    <| smp_over_br := true |> <| pairing_bda := bd_addr |>) ;;
  ok ← L2CA_ConnectFixedChnl_ L2CAP_SMP_BR_CID bd_addr;
  if negb ok then
    upd (fun c => c <| status := SMP_PAIR_INTERNAL_ERR |>) ;;
    br_auth_cmpl SMP_PAIR_INTERNAL_ERR ;;
    mret SMP_PAIR_INTERNAL_ERR
  else mret SMP_STARTED.

Definition SMP_PairCancel (bd_addr : RawAddress) : M bool :=
  c ← get;
  if negb (state c =? SMP_STATE_IDLE) && same (pairing_bda c) bd_addr then
    upd (fun c => c <| is_pair_cancel := true |>) ;;
    auth_cmpl SMP_PAIR_FAIL_UNKNOWN ;;
    mret true
  else mret false.

Definition SMP_SecurityGrant (bd_addr : RawAddress) (res : Z) : M unit :=
  c ← get;
  if cb_evt c =? SMP_CONSENT_REQ_EVT then
    if selected_association_model c =? SMP_MODEL_SEC_CONN_JUSTWORKS then
      if res =? SMP_SUCCESS then ignore (smp_sm_event SMP_SC_NC_OK_EVT NULL)
      else auth_cmpl SMP_NUMERIC_COMPAR_FAIL
    else when (selected_association_model c =? SMP_MODEL_ENCRYPTION_ONLY)
      (if res =? SMP_SUCCESS then
         upd (fun c => c <| sec_level := SMP_SEC_UNAUTHENTICATE |> <| tk := zero16 |>) ;;
         ignore (smp_sm_event SMP_KEY_READY_EVT (u_key SMP_KEY_TYPE_TK ptr_tk))
       else auth_cmpl SMP_NUMERIC_COMPAR_FAIL)
  else if smp_over_br c then
    when ((br_state c =? SMP_BR_STATE_WAIT_APP_RSP) && (cb_evt c =? SMP_SEC_REQUEST_EVT) &&
          same (pairing_bda c) bd_addr)
      (upd (fun c => c <| cb_evt := SMP_EVT_NONE |>) ;;
       smp_br_state_machine_event SMP_BR_API_SEC_GRANT_EVT (u_status res))
  else
    when ((state c =? SMP_STATE_WAIT_APP_RSP) && (cb_evt c =? SMP_SEC_REQUEST_EVT) &&
          same (pairing_bda c) bd_addr)
      (upd (fun c => c <| cb_evt := SMP_EVT_NONE |>) ;;
       ignore (smp_sm_event SMP_API_SEC_GRANT_EVT (u_status res))).

Definition SMP_PasskeyReply (bd_addr : RawAddress) (res passkey : Z) : M unit :=
  c ← get;
  when ((cb_evt c =? SMP_PASSKEY_REQ_EVT) && same bd_addr (pairing_bda c))
    (if (BTM_MAX_PASSKEY_VAL <? passkey) || negb (res =? SMP_SUCCESS)
     then auth_cmpl SMP_PASSKEY_ENTRY_FAIL
     else if selected_association_model c =? SMP_MODEL_SEC_CONN_PASSKEY_ENT
     then ignore (smp_sm_event SMP_SC_KEY_READY_EVT (u_passkey passkey))
     else smp_convert_string_to_tk passkey).

Definition SMP_ConfirmReply (bd_addr : RawAddress) (res : Z) : M unit :=
  c ← get;
  when ((cb_evt c =? SMP_NC_REQ_EVT) && same bd_addr (pairing_bda c))
    (if negb (res =? SMP_SUCCESS) then auth_cmpl SMP_NUMERIC_COMPAR_FAIL
     else ignore (smp_sm_event SMP_SC_NC_OK_EVT NULL)).

Definition SMP_OobDataReply (res len : Z) (p_data : option (list Z)) : M unit :=
  c ← get;
  when ((state c =? SMP_STATE_WAIT_APP_RSP) && (cb_evt c =? SMP_OOB_REQ_EVT))
    (match p_data with
     | Some p =>
         if negb (res =? SMP_SUCCESS) || (len =? 0) then auth_cmpl SMP_OOB_FAIL else
         '(l, _) ← stream p (Z.to_nat (if OCTET16_LEN <? len then OCTET16_LEN else len));
         upd (fun c => c <| tk ::= fun t => overwrite t l |>) ;;
         ignore (smp_sm_event SMP_KEY_READY_EVT (u_key SMP_KEY_TYPE_TK ptr_tk))
     | None => auth_cmpl SMP_OOB_FAIL
     end).

Definition SMP_SecureConnectionOobDataReply (p_data : option tSMP_SC_OOB_DATA) : M unit :=
  match p_data with
  | None => auth_cmpl SMP_OOB_FAIL
  | Some p_oob =>
      c ← get;
      if negb (state c =? SMP_STATE_WAIT_APP_RSP) || negb (cb_evt c =? SMP_SC_OOB_REQ_EVT)
      then mret () else
      saved ← smp_has_local_oob_data;
      let p_oob := if req_oob_type c =? SMP_OOB_BOTH
        then p_oob <| loc_oob_data ::= fun l => l <| loc_present := saved |> |> else p_oob in
      let loc := loc_present (loc_oob_data p_oob) in
      let peer := peer_present (peer_oob_data p_oob) in
      let data_missing :=
        if req_oob_type c =? SMP_OOB_PEER then negb peer
        else if req_oob_type c =? SMP_OOB_LOCAL then negb loc
        else if req_oob_type c =? SMP_OOB_BOTH then negb loc || negb peer
        else true in
      if data_missing then auth_cmpl SMP_OOB_FAIL else
      upd (fun c => c <| sc_oob_data := p_oob |>) ;;
      ignore (smp_sm_event SMP_SC_OOB_DATA_EVT (u_p_data []))
  end.

Definition SMP_CrLocScOobData : M bool := smp_sm_event SMP_CR_LOC_SC_OOB_DATA_EVT u_unset.
Definition SMP_ClearLocScOobData : M unit := smp_clear_local_oob_data.

Definition SMP_SirkConfirmDeviceReply (bd_addr : RawAddress) (res : Z) : M unit :=
  c ← get;
  when ((cb_evt c =? SMP_SIRK_VERIFICATION_REQ_EVT) && same bd_addr (pairing_bda c))
    (if negb (res =? SMP_SUCCESS) then auth_cmpl SMP_SIRK_DEVICE_INVALID
     else ignore (smp_sm_event SMP_SIRK_DEVICE_VALID_EVT (u_status SMP_SUCCESS))).

(** ** Everything that can happen to SMP *)
Inductive input :=
| i_Init (init_security_mode : Z)
| i_Register (p_cback : Z)
| i_Pair (bd_addr : RawAddress) (addr_type : Z)
| i_BR_PairWith (bd_addr : RawAddress)
| i_PairCancel (bd_addr : RawAddress)
| i_SecurityGrant (bd_addr : RawAddress) (res : Z)
| i_PasskeyReply (bd_addr : RawAddress) (res passkey : Z)
| i_ConfirmReply (bd_addr : RawAddress) (res : Z)
| i_OobDataReply (res len : Z) (p_data : option (list Z))
| i_SecureConnectionOobDataReply (p_data : option tSMP_SC_OOB_DATA)
| i_CrLocScOobData
| i_ClearLocScOobData
| i_SirkConfirmDeviceReply (bd_addr : RawAddress) (res : Z)
| i_link_encrypted (bda : RawAddress) (encr_enable : Z)
| i_cancel_start_encryption_attempt
| i_ltk_request (bda : RawAddress)
| i_connect (bd_addr : RawAddress) (connected : bool) (transport : Z)
| i_data (channel : Z) (bd_addr : RawAddress) (p_buf : list Z)
| i_tx_complete (cid num_pkt : Z)
| i_br_connect (bd_addr : RawAddress) (connected : bool) (transport : Z)
| i_br_data (bd_addr : RawAddress) (p_buf : list Z)
| i_rsp_timer
| i_delayed_auth_timer
| i_rand (r : Z).

(** An alarm that is set goes off once. *)
Definition fires (t : tSMP_CB → alarm_t) (off : tSMP_CB → tSMP_CB) (m : M unit) : M unit :=
  c ← get; when (alarm_is_scheduled (t c)) (upd off ;; m).

(** The controller answers the oldest request. *)
Definition pop_rand : M (option rand_callback) := fun w =>
  match rands w with
  | [] => Ok (None, w)
  | k :: l => Ok (Some k, w <| rands := l |>)
  end.

Definition handle (i : input) : M unit :=
  match i with
  | i_Init m => SMP_Init m
  | i_Register cb => ignore (SMP_Register cb)
  | i_Pair a t => ignore (SMP_Pair a t)
  | i_BR_PairWith a => ignore (SMP_BR_PairWith a)
  | i_PairCancel a => ignore (SMP_PairCancel a)
  | i_SecurityGrant a r => SMP_SecurityGrant a r
  | i_PasskeyReply a r k => SMP_PasskeyReply a r k
  | i_ConfirmReply a r => SMP_ConfirmReply a r
  | i_OobDataReply r n p => SMP_OobDataReply r n p
  | i_SecureConnectionOobDataReply p => SMP_SecureConnectionOobDataReply p
  | i_CrLocScOobData => ignore SMP_CrLocScOobData
  | i_ClearLocScOobData => SMP_ClearLocScOobData
  | i_SirkConfirmDeviceReply a r => SMP_SirkConfirmDeviceReply a r
  | i_link_encrypted a e => smp_link_encrypted a e
  | i_cancel_start_encryption_attempt => smp_cancel_start_encryption_attempt
  | i_ltk_request a => ignore (smp_proc_ltk_request a)
  | i_connect a c t => smp_connect_callback a c t
  | i_data ch a p => smp_data_received ch a p
  | i_tx_complete c n => smp_tx_complete_callback c n
  | i_br_connect a c t => smp_br_connect_callback a c t
  | i_br_data a p => smp_br_data_received a p
  | i_rsp_timer => fires smp_rsp_timer_ent (fun c => c <| smp_rsp_timer_ent := alarm_idle |>)
      smp_rsp_timeout
  | i_delayed_auth_timer =>
      fires delayed_auth_timer_ent (fun c => c <| delayed_auth_timer_ent := alarm_idle |>)
        smp_delayed_auth_complete_timeout
  | i_rand r =>
      k ← pop_rand;
      match k with
      | Some k => run_rand_callback k r
      | None => mret ()
      end
  end.
End inputs.

(** The component at rest, before [SMP_Init]. *)
Definition init_world : world := mkWorld zero_tSMP_CB zero_tSMP_LOC_OOB_DATA [] [].
