(* ===== verification/SmpModel.v ===== *)
(** * The association model

    Both devices choose how they authenticate each other from what they told each
    other.  The Core Specification (Vol 3, Part H, 2.3.5.1) gives one decision; here it
    is derived from what the devices can show and enter, and
    [smp_select_association_model] makes that decision on both sides. *)
From S2P Require Import Prelude SmpDefs SmpTables SmpMonad SmpUtils.

(** ** The decision of the Core Specification *)
Inductive method :=
| JustWorks
| NumericComparison
| InitiatorDisplays
| ResponderDisplays
| BothEnter
| OutOfBand.

(** What an IO capability (DisplayOnly, DisplayYesNo, KeyboardOnly, NoInputNoOutput,
    KeyboardDisplay) can do. *)
Definition displays (io : Z) : bool := (io =? 0) || (io =? 1) || (io =? 4).
Definition enters (io : Z) : bool := (io =? 2) || (io =? 4).
Definition confirms (io : Z) : bool := (io =? 1) || (io =? 4).

Definition method_of_io (sc : bool) (initiator responder : Z) : method :=
  if sc && confirms initiator && confirms responder then NumericComparison
  else if displays initiator && enters responder then InitiatorDisplays
  else if displays responder && enters initiator then ResponderDisplays
  else if enters initiator && enters responder then BothEnter
  else JustWorks.

(** The parameters a device sends in a pairing request or response. *)
Record features := mkFeatures { ft_io : Z; ft_oob : Z; ft_auth : Z }.

Definition uses_sc (i r : features) : bool :=
  has (ft_auth i) SMP_SC_SUPPORT_BIT && has (ft_auth r) SMP_SC_SUPPORT_BIT.


Definition decide_with (sc : bool) (i r : features) : method :=
  let oob_i := ft_oob i =? SMP_OOB_PRESENT in
  let oob_r := ft_oob r =? SMP_OOB_PRESENT in
  if (if sc then oob_i || oob_r else oob_i && oob_r) then OutOfBand
  else if SMP_NO_MITM_REQUIRED (ft_auth i) && SMP_NO_MITM_REQUIRED (ft_auth r) then JustWorks
  else method_of_io sc (ft_io i) (ft_io r).

Definition decide_method (i r : features) : method := decide_with (uses_sc i r) i r.

(** The model a device runs for a method: one side shows what the other enters. *)
Definition model_of (sc initiator : bool) (m : method) : Z :=
  match m with
  | JustWorks => if sc then SMP_MODEL_SEC_CONN_JUSTWORKS else SMP_MODEL_ENCRYPTION_ONLY
  | NumericComparison => SMP_MODEL_SEC_CONN_NUM_COMP
  | InitiatorDisplays =>
      if initiator then (if sc then SMP_MODEL_SEC_CONN_PASSKEY_DISP else SMP_MODEL_KEY_NOTIF)
      else (if sc then SMP_MODEL_SEC_CONN_PASSKEY_ENT else SMP_MODEL_PASSKEY)
  | ResponderDisplays =>
      if initiator then (if sc then SMP_MODEL_SEC_CONN_PASSKEY_ENT else SMP_MODEL_PASSKEY)
      else (if sc then SMP_MODEL_SEC_CONN_PASSKEY_DISP else SMP_MODEL_KEY_NOTIF)
  | BothEnter => if sc then SMP_MODEL_SEC_CONN_PASSKEY_ENT else SMP_MODEL_PASSKEY
  | OutOfBand => if sc then SMP_MODEL_SEC_CONN_OOB else SMP_MODEL_OOB
  end.

(** ** The code makes it *)
Definition local_features (c : tSMP_CB) : features :=
  mkFeatures (local_io_capability c) (loc_oob_flag c) (loc_auth_req c).
Definition peer_features (c : tSMP_CB) : features :=
  mkFeatures (peer_io_caps c) (peer_oob_flag c) (peer_auth_req c).

Definition initiator_features (c : tSMP_CB) : features :=
  if role c =? HCI_ROLE_CENTRAL then local_features c else peer_features c.
Definition responder_features (c : tSMP_CB) : features :=
  if role c =? HCI_ROLE_CENTRAL then peer_features c else local_features c.

Definition io_ok (io : Z) : Prop := 0 <= io < SMP_IO_CAP_MAX.

(** What the function leaves in the control block. *)
Definition model_selected (c : tSMP_CB) : tSMP_CB :=
  let both bit := has (peer_auth_req c) bit && has (loc_auth_req c) bit in
  c <| sc_mode_required_by_peer := both SMP_SC_SUPPORT_BIT |>
    <| key_derivation_h7_used ::= fun h => h || both SMP_H7_SUPPORT_BIT |>.

Lemma io_cases io : io_ok io → io = 0 ∨ io = 1 ∨ io = 2 ∨ io = 3 ∨ io = 4.
Proof. unfold io_ok, SMP_IO_CAP_MAX. lia. Qed.

(** A column of a table read with the indices of the role. *)
Lemma by_io_caps (sc : bool) w :
  let c := smp_cb w in
  role c = 0 ∨ role c = 1 → io_ok (peer_io_caps c) → io_ok (local_io_capability c) →
  model_by_io_caps (if sc then smp_association_table_sc else smp_association_table) w =
  Ok (model_of sc (role c =? HCI_ROLE_CENTRAL)
        (method_of_io sc (ft_io (initiator_features c)) (ft_io (responder_features c))), w).
Proof.
  intros c Hr Hp Hl. unfold initiator_features, responder_features, model_by_io_caps.
  unfold mbind, M_bind, get. fold c.
  destruct Hr as [-> | ->], (io_cases _ Hp) as [Ep|[Ep|[Ep|[Ep|Ep]]]],
    (io_cases _ Hl) as [El|[El|[El|[El|El]]]];
    cbn [Z.eqb HCI_ROLE_CENTRAL local_features peer_features ft_io]; rewrite !Ep, !El;
    destruct sc; reflexivity.
Qed.

(** The two functions that choose, legacy and secure connections. *)
Lemma select_model_with (sc : bool) w :
  let c := smp_cb w in
  role c = 0 ∨ role c = 1 → io_ok (peer_io_caps c) → io_ok (local_io_capability c) →
  (if sc then smp_select_association_model_secure_connections
   else smp_select_legacy_association_model) w =
  Ok (model_of sc (role c =? HCI_ROLE_CENTRAL)
        (decide_with sc (initiator_features c) (responder_features c)), w).
Proof.
  intros c Hr Hp Hl. generalize (by_io_caps sc w Hr Hp Hl); fold c.
  unfold initiator_features, responder_features, decide_with,
    smp_select_association_model_secure_connections, smp_select_legacy_association_model.
  destruct sc, (role c =? HCI_ROLE_CENTRAL); unfold mbind, M_bind, get; fold c;
    cbn [local_features peer_features ft_io ft_oob ft_auth]; intros E;
    destruct (peer_oob_flag c =? SMP_OOB_PRESENT), (loc_oob_flag c =? SMP_OOB_PRESENT),
      (SMP_NO_MITM_REQUIRED (peer_auth_req c)), (SMP_NO_MITM_REQUIRED (loc_auth_req c));
    first [exact E | reflexivity].
Qed.

Lemma select_model_unfold w :
  smp_select_association_model w =
  (if has (peer_auth_req (smp_cb w)) SMP_SC_SUPPORT_BIT &&
      has (loc_auth_req (smp_cb w)) SMP_SC_SUPPORT_BIT
   then smp_select_association_model_secure_connections
   else smp_select_legacy_association_model) (w <| smp_cb ::= model_selected |>).
Proof.
  destruct w as [c s r t]; destruct c. unfold smp_select_association_model, model_selected.
  generalize smp_select_association_model_secure_connections,
    smp_select_legacy_association_model.
  cbv -[has orb andb SMP_SC_SUPPORT_BIT SMP_H7_SUPPORT_BIT].
  destruct (has peer_auth_req SMP_SC_SUPPORT_BIT && has loc_auth_req SMP_SC_SUPPORT_BIT),
    (has peer_auth_req SMP_H7_SUPPORT_BIT && has loc_auth_req SMP_H7_SUPPORT_BIT); intros;
    cbn; rewrite ?orb_true_r, ?orb_false_r; reflexivity.
Qed.

Lemma uses_sc_cb c :
  uses_sc (initiator_features c) (responder_features c) =
  has (peer_auth_req c) SMP_SC_SUPPORT_BIT && has (loc_auth_req c) SMP_SC_SUPPORT_BIT.
Proof.
  unfold uses_sc, initiator_features, responder_features.
  destruct (role c =? HCI_ROLE_CENTRAL); cbn; [apply andb_comm | done].
Qed.

Lemma model_selected_sc w :
  sc_mode_required_by_peer (smp_cb (w <| smp_cb ::= model_selected |>)) =
  uses_sc (initiator_features (smp_cb w)) (responder_features (smp_cb w)).
Proof. by rewrite uses_sc_cb. Qed.

(** The model and the control block that [smp_select_association_model] leaves. *)
Lemma select_model_run w :
  let c := smp_cb w in
  role c = 0 ∨ role c = 1 → io_ok (peer_io_caps c) → io_ok (local_io_capability c) →
  smp_select_association_model w =
  Ok (model_of (uses_sc (initiator_features c) (responder_features c)) (role c =? HCI_ROLE_CENTRAL)
        (decide_method (initiator_features c) (responder_features c)),
      w <| smp_cb ::= model_selected |>).
Proof.
  intros c Hr Hp Hl. unfold decide_method. rewrite uses_sc_cb, (select_model_unfold w). fold c.
  set (w' := w <| smp_cb ::= model_selected |>). exact (select_model_with _ w' Hr Hp Hl).
Qed.

(** The control blocks of two devices that exchanged their parameters. *)
Record exchanged (ci cr : tSMP_CB) : Prop := {
  ex_central : role ci = HCI_ROLE_CENTRAL;
  ex_peripheral : role cr = HCI_ROLE_PERIPHERAL;
  ex_initiator : peer_features cr = local_features ci;
  ex_responder : peer_features ci = local_features cr;
}.

(** C34: two devices that sent each other their parameters, with IO capabilities in range,
    come to the same method, the one the Core Specification prescribes for what they can
    show and enter; each side runs its half of it, and both note whether secure
    connections are used. *)
Theorem association_models wi wr :
  exchanged (smp_cb wi) (smp_cb wr) →
  io_ok (local_io_capability (smp_cb wi)) → io_ok (local_io_capability (smp_cb wr)) →
  let i := local_features (smp_cb wi) in
  let r := local_features (smp_cb wr) in
  ∃ wi' wr',
    smp_select_association_model wi = Ok (model_of (uses_sc i r) true (decide_method i r), wi') ∧
    smp_select_association_model wr = Ok (model_of (uses_sc i r) false (decide_method i r), wr') ∧
    sc_mode_required_by_peer (smp_cb wi') = uses_sc i r ∧
    sc_mode_required_by_peer (smp_cb wr') = uses_sc i r.
Proof.
  intros [Ri Rr Ei Er] Hi Hr i r.
  assert (io_ok (peer_io_caps (smp_cb wi))) as Pi
    by (change (io_ok (ft_io (peer_features (smp_cb wi)))); by rewrite Er).
  assert (io_ok (peer_io_caps (smp_cb wr))) as Pr
    by (change (io_ok (ft_io (peer_features (smp_cb wr)))); by rewrite Ei).
  exists (wi <| smp_cb ::= model_selected |>), (wr <| smp_cb ::= model_selected |>).
  rewrite (select_model_run wi), (select_model_run wr) by auto.
  rewrite !model_selected_sc. unfold initiator_features, responder_features.
  rewrite Ri, Rr, Ei, Er. done.
Qed.

(** A keyboard and display initiator and a display responder, both with secure
    connections and MITM protection: numeric comparison. *)
Definition sample_device (role io peer_io : Z) : world :=
  mkWorld (zero_tSMP_CB <| SmpDefs.role := role |>
    <| local_io_capability := io |> <| loc_auth_req := 13 |>
    <| peer_io_caps := peer_io |> <| peer_auth_req := 13 |>) zero_tSMP_LOC_OOB_DATA [] [].

Lemma association_models_witness :
  ∃ wi' wr',
    smp_select_association_model (sample_device 0 4 1) = Ok (SMP_MODEL_SEC_CONN_NUM_COMP, wi') ∧
    smp_select_association_model (sample_device 1 1 4) = Ok (SMP_MODEL_SEC_CONN_NUM_COMP, wr') ∧
    sc_mode_required_by_peer (smp_cb wi') = true ∧ sc_mode_required_by_peer (smp_cb wr') = true.
Proof.
  apply (association_models (sample_device 0 4 1) (sample_device 1 1 4)).
  - split; reflexivity.
  - split; [vm_compute; discriminate | reflexivity].
  - split; [vm_compute; discriminate | reflexivity].
Defined.
