(* ===== verification/SmpAgreement.v ===== *)
(** * Two devices compute the same values

    Pairing works because both sides compute every confirm value, check value and key
    from the same inputs, each from its own point of view: its own octets are the
    other's peer octets.  Here the functions of [smp_keys.cc] and [smp_utils.cc] are
    run on two control blocks that hold what the devices sent each other. *)
From S2P Require Import Prelude SmpDefs SmpTables SmpMonad SmpUtils SmpKeys SmpAct SmpModel.

(** ** The functions of the Core Specification (Vol 3, Part H, 2.2.3 and 2.2.4)
    Octets are least significant first, as they are sent. *)
Section functions.
Context `{Crypto}.

Definition c1_le (k r preq pres : list Z) (iat rat : Z) (ia ra : RawAddress) : list Z :=
  let p1 := [iat; rat] ++ preq ++ pres in
  let p2 := bdaddr_to_stream ra ++ bdaddr_to_stream ia ++ [0; 0; 0; 0] in
  aes_128 k (zip_with Z.lxor p2 (aes_128 k (zip_with Z.lxor p1 r))).

Definition s1_le (k r1 r2 : list Z) : list Z := aes_128 k (take 8 r2 ++ take 8 r1).
End functions.

(** ** Two control blocks after the exchange of parameters *)
Record parameters_crossed (ci cr : tSMP_CB) : Prop := {
  pc_central : role ci = HCI_ROLE_CENTRAL;
  pc_peripheral : role cr = HCI_ROLE_PERIPHERAL;
  pc_request op : smp_concatenate_peer cr op = smp_concatenate_local ci op;
  pc_response op : smp_concatenate_peer ci op = smp_concatenate_local cr op;
}.

(** What a device's stack says of the addresses of a connection: its own and the other's,
    whatever has been sent before. *)
Definition addresses_known (e : Env) (bda : RawAddress) (own other : RawAddress * Z) : Prop :=
  ∀ h, env_ReadConnectionAddr h bda = own ∧ env_ReadRemoteConnectionAddr h bda = Some other.

Definition addresses_crossed (ei er : Env) (ai ar : RawAddress) (ti tr : Z) (wi wr : world) : Prop :=
  addresses_known ei (pairing_bda (smp_cb wi)) (ai, ti) (ar, tr) ∧
  addresses_known er (pairing_bda (smp_cb wr)) (ar, tr) (ai, ti).

(** ** Legacy pairing *)
Section legacy.
Context `{Crypto} `{Env} `{Machines}.

Definition addresses_read (l : RawAddress) (t : Z) (w : world) : world :=
  w <| smp_cb ::= fun c => c <| local_bda := l |> <| addr_type := t |> |>.

Definition request_of (c : tSMP_CB) : list Z :=
  if role c =? HCI_ROLE_CENTRAL then smp_concatenate_local c SMP_OPCODE_PAIRING_REQ
  else smp_concatenate_peer c SMP_OPCODE_PAIRING_REQ.
Definition response_of (c : tSMP_CB) : list Z :=
  if role c =? HCI_ROLE_CENTRAL then smp_concatenate_peer c SMP_OPCODE_PAIRING_RSP
  else smp_concatenate_local c SMP_OPCODE_PAIRING_RSP.

(** c1 as a device computes it, from its own and the other's address. *)
Definition c1_of (c : tSMP_CB) (r : list Z) (own : RawAddress * Z) (other : RawAddress * Z) : list Z :=
  let '(i, p) := if role c =? HCI_ROLE_CENTRAL then (own, other) else (other, own) in
  c1_le (tk c) r (request_of c) (response_of c) i.2 p.2 i.1 p.1.

Lemma p2_padded (a b : RawAddress) : length a = 6%nat → length b = 6%nat →
  overwrite zero16 (bdaddr_to_stream a ++ bdaddr_to_stream b) =
  bdaddr_to_stream a ++ bdaddr_to_stream b ++ [0; 0; 0; 0].
Proof.
  intros Ha Hb. unfold overwrite, bdaddr_to_stream.
  rewrite length_app, !length_rev, Ha, Hb, <- app_assoc. done.
Qed.

(** The confirm value is c1, on either side. *)
Lemma calculate_confirm_c1 w r (own other : RawAddress * Z) :
  env_ReadConnectionAddr (trace w) (pairing_bda (smp_cb w)) = own →
  env_ReadRemoteConnectionAddr (trace w) (pairing_bda (smp_cb w)) = Some other →
  length own.1 = 6%nat → length other.1 = 6%nat →
  smp_calculate_confirm r w =
  Ok (SMP_SUCCESS, c1_of (smp_cb w) r own other, addresses_read own.1 own.2 w).
Proof.
  destruct own as [a t], other as [b u]. intros El Er Ha Hb.
  unfold smp_calculate_confirm, mbind, M_bind, gets, history. rewrite Er, El.
  unfold upd, get, c1_of, c1_le, request_of, response_of, smp_xor_128, smp_gen_p1_4_confirm,
    smp_gen_p2_4_confirm.
  set (w1 := w <| smp_cb ::= _ |>). change (role (smp_cb w1)) with (role (smp_cb w)).
  change (local_bda (smp_cb w1)) with a.
  destruct (role (smp_cb w) =? HCI_ROLE_CENTRAL); rewrite p2_padded by done; reflexivity.
Qed.

(** The confirm value of a device that has its own is what [smp_generate_confirm] keeps
    and sends; [smp_generate_compare] computes the other's to compare. *)
Lemma generate_confirm_run w own other :
  env_ReadConnectionAddr (trace w) (pairing_bda (smp_cb w)) = own →
  env_ReadRemoteConnectionAddr (trace w) (pairing_bda (smp_cb w)) = Some other →
  length own.1 = 6%nat → length other.1 = 6%nat →
  let v := c1_of (smp_cb w) (rand (smp_cb w)) own other in
  smp_generate_confirm w =
  ignore (smp_sm_event SMP_KEY_READY_EVT (u_key SMP_KEY_TYPE_CFM (ptr_octets v)))
    (addresses_read own.1 own.2 w <| smp_cb ::= fun c => c <| confirm := v |> |>).
Proof.
  intros El Er Ha Hb v. unfold smp_generate_confirm, gets. unfold mbind at 1, M_bind at 1.
  unfold mbind at 1, M_bind at 1. rewrite (calculate_confirm_c1 _ _ own other) by done. done.
Qed.

Lemma generate_compare_run w own other :
  env_ReadConnectionAddr (trace w) (pairing_bda (smp_cb w)) = own →
  env_ReadRemoteConnectionAddr (trace w) (pairing_bda (smp_cb w)) = Some other →
  length own.1 = 6%nat → length other.1 = 6%nat →
  smp_generate_compare w =
  ignore (smp_sm_event SMP_KEY_READY_EVT (u_key SMP_KEY_TYPE_CMP
    (ptr_octets (c1_of (smp_cb w) (rrand (smp_cb w)) own other)))) (addresses_read own.1 own.2 w).
Proof.
  intros El Er Ha Hb. unfold smp_generate_compare, gets. unfold mbind at 1, M_bind at 1.
  unfold mbind at 1, M_bind at 1. rewrite (calculate_confirm_c1 _ _ own other) by done. done.
Qed.
End legacy.

Section agreement.
Context `{Crypto} (ei er : Env) (ai ar : RawAddress) (ti tr : Z).

(** Two devices in legacy pairing: parameters, addresses and random numbers exchanged,
    the same temporary key on both sides. *)
Record legacy_crossed (wi wr : world) : Prop := {
  lc_parameters : parameters_crossed (smp_cb wi) (smp_cb wr);
  lc_addresses : addresses_crossed ei er ai ar ti tr wi wr;
  lc_ai : length ai = 6%nat;
  lc_ar : length ar = 6%nat;
  lc_tk : tk (smp_cb wr) = tk (smp_cb wi);
  lc_mrand : rrand (smp_cb wr) = rand (smp_cb wi);
  lc_srand : rrand (smp_cb wi) = rand (smp_cb wr);
}.

Lemma c1_of_initiator ci cr r :
  parameters_crossed ci cr →
  c1_of ci r (ai, ti) (ar, tr) =
  c1_le (tk ci) r (smp_concatenate_local ci SMP_OPCODE_PAIRING_REQ)
    (smp_concatenate_local cr SMP_OPCODE_PAIRING_RSP) ti tr ai ar.
Proof.
  intros [Ri Rr Eq Es]. unfold c1_of, request_of, response_of. rewrite Ri, !Es. done.
Qed.

Lemma c1_of_responder ci cr r :
  parameters_crossed ci cr →
  c1_of cr r (ar, tr) (ai, ti) =
  c1_le (tk cr) r (smp_concatenate_local ci SMP_OPCODE_PAIRING_REQ)
    (smp_concatenate_local cr SMP_OPCODE_PAIRING_RSP) ti tr ai ar.
Proof.
  intros [Ri Rr Eq Es]. unfold c1_of, request_of, response_of. rewrite Rr, !Eq. done.
Qed.

(** C35: in legacy pairing the responder recomputes the initiator's confirm value and the
    initiator the responder's: each is c1 of the temporary key, the random number, the two
    commands and the two addresses.  Both then derive the same short term key, s1. *)
Theorem legacy_agreement wi wr :
  legacy_crossed wi wr →
  let k := tk (smp_cb wi) in
  let mrand := rand (smp_cb wi) in
  let srand := rand (smp_cb wr) in
  let value r := c1_le k r (smp_concatenate_local (smp_cb wi) SMP_OPCODE_PAIRING_REQ)
    (smp_concatenate_local (smp_cb wr) SMP_OPCODE_PAIRING_RSP) ti tr ai ar in
  (∃ wi', @smp_calculate_confirm ei _ mrand wi = Ok (SMP_SUCCESS, value mrand, wi')) ∧
  (∃ wr', @smp_calculate_confirm er _ (rrand (smp_cb wr)) wr = Ok (SMP_SUCCESS, value mrand, wr')) ∧
  (∃ wr', @smp_calculate_confirm er _ srand wr = Ok (SMP_SUCCESS, value srand, wr')) ∧
  (∃ wi', @smp_calculate_confirm ei _ (rrand (smp_cb wi)) wi = Ok (SMP_SUCCESS, value srand, wi')) ∧
  smp_calculate_legacy_short_term_key (smp_cb wi) = s1_le k srand mrand ∧
  smp_calculate_legacy_short_term_key (smp_cb wr) = s1_le k srand mrand.
Proof.
  intros [Pc [Ai Ar] La Lr Et Em Es] k mrand srand value.
  assert (∀ r, ∃ wi', @smp_calculate_confirm ei _ r wi = Ok (SMP_SUCCESS, value r, wi')) as Ci.
  { intros r. eexists. rewrite (calculate_confirm_c1 _ _ (ai, ti) (ar, tr)) by (auto; apply Ai).
    by rewrite (c1_of_initiator _ _ _ Pc). }
  assert (∀ r, ∃ wr', @smp_calculate_confirm er _ r wr = Ok (SMP_SUCCESS, value r, wr')) as Cr.
  { intros r. eexists. rewrite (calculate_confirm_c1 _ _ (ar, tr) (ai, ti)) by (auto; apply Ar).
    by rewrite (c1_of_responder _ _ _ Pc), Et. }
  rewrite Em, Es. unfold smp_calculate_legacy_short_term_key, s1_le.
  rewrite (pc_central _ _ Pc), (pc_peripheral _ _ Pc), Em, Es, Et. auto 10.
Qed.
End agreement.

(** ** Secure connections *)
Section sc_runs.
Context `{CryptoLaws} `{Env} `{Machines}.

(** The number a device shows. *)
Definition shown_number (c : tSMP_CB) : Z :=
  if role c =? HCI_ROLE_CENTRAL
  then g2 (pk_x (loc_publ_key c)) (pk_x (peer_publ_key c)) (rand c) (rrand c)
  else g2 (pk_x (peer_publ_key c)) (pk_x (loc_publ_key c)) (rrand c) (rand c).

Lemma display_number_run w :
  smp_calculate_numeric_comparison_display_number w =
  ignore (smp_sm_event SMP_SC_DSPL_NC_EVT (u_passkey (shown_number (smp_cb w))))
    (w <| smp_cb ::= fun c => c <| number_to_display := shown_number c |> |>
       <| smp_cb ::= fun c => c <| cb_evt := SMP_NC_REQ_EVT |> |>).
Proof.
  assert (0 <= shown_number (smp_cb w) <= BTM_MAX_PASSKEY_VAL) as B
    by (unfold shown_number; case_match; apply g2_range).
  unfold smp_calculate_numeric_comparison_display_number, upd, gets, mbind, M_bind.
  cbn [number_to_display smp_cb modify].
  fold (shown_number (smp_cb w)).
  destruct (Z.leb_spec (BTM_MAX_PASSKEY_VAL + 1) (shown_number (smp_cb w))); [lia | done].
Qed.

(** The values of [smp_calculate_f5_mackey_and_long_term_key]. *)
Definition f5_of (c : tSMP_CB) (own other : list Z) : list Z * list Z :=
  if role c =? HCI_ROLE_CENTRAL then f5 (dhkey c) (rand c) (rrand c) own other
  else f5 (dhkey c) (rrand c) (rand c) other own.

Definition address_octets (a : RawAddress * Z) : list Z := bdaddr_to_stream a.1 ++ [a.2].

Definition keys_derived (k : list Z * list Z) (w : world) : world :=
  w <| smp_cb ::= fun c => c <| mac_key := k.1 |> <| ltk := k.2 |> |>.

Definition check_value (c : tSMP_CB) (own other : list Z) : list Z :=
  f6 (f5_of c own other).1 (rand c) (rrand c) (peer_random c)
    (smp_collect_local_io_capabilities c) own other.

(** The check value a device expects of its peer, from the MacKey it has. *)
Definition expected_check (c : tSMP_CB) (own other : list Z) : list Z :=
  f6 (mac_key c) (rrand c) (rand c) (local_random c) (smp_collect_peer_io_capabilities c) other own.

Lemma collect_addresses w own other :
  addresses_known _ (pairing_bda (smp_cb w)) own other →
  smp_collect_local_ble_address w = Ok (address_octets own, w) ∧
  smp_collect_peer_ble_address w = Ok (address_octets other, w).
Proof.
  intros A. destruct (A (trace w)) as [El Er].
  unfold smp_collect_local_ble_address, smp_collect_peer_ble_address, gets, history, mbind, M_bind.
  rewrite El, Er. by destruct own, other.
Qed.

Lemma f5_run w own other :
  addresses_known _ (pairing_bda (smp_cb w)) own other →
  smp_calculate_f5_mackey_and_long_term_key w =
  Ok ((), keys_derived (f5_of (smp_cb w) (address_octets own) (address_octets other)) w).
Proof.
  intros A. destruct (collect_addresses w own other A) as [El Er].
  unfold smp_calculate_f5_mackey_and_long_term_key, get, mbind, M_bind.
  rewrite El, Er. fold (f5_of (smp_cb w) (address_octets own) (address_octets other)).
  by destruct (f5_of _ _ _).
Qed.

Lemma local_dhkey_check_run w own other :
  addresses_known _ (pairing_bda (smp_cb w)) own other →
  let a := address_octets own in
  let b := address_octets other in
  smp_calculate_local_dhkey_check w =
  Ok ((), keys_derived (f5_of (smp_cb w) a b) w
        <| smp_cb ::= fun c => c <| dhkey_check := check_value (smp_cb w) a b |> |>).
Proof.
  intros A a b. unfold smp_calculate_local_dhkey_check, get. unfold mbind, M_bind.
  rewrite (f5_run w own other A). fold a b.
  set (w1 := keys_derived _ w).
  destruct (collect_addresses w1 own other A) as [-> ->]. reflexivity.
Qed.

Lemma peer_dhkey_check_run w own other :
  addresses_known _ (pairing_bda (smp_cb w)) own other →
  smp_calculate_peer_dhkey_check w =
  ignore (smp_sm_event SMP_SC_KEY_READY_EVT (u_key SMP_KEY_TYPE_PEER_DHK_CHCK
    (ptr_octets (expected_check (smp_cb w) (address_octets own) (address_octets other))))) w.
Proof.
  intros A. unfold smp_calculate_peer_dhkey_check, get. unfold mbind at 1 2 3, M_bind at 1 2 3.
  destruct (collect_addresses w own other A) as [-> ->]. reflexivity.
Qed.
End sc_runs.

(** *** Commitments *)
Section commitments.
Context `{Crypto}.

Definition passkey_bit (random : list Z) (round : Z) : Z :=
  Z.lor (Z.land (Z.shiftr (nth (Z.to_nat (round / 8)) random 0) (round mod 8)) 1) 0x80.

Lemma random_input_run random n w :
  length random = 16%nat → 0 <= n < 128 →
  smp_calculate_random_input random n w = Ok (passkey_bit random n, w).
Proof.
  intros Hl Hn. unfold smp_calculate_random_input, index.
  pose proof (Z.div_pos n 8). pose proof (Z.div_lt_upper_bound n 8 16).
  rewrite (proj2 (Z.leb_le 0 (n / 8))) by lia.
  destruct (lookup_lt_is_Some_2 random (Z.to_nat (n / 8))) as [b Hb]; [lia|].
  unfold passkey_bit. erewrite nth_lookup, Hb. done.
Qed.

(** The models of two devices that run the same method. *)
Definition same_method (m m' : Z) : Prop :=
  m = m' ∧ (is_sc_justworks_or_nc m || (m =? SMP_MODEL_SEC_CONN_OOB)) = true ∨
  is_sc_passkey m = true ∧ is_sc_passkey m' = true.

(** What a device [c] has received of its peer [d]. *)
Record received_from (d c : tSMP_CB) : Prop := {
  rf_publ_key : peer_publ_key c = loc_publ_key d;
  rf_own_publ_key : peer_publ_key d = loc_publ_key c;
  rf_nonce : rrand c = rand d;
  rf_random : peer_random c = local_random d;
  rf_random_length : length (local_random d) = 16%nat;
  rf_round : round c = round d;
  rf_round_range : 0 <= round d < 128;
  rf_method : same_method (selected_association_model d) (selected_association_model c);
}.

Definition commitment_received (l : list Z) (w : world) : world :=
  w <| smp_cb ::= fun c => c <| remote_commitment := l |> |>.

(** The commitment of a device with keys [x] and [y] (its own and its peer's), a nonce
    and a random value. *)
Definition commitment_value (m : Z) (x y nonce random : list Z) (n : Z) : list Z :=
  if is_sc_justworks_or_nc m then f4 x y nonce 0
  else if is_sc_passkey m then f4 x y nonce (passkey_bit random n)
  else f4 x x random 0.

Definition sc_model (m : Z) : bool :=
  is_sc_justworks_or_nc m || is_sc_passkey m || (m =? SMP_MODEL_SEC_CONN_OOB).

Lemma local_commitment_run w :
  let c := smp_cb w in
  sc_model (selected_association_model c) = true →
  length (local_random c) = 16%nat → 0 <= round c < 128 →
  let v := commitment_value (selected_association_model c) (pk_x (loc_publ_key c))
    (pk_x (peer_publ_key c)) (rand c) (local_random c) (round c) in
  smp_calculate_local_commitment w = Ok ((), w <| smp_cb ::= fun c => c <| commitment := v |> |>).
Proof.
  intros c Hm Hl Hn v. unfold smp_calculate_local_commitment, get. unfold mbind at 1, M_bind at 1.
  subst v. fold c. unfold commitment_value, sc_model in *.
  destruct (is_sc_justworks_or_nc _); [done|]. destruct (is_sc_passkey _).
  - unfold mbind, M_bind. by rewrite (random_input_run _ _ _ Hl Hn).
  - cbn [orb] in Hm. by rewrite Hm.
Qed.

Lemma peer_commitment_run w :
  let c := smp_cb w in
  sc_model (selected_association_model c) = true →
  length (peer_random c) = 16%nat → 0 <= round c < 128 →
  smp_calculate_peer_commitment w =
  Ok (commitment_value (selected_association_model c) (pk_x (peer_publ_key c))
    (pk_x (loc_publ_key c)) (rrand c) (peer_random c) (round c), w).
Proof.
  intros c Hm Hl Hn. unfold smp_calculate_peer_commitment, get. unfold mbind at 1, M_bind at 1.
  fold c. unfold commitment_value, sc_model in *.
  destruct (is_sc_justworks_or_nc _); [done|]. destruct (is_sc_passkey _).
  - unfold mbind, M_bind. by rewrite (random_input_run _ _ _ Hl Hn).
  - cbn [orb] in Hm. by rewrite Hm.
Qed.

Lemma passkey_models m : is_sc_passkey m = true → is_sc_justworks_or_nc m = false.
Proof.
  unfold is_sc_passkey, is_sc_justworks_or_nc. intros [->%Z.eqb_eq | ->%Z.eqb_eq]%orb_true_iff; done.
Qed.

Lemma same_method_value m m' x y nonce random n :
  same_method m m' →
  sc_model m = true ∧ sc_model m' = true ∧
  commitment_value m x y nonce random n = commitment_value m' x y nonce random n.
Proof.
  unfold sc_model, commitment_value.
  intros [[<- E] | [E E']].
  - split_and!; [..|done]; destruct (is_sc_justworks_or_nc m), (is_sc_passkey m); done.
  - by rewrite (passkey_models _ E), (passkey_models _ E'), E, E'.
Qed.

(** A commitment that a device sends is the one its peer expects. *)
Lemma commitment_checks wd wc :
  received_from (smp_cb wd) (smp_cb wc) →
  ∃ wd', smp_calculate_local_commitment wd = Ok ((), wd') ∧
    let wc' := commitment_received (commitment (smp_cb wd')) wc in
    smp_check_commitment wc' = Ok (true, wc').
Proof.
  intros [Ek Eo En Er El Eu Hu Em].
  destruct (same_method_value _ _ (pk_x (loc_publ_key (smp_cb wd))) (pk_x (loc_publ_key (smp_cb wc)))
    (rand (smp_cb wd)) (local_random (smp_cb wd)) (round (smp_cb wd)) Em) as (Md & Mc & E).
  eexists; split; [apply local_commitment_run; done|]. cbn zeta.
  set (wc' := commitment_received _ wc).
  assert (length (peer_random (smp_cb wc')) = 16%nat) as Hl
    by (change (peer_random (smp_cb wc')) with (peer_random (smp_cb wc)); congruence).
  assert (0 <= round (smp_cb wc') < 128) as Hn
    by (change (round (smp_cb wc')) with (round (smp_cb wc)); lia).
  unfold smp_check_commitment, mbind, M_bind, get. rewrite (peer_commitment_run wc' Mc Hl Hn).
  unfold mret, M_ret, same. rewrite bool_decide_eq_true_2; [done|].
  subst wc'. cbn [commitment_received remote_commitment commitment smp_cb modify peer_publ_key
    loc_publ_key rrand peer_random round selected_association_model].
  by rewrite Ek, Eo, En, Er, Eu, E.
Qed.
End commitments.

Section sc_agreement.
Context `{CryptoLaws} (ei er : Env) (mi mr : Machines) (ai ar : RawAddress) (ti tr : Z).

(** Two devices in a secure connections pairing: parameters, public keys, nonces and
    addresses exchanged, the same Diffie-Hellman key on both sides. *)
Record sc_crossed (wi wr : world) : Prop := {
  sx_parameters : exchanged (smp_cb wi) (smp_cb wr);
  sx_addresses : addresses_crossed ei er ai ar ti tr wi wr;
  sx_initiator : received_from (smp_cb wi) (smp_cb wr);
  sx_responder : received_from (smp_cb wr) (smp_cb wi);
  sx_dhkey : dhkey (smp_cb wr) = dhkey (smp_cb wi);
}.

Definition own_address_i := address_octets (ai, ti).
Definition own_address_r := address_octets (ar, tr).

Lemma io_of_features c d : peer_features c = local_features d →
  smp_collect_peer_io_capabilities c = smp_collect_local_io_capabilities d.
Proof.
  intros E. unfold smp_collect_peer_io_capabilities, smp_collect_local_io_capabilities.
  by injection E as -> -> ->.
Qed.

(** The value a device expects is the one its peer computes. *)
Lemma expected_check_crossed c d own other :
  rrand c = rand d → rrand d = rand c → peer_random d = local_random c →
  peer_features c = local_features d → mac_key c = (f5_of d other own).1 →
  expected_check c own other = check_value d other own.
Proof.
  intros E1 E2 E3 E4%io_of_features E5. unfold expected_check, check_value. congruence.
Qed.

End sc_agreement.
