(* ===== verification/SmpScenario.v ===== *)
(** * Whole runs of SMP

    Sequences of inputs from [SMP_Init] on, in an environment of one bonded-to-be
    device.  The recursion bound [32] of the machines is more than any run
    needs ([SmpTotal]). *)
From S2P Require Import Prelude SmpDefs SmpTables SmpMonad SmpUtils SmpKeys SmpAct SmpMain SmpModel SmpAgreement.

(** An environment in which every packet is sent: the role of the link, whether a channel
    can be opened, the features the application answers with, the local address and the
    type of the link key are given.  The transmit-complete build flag is set. *)
Definition plain_env (role : Z) (connects : bool) (io : tSMP_IO_REQ) (own : RawAddress * Z)
    (link_key_type : Z) : Env := {|
  env_SendFixedChnlData _ := true;
  env_ConnectFixedChnl _ _ := connects;
  env_GetBleConnRole _ _ := role;
  env_callback _ _ _ _ := (BTM_SUCCESS, io);
  env_lmp_version _ _ := HCI_PROTO_VERSION_5_0;
  env_disable_le_sc _ := false;
  env_find_dev _ a := Some (mk_dev_rec a a true 0 (replicate 16 0) false);
  env_ReadConnectionAddr _ _ := own;
  env_ReadRemoteConnectionAddr _ a := Some (a, BLE_ADDR_PUBLIC);
  env_local_div _ _ := (false, 0);
  env_DeviceEncRoot := replicate 16 1;
  env_DeviceIDRoot := replicate 16 2;
  env_DeviceDHK := replicate 16 3;
  env_MacAddress := own.1;
  env_SupportsSecureConnections := true;
  env_LinkKeyType _ _ := link_key_type;
  env_link_sec_check _ _ _ := BTM_BLE_SEC_REQ_ACT_PAIR;
  env_start_encrypt _ _ := BTM_CMD_STARTED;
  env_isAndroidTVDevice := false;
  env_pts_smp_failure_case := 0;
  env_l2cap_tx_complete_cb_info := true;
  env_save_peer_csrk_after_ltk_gen := false;
  env_remove_dup_pairing_response := false;
  env_state_machine_stuck_fix := true;
  env_garbage _ _ := 0;
|}.

Definition run_env (e : Env) `{Crypto} (l : list input) (w : world) : res world :=
  fold_left (fun r i => match r with
    | Ok w => match @handle e _ (@machines e _ 32) i w with
              | Ok (_, w') => Ok w'
              | Fault f w' => Fault f w'
              end
    | Fault f w' => Fault f w'
    end) l (Ok w).

Definition peer : RawAddress := [1; 2; 3; 4; 5; 6].
Definition self : RawAddress := [9; 8; 7; 6; 5; 4].

(** ** Two devices in the middle of a pairing *)
(** A toolbox whose functions return zeros of the right length. *)
Definition zero_crypto : Crypto := {|
  aes_128 _ _ := zero16;
  f4 _ _ _ _ := zero16;
  f5 _ _ _ _ _ := (zero16, zero16);
  f6 _ _ _ _ _ _ _ := zero16;
  g2 _ _ _ _ := 0;
  ltk_to_link_key _ _ := zero16;
  link_key_to_ltk _ _ := zero16;
  ECC_public_key k := if same k (replicate 32 255) then None else Some (zero32, zero32);
  ECC_PointMult _ k := if same k (replicate 32 255) then None else Some (zero32, zero32);
  ECC_ValidatePoint _ := Some true;
|}.

Lemma zero_crypto_laws : @CryptoLaws zero_crypto.
Proof.
  assert (∀ k, private_key_ok k → same k (replicate 32 255) = false) as Hk.
  { intros k [_ Hk]. by apply bool_decide_eq_false. }
  split; intros; cbn; rewrite ?Hk by done; try apply octs_zero; try (split; apply octs_zero);
    try (exists zero32, zero32; split; [done|]; split; apply octs_zero); try done.
  all: first [by unfold BTM_MAX_PASSKEY_VAL | by exists true].
Qed.

Definition mid_pairing (role : Z) (bda : RawAddress) (own_nonce peer_nonce : Z) : world :=
  mkWorld (zero_tSMP_CB <| SmpDefs.role := role |> <| pairing_bda := bda |>
    <| selected_association_model := SMP_MODEL_SEC_CONN_NUM_COMP |>
    <| rand := replicate 16 own_nonce |> <| rrand := replicate 16 peer_nonce |>)
    zero_tSMP_LOC_OOB_DATA [] [].

Definition initiator_env : Env := plain_env HCI_ROLE_CENTRAL true (mk_tSMP_IO_REQ 3 0 1 16 7 7) (self, 0) 0.
Definition responder_env : Env := plain_env HCI_ROLE_PERIPHERAL true (mk_tSMP_IO_REQ 3 0 1 16 7 7) (peer, 0) 0.

Lemma legacy_agreement_witness :
  @smp_calculate_legacy_short_term_key zero_crypto (smp_cb (mid_pairing 0 peer 5 6)) =
  @smp_calculate_legacy_short_term_key zero_crypto (smp_cb (mid_pairing 1 self 6 5)).
Proof.
  destruct (@legacy_agreement zero_crypto initiator_env responder_env self peer 0 0
    (mid_pairing 0 peer 5 6) (mid_pairing 1 self 6 5)) as (_ & _ & _ & _ & E & E').
  - split; [|split; intros h; split| | | | |]; try reflexivity. split; reflexivity.
  - rewrite E, E'. reflexivity.
Defined.


Definition is_key_output (o : output) : bool :=
  match o with
  | btm_sec_save_le_key _ _ _ _ | btm_ble_ltk_request_reply _ _ _ | btm_ble_start_encrypt _ _ _ => true
  | _ => false
  end.

(** A keyboard-only device that wants MITM protection and bonding, without secure
    connections. *)
Definition keyboard : tSMP_IO_REQ := mk_tSMP_IO_REQ 2 0 5 16 7 7.

Definition request : input := i_data L2CAP_SMP_CID peer [1; 0; 0; 5; 16; 7; 7].
Definition acked : input := i_tx_complete L2CAP_SMP_CID 1.

Definition is_complete (o : output) : bool :=
  match o with smp_callback _ evt _ _ => evt =? SMP_COMPLT_EVT | _ => false end.

(** The peripheral is asked for a passkey, the user has none, and Pairing Failed is sent
    and acknowledged. *)
Definition failed_pairing : list input :=
  [i_Init BTM_SEC_MODE_SP; i_Register 77; request; acked;
   i_PasskeyReply peer SMP_PASSKEY_ENTRY_FAIL 0; acked].



(** A cross-transport pairing whose long term key cannot be derived (the link key is not a
    P-256 key) is not ended: the completion goes to the LE machine, which ignores it, and
    the BR/EDR machine stays in the bonding state until the 30 s timer. *)
Lemma br_derivation_failure_not_reported `{Crypto} :
  let e := plain_env HCI_ROLE_PERIPHERAL true (mk_tSMP_IO_REQ 3 0 1 16 3 3) (self, 0)
    BTM_LKEY_TYPE_AUTH_COMB in
  ∃ w, run_env e [i_Init BTM_SEC_MODE_SP; i_Register 77;
    i_br_data peer [1; 3; 0; 1; 16; 3; 3]; i_tx_complete L2CAP_SMP_BR_CID 1] init_world = Ok w ∧
  forallb (negb ∘ is_complete) (trace w) = true ∧
  br_state (smp_cb w) = SMP_BR_STATE_BOND_PENDING ∧
  smp_rsp_timer_ent (smp_cb w) = alarm_scheduled SMP_WAIT_FOR_RSP_TIMEOUT_MS.
Proof. eexists. split; [vm_compute; reflexivity|]. repeat split. Qed.
