(* ===== verification/SmpTyped.v ===== *)
(** * The types of the Security Manager's state

    The C++ types say what values a field can hold: octets, arrays of fixed size,
    enumerators.  [world_ok] says that of the model's state and of everything SMP has
    passed on; [safe] says that a computation keeps it and faults only in named ways. *)
From S2P Require Import Prelude SmpDefs SmpTables SmpMonad SmpUtils SmpKeys SmpAct SmpMain.

(** ** Well-typed values *)
Record pk_ok (k : tSMP_PUBLIC_KEY) : Prop := {
  pk_ok_x : octs 32 (pk_x k);
  pk_ok_y : octs 32 (pk_y k);
}.

Record loc_oob_ok (d : tSMP_LOC_OOB_DATA) : Prop := {
  lo_randomizer : octs 16 (loc_randomizer d);
  lo_commitment : octs 16 (loc_commitment d);
  lo_private : octs 32 (private_key_used d);
  lo_publ : pk_ok (publ_key_used d);
}.

Record oob_ok (o : tSMP_SC_OOB_DATA) : Prop := {
  oo_loc : loc_oob_ok (loc_oob_data o);
  oo_randomizer : octs 16 (peer_randomizer (peer_oob_data o));
  oo_commitment : octs 16 (peer_commitment (peer_oob_data o));
}.

Record cb_ok (c : tSMP_CB) : Prop := {
  c_rsp_timer : smp_rsp_timer_ent c ≠ alarm_null;
  c_auth_timer : delayed_auth_timer_ent c ≠ alarm_null;
  c_state : 0 <= state c < SMP_STATE_MAX;
  c_br_state : 0 <= br_state c < SMP_BR_STATE_MAX;
  c_role : 0 <= role c;
  c_bda : octs 6 (pairing_bda c);
  c_id_addr : octs 6 (id_addr c);
  c_local_bda : octs 6 (local_bda c);
  c_addr_type : is_u8 (addr_type c);
  c_failure : is_u8 (failure c);
  c_confirm : octs 16 (confirm c);
  c_rconfirm : octs 16 (rconfirm c);
  c_rrand : octs 16 (rrand c);
  c_rand : octs 16 (rand c);
  c_private_key : octs 32 (private_key c);
  c_dhkey : octs 32 (dhkey c);
  c_commitment : octs 16 (commitment c);
  c_remote_commitment : octs 16 (remote_commitment c);
  c_local_random : octs 16 (local_random c);
  c_peer_random : octs 16 (peer_random c);
  c_dhkey_check : octs 16 (dhkey_check c);
  c_remote_dhkey_check : octs 16 (remote_dhkey_check c);
  c_loc_publ_key : pk_ok (loc_publ_key c);
  c_peer_publ_key : pk_ok (peer_publ_key c);
  c_sc_oob_data : oob_ok (sc_oob_data c);
  c_peer_io_caps : is_u8 (peer_io_caps c);
  c_local_io : is_u8 (local_io_capability c);
  c_peer_oob_flag : is_u8 (peer_oob_flag c);
  c_loc_oob_flag : is_u8 (loc_oob_flag c);
  c_peer_auth_req : is_u8 (peer_auth_req c);
  c_loc_auth_req : is_u8 (loc_auth_req c);
  c_keypress : is_u8 (local_keypress_notification c);
  c_round : is_u8 (round c);
  c_number : is_u32 (number_to_display c);
  c_mac_key : octs 16 (mac_key c);
  c_peer_enc_size : is_u8 (peer_enc_size c);
  c_loc_enc_size : is_u8 (loc_enc_size c);
  c_peer_i_key : is_u8 (peer_i_key c);
  c_peer_r_key : is_u8 (peer_r_key c);
  c_local_i_key : is_u8 (local_i_key c);
  c_local_r_key : is_u8 (local_r_key c);
  c_tk : octs 16 (tk c);
  c_ltk : octs 16 (ltk c);
  c_div : is_u16 (div c);
  c_csrk : octs 16 (csrk c);
  c_enc_rand : octs 8 (enc_rand c);
}.

(** A packet handed to L2CAP: an opcode and octets, as many as the Core Specification
    gives for the opcode, and as many as its length field says. *)
Definition packet_ok (len : Z) (p : list Z) : Prop :=
  Forall is_u8 p ∧ len = Z.of_nat (length p) ∧
  ∃ code l, p = code :: l ∧ smp_cmd_size_per_spec !! Z.to_nat code = Some len ∧ 1 <= code <= SMP_OPCODE_MAX.

Definition key_value_ok (v : tBTM_LE_KEY_VALUE) : Prop :=
  match v with
  | penc_key k r _ _ _ => octs 16 k ∧ octs 8 r
  | lenc_key k _ _ _ => octs 16 k
  | pcsrk_key _ k _ => octs 16 k
  | lcsrk_key _ _ _ k => octs 16 k
  | pid_key k _ a => octs 16 k ∧ octs 6 a
  end.

Definition output_ok (o : output) : Prop :=
  match o with
  | L2CA_SendFixedChnlData cid _ len p => (cid = L2CAP_SMP_CID ∨ cid = L2CAP_SMP_BR_CID) ∧ packet_ok len p
  | btm_sec_save_le_key _ _ (Some v) _ => key_value_ok v
  | btm_ble_ltk_request_reply _ _ k => octs 16 k
  | btm_ble_start_encrypt _ _ (Some k) => octs 16 k
  | btm_sec_link_key_notification _ k _ => octs 16 k
  | _ => True
  end.

Record world_ok (w : world) : Prop := {
  w_cb : cb_ok (smp_cb w);
  w_saved : loc_oob_ok (saved_local_oob_data w);
  w_rands : Forall (fun k => match k with rand_private_key n => (n <= 3)%nat | _ => True end) (rands w);
  w_trace : Forall output_ok (trace w);
}.

(** ** What the environment answers is well typed *)
Record io_req_ok (io : tSMP_IO_REQ) : Prop := {
  io_ok_cap : is_u8 (io_cap io);
  io_ok_oob : is_u8 (oob_data io);
  io_ok_auth : is_u8 (auth_req io);
  io_ok_size : is_u8 (max_key_size io);
  io_ok_init : is_u8 (init_keys io);
  io_ok_resp : is_u8 (resp_keys io);
}.

Class EnvOk `{Env} : Prop := {
  eo_role h a : 0 <= env_GetBleConnRole h a;
  eo_callback h e a d : io_req_ok (env_callback h e a d).2;
  eo_dev h a d : env_find_dev h a = Some d → octs 16 (dev_link_key d);
  eo_local h a : octs 6 (env_ReadConnectionAddr h a).1 ∧ is_u8 (env_ReadConnectionAddr h a).2;
  eo_remote h a b : octs 6 a → env_ReadRemoteConnectionAddr h a = Some b → octs 6 b.1 ∧ is_u8 b.2;
  eo_er : octs 16 env_DeviceEncRoot;
  eo_ir : octs 16 env_DeviceIDRoot;
  eo_dhk : octs 16 env_DeviceDHK;
  eo_mac : octs 6 env_MacAddress;
}.

(** ** Events and their data *)
Definition data_typed (d : tSMP_INT_DATA) : Prop :=
  match d with
  | u_p_data p => Forall is_u8 p
  | u_key t (ptr_octets l) => is_u8 t ∧ octs 16 l
  | u_key t ptr_tk => is_u8 t
  | u_status s => is_u8 s
  | u_passkey k => is_u32 k
  | u_req_oob_type t => is_u8 t
  | NULL | u_unset => True
  end.

(** Which member of the union an event carries. *)
Inductive kind := k_null | k_unset | k_data | k_key | k_status | k_passkey | k_oob.

Definition kind_of (d : tSMP_INT_DATA) : kind :=
  match d with
  | NULL => k_null
  | u_unset => k_unset
  | u_p_data _ => k_data
  | u_key _ _ => k_key
  | u_status _ => k_status
  | u_passkey _ => k_passkey
  | u_req_oob_type _ => k_oob
  end.

Definition is_null (k : kind) : bool := match k with k_null => true | _ => false end.
Definition is_data (k : kind) : bool := match k with k_data => true | _ => false end.
Definition is_key (k : kind) : bool := match k with k_key | k_passkey => true | _ => false end.

(** The data an event of the LE machine may carry. *)
Definition le_may (ev : Z) (k : kind) : bool :=
  if (ev =? SMP_CONFIRM_EVT) || (ev =? SMP_RAND_EVT) || (ev =? SMP_PAIR_DHKEY_CHCK_EVT)
  then is_data k || is_null k
  else if ev <=? SMP_OPCODE_PAIR_COMMITM then is_data k
  else if (ev =? SMP_KEY_READY_EVT) || (ev =? SMP_SC_KEY_READY_EVT) then is_key k
  else if (ev =? SMP_ENCRYPTED_EVT) || (ev =? SMP_API_SEC_GRANT_EVT) || (ev =? SMP_AUTH_CMPL_EVT) ||
    (ev =? SMP_KEYPRESS_NOTIFICATION_EVENT) || (ev =? SMP_SIRK_DEVICE_VALID_EVT) then negb (is_null k)
  else if ev =? SMP_ENC_REQ_EVT then is_null k
  else true.

Definition br_may (ev : Z) (k : kind) : bool :=
  if ev <=? SMP_OPCODE_PAIR_KEYPR_NOTIF then is_data k
  else if (ev =? SMP_BR_API_SEC_GRANT_EVT) || (ev =? SMP_BR_AUTH_CMPL_EVT) then negb (is_null k)
  else true.

(** The application's event is not one that passes the data on. *)
Definition no_data_event (c : tSMP_CB) : Prop := cb_evt c ≠ SMP_NC_REQ_EVT ∧ cb_evt c ≠ SMP_SC_OOB_REQ_EVT.

Record le_data (ev : Z) (d : tSMP_INT_DATA) (c : tSMP_CB) : Prop := {
  ld_kind : le_may ev (kind_of d) = true;
  ld_rand : ev = SMP_RAND_EVT → d = NULL → state c = SMP_STATE_RAND ∧ role c = 1;
  ld_dhkey : ev = SMP_PAIR_DHKEY_CHCK_EVT → d = NULL → state c = SMP_STATE_DHK_CHECK;
  ld_passkey : ev = SMP_KEY_READY_EVT → kind_of d = k_passkey →
    selected_association_model c = SMP_MODEL_SEC_CONN_PASSKEY_DISP;
  ld_sc_passkey : ev = SMP_SC_KEY_READY_EVT → kind_of d = k_passkey →
    selected_association_model c = SMP_MODEL_SEC_CONN_PASSKEY_ENT;
  ld_app : d = NULL → ev = SMP_L2CAP_CONN_EVT ∨ ev = SMP_TK_REQ_EVT ∨ ev = SMP_SC_DSPL_NC_EVT → no_data_event c;
}.

Record br_data (ev : Z) (d : tSMP_INT_DATA) (c : tSMP_CB) : Prop := {
  bd_kind : br_may ev (kind_of d) = true;
  bd_app : d = NULL → ev = SMP_BR_L2CAP_CONN_EVT → no_data_event c;
}.

(** The command that is being handled: its code is the event, and the data has the octets
    that the received length promises; after a reset both are zero. *)
Definition received (ev : Z) (p : list Z) (c : tSMP_CB) : Prop :=
  rcvd_cmd_code c = ev ∧ rcvd_cmd_len c <= Z.of_nat (length p) + 1 ∨
  rcvd_cmd_code c = 0 ∧ rcvd_cmd_len c = 0.

Definition event_ok (max ev : Z) (d : tSMP_INT_DATA) (c : tSMP_CB) : Prop :=
  1 <= ev <= max ∧ data_typed d ∧
  (ev <= SMP_OPCODE_PAIR_COMMITM → ∀ p, d = u_p_data p → received ev p c).

(** What an action leaves of the command and of the role, which a reset clears. *)
Definition frame (w w' : world) : Prop :=
  (rcvd_cmd_code (smp_cb w') = rcvd_cmd_code (smp_cb w) ∧
   rcvd_cmd_len (smp_cb w') = rcvd_cmd_len (smp_cb w) ∨
   rcvd_cmd_code (smp_cb w') = 0 ∧ rcvd_cmd_len (smp_cb w') = 0) ∧
  (role (smp_cb w') = role (smp_cb w) ∨ role (smp_cb w') = 0).

Lemma frame_refl w : frame w w.
Proof. by split; left. Qed.

Lemma frame_trans w1 w2 w3 : frame w1 w2 → frame w2 w3 → frame w1 w3.
Proof.
  intros [[[E1 E2]|[E1 E2]] ER] [[[F1 F2]|[F1 F2]] FR];
    (split; [|destruct FR as [->| ->]; auto]); [left|right..]; split; congruence.
Qed.

Lemma event_ok_frame max ev d w w' :
  event_ok max ev d (smp_cb w) → frame w w' → event_ok max ev d (smp_cb w').
Proof.
  intros (He & Hd & Hr) [Hf _]. split; [done|]. split; [done|]. intros Hle p ->.
  destruct (Hr Hle p eq_refl) as [[E1 E2]|[E1 E2]], Hf as [[F1 F2]|[F1 F2]];
    unfold received; [left|right..]; rewrite ?F1, ?F2; auto.
Qed.

Lemma role_frame w w' : role (smp_cb w) < 2 → frame w w' → role (smp_cb w') < 2.
Proof. intros Hr [_ [->| ->]]; [done|lia]. Qed.

(** ** The program logic *)
Section logic.
Context {env : Env}.

(** The faults that remain: the security manager has no record of the device; a passkey
    arrives where a key is expected; and the two arrays that the code can leave. *)
Definition fault_ok (e : fault) (w : world) : Prop :=
  match e with
  | OutOfFuel => True
  | NullDeref => env_find_dev (trace w) (pairing_bda (smp_cb w)) = None
  | WildPointer =>
      (state (smp_cb w) = SMP_STATE_RAND ∨ state (smp_cb w) = SMP_STATE_ENCRYPTION_PENDING) ∧
      selected_association_model (smp_cb w) = SMP_MODEL_SEC_CONN_PASSKEY_DISP ∨
      state (smp_cb w) = SMP_STATE_DHK_CHECK ∧
      selected_association_model (smp_cb w) = SMP_MODEL_SEC_CONN_PASSKEY_ENT
  | OutOfBounds => private_key (smp_cb w) = replicate 32 255 ∨ 128 <= round (smp_cb w)
  | AssertFailed => False
  end.

Definition safe {A} (m : M A) (Q : A → Prop) (w : world) : Prop :=
  match m w with
  | Ok (a, w') => world_ok w' ∧ frame w w' ∧ Q a
  | Fault e w' => fault_ok e w'
  end.

Definition any {A} (_ : A) : Prop := True.

Section rules.
Context {A B : Type}.
Implicit Types (m : M A) (f : A → M B) (w : world).

Lemma ty_ret (a : A) (Q : A → Prop) w : world_ok w → Q a → safe (mret a) Q w.
Proof. intros Hw Ha. split; [done|]. split; [apply frame_refl|done]. Qed.

Lemma ty_mono m (P Q : A → Prop) w : safe m P w → (∀ a, P a → Q a) → safe m Q w.
Proof. unfold safe. intros H HQ. destruct (m w) as [[a w']|]; naive_solver. Qed.

Lemma ty_bind m f (P : A → Prop) (Q : B → Prop) w :
  safe m P w →
  (∀ a w', world_ok w' → frame w w' → P a → safe (f a) Q w') →
  safe (m ≫= f) Q w.
Proof.
  unfold safe, mbind, M_bind. intros Hm Hf. destruct (m w) as [[a w']|e w']; [|done].
  destruct Hm as (Hw' & Hfr & Ha). specialize (Hf a w' Hw' Hfr Ha).
  destruct (f a w') as [[b w'']|]; [|done]. destruct Hf as (Hw'' & Hfr' & Hb).
  split; [done|]. split; [by eapply frame_trans|done].
Qed.

Lemma ty_get (f : tSMP_CB → M B) (Q : B → Prop) w : safe (f (smp_cb w)) Q w → safe (get ≫= f) Q w.
Proof. done. Qed.

Lemma ty_gets (g : tSMP_CB → A) f (Q : B → Prop) w : safe (f (g (smp_cb w))) Q w → safe (gets g ≫= f) Q w.
Proof. done. Qed.

Lemma ty_history (f : list output → M B) (Q : B → Prop) w : safe (f (trace w)) Q w → safe (history ≫= f) Q w.
Proof. done. Qed.

Lemma ty_get_saved (f : tSMP_LOC_OOB_DATA → M B) (Q : B → Prop) w :
  safe (f (saved_local_oob_data w)) Q w → safe (get_saved_oob ≫= f) Q w.
Proof. done. Qed.

Lemma ty_fail (e : fault) (Q : A → Prop) w : fault_ok e w → safe (fail e) Q w.
Proof. done. Qed.

Lemma ty_some (e : fault) (o : option A) (Q : A → Prop) w :
  world_ok w → (∀ a, o = Some a → Q a) → (o = None → fault_ok e w) → safe (of_option e o) Q w.
Proof. intros Hw HQ He. destruct o; [apply ty_ret; auto|apply ty_fail; auto]. Qed.
End rules.

Lemma ty_upd (f : tSMP_CB → tSMP_CB) w :
  world_ok w → cb_ok (f (smp_cb w)) → frame w (w <| smp_cb ::= f |>) → safe (upd f) any w.
Proof. intros [Hc Hs Hr Ht] Hf Hfr. split; [split; done|]. by split. Qed.

Lemma ty_upd_bind {A} (f : tSMP_CB → tSMP_CB) (k : () → M A) Q w :
  world_ok w → cb_ok (f (smp_cb w)) → frame w (w <| smp_cb ::= f |>) →
  (world_ok (w <| smp_cb ::= f |>) → safe (k ()) Q (w <| smp_cb ::= f |>)) → safe (upd f ≫= k) Q w.
Proof.
  intros [Hc Hs Hr Ht] Hf Hfr Hk. unfold safe, mbind, M_bind, upd. cbv beta iota.
  specialize (Hk ltac:(by split)). unfold safe in Hk.
  destruct (k () _) as [[a w']|]; [|done]. destruct Hk as (Hw' & Hf' & Ha).
  split; [done|]. split; [by eapply frame_trans|done].
Qed.

Lemma ty_emit o w : world_ok w → output_ok o → safe (emit o) any w.
Proof.
  intros [Hc Hs Hr Ht] Ho. split; [|split; [by split; left|done]].
  split; [done..|]. cbn. apply Forall_app. auto.
Qed.

Lemma ty_when b (m : M unit) w : world_ok w → (b = true → safe m any w) → safe (when b m) any w.
Proof. intros Hw Hm. destruct b; [auto|by apply ty_ret]. Qed.

Lemma ty_ignore {A} (m : M A) (Q : A → Prop) w : safe m Q w → safe (ignore m) any w.
Proof. intros Hm. eapply ty_bind; [done|]. intros. by apply ty_ret. Qed.

Lemma ty_wait k w :
  world_ok w → match k with rand_private_key n => (n <= 3)%nat | _ => True end → safe (wait_rand k) any w.
Proof.
  intros [Hc Hs Hr Ht] Hk. split; [|split; [by split; left|done]].
  split; [done..| |done]. cbn. apply Forall_app. auto.
Qed.

Lemma ty_set_saved d w : world_ok w → loc_oob_ok d → safe (set_saved_oob d) any w.
Proof. intros [Hc Hs Hr Ht] Hd. split; [|split; [by split; left|done]]. split; done. Qed.

(** ** Reading received octets *)
Lemma ty_member_p_data d w : world_ok w → data_typed d → kind_of d = k_data →
  safe (member_p_data d) (fun p => d = u_p_data p ∧ Forall is_u8 p) w.
Proof. intros Hw Hd Hk. destruct d; try discriminate Hk. by apply ty_ret. Qed.

Lemma ty_bind_stream {B} p n (f : list Z * list Z → M B) Q w :
  world_ok w → Forall is_u8 p → (n <= length p)%nat →
  (∀ l q, octs n l → length q = (length p - n)%nat → Forall is_u8 q → safe (f (l, q)) Q w) →
  safe (stream p n ≫= f) Q w.
Proof.
  intros Hw Hp Hn Hf. unfold stream. rewrite (proj2 (Nat.leb_le _ _) Hn). unfold safe, mbind, M_bind.
  apply Hf; [split; [rewrite length_take; lia|by apply Forall_take]|apply length_drop|by apply Forall_drop].
Qed.

Lemma ty_bind_u8 {B} p (f : Z * list Z → M B) Q w :
  world_ok w → Forall is_u8 p → (1 <= length p)%nat →
  (∀ b q, is_u8 b → length q = (length p - 1)%nat → Forall is_u8 q → safe (f (b, q)) Q w) →
  safe (stream_u8 p ≫= f) Q w.
Proof.
  intros Hw Hp Hn Hf. destruct p as [|b q]; [cbn in Hn; lia|]. apply Forall_cons in Hp as [Hb Hq].
  apply Hf; [done|cbn; lia|done].
Qed.

(** ** Handlers: what starts with a new command or a new role *)
Definition keeps {A} (m : M A) (w : world) : Prop :=
  match m w with
  | Ok (_, w') => world_ok w'
  | Fault e w' => fault_ok e w'
  end.

Lemma keeps_safe {A} (m : M A) Q w : safe m Q w → keeps m w.
Proof. unfold safe, keeps. destruct (m w) as [[a w']|]; naive_solver. Qed.

Lemma keeps_bind {A B} (m : M A) (f : A → M B) w :
  keeps m w → (∀ a w', world_ok w' → keeps (f a) w') → keeps (m ≫= f) w.
Proof. unfold keeps, mbind, M_bind. intros Hm Hf. destruct (m w) as [[a w']|e w']; [by apply Hf|done]. Qed.

Lemma keeps_upd (f : tSMP_CB → tSMP_CB) w : world_ok w → cb_ok (f (smp_cb w)) → keeps (upd f) w.
Proof. intros [Hc Hs Hr Ht] Hf. by split. Qed.

End logic.

(** ** Octets *)
Lemma lor_octet a b : is_u8 a → is_u8 b → is_u8 (Z.lor a b).
Proof.
  rewrite !is_u8_land. intros Ha Hb. rewrite Z.land_lor_distr_l. by rewrite Ha, Hb.
Qed.

Lemma land_octet_l a b : is_u8 a → is_u8 (Z.land a b).
Proof. rewrite !is_u8_land. intros Ha. by rewrite <- Z.land_assoc, (Z.land_comm b), Z.land_assoc, Ha. Qed.

Lemma land_octet_r a b : is_u8 b → is_u8 (Z.land a b).
Proof. rewrite Z.land_comm. apply land_octet_l. Qed.

Lemma clear_octet a b : is_u8 a → is_u8 (clear a b).
Proof. unfold clear. rewrite Z.ldiff_land. apply land_octet_l. Qed.

Lemma octs_length n l : octs n l → length l = n.
Proof. by intros []. Qed.

Lemma octs_sub i n k l : octs k l → (i + n <= k)%nat → octs n (take n (drop i l)).
Proof.
  intros [Hl Hu] Hi. split; [rewrite length_take, length_drop; lia|].
  apply Forall_take, Forall_drop, Hu.
Qed.

Lemma octs_drop i k l : octs k l → octs (k - i) (drop i l).
Proof. intros [Hl Hu]. split; [rewrite length_drop; lia|]. by apply Forall_drop. Qed.

Lemma octs_overwrite n k a l : octs n a → octs k l → (k <= n)%nat → octs n (overwrite a l).
Proof.
  intros Ha Hl Hk. unfold overwrite. rewrite (octs_length _ _ Hl).
  replace n with (k + (n - k))%nat by lia. apply octs_app; [done|]. by apply octs_drop.
Qed.

Lemma octs_overwrite_at n k i a l : octs n a → octs k l → (i + k <= n)%nat → octs n (overwrite_at a i l).
Proof.
  intros Ha Hl Hk. unfold overwrite_at. replace n with (i + (n - i))%nat by lia.
  apply octs_app.
  - pose proof (octs_sub 0 i n a Ha). rewrite drop_0 in H. apply H. lia.
  - apply (octs_overwrite _ k); [by apply octs_drop|done|lia].
Qed.

Lemma octs_mask n l : octs 16 l → is_u8 n → octs 16 (smp_mask_enc_key n l).
Proof.
  intros Hl Hn. unfold smp_mask_enc_key, OCTET16_LEN. destruct (Z.ltb_spec n 16); [|done].
  unfold is_u8 in Hn. pose proof (octs_sub 0 (Z.to_nat n) 16 l Hl) as Ht. rewrite drop_0 in Ht.
  replace 16%nat with (Z.to_nat n + (16 - Z.to_nat n))%nat at 1 by lia.
  apply octs_app; [apply Ht; lia|apply octs_zero].
Qed.

(** ** Automation *)
Create HintDb smp.
#[export] Hint Resolve lor_octet land_octet_l land_octet_r clear_octet le_octets_octs octs_mask
  u8_range octs_rev octs_zero w_saved : smp.
#[export] Hint Resolve c_rsp_timer c_auth_timer c_state c_br_state c_role c_bda c_id_addr c_local_bda
  c_addr_type c_failure c_confirm c_rconfirm c_rrand c_rand c_private_key c_dhkey c_commitment
  c_remote_commitment c_local_random c_peer_random c_dhkey_check c_remote_dhkey_check c_loc_publ_key
  c_peer_publ_key c_sc_oob_data c_peer_io_caps c_local_io c_peer_oob_flag c_loc_oob_flag
  c_peer_auth_req c_loc_auth_req c_keypress c_round c_number c_mac_key c_peer_enc_size c_loc_enc_size
  c_peer_i_key c_peer_r_key c_local_i_key c_local_r_key c_tk c_ltk c_div c_csrk c_enc_rand w_cb
  pk_ok_x pk_ok_y : smp.
#[export] Hint Extern 2 (is_u8 _) => (split; [vm_compute; discriminate | vm_compute; reflexivity]) : smp.
#[export] Hint Extern 2 (is_u32 _) => (split; [vm_compute; discriminate | vm_compute; reflexivity]) : smp.

(** Reads fields of an updated control block. *)
Ltac cb_cbn := cbn [modify smp_cb saved_local_oob_data rands trace
    init_security_mode p_callback smp_rsp_timer_ent pairing_bda state derive_lk id_addr_rcvd
    id_addr_type id_addr smp_over_br br_state failure status role flags cb_evt sec_level
    connect_initialized confirm rconfirm rrand rand private_key dhkey commitment
    remote_commitment local_random peer_random dhkey_check remote_dhkey_check loc_publ_key
    peer_publ_key req_oob_type sc_oob_data peer_io_caps local_io_capability peer_oob_flag
    loc_oob_flag peer_auth_req loc_auth_req sc_only_mode_locally_required
    sc_mode_required_by_peer selected_association_model key_derivation_h7_used
    le_sc_kp_notif_is_used local_keypress_notification peer_keypress_notification round
    number_to_display mac_key peer_enc_size loc_enc_size peer_i_key peer_r_key local_i_key
    local_r_key tk ltk div csrk ediv enc_rand addr_type local_bda is_pair_cancel discard_sec_req
    rcvd_cmd_code rcvd_cmd_len total_tx_unacked wait_for_authorization_complete cert_failure
    delayed_auth_timer_ent pairing_ble_bd_addr loc_oob_data peer_oob_data loc_present
    loc_randomizer loc_commitment addr_sent_to private_key_used publ_key_used peer_present
    peer_randomizer peer_commitment addr_rcvd_from pk_x pk_y bd_type bd_bda].

(** An update of the control block is well typed. *)
Ltac cb_solve :=
  match goal with
  | H : world_ok ?w |- cb_ok _ =>
      let C := fresh "C" in
      pose proof (w_cb w H) as C; destruct C; constructor; cb_cbn;
      first [assumption | eauto 4 with smp | idtac]
  end.
