(* ===== verification/SmpSafe.v ===== *)
(** * Every operation of the Security Manager keeps the types

    One lemma per operation of [SmpUtils], [SmpKeys] and [SmpAct]: it keeps [world_ok],
    given that the state machines do ([MachinesOk]). *)
From S2P Require Import Prelude SmpDefs SmpTables SmpMonad SmpUtils SmpKeys SmpAct SmpMain SmpTyped.

(** What an action relies on when it raises an event. *)
Class MachinesOk `{Env} `{Machines} : Prop := {
  mo_event ev d w : world_ok w → event_ok SMP_MAX_EVT ev d (smp_cb w) → le_data ev d (smp_cb w) →
    safe (smp_sm_event ev d) any w;
  mo_br_event ev d w : world_ok w → event_ok (SMP_BR_MAX_EVT - 1) ev d (smp_cb w) →
    br_data ev d (smp_cb w) → safe (smp_br_state_machine_event ev d) any w;
  mo_key_distribution w : world_ok w → safe smp_key_distribution any w;
  mo_select_next_key w : world_ok w → safe smp_br_select_next_key any w;
}.

(** An event with a known number and data that is no command. *)
Ltac event_solve :=
  split; [split; vm_compute; discriminate | split;
    [cbn [data_typed]; auto with smp |
     let H := fresh in intros H; first [exfalso; apply H; reflexivity | intros ? [=]]]].

(** Lemmas on an operation, and on a sequence of them. *)
Create HintDb smpq.
Create HintDb smpw.

(** The data fits the event. *)
Ltac data_solve :=
  split; [vm_compute; reflexivity|..]; intros;
  try discriminate; try (by destruct_or!; discriminate).

Ltac ty_step :=
  lazymatch goal with
  | |- safe (mret _) _ _ => apply ty_ret; [assumption|try exact I]
  | |- safe (get ≫= _) _ _ => apply ty_get; cbv beta
  | |- safe (gets _ ≫= _) _ _ => apply ty_gets; cbv beta
  | |- safe (history ≫= _) _ _ => apply ty_history; cbv beta
  | |- safe (get_saved_oob ≫= _) _ _ => apply ty_get_saved; cbv beta
  | |- safe (member_p_data ?d ≫= _) _ _ =>
      eapply ty_bind; [apply ty_member_p_data; [assumption|eassumption|eassumption]|intros ? ? ? ? [-> ?]]
  | |- safe (stream _ _ ≫= _) _ _ =>
      apply ty_bind_stream; [assumption|assumption|lia|intros; cbv beta iota]
  | |- safe (stream_u8 _ ≫= _) _ _ =>
      apply ty_bind_u8; [assumption|assumption|lia|intros; cbv beta iota]
  | |- safe (_ ≫= _) _ _ =>
      first [solve [eauto 3 with smpw nocore]
        | first [eapply ty_bind; [solve [eauto 3 with smpq]|] | apply (ty_bind _ _ any)];
          [..|intros ? ? ? ? ?]]
  | |- safe (if ?b then _ else _) _ _ => destruct b eqn:?
  | |- safe (when _ _) _ _ => apply ty_when; [assumption|intros ?]
  | |- safe (upd _) _ _ => apply ty_upd; [assumption| cb_solve | split; left; [split; reflexivity|reflexivity]]
  | |- safe (emit _) _ _ => apply ty_emit; [assumption| cbn [output_ok key_value_ok]; auto with smp]
  | |- safe (wait_rand _) _ _ => apply ty_wait; [assumption|try exact I]
  | |- safe (ignore _) _ _ => apply (ty_ignore _ any)
  | |- safe (smp_sm_event _ _) _ _ => apply mo_event; [assumption|event_solve|data_solve]
  | |- safe (smp_br_state_machine_event _ _) _ _ => apply mo_br_event; [assumption|event_solve|data_solve]
  | |- safe smp_key_distribution _ _ => apply mo_key_distribution; assumption
  | |- safe smp_br_select_next_key _ _ => apply mo_select_next_key; assumption
  | |- safe (match ?x with _ => _ end) _ _ => destruct x eqn:?
  | |- safe _ _ _ => solve [eauto 3 with smpq]
  end.
Ltac ty := repeat ty_step.

Section safe.
Context `{Env} `{!EnvOk} `{CryptoLaws} `{Machines} `{!MachinesOk}.

(** ** Reading event data *)
Lemma ty_member_status d w : world_ok w → data_typed d → kind_of d ≠ k_null → safe (member_status d) is_u8 w.
Proof.
  intros Hw Hd Hk. destruct d as [| |p|t [|l]|s|k|t]; cbn [member_status data_typed] in *;
    first [by destruct Hk | ty; auto with smp; naive_solver].
Qed.

Lemma ty_member_passkey d w : world_ok w → data_typed d → kind_of d ≠ k_null → safe (member_passkey d) is_u32 w.
Proof.
  intros Hw Hd Hk. destruct d; cbn [member_passkey data_typed] in *;
    first [by destruct Hk | ty; auto using u32_range].
Qed.

Lemma ty_member_key d w : world_ok w → data_typed d → is_key (kind_of d) = true →
  (kind_of d = k_passkey → fault_ok WildPointer w) → safe (member_key d) (octs 16) w.
Proof.
  intros Hw Hd Hk Hp. destruct d as [| |p|t [|l]|s|k|t]; cbn [member_key data_typed kind_of] in *;
    try discriminate Hk.
  - split; [done|]. split; [apply frame_refl|auto with smp].
  - ty. naive_solver.
  - by apply ty_fail, Hp.
Qed.

(** ** Checking received commands *)
Definition size_of (ev : Z) : Z := nth (Z.to_nat ev) smp_cmd_size_per_spec 0.

Lemma ty_index {A} (l : list A) i w (Q : A → Prop) :
  world_ok w → 0 <= i < Z.of_nat (length l) → (∀ a, l !! Z.to_nat i = Some a → Q a) →
  safe (index l i) Q w.
Proof.
  intros Hw Hi HQ. unfold index. destruct (Z.leb_spec 0 i); [|lia].
  apply ty_some; [done|done|]. intros E. apply lookup_ge_None in E. lia.
Qed.

(** The length of a received command is what its code requires, or it is refused. *)
Definition length_checked (c : tSMP_CB) (bad : bool) : Prop :=
  bad = false → 1 <= rcvd_cmd_code c <= 15 ∧ rcvd_cmd_len c = size_of (rcvd_cmd_code c).

Lemma reserved_false n : reserved_code n = false → 1 <= n <= 15.
Proof.
  unfold reserved_code, SMP_OPCODE_MAX, SMP_OPCODE_MIN, SMP_OPCODE_PAIRING_REQ,
    SMP_OPCODE_PAIR_KEYPR_NOTIF. lia.
Qed.

Lemma valid_length_run w : 1 <= rcvd_cmd_code (smp_cb w) <= 15 →
  smp_command_has_valid_fixed_length w =
  Ok (rcvd_cmd_len (smp_cb w) =? size_of (rcvd_cmd_code (smp_cb w)), w).
Proof.
  intros Hc. unfold smp_command_has_valid_fixed_length, get, index, mbind, M_bind.
  destruct (Z.leb_spec 0 (rcvd_cmd_code (smp_cb w))); [|lia].
  unfold size_of, of_option.
  destruct (lookup_lt_is_Some_2 smp_cmd_size_per_spec (Z.to_nat (rcvd_cmd_code (smp_cb w)))) as [x Hx];
    [cbn; lia|].
  erewrite nth_lookup, Hx. done.
Qed.

Lemma ty_invalid_length w : world_ok w →
  safe smp_command_has_invalid_length (length_checked (smp_cb w)) w.
Proof.
  intros Hw. unfold smp_command_has_invalid_length. ty_step.
  destruct (reserved_code _) eqn:E; [by apply ty_ret|]. apply reserved_false in E.
  unfold safe, mbind, M_bind. rewrite valid_length_run by done.
  split; [done|]. split; [apply frame_refl|]. intros Hb%negb_false_iff%Z.eqb_eq. auto.
Qed.

Lemma opcode_cases n : 1 <= n <= 15 →
  smp_cmd_len_is_valid !! Z.to_nat n = Some smp_command_has_valid_fixed_length ∧
  ∃ g : M bool, smp_cmd_param_ranges_are_valid !! Z.to_nat n = Some g ∧ ∀ w, ∃ b, g w = Ok (b, w).
Proof.
  intros Hn.
  assert (n = 1 ∨ n = 2 ∨ n = 3 ∨ n = 4 ∨ n = 5 ∨ n = 6 ∨ n = 7 ∨ n = 8 ∨ n = 9 ∨ n = 10 ∨
    n = 11 ∨ n = 12 ∨ n = 13 ∨ n = 14 ∨ n = 15) as Hc by lia.
  destruct_or!; subst; (split; [reflexivity|]); eexists; (split; [reflexivity|]); intros; eexists;
    cbv [smp_pairing_request_response_parameters_are_valid smp_parameter_unconditionally_valid
      smp_pairing_keypress_notification_is_valid get gets mbind M_bind mret M_ret]; reflexivity.
Qed.

Lemma ty_invalid_parameters w : world_ok w →
  safe smp_command_has_invalid_parameters (length_checked (smp_cb w)) w.
Proof.
  intros Hw. unfold smp_command_has_invalid_parameters. ty_step.
  destruct (reserved_code _) eqn:E; [by apply ty_ret|]. apply reserved_false in E.
  destruct (opcode_cases _ E) as [El (g & Eg & Hg)].
  unfold safe, index, mbind, M_bind.
  destruct (Z.leb_spec 0 (rcvd_cmd_code (smp_cb w))); [|lia].
  rewrite El. cbn [of_option]. unfold mret, M_ret. rewrite valid_length_run by done.
  destruct (_ =? size_of _) eqn:Es; cbn [negb].
  - rewrite Eg. cbn [of_option]. unfold mret, M_ret. destruct (Hg w) as [b ->]. split; [done|]. split; [apply frame_refl|].
    intros _. apply Z.eqb_eq in Es. auto.
  - split; [done|]. split; [apply frame_refl|]. by intros [=].
Qed.

(** The data of a command that passed the check has all its octets. *)
Lemma checked_octets max ev p c :
  event_ok max ev (u_p_data p) c → ev <= 15 → length_checked c false →
  Forall is_u8 p ∧ size_of ev - 1 <= Z.of_nat (length p).
Proof.
  intros (He & Hd & Hr) Hle Hc. split; [done|].
  destruct (Hr Hle p eq_refl) as [[E1 E2]|[E1 E2]], (Hc eq_refl) as [C1 C2]; [|lia].
  rewrite E1 in C2. lia.
Qed.

Hint Resolve ty_member_p_data ty_member_status ty_member_passkey ty_member_key ty_invalid_length
  ty_invalid_parameters : smpq.

(** ** Sending *)
Lemma packet_intro code n l len :
  octs n l → smp_cmd_size_per_spec !! Z.to_nat code = Some len → len = Z.of_nat (S n) →
  1 <= code <= SMP_OPCODE_MAX → packet_ok len (code :: l).
Proof.
  intros [Hl Hu] Es Hn Hc. split; [|split].
  - apply Forall_cons. split; [|done]. unfold is_u8, SMP_OPCODE_MAX, SMP_OPCODE_PAIR_KEYPR_NOTIF in *. lia.
  - cbn. lia.
  - exists code, l. auto.
Qed.

(** Every command is built with its length and octets. *)
Lemma build_ok c code b : cb_ok c →
  smp_cmd_build_act !! Z.to_nat code = Some (Some b) → 0 <= code →
  packet_ok (b code c).1 (b code c).2.
Proof.
  intros Hc Hb Hn.
  assert (code <= 15) by (apply lookup_lt_Some in Hb; cbn in Hb; lia).
  assert (code = 0 ∨ code = 1 ∨ code = 2 ∨ code = 3 ∨ code = 4 ∨ code = 5 ∨ code = 6 ∨ code = 7 ∨
    code = 8 ∨ code = 9 ∨ code = 10 ∨ code = 11 ∨ code = 12 ∨ code = 13 ∨ code = 14 ∨ code = 15)
    as Hcases by lia.
  destruct_or!; subst; cbn in Hb; try discriminate Hb; injection Hb as <-;
    eapply packet_intro; try reflexivity; try (split; vm_compute; discriminate);
    repeat first [apply octs_cons | apply octs_zero with (n := 0%nat)];
    eauto using eo_ir with smp.
  - apply octs_rev, eo_mac.
  - reflexivity.
  - apply (octs_app 32 32); eauto with smp.
  - reflexivity.
Qed.

Lemma ty_log_metrics a o p br w : world_ok w → safe (smp_log_metrics a o p br) any w.
Proof. intros Hw. unfold smp_log_metrics. ty. Qed.

Lemma ty_send_data cid a p w : world_ok w →
  cid = L2CAP_SMP_CID ∨ cid = L2CAP_SMP_BR_CID → packet_ok p.1 p.2 →
  safe (L2CA_SendFixedChnlData_ cid a p) any w.
Proof. intros Hw Hc Hp. unfold L2CA_SendFixedChnlData_. ty. Qed.

Lemma ty_send_msg a p w : world_ok w → packet_ok p.1 p.2 → safe (smp_send_msg_to_L2CAP a p) any w.
Proof.
  intros Hw Hp. unfold smp_send_msg_to_L2CAP. ty_step.
  assert (∀ b : bool, (if b then L2CAP_SMP_BR_CID else L2CAP_SMP_CID) = L2CAP_SMP_CID ∨
    (if b then L2CAP_SMP_BR_CID else L2CAP_SMP_CID) = L2CAP_SMP_BR_CID) as Hc by (intros []; auto).
  ty_step; [by apply ty_log_metrics|].
  ty; try (apply ty_send_data; auto).
Qed.

Lemma alarm_set_ok a ms w : world_ok w → a ≠ alarm_null →
  safe (alarm_set_on_mloop a ms) (fun t => t ≠ alarm_null) w.
Proof. intros Hw Ha. destruct a; [done|by apply ty_ret..]. Qed.

Lemma ty_start_rsp_timer w : world_ok w → safe start_rsp_timer any w.
Proof.
  intros Hw. unfold start_rsp_timer. ty_step.
  eapply ty_bind; [apply alarm_set_ok; eauto with smp|]. intros. ty.
Qed.

Lemma ty_send_cmd code w : world_ok w → 0 <= code <= 15 → safe (smp_send_cmd code) any w.
Proof.
  intros Hw Hc. unfold smp_send_cmd.
  eapply (ty_bind _ _ (fun o => ∀ b, o = Some b → smp_cmd_build_act !! Z.to_nat code = Some (Some b))).
  { destruct (Z.leb_spec code (SMP_OPCODE_MAX + 1)).
    - apply ty_index; [done|cbn; lia|]. by intros a Ha b ->.
    - apply ty_ret; [done|]. by intros ? [=]. }
  intros build w1 Hw1 _ Hb. ty_step; [|ty].
  destruct build as [b|]; [|ty]. ty_step. ty_step.
  - apply ty_send_msg; [done|]. apply build_ok; eauto with smp; lia.
  - ty. by apply ty_start_rsp_timer.
Qed.
Hint Resolve ty_log_metrics ty_start_rsp_timer : smpq.
Hint Extern 1 (safe (smp_send_cmd _) _ _) =>
  apply ty_send_cmd; [assumption | split; vm_compute; discriminate] : smpq.

Lemma ty_reject a w : world_ok w → safe (smp_reject_unexpected_pairing_command a) any w.
Proof.
  intros Hw. unfold smp_reject_unexpected_pairing_command. ty_step. apply ty_send_msg; [done|].
  eapply (packet_intro _ 1); try reflexivity; [|split; vm_compute; discriminate].
  apply octs_one. auto with smp.
Qed.

(** ** Timers, start, reset and end *)
Lemma ty_rsp_timeout w : world_ok w → safe smp_rsp_timeout any w.
Proof. intros Hw. unfold smp_rsp_timeout. ty. Qed.

Lemma ty_delayed_timeout w : world_ok w → safe smp_delayed_auth_complete_timeout any w.
Proof. intros Hw. unfold smp_delayed_auth_complete_timeout. ty. Qed.

Lemma ty_set_state n w : world_ok w → 0 <= n → safe (smp_set_state n) any w.
Proof.
  intros Hw Hn. unfold smp_set_state. ty_step. ty.
  match goal with E : (_ <? _) = true |- _ => apply Z.ltb_lt in E end. lia.
Qed.

Lemma ty_set_br_state n w : world_ok w → 0 <= n → safe (smp_set_br_state n) any w.
Proof.
  intros Hw Hn. unfold smp_set_br_state. ty_step. ty.
  match goal with E : (_ <? _) = true |- _ => apply Z.ltb_lt in E end. lia.
Qed.
Hint Extern 1 (safe (smp_set_state _) _ _) =>
  apply ty_set_state; [assumption | vm_compute; discriminate] : smpq.

Lemma zero_oob_ok : loc_oob_ok zero_tSMP_LOC_OOB_DATA.
Proof. split; cbn; try apply octs_zero. split; apply octs_zero. Qed.

Lemma zero_cb_ok c a b : a ≠ alarm_null → b ≠ alarm_null →
  cb_ok (zero_tSMP_CB <| init_security_mode := init_security_mode c |> <| p_callback := p_callback c |>
    <| smp_rsp_timer_ent := a |> <| delayed_auth_timer_ent := b |>).
Proof.
  intros Ha Hb. split; cb_cbn; unfold zero_tSMP_CB; cb_cbn;
    first [assumption | apply octs_zero | split; apply octs_zero
      | split; [apply zero_oob_ok | apply octs_zero..] | unfold is_u8, is_u16, is_u32; vm_compute; intuition discriminate].
Qed.

Lemma alarm_cancel_ok (a : alarm_t) : a ≠ alarm_null → alarm_cancel a ≠ alarm_null.
Proof. by destruct a. Qed.
Hint Resolve alarm_cancel_ok : smp.

Lemma ty_reset w : world_ok w → safe reset any w.
Proof.
  intros Hw. apply ty_upd; [done| |split; right; [split; reflexivity|reflexivity]].
  apply zero_cb_ok; eauto with smp.
Qed.
Hint Resolve ty_reset : smpq.

Lemma ty_reset_control_value w : world_ok w → safe smp_reset_control_value any w.
Proof. intros Hw. unfold smp_reset_control_value, smp_remove_fixed_channel. ty. Qed.
Hint Resolve ty_reset_control_value : smpq.

Lemma ty_call_app cb e a d w : world_ok w → safe (call_app cb e a d) (fun r => io_req_ok r.2) w.
Proof. intros Hw. unfold call_app. ty. apply eo_callback. Qed.
Hint Resolve ty_call_app : smpq.

Lemma ty_pairing_cmpl_run w : world_ok w → safe smp_proc_pairing_cmpl any w.
Proof.
  intros Hw. unfold smp_proc_pairing_cmpl. ty. eapply ty_mono; [by apply ty_call_app|done].
Qed.
Hint Resolve ty_pairing_cmpl_run : smpq.

(** ** Addresses and keys *)
Lemma ty_local_address w : world_ok w → safe smp_collect_local_ble_address (octs 7) w.
Proof.
  intros Hw. unfold smp_collect_local_ble_address. do 2 ty_step.
  pose proof (eo_local (trace w) (pairing_bda (smp_cb w))) as [Ha Ht].
  destruct (env_ReadConnectionAddr _ _) as [a t]. ty_step.
  apply (octs_app 6 1); [by apply octs_rev|by apply octs_one].
Qed.

Lemma ty_peer_address w : world_ok w → safe smp_collect_peer_ble_address (octs 7) w.
Proof.
  intros Hw. unfold smp_collect_peer_ble_address. do 2 ty_step. ty_step.
  destruct (env_ReadRemoteConnectionAddr _ _) as [[a t]|] eqn:E.
  - destruct (eo_remote _ _ _ (c_bda _ (w_cb _ Hw)) E) as [Ha Ht].
    apply (octs_app 6 1); [by apply octs_rev|by apply octs_one].
  - split; [done|]. apply Forall_fmap, Forall_forall. intros. apply u8_range.
Qed.
Hint Resolve ty_local_address ty_peer_address : smpq.

Lemma ty_f5 w : world_ok w → safe smp_calculate_f5_mackey_and_long_term_key any w.
Proof.
  intros Hw. unfold smp_calculate_f5_mackey_and_long_term_key. ty_step.
  ty_step. ty_step.
  match goal with |- safe (let '(mac, key) := ?x in _) _ _ =>
    assert (octs 16 x.1 ∧ octs 16 x.2) as [Hm Hk]; [|destruct x as [mac key]] end.
  { case_match; apply f5_octs; eauto with smp. }
  cbn [fst snd] in *. ty.
Qed.
Hint Resolve ty_f5 : smpq.

Lemma ty_save_sc_ltk w : world_ok w → safe smp_save_secure_connections_long_term_key any w.
Proof.
  intros Hw. unfold smp_save_secure_connections_long_term_key. ty; eauto with smp.
Qed.
Hint Resolve ty_save_sc_ltk : smpq.

Lemma ty_string_to_tk k w : world_ok w → safe (smp_convert_string_to_tk k) any w.
Proof.
  intros Hw. unfold smp_convert_string_to_tk. ty.
  apply (octs_overwrite _ 4); auto with smp; lia.
Qed.

Lemma ty_request_oob_data w : world_ok w → safe smp_request_oob_data any w.
Proof.
  intros Hw. unfold smp_request_oob_data. ty. repeat case_match; auto with smp.
Qed.
End safe.

#[export] Hint Resolve ty_member_p_data ty_member_status ty_member_passkey ty_member_key
  ty_invalid_length ty_invalid_parameters ty_log_metrics ty_start_rsp_timer ty_reject ty_reset
  ty_reset_control_value ty_call_app ty_pairing_cmpl_run ty_local_address ty_peer_address ty_f5
  ty_save_sc_ltk ty_string_to_tk ty_request_oob_data : smpq.
#[export] Hint Resolve alarm_cancel_ok : smp.
#[export] Hint Extern 1 (safe (smp_send_cmd _) _ _) =>
  apply ty_send_cmd; [assumption | split; vm_compute; discriminate] : smpq.
#[export] Hint Extern 1 (safe (smp_set_state _) _ _) =>
  apply ty_set_state; [assumption | vm_compute; discriminate] : smpq.
#[export] Hint Extern 1 (safe (smp_set_br_state _) _ _) =>
  apply ty_set_br_state; [assumption | vm_compute; discriminate] : smpq.
