(* ===== verification/SmpSafeKeys.v ===== *)
(** * Key generation and distribution keep the types

    One lemma per operation of [SmpKeys]. *)
From S2P Require Import Prelude SmpDefs SmpTables SmpMonad SmpUtils SmpKeys SmpAct SmpMain SmpTyped SmpSafe.

Section keys.
Context `{Env} `{!EnvOk} `{CryptoLaws} `{Machines} `{!MachinesOk}.

(** ** Passkeys *)
Lemma truncate_passkey_total r : ∃ k, truncate_passkey 3 (u32 (Z.land r SMP_PASSKEY_MASK)) = Some k ∧
  0 <= k <= BTM_MAX_PASSKEY_VAL.
Proof.
  assert (0 <= Z.land r SMP_PASSKEY_MASK < 1048576) as Hr.
  { change SMP_PASSKEY_MASK with (Z.ones 20). rewrite Z.land_ones by lia. apply Z.mod_pos_bound. lia. }
  rewrite u32_small by (unfold is_u32; lia).
  generalize dependent (Z.land r SMP_PASSKEY_MASK). intros k Hk.
  assert (Z.shiftr k 1 = k / 2) as Es by (rewrite Z.shiftr_div_pow2 by lia; reflexivity).
  assert (0 <= k / 2 < 524288) by (split; [apply Z.div_pos|apply Z.div_lt_upper_bound]; lia).
  unfold truncate_passkey, BTM_MAX_PASSKEY_VAL. rewrite Es.
  destruct (Z.ltb_spec 999999 k); [|eauto with lia].
  destruct (Z.ltb_spec 999999 (k / 2)); [lia|eauto with lia].
Qed.

Lemma ty_proc_passkey r w : world_ok w → safe (smp_proc_passkey r) any w.
Proof.
  intros Hw. unfold smp_proc_passkey.
  destruct (truncate_passkey_total r) as (k & -> & Hk).
  apply (ty_bind _ _ (eq k)); [by apply ty_ret|]. intros ? w1 Hw1 _ <-.
  ty_step.
  { ty. apply (octs_overwrite _ 4); auto with smp; lia. }
  ty_step. ty_step.
  { ty. eapply ty_mono; [by apply ty_call_app|done]. }
  ty; [unfold BTM_MAX_PASSKEY_VAL, is_u32 in *; lia|by apply Z.eqb_eq].
Qed.

Lemma ty_send_rand k w : world_ok w → match k with rand_private_key n => (n <= 3)%nat | _ => True end →
  safe (send_ble_rand k) any w.
Proof. intros Hw Hk. unfold send_ble_rand. ty. done. Qed.
Hint Extern 1 (safe (send_ble_rand _) _ _) => apply ty_send_rand; [assumption|try exact I; try lia] : smpq.

(** ** Legacy confirm values *)
Lemma octs_p1 c t : cb_ok c → is_u8 t → octs 16 (smp_gen_p1_4_confirm c t).
Proof.
  intros Hc Ht. unfold smp_gen_p1_4_confirm. case_match; cbn;
    repeat (apply octs_cons; [eauto with smp|]); apply octs_zero with (n := 0%nat).
Qed.

Lemma octs_p2 c a : cb_ok c → octs 6 a → octs 16 (smp_gen_p2_4_confirm c a).
Proof.
  intros Hc Ha. unfold smp_gen_p2_4_confirm, bdaddr_to_stream.
  apply (octs_overwrite _ 12); [apply octs_zero| |lia].
  case_match; apply (octs_app 6 6); eauto with smp.
Qed.

Lemma ty_calculate_confirm r w : world_ok w → octs 16 r →
  safe (smp_calculate_confirm r) (fun o => is_u8 o.1 ∧ (o.1 = SMP_SUCCESS → octs 16 o.2)) w.
Proof.
  intros Hw Hr. unfold smp_calculate_confirm. do 2 ty_step.
  destruct (env_ReadRemoteConnectionAddr _ _) as [[a t]|] eqn:E.
  - destruct (eo_remote _ _ _ (c_bda _ (w_cb _ Hw)) E) as [Ha Ht]. cbn [fst snd] in *.
    pose proof (eo_local (trace w) (pairing_bda (smp_cb w))) as [Hl Hlt].
    destruct (env_ReadConnectionAddr _ _) as [l lt]. cbn [fst snd] in *.
    ty. cbn [fst snd]. split; [auto with smp|]. intros _.
    apply aes_128_octs; eauto with smp. apply (octs_xor 16); [apply octs_p2; eauto with smp|].
    apply aes_128_octs; eauto with smp. apply (octs_xor 16); [apply octs_p1; eauto with smp|done].
  - ty. split; [auto with smp|]. by intros [=].
Qed.

Lemma ty_generate_confirm w : world_ok w → safe smp_generate_confirm any w.
Proof.
  intros Hw. unfold smp_generate_confirm. ty_step.
  eapply ty_bind; [apply ty_calculate_confirm; eauto with smp|].
  intros [s o] w1 Hw1 _ [Hs Ho]. cbn [fst snd] in *. ty_step; [ty|].
  match goal with E : negb _ = false |- _ => apply negb_false_iff, Z.eqb_eq in E end. ty; auto with smp.
Qed.

Lemma ty_generate_compare w : world_ok w → safe smp_generate_compare any w.
Proof.
  intros Hw. unfold smp_generate_compare. ty_step.
  eapply ty_bind; [apply ty_calculate_confirm; eauto with smp|].
  intros [s o] w1 Hw1 _ [Hs Ho]. cbn [fst snd] in *. ty_step; [ty|].
  match goal with E : negb _ = false |- _ => apply negb_false_iff, Z.eqb_eq in E end. ty; auto with smp.
Qed.

Lemma ty_generate_stk w : world_ok w → safe smp_generate_stk any w.
Proof.
  intros Hw. unfold smp_generate_stk, smp_process_stk, smp_calculate_legacy_short_term_key.
  assert (∀ a b, octs 16 a → octs 16 b → octs 16 (take 8 a ++ take 8 b)) as Ht.
  { intros a b Ha%octs_half Hb%octs_half. apply (octs_app 8 8); naive_solver. }
  ty. split; [auto with smp|]. apply octs_mask; eauto with smp.
  case_match; eauto with smp. apply aes_128_octs; eauto with smp. case_match; apply Ht; eauto with smp.
Qed.

(** ** Key distribution *)
Lemma ty_update_key_mask t b w : world_ok w → safe (smp_update_key_mask t b) any w.
Proof. intros Hw. unfold smp_update_key_mask. ty. Qed.
Hint Resolve ty_update_key_mask : smpq.

Lemma ty_by_transport w : world_ok w → safe smp_key_distribution_by_transport any w.
Proof. intros Hw. unfold smp_key_distribution_by_transport. ty. Qed.
Hint Resolve ty_by_transport : smpq.

Lemma ty_send_csrk_info w : world_ok w → safe smp_send_csrk_info any w.
Proof. intros Hw. unfold smp_send_csrk_info. ty; eauto with smp. Qed.
Hint Resolve ty_send_csrk_info : smpq.

Lemma ty_compute_csrk d w : world_ok w → is_u16 d → safe (smp_compute_csrk d) any w.
Proof.
  intros Hw Hd. unfold smp_compute_csrk. ty. apply aes_128_octs; [apply eo_er|].
  apply (octs_overwrite _ 4); [apply octs_zero|apply (octs_app 2 2); auto with smp|lia].
Qed.

Lemma ty_local_div w : world_ok w → safe btm_get_local_div any w.
Proof.
  intros Hw. unfold btm_get_local_div. do 2 ty_step. destruct (env_local_div _ _). ty. apply u16_range.
Qed.
Hint Resolve ty_local_div : smpq.

Lemma ty_generate_csrk w : world_ok w → safe smp_generate_csrk any w.
Proof.
  intros Hw. unfold smp_generate_csrk. ty. apply ty_compute_csrk; eauto with smp.
Qed.

Lemma ty_process_sc_ltk w : world_ok w → safe smp_process_secure_connection_long_term_key any w.
Proof. intros Hw. unfold smp_process_secure_connection_long_term_key. ty. Qed.

Lemma ty_set_derive_lk w : world_ok w → safe smp_set_derive_link_key any w.
Proof. intros Hw. unfold smp_set_derive_link_key. ty. Qed.
Hint Resolve ty_process_sc_ltk : smpq.

Lemma ty_link_key w : world_ok w → safe smp_calculate_link_key_from_long_term_key any w.
Proof.
  intros Hw. unfold smp_calculate_link_key_from_long_term_key. do 2 ty_step.
  ty. apply octs_rev, ltk_to_link_key_octs. eauto with smp.
Qed.
Hint Resolve ty_link_key : smpq.

Lemma ty_derive_link_key w : world_ok w → safe smp_derive_link_key_from_long_term_key any w.
Proof. intros Hw. unfold smp_derive_link_key_from_long_term_key. ty. Qed.

Lemma ty_ltk_from_link_key w : world_ok w → safe smp_calculate_long_term_key_from_link_key any w.
Proof.
  intros Hw. unfold smp_calculate_long_term_key_from_link_key. ty.
  all: apply link_key_to_ltk_octs, octs_rev; eapply eo_dev; eassumption.
Qed.
Hint Resolve ty_ltk_from_link_key : smpq.

Lemma ty_br_process_link_key w : world_ok w → safe smp_br_process_link_key any w.
Proof. intros Hw. unfold smp_br_process_link_key. ty. Qed.
Hint Resolve ty_br_process_link_key : smpq.

Lemma ty_generate_ltk_cont d w : world_ok w → is_u16 d → safe (smp_generate_ltk_cont d) any w.
Proof.
  intros Hw Hd. unfold smp_generate_ltk_cont. ty.
  apply octs_mask; [|done]. apply aes_128_octs; [apply eo_er|].
  apply (octs_overwrite _ 2); [apply octs_zero| |lia].
  apply octs_cons; [auto with smp|]. apply octs_one. unfold is_u8, is_u16 in *.
  rewrite Z.shiftr_div_pow2 by lia. split; [apply Z.div_pos|apply Z.div_lt_upper_bound]; lia.
Qed.

Lemma ty_generate_ltk w : world_ok w → safe smp_generate_ltk any w.
Proof.
  intros Hw. unfold smp_generate_ltk. ty. apply ty_generate_ltk_cont; eauto with smp.
Qed.

Lemma ty_process_ediv p w : world_ok w → octs 16 p → safe (smp_process_ediv p) any w.
Proof.
  intros Hw Hp. unfold smp_process_ediv. destruct p as [|y0 [|y1 p]]; [by destruct Hp..|].
  ty.
Qed.

Lemma ty_generate_y r w : world_ok w → safe (smp_generate_y r) any w.
Proof.
  intros Hw. unfold smp_generate_y. ty. apply ty_process_ediv; [done|].
  apply aes_128_octs; [apply eo_dhk|]. apply (octs_overwrite _ 8); auto with smp. lia.
Qed.

(** ** Secure connections *)
(** A private key is in range for the P-256 code, or it is the one that is not. *)
Lemma private_key_cases k : octs 32 k → k = replicate 32 255 ∨ private_key_ok k.
Proof. intros Hk. destruct (decide (k = replicate 32 255)); [auto|right; by split]. Qed.

Lemma ty_process_private_key w : world_ok w → safe smp_process_private_key any w.
Proof.
  intros Hw. unfold smp_process_private_key. ty_step.
  apply (ty_bind _ _ (fun k => octs 32 k.1 ∧ octs 32 k.2)).
  - destruct (private_key_cases (private_key (smp_cb w))) as [E|Hk]; [eauto with smp|..].
    + rewrite E, ECC_public_key_overflow. by left.
    + destruct (ECC_public_key_total _ Hk) as (x & y & -> & Hx & Hy). by apply ty_ret.
  - intros [x y] w1 Hw1 _ [Hx Hy]. cbn [fst snd] in *. ty. by split.
Qed.
Hint Resolve ty_process_private_key : smpq.

Lemma ty_load_saved_oob d w : world_ok w → loc_oob_ok d → safe (load_saved_oob_keys d) any w.
Proof.
  intros Hw [Hr Hc Hp Hk]. unfold load_saved_oob_keys. ty.
  match goal with Ho : oob_ok _ |- _ => destruct Ho end. split; [by split|done..].
Qed.

Lemma ty_create_private_key w : world_ok w → safe smp_create_private_key any w.
Proof.
  intros Hw. unfold smp_create_private_key. do 3 ty_step; [|ty].
  ty. apply ty_load_saved_oob; auto with smp.
Qed.

Lemma ty_compute_dhkey w : world_ok w → safe smp_compute_dhkey any w.
Proof.
  intros Hw. unfold smp_compute_dhkey. ty_step.
  apply (ty_bind _ _ (fun k => octs 32 k.1)).
  - destruct (private_key_cases (private_key (smp_cb w))) as [E|Hk]; [eauto with smp|..].
    + rewrite E, ECC_PointMult_overflow. by left.
    + destruct (ECC_PointMult_total (pk_x (peer_publ_key (smp_cb w)))
        (pk_y (peer_publ_key (smp_cb w))) (private_key (smp_cb w))) as (x & y & E & Hx & Hy); eauto with smp.
      rewrite E. by apply ty_ret.
  - intros [x y] w1 Hw1 _ Hx. cbn [fst snd] in *. ty.
Qed.

Lemma ty_random_input l w : world_ok w → octs 16 l →
  safe (smp_calculate_random_input l (round (smp_cb w))) is_u8 w.
Proof.
  intros Hw Hl. unfold smp_calculate_random_input. pose proof (c_round _ (w_cb _ Hw)) as Hr.
  destruct (Z.ltb_spec (round (smp_cb w)) 128) as [Hlt|Hge].
  - apply (ty_bind _ _ is_u8).
    + apply ty_index; [done| |].
      * rewrite (octs_length _ _ Hl). unfold is_u8 in Hr.
        split; [apply Z.div_pos|apply Z.div_lt_upper_bound]; lia.
      * intros a Ha. eapply Forall_lookup_1; [apply Hl|done].
    + intros b w1 Hw1 _ Hb. ty. apply lor_octet; auto with smp.
  - assert (16 <= round (smp_cb w) / 8) by (apply Z.div_le_lower_bound; lia).
    unfold index. rewrite (proj2 (Z.leb_le 0 (round (smp_cb w) / 8))) by lia.
    rewrite (proj2 (lookup_ge_None l _)) by (rewrite (octs_length _ _ Hl); lia). by right.
Qed.

Lemma ty_local_commitment w : world_ok w → safe smp_calculate_local_commitment any w.
Proof.
  intros Hw. unfold smp_calculate_local_commitment. do 3 ty_step; [ty|..].
  - apply f4_octs; auto with smp.
  - eapply ty_bind; [apply ty_random_input; eauto with smp|]. intros ri w1 Hw1 _ Hri. ty.
    apply f4_octs; auto with smp.
  - ty. apply f4_octs; auto with smp.
Qed.

Lemma ty_peer_commitment w : world_ok w → safe smp_calculate_peer_commitment (octs 16) w.
Proof.
  intros Hw. unfold smp_calculate_peer_commitment. do 3 ty_step.
  - ty. apply f4_octs; eauto with smp.
  - eapply ty_bind; [apply ty_random_input; eauto with smp|]. intros ri w1 Hw1 _ Hri. ty.
    apply f4_octs; eauto with smp.
  - ty; [|auto with smp]. apply f4_octs; eauto with smp.
Qed.
Hint Resolve ty_peer_commitment : smpq.

Lemma ty_check_commitment w : world_ok w → safe smp_check_commitment any w.
Proof. intros Hw. unfold smp_check_commitment. ty. Qed.

Lemma ty_display_number w : world_ok w → safe smp_calculate_numeric_comparison_display_number any w.
Proof.
  intros Hw. unfold smp_calculate_numeric_comparison_display_number.
  assert (∀ u v x y, is_u32 (g2 u v x y)) as Hg.
  { intros u v x y. pose proof (g2_range u v x y). unfold is_u32, BTM_MAX_PASSKEY_VAL in *. lia. }
  ty; eauto with smp. case_match; apply Hg.
Qed.

Lemma ty_local_dhkey_check w : world_ok w → safe smp_calculate_local_dhkey_check any w.
Proof.
  intros Hw. unfold smp_calculate_local_dhkey_check. ty.
  apply f6_octs; auto with smp.
  repeat (apply octs_cons; [eauto with smp|]). apply octs_zero with (n := 0%nat).
Qed.

Lemma ty_peer_dhkey_check w : world_ok w → safe smp_calculate_peer_dhkey_check any w.
Proof.
  intros Hw. unfold smp_calculate_peer_dhkey_check. ty. split; [auto with smp|].
  apply f6_octs; eauto with smp.
  repeat (apply octs_cons; [eauto with smp|]). apply octs_zero with (n := 0%nat).
Qed.

(** ** The closures *)
Lemma ty_set_rand i r w : world_ok w → (i <= 8)%nat → safe (set_rand i r) any w.
Proof.
  intros Hw Hi. unfold set_rand. ty. apply (octs_overwrite_at _ 8); auto with smp. lia.
Qed.
Hint Extern 1 (safe (set_rand _ _) _ _) => apply ty_set_rand; [assumption|lia] : smpq.
Hint Resolve ty_proc_passkey ty_generate_confirm ty_generate_y : smpq.

Lemma ty_rand_callback k r w : world_ok w → match k with rand_private_key n => (n <= 3)%nat | _ => True end →
  safe (run_rand_callback k r) any w.
Proof.
  intros Hw Hk. destruct k; cbn [run_rand_callback]; ty.
  - apply ty_compute_csrk; [done|apply u16_range].
  - apply ty_generate_ltk_cont; [done|apply u16_range].
  - apply (octs_overwrite_at _ 8); auto with smp. lia.
  - apply ty_send_rand; [done|]. apply Nat.ltb_lt in Heqb. lia.
Qed.
End keys.

#[export] Hint Resolve ty_proc_passkey ty_generate_confirm ty_generate_compare ty_generate_stk
  ty_update_key_mask ty_by_transport ty_send_csrk_info ty_local_div ty_generate_csrk
  ty_process_sc_ltk ty_set_derive_lk ty_derive_link_key ty_br_process_link_key ty_generate_ltk
  ty_process_private_key ty_create_private_key ty_compute_dhkey ty_local_commitment
  ty_check_commitment ty_display_number ty_local_dhkey_check ty_peer_dhkey_check : smpq.
#[export] Hint Extern 1 (safe (send_ble_rand _) _ _) =>
  apply ty_send_rand; [assumption|try exact I; try lia] : smpq.
