(* ===== verification/SmpSafeAct.v ===== *)
(** * The actions keep the types

    One lemma per action of [SmpAct].  An action that reads a received command is given
    the event of that command ([event_ok]): the check of the received length is what
    makes its reads stay within the data. *)
From S2P Require Import Prelude SmpDefs SmpTables SmpMonad SmpUtils SmpKeys SmpAct SmpMain SmpTyped SmpSafe SmpSafeKeys.

Section act.
Context `{Env} `{!EnvOk} `{CryptoLaws} `{Machines} `{!MachinesOk}.

(** ** Shared steps *)
Lemma ty_auth_cmpl s w : world_ok w → is_u8 s → safe (auth_cmpl s) any w.
Proof. intros Hw Hs. unfold auth_cmpl. ty. Qed.

Lemma ty_br_auth_cmpl s w : world_ok w → is_u8 s → safe (br_auth_cmpl s) any w.
Proof. intros Hw Hs. unfold br_auth_cmpl. ty. Qed.

Lemma ty_set_flag f w : world_ok w → safe (set_flag f) any w.
Proof. intros Hw. unfold set_flag. ty. Qed.

Lemma ty_clear_flag f w : world_ok w → safe (clear_flag f) any w.
Proof. intros Hw. unfold clear_flag. ty. Qed.

Lemma ty_fail_pairing s w : world_ok w → is_u8 s → safe (fail_pairing s) any w.
Proof. intros Hw Hs. unfold fail_pairing, auth_cmpl. ty. Qed.

Hint Extern 1 (safe (auth_cmpl _) _ _) => apply ty_auth_cmpl; [assumption|auto with smp] : smpq.
Hint Extern 1 (safe (br_auth_cmpl _) _ _) => apply ty_br_auth_cmpl; [assumption|auto with smp] : smpq.
Hint Extern 1 (safe (fail_pairing _) _ _) => apply ty_fail_pairing; [assumption|auto with smp] : smpq.
Hint Resolve ty_set_flag ty_clear_flag : smpq.

Lemma ty_pts_failure w : world_ok w → safe pts_test_send_authentication_complete_failure any w.
Proof.
  intros Hw. unfold pts_test_send_authentication_complete_failure. do 2 ty_step; [|ty].
  ty_step; [|ty]. apply ty_auth_cmpl; [done|].
  rewrite !orb_true_iff, !Z.eqb_eq in Heqb. destruct_or!; rewrite Heqb; auto with smp.
Qed.

(** ** Asking the application *)
(** Data that the application's event may pass on. *)
Definition app_data (d : tSMP_INT_DATA) (c : tSMP_CB) : Prop := d = NULL → no_data_event c.

Lemma ty_cback_data d w : world_ok w → data_typed d → app_data d (smp_cb w) → safe (cback_data d) any w.
Proof.
  intros Hw Hd Ha. unfold cback_data, member_req_oob_type.
  assert (cb_evt (smp_cb w) = SMP_NC_REQ_EVT ∨ cb_evt (smp_cb w) = SMP_SC_OOB_REQ_EVT → kind_of d ≠ k_null) as Hk.
  { intros [E|E]; destruct d; try discriminate; destruct (Ha eq_refl); congruence. }
  do 2 ty_step; [ty|]. ty_step; [|ty_step].
  - ty_step; [|ty]. apply Z.eqb_eq in Heqb0.
    eapply ty_mono; [apply ty_member_passkey; auto|done].
  - ty_step; [|ty]. apply Z.eqb_eq in Heqb1.
    eapply ty_mono; [apply ty_member_status; auto|done].
  - ty.
Qed.

Lemma ty_take_io_caps io w : world_ok w → io_req_ok io → safe (take_io_caps io) any w.
Proof. intros Hw []. unfold take_io_caps. ty. Qed.

Lemma ty_take_br_keys io w : world_ok w → io_req_ok io → safe (take_br_keys io) any w.
Proof. intros Hw []. unfold take_br_keys. ty. Qed.
Hint Resolve ty_pts_failure ty_cback_data ty_take_io_caps ty_take_br_keys : smpq.

Lemma ty_send_app_cback d w : world_ok w → data_typed d → app_data d (smp_cb w) → safe (smp_send_app_cback d) any w.
Proof.
  intros Hw Hd Ha. unfold smp_send_app_cback. ty_step.
  ty_step; [|ty]. destruct (p_callback _); [|ty]. do 2 ty_step.
  eapply ty_bind; [by apply ty_call_app|]. intros [rc io] w1 Hw1 _ Hio. cbn [snd] in Hio. ty.
Qed.
Hint Resolve ty_send_app_cback : smpq.

(** ** Asking for consent, for the passkey, and telling the address *)
Ltac upd_exact := apply ty_upd_bind; [assumption|cb_solve|split; left; [split; reflexivity|reflexivity]|intros ?].

Lemma ty_consent w : world_ok w →
  safe (upd (fun c => c <| cb_evt := SMP_CONSENT_REQ_EVT |>) ;; smp_set_state SMP_STATE_WAIT_NONCE ;;
    ignore (smp_sm_event SMP_SC_DSPL_NC_EVT NULL)) any w.
Proof.
  intros Hw. upd_exact. unfold smp_set_state.
  change (SMP_STATE_WAIT_NONCE <? SMP_STATE_MAX) with true. cbn [when]. upd_exact; [done|]. ty. by split.
Qed.

Lemma ty_ask_passkey w : world_ok w →
  safe (upd (fun c => c <| cb_evt := SMP_PASSKEY_REQ_EVT |>) ;; ignore (smp_sm_event SMP_TK_REQ_EVT NULL)) any w.
Proof. intros Hw. upd_exact. ty. by split. Qed.

Lemma ty_tell_address w : world_ok w →
  safe (upd (fun c => c <| cb_evt := SMP_LE_ADDR_ASSOC_EVT |>) ;; smp_send_app_cback NULL) any w.
Proof. intros Hw. upd_exact. by apply ty_send_app_cback. Qed.
Hint Resolve ty_consent ty_ask_passkey ty_tell_address : smpw.

(** ** The association model *)
Lemma ty_decide_association_model w : world_ok w → safe smp_decide_association_model any w.
Proof. intros Hw. unfold smp_decide_association_model, smp_generate_passkey. ty; auto with smp. Qed.
Hint Resolve ty_decide_association_model ty_load_saved_oob : smpq.

Lemma ty_use_oob_private_key w : world_ok w → safe smp_use_oob_private_key any w.
Proof.
  intros Hw. unfold smp_use_oob_private_key. do 4 ty_step.
  - ty. apply ty_load_saved_oob; auto with smp.
  - ty. match goal with Ho : oob_ok _ |- _ => destruct Ho as [[] _ _] end. done.
  - ty.
Qed.

(** A key, or the passkey that the code takes for one. *)
Definition key_data (d : tSMP_INT_DATA) (w : world) : Prop :=
  is_key (kind_of d) = true ∧ (kind_of d = k_passkey → fault_ok WildPointer w).

(** ** Sending *)
Lemma ty_send_pair_fail d w : world_ok w → data_typed d → kind_of d ≠ k_null → safe (smp_send_pair_fail d) any w.
Proof. intros Hw Hd Hk. unfold smp_send_pair_fail. ty. Qed.

Lemma ty_erase_keys w : world_ok w → safe erase_keys any w.
Proof. intros Hw. unfold erase_keys. ty. Qed.

Lemma ty_restrict_keys w : world_ok w → safe restrict_keys any w.
Proof. intros Hw. unfold restrict_keys. ty. Qed.
Hint Resolve ty_use_oob_private_key ty_send_pair_fail ty_erase_keys ty_restrict_keys : smpq.

Lemma ty_send_pair_req w : world_ok w → safe smp_send_pair_req any w.
Proof. intros Hw. unfold smp_send_pair_req. ty. Qed.

Lemma ty_send_pair_rsp w : world_ok w → safe smp_send_pair_rsp any w.
Proof. intros Hw. unfold smp_send_pair_rsp. ty. Qed.

Lemma ty_send_confirm w : world_ok w → safe smp_send_confirm any w.
Proof. intros Hw. unfold smp_send_confirm. ty. Qed.

Lemma ty_send_rand_cmd w : world_ok w → safe smp_send_rand any w.
Proof. intros Hw. unfold smp_send_rand. ty. Qed.

Lemma ty_send_public_key w : world_ok w → safe smp_send_pair_public_key any w.
Proof. intros Hw. unfold smp_send_pair_public_key. ty. Qed.

Lemma ty_send_commitment w : world_ok w → safe smp_send_commitment any w.
Proof. intros Hw. unfold smp_send_commitment. ty. Qed.

Lemma ty_send_dhkey_check w : world_ok w → safe smp_send_dhkey_check any w.
Proof. intros Hw. unfold smp_send_dhkey_check. ty. Qed.

Lemma ty_send_keypress d w : world_ok w → data_typed d → kind_of d ≠ k_null → safe (smp_send_keypress_notification d) any w.
Proof. intros Hw Hd Hk. unfold smp_send_keypress_notification. ty. Qed.

Lemma ty_send_enc_info w : world_ok w → safe smp_send_enc_info any w.
Proof. intros Hw. unfold smp_send_enc_info. ty; eauto with smp. Qed.

Lemma ty_send_id_info w : world_ok w → safe smp_send_id_info any w.
Proof. intros Hw. unfold smp_send_id_info. ty. Qed.

Lemma ty_send_ltk_reply d w : world_ok w → data_typed d → key_data d w → safe (smp_send_ltk_reply d) any w.
Proof. intros Hw Hd [Hk Hp]. unfold smp_send_ltk_reply. ty. Qed.
Hint Resolve ty_send_pair_req ty_send_pair_rsp ty_send_rand_cmd ty_send_public_key
  ty_send_commitment ty_send_id_info : smpq.

(** ** Receiving *)
(** After the check the data has the octets of the command. *)
Lemma ty_with_valid n max ev d m w :
  world_ok w → event_ok max ev d (smp_cb w) → ev <= 15 → Z.of_nat n = size_of ev - 1 →
  ((∀ p, d = u_p_data p → Forall is_u8 p ∧ (n <= length p)%nat) →
   ∀ w', world_ok w' → frame w w' → safe m any w') →
  safe (with_valid_parameters m) any w.
Proof.
  intros Hw He Hle Hn Hm. unfold with_valid_parameters.
  eapply ty_bind; [by apply ty_invalid_parameters|]. intros [|] w1 Hw1 Hf Hc; [ty|].
  apply Hm; [|done..]. intros p ->. destruct (checked_octets _ _ _ _ He Hle Hc). split; [done|lia].
Qed.

Lemma ty_proc_sec_req max d w : world_ok w → event_ok max SMP_OPCODE_SEC_REQ d (smp_cb w) → kind_of d = k_data →
  safe (smp_proc_sec_req d) any w.
Proof.
  intros Hw He Hk. unfold smp_proc_sec_req.
  eapply ty_bind; [by apply ty_invalid_length|]. intros [|] w1 Hw1 Hf Hc; [ty|].
  pose proof (proj1 (proj2 He)). ty_step.
  destruct (checked_octets _ _ _ _ He ltac:(done) Hc) as [_ Hl].
  change (size_of SMP_OPCODE_SEC_REQ) with 2 in Hl. ty.
Qed.

Lemma auth_data d c : kind_of d ≠ k_null → le_data SMP_AUTH_CMPL_EVT d c.
Proof.
  intros Hk. split; try (intros; discriminate); [destruct d; try reflexivity; by destruct Hk|].
  intros ->. by destruct Hk.
Qed.

Lemma br_auth_data d c : kind_of d ≠ k_null → br_data SMP_BR_AUTH_CMPL_EVT d c.
Proof.
  intros Hk. split; try (intros; discriminate). destruct d; try reflexivity; by destruct Hk.
Qed.

Lemma ty_proc_sec_grant d w : world_ok w → data_typed d → kind_of d ≠ k_null → safe (smp_proc_sec_grant d) any w.
Proof.
  intros Hw Hd Hk. unfold smp_proc_sec_grant. ty. apply mo_event; [done|event_solve|by apply auth_data].
Qed.

Lemma ty_proc_pair_fail max d w : world_ok w → event_ok max SMP_OPCODE_PAIRING_FAILED d (smp_cb w) → kind_of d = k_data →
  safe (smp_proc_pair_fail d) any w.
Proof.
  intros Hw He Hk. unfold smp_proc_pair_fail. pose proof (proj1 (proj2 He)). ty_step. ty_step; [|ty].
  ty_step; [ty|]. apply Z.ltb_ge in Heqb. ty_step.
  destruct (proj2 (proj2 He) ltac:(done) a eq_refl) as [[_ Hl]|[_ Hl]]; [|lia]. ty.
Qed.

Lemma ty_read_pairing_cmd p w : world_ok w → Forall is_u8 p → (6 <= length p)%nat →
  safe (read_pairing_cmd p) any w.
Proof. intros Hw Hp Hl. unfold read_pairing_cmd. ty. Qed.

Lemma ty_by_io_caps t w : world_ok w → role (smp_cb w) < 2 →
  length t = 2%nat → Forall (fun a => length a = 5%nat ∧ Forall (fun b => length b = 5%nat) a) t →
  safe (model_by_io_caps t) any w.
Proof.
  intros Hw Hr Ht Hrows. unfold model_by_io_caps. ty_step. ty_step; [|ty].
  apply andb_true_iff in Heqb as [Hp%Z.ltb_lt Hl%Z.ltb_lt]. unfold SMP_IO_CAP_MAX in *.
  pose proof (w_cb _ Hw) as Hc. pose proof (c_role _ Hc).
  pose proof (c_peer_io_caps _ Hc) as [? _]. pose proof (c_local_io _ Hc) as [? _].
  assert (∀ i j, 0 <= i < 5 → 0 <= j < 5 → safe (index3 t (role (smp_cb w)) i j) any w) as Hi.
  { intros i j Hi Hj. unfold index3.
    apply (ty_bind _ _ (fun a => length a = 5%nat ∧ Forall (fun b => length b = 5%nat) a)).
    { apply ty_index; [done|lia|]. intros a Ha. by eapply Forall_lookup_1 in Hrows. }
    intros a w1 Hw1 _ [La Fa]. apply (ty_bind _ _ (fun b => length b = 5%nat)).
    { apply ty_index; [done|lia|]. intros b Hb. by eapply Forall_lookup_1 in Fa. }
    intros b w2 Hw2 _ Lb. by apply ty_index; [|lia|]. }
  ty_step; apply Hi; lia.
Qed.

Lemma ty_select_model w : world_ok w → role (smp_cb w) < 2 → safe select_model any w.
Proof.
  intros Hw Hr. unfold select_model. ty_step; [|ty].
  unfold smp_select_association_model. ty_step; [ty|]. ty_step. ty_step; [ty|]. ty_step; [ty|].
  ty_step.
  assert (role (smp_cb w'1) < 2) by eauto using role_frame.
  ty_step; unfold smp_select_association_model_secure_connections, smp_select_legacy_association_model;
    ty; apply ty_by_io_caps; try done; repeat constructor.
Qed.

(** What follows the checks of a pairing request or response. *)
Lemma ty_after_pair_cmd w : world_ok w → role (smp_cb w) < 2 →
  safe (c ← get;
    if role c =? HCI_ROLE_PERIPHERAL then
      if negb (has (flags c) SMP_PAIR_FLAGS_WE_STARTED_DD) then
        upd (fun c => c <| local_i_key := peer_i_key c |> <| local_r_key := peer_r_key c |>
          <| cb_evt := SMP_IO_CAP_REQ_EVT |>)
      else
        restrict_keys ;;
        ruled_out ← select_model;
        if ruled_out : bool then auth_cmpl SMP_PAIR_AUTH_FAIL else
        m ← gets selected_association_model;
        if m =? SMP_MODEL_SEC_CONN_OOB then ignore smp_request_oob_data
        else smp_send_pair_rsp
    else
      ruled_out ← select_model;
      if ruled_out : bool then auth_cmpl SMP_PAIR_AUTH_FAIL else
      m ← gets selected_association_model;
      if m =? SMP_MODEL_SEC_CONN_OOB then ignore smp_request_oob_data
      else smp_decide_association_model) any w.
Proof.
  intros Hw Hr. do 2 ty_step; [ty_step; [ty|]|].
  - ty_step. ty_step; [apply ty_select_model; eauto using role_frame|]. ty.
  - ty_step; [by apply ty_select_model|]. ty.
Qed.

Lemma ty_proc_pair_cmd max ev d w : world_ok w → role (smp_cb w) < 2 →
  event_ok max ev d (smp_cb w) → ev = SMP_OPCODE_PAIRING_REQ ∨ ev = SMP_OPCODE_PAIRING_RSP →
  kind_of d = k_data → safe (smp_proc_pair_cmd d) any w.
Proof.
  intros Hw Hr He Hev Hk. unfold smp_proc_pair_cmd. pose proof (proj1 (proj2 He)). do 3 ty_step; [ty|].
  ty_step.
  assert (role (smp_cb w'1) < 2) by eauto using role_frame.
  assert (event_ok max ev (u_p_data a) (smp_cb w'1)) as He' by eauto using event_ok_frame.
  eapply ty_bind; [by apply ty_invalid_length|]. intros [|] w1 Hw1 Hf Hc; [ty|].
  assert (ev <= 15 ∧ size_of ev = 7) as [Hle Hs] by (by destruct Hev as [-> | ->]).
  destruct (checked_octets _ _ _ _ He' Hle Hc) as [_ Hl].
  ty_step; [apply ty_read_pairing_cmd; [done..|lia]|].
  ty_step. ty_step; [apply ty_auth_cmpl; [done|]; apply Z.eqb_eq in Heqb; rewrite Heqb; auto with smp|].
  do 2 ty_step; [ty|]. do 2 ty_step; [ty|].
  apply ty_after_pair_cmd; eauto 7 using role_frame.
Qed.

Lemma ty_proc_confirm max d w : world_ok w → event_ok max SMP_OPCODE_CONFIRM d (smp_cb w) →
  is_data (kind_of d) || is_null (kind_of d) = true →
  safe (smp_proc_confirm d) any w.
Proof.
  intros Hw He Hk. eapply (ty_with_valid 16); [done..|]. intros Hp w1 Hw1 Hf. ty_step; [|ty].
  destruct d as [| |p|t p|s|k|t]; [ty|discriminate Hk| |discriminate Hk..].
  apply (ty_bind _ _ (eq p)); [by apply ty_ret|]. intros ? w2 Hw2 _ <-. destruct (Hp p eq_refl). ty.
Qed.

Lemma ty_proc_rand max d w : world_ok w → event_ok max SMP_OPCODE_RAND d (smp_cb w) → kind_of d = k_data →
  safe (smp_proc_rand d) any w.
Proof.
  intros Hw He Hk. unfold smp_proc_rand. pose proof (proj1 (proj2 He)). ty_step.
  eapply (ty_with_valid 16); [done|by eapply event_ok_frame|done..|]. intros Hp w1 Hw1 Hf.
  destruct (Hp _ eq_refl). ty.
Qed.

Lemma ty_wait_both_keys w : world_ok w → safe smp_wait_for_both_public_keys any w.
Proof. intros Hw. unfold smp_wait_for_both_public_keys. ty. Qed.
Hint Resolve ty_wait_both_keys : smpq.

Lemma ty_public_key max d w : world_ok w → event_ok max SMP_OPCODE_PAIR_PUBLIC_KEY d (smp_cb w) → kind_of d = k_data →
  safe (smp_process_pairing_public_key d) any w.
Proof.
  intros Hw He Hk. unfold smp_process_pairing_public_key. pose proof (proj1 (proj2 He)). ty_step.
  eapply (ty_with_valid 64); [done|by eapply event_ok_frame|done..|]. intros Hp w1 Hw1 Hf.
  destruct (Hp _ eq_refl). do 2 ty_step. ty_step; [ty; by split|]. ty_step. ty_step; [ty|].
  destruct (ECC_ValidatePoint_total l l0) as [b ->]; [done..|].
  apply (ty_bind _ _ any); [by apply ty_ret|]. intros. ty.
Qed.

Lemma ty_commitment max d w : world_ok w → event_ok max SMP_OPCODE_PAIR_COMMITM d (smp_cb w) → kind_of d = k_data →
  safe (smp_process_pairing_commitment d) any w.
Proof.
  intros Hw He Hk. unfold smp_process_pairing_commitment. pose proof (proj1 (proj2 He)). ty_step.
  eapply (ty_with_valid 16); [done|by eapply event_ok_frame|done..|]. intros Hp w1 Hw1 Hf.
  destruct (Hp _ eq_refl). ty.
Qed.

Lemma ty_dhkey_check max d w : world_ok w → event_ok max SMP_OPCODE_PAIR_DHKEY_CHECK d (smp_cb w) → kind_of d = k_data →
  safe (smp_process_dhkey_check d) any w.
Proof.
  intros Hw He Hk. unfold smp_process_dhkey_check. pose proof (proj1 (proj2 He)). ty_step.
  eapply (ty_with_valid 16); [done|by eapply event_ok_frame|done..|]. intros Hp w1 Hw1 Hf.
  destruct (Hp _ eq_refl). ty.
Qed.

Lemma ty_keypress max d w : world_ok w → event_ok max SMP_OPCODE_PAIR_KEYPR_NOTIF d (smp_cb w) → kind_of d = k_data →
  safe (smp_process_keypress_notification d) any w.
Proof.
  intros Hw He Hk. unfold smp_process_keypress_notification. pose proof (proj1 (proj2 He)). ty_step.
  ty_step. ty_step; [ty|].
  eapply (ty_with_valid 1); [done|eauto using event_ok_frame|done..|]. intros Hp w2 Hw2 Hf2.
  destruct (Hp _ eq_refl). ty.
Qed.

(** ** Pairing over BR/EDR *)
Lemma ty_br_pairing_command max ev d w : world_ok w → event_ok max ev d (smp_cb w) →
  ev = SMP_OPCODE_PAIRING_REQ ∨ ev = SMP_OPCODE_PAIRING_RSP → kind_of d = k_data →
  safe (smp_br_process_pairing_command d) any w.
Proof.
  intros Hw He Hev Hk. unfold smp_br_process_pairing_command. pose proof (proj1 (proj2 He)). do 3 ty_step.
  apply (ty_bind _ _ any); [by apply ty_some|]. intros dev w1 Hw1 Hf1 _.
  ty_step; [ty|]. ty_step; [ty|]. ty_step.
  assert (event_ok max ev (u_p_data a) (smp_cb w'1)) as He' by eauto 6 using event_ok_frame.
  eapply ty_bind; [by apply ty_invalid_length|]. intros [|] w2 Hw2 Hf2 Hc; [ty|].
  assert (ev <= 15 ∧ size_of ev = 7) as [Hle Hs] by (by destruct Hev as [-> | ->]).
  destruct (checked_octets _ _ _ _ He' Hle Hc) as [_ Hl].
  ty_step; [apply ty_read_pairing_cmd; [done..|lia]|]. ty.
Qed.

Lemma ty_br_sec_grant d w : world_ok w → data_typed d → kind_of d ≠ k_null → safe (smp_br_process_security_grant d) any w.
Proof.
  intros Hw Hd Hk. unfold smp_br_process_security_grant. ty.
  apply mo_br_event; [done|event_solve|by apply br_auth_data].
Qed.

Lemma ty_br_check_auth w : world_ok w → safe smp_br_check_authorization_request any w.
Proof. intros Hw. unfold smp_br_check_authorization_request. ty. Qed.

Lemma ty_br_pair_response w : world_ok w → safe smp_br_send_pair_response any w.
Proof. intros Hw. unfold smp_br_send_pair_response. ty. Qed.

(** ** Key distribution *)
Lemma ty_pick_key acts k i w : world_ok w → Forall (fun a => safe a any w) acts →
  safe (pick_key acts k i) any w.
Proof.
  intros Hw Ha. revert i. induction Ha as [|a acts Ha _ IH]; intros i; cbn [pick_key]; [ty|].
  case_match; [done|apply IH].
Qed.

Lemma ty_pick_if_our_turn w : world_ok w → safe pick_if_our_turn any w.
Proof.
  intros Hw. unfold pick_if_our_turn, smp_key_pick_key. ty. apply ty_pick_key; [done|].
  cbn. repeat constructor; eauto with smpq.
Qed.
Hint Resolve ty_pick_if_our_turn : smpq.

Lemma ty_key_distribution w : world_ok w → safe key_distribution_body any w.
Proof.
  intros Hw. unfold key_distribution_body. do 3 ty_step. ty_step.
  - ty. by apply ty_some.
  - ty_step. ty_step; [|ty]. ty_step.
    eapply ty_bind; [apply alarm_set_ok; eauto with smp|]. intros. ty.
Qed.

Lemma ty_br_select_next_key w : world_ok w → safe br_select_next_key_body any w.
Proof. intros Hw. unfold br_select_next_key_body. ty. Qed.

Lemma ty_proc_enc_info max d w : world_ok w → event_ok max SMP_OPCODE_ENCRYPT_INFO d (smp_cb w) → kind_of d = k_data →
  safe (smp_proc_enc_info d) any w.
Proof.
  intros Hw He Hk. unfold smp_proc_enc_info. pose proof (proj1 (proj2 He)). ty_step.
  eapply (ty_with_valid 16); [done|by eapply event_ok_frame|done..|]. intros Hp w1 Hw1 Hf.
  destruct (Hp _ eq_refl). ty.
Qed.

Lemma ty_proc_central_id max d w : world_ok w → event_ok max SMP_OPCODE_CENTRAL_ID d (smp_cb w) → kind_of d = k_data →
  safe (smp_proc_central_id d) any w.
Proof.
  intros Hw He Hk. unfold smp_proc_central_id. pose proof (proj1 (proj2 He)). do 3 ty_step; [ty|].
  apply Z.ltb_ge in Heqb.
  assert (event_ok max SMP_OPCODE_CENTRAL_ID (u_p_data a) (smp_cb w')) as He' by (by eapply event_ok_frame).
  destruct (proj2 (proj2 He') ltac:(done) a eq_refl) as [[_ Hl]|[_ Hl]]; [|lia]. ty; eauto with smp.
Qed.

Lemma ty_proc_id_info max d w : world_ok w → event_ok max SMP_OPCODE_IDENTITY_INFO d (smp_cb w) → kind_of d = k_data →
  safe (smp_proc_id_info d) any w.
Proof.
  intros Hw He Hk. unfold smp_proc_id_info. pose proof (proj1 (proj2 He)). ty_step.
  eapply (ty_with_valid 16); [done|by eapply event_ok_frame|done..|]. intros Hp w1 Hw1 Hf.
  destruct (Hp _ eq_refl). ty.
Qed.

Lemma ty_proc_id_addr max d w : world_ok w → event_ok max SMP_OPCODE_ID_ADDR d (smp_cb w) → kind_of d = k_data →
  safe (smp_proc_id_addr d) any w.
Proof.
  intros Hw He Hk. unfold smp_proc_id_addr. pose proof (proj1 (proj2 He)). ty_step.
  eapply (ty_with_valid 7); [done|by eapply event_ok_frame|done..|]. intros Hp w1 Hw1 Hf.
  destruct (Hp _ eq_refl). ty; eauto with smp.
Qed.

Lemma ty_proc_srk_info max d w : world_ok w → event_ok max SMP_OPCODE_SIGN_INFO d (smp_cb w) → kind_of d = k_data →
  safe (smp_proc_srk_info d) any w.
Proof.
  intros Hw He Hk. unfold smp_proc_srk_info. pose proof (proj1 (proj2 He)).
  eapply (ty_with_valid 16); [done..|]. intros Hp w1 Hw1 Hf.
  ty_step. ty_step; [ty|]. do 2 ty_step. destruct (Hp _ eq_refl). ty.
Qed.

(** ** Legacy pairing *)
Lemma smaller_key_size_ok c : cb_ok c →
  cb_ok (if peer_enc_size c <? loc_enc_size c then c <| loc_enc_size := peer_enc_size c |> else c).
Proof.
  intros Hc. case_match; [|done]. destruct Hc. constructor; cb_cbn; assumption.
Qed.

Lemma ty_take_peer_keys w : world_ok w → safe take_peer_keys any w.
Proof. intros Hw. unfold take_peer_keys. ty. Qed.
Hint Resolve ty_take_peer_keys : smpq.

Lemma ty_bind_key {B} d (k : list Z → M B) Q w : world_ok w → data_typed d → key_data d w →
  (∀ l, octs 16 l → safe (k l) Q w) → safe (member_key d ≫= k) Q w.
Proof.
  intros Hw Hd [Hk Hp] HQ. destruct d as [| |p|t [|l]|s|n|t]; try discriminate Hk.
  - apply HQ. auto with smp.
  - apply HQ. apply Hd.
  - by apply Hp.
Qed.

(** After the key sizes are compared the state and the role are what they were. *)
Lemma ty_smaller_then (m : M unit) w : world_ok w →
  (∀ w', world_ok w' → state (smp_cb w') = state (smp_cb w) → role (smp_cb w') = role (smp_cb w) →
    safe m any w') →
  safe (save_smaller_key_size ;; m) any w.
Proof.
  intros Hw Hm. apply ty_upd_bind; [done|auto using smaller_key_size_ok, w_cb| |].
  - unfold frame. cb_cbn. case_match; (split; left; [split; reflexivity|reflexivity]).
  - intros Hw'. apply Hm; [done|cb_cbn; by case_match..].
Qed.

Lemma ty_proc_compare d w : world_ok w → data_typed d → key_data d w → state (smp_cb w) = SMP_STATE_RAND →
  safe (smp_proc_compare d) any w.
Proof.
  intros Hw Hd Hk Hs. unfold smp_proc_compare. apply ty_bind_key; [done..|]. intros l Hl. do 2 ty_step; [|ty].
  apply ty_smaller_then; [done|]. intros w' Hw' Es Er. ty_step; [|ty]. apply Z.eqb_eq in Heqb0. ty.
  by rewrite Es, Er, Hs, Heqb0.
Qed.

Lemma ty_proc_sl_key d w : world_ok w → data_typed d → kind_of d ≠ k_null → safe (smp_proc_sl_key d) any w.
Proof. intros Hw Hd Hk. unfold smp_proc_sl_key, member_key_type, smp_generate_srand_mrand_confirm. ty. Qed.

(** ** Encryption and the end of a pairing *)
Lemma ty_start_encrypt b k w : world_ok w → (∀ l, k = Some l → octs 16 l) →
  safe (btm_ble_start_encrypt_ b k) any w.
Proof. intros Hw Hk. unfold btm_ble_start_encrypt_. ty. destruct k; [by apply Hk|done]. Qed.

Lemma ty_start_enc d w : world_ok w → data_typed d → d = NULL ∨ key_data d w → safe (smp_start_enc d) any w.
Proof.
  intros Hw Hd Hk. unfold smp_start_enc. ty_step; [|ty].
  destruct d as [| |p|t p|s|k|t]; [by apply ty_start_encrypt|..];
    (destruct Hk as [[=]|Hk]; apply ty_bind_key; [done..|]; intros; apply ty_start_encrypt; [done|];
     by intros ? [= <-]).
Qed.

Lemma ty_proc_discard w : world_ok w → safe smp_proc_discard any w.
Proof. intros Hw. unfold smp_proc_discard. ty. Qed.

Lemma ty_enc_cmpl d w : world_ok w → data_typed d → kind_of d ≠ k_null → safe (smp_enc_cmpl d) any w.
Proof. intros Hw Hd Hk. unfold smp_enc_cmpl. ty_step. apply ty_auth_cmpl; [done|]. case_match; auto with smp. Qed.

Lemma ty_sirk_verify d w : world_ok w → data_typed d → kind_of d ≠ k_null → safe (smp_sirk_verify d) any w.
Proof.
  intros Hw Hd Hk. unfold smp_sirk_verify. do 2 ty_step; [ty|]. ty_step. destruct (p_callback _); [|ty].
  ty_step; [ty|]. eapply ty_bind; [by apply ty_call_app|]. intros [rc io] w2 Hw2 _ _. ty.
Qed.

Lemma adjust_keys_ok c : cb_ok c → cb_ok (adjust_keys c) ∧
  rcvd_cmd_code (adjust_keys c) = rcvd_cmd_code c ∧ rcvd_cmd_len (adjust_keys c) = rcvd_cmd_len c ∧
  role (adjust_keys c) = role c.
Proof.
  intros Hc. unfold adjust_keys. cbv zeta.
  repeat case_match; (split; [|done]); destruct Hc; constructor; cb_cbn; first [assumption | eauto 6 with smp].
Qed.

Lemma ty_check_auth_req d w : world_ok w → data_typed d → kind_of d ≠ k_null → safe (smp_check_auth_req d) any w.
Proof.
  intros Hw Hd Hk. unfold smp_check_auth_req. do 2 ty_step; [|ty]. ty_step; [|ty].
  destruct (adjust_keys_ok (smp_cb w')) as (Hc & E1 & E2 & E3); [auto with smp|].
  apply ty_upd; [done..|]. unfold frame. cb_cbn. rewrite E1, E2, E3. by split; left.
Qed.

Lemma ty_io_response w : world_ok w → role (smp_cb w) < 2 → safe smp_process_io_response any w.
Proof.
  intros Hw Hr. unfold smp_process_io_response. do 2 ty_step; [ty|].
  ty_step; [by apply ty_select_model|]. ty.
  apply ty_send_pair_fail; [done| |done]. cbn. auto with smp.
Qed.

Lemma ty_pairing_cmpl w : world_ok w → safe smp_pairing_cmpl any w.
Proof. intros Hw. unfold smp_pairing_cmpl. ty. Qed.

Lemma ty_pair_terminate w : world_ok w → safe smp_pair_terminate any w.
Proof. intros Hw. unfold smp_pair_terminate. ty. Qed.

Lemma ty_idle_terminate w : world_ok w → safe smp_idle_terminate any w.
Proof. intros Hw. unfold smp_idle_terminate. ty. Qed.

(** ** Secure connections *)
Lemma ty_both_have_keys w : world_ok w → safe smp_both_have_public_keys any w.
Proof. intros Hw. unfold smp_both_have_public_keys. ty. Qed.

Lemma ty_sc_oob_data w : world_ok w → safe smp_process_secure_connection_oob_data any w.
Proof.
  intros Hw. unfold smp_process_secure_connection_oob_data, smp_start_nonce_generation.
  ty_step.
  { ty. match goal with Ho : oob_ok _ |- _ => destruct Ho as [[] _ _] end. case_match; auto with smp. }
  ty; auto with smp; match goal with Ho : oob_ok _ |- _ => by destruct Ho end.
Qed.
Hint Resolve ty_sc_oob_data : smpq.

Lemma ty_sc_phase1 w : world_ok w → safe smp_start_secure_connection_phase1 any w.
Proof.
  intros Hw. unfold smp_start_secure_connection_phase1, smp_start_nonce_generation, smp_generate_passkey.
  ty; auto with smp.
Qed.

Lemma ty_local_nonce w : world_ok w → safe smp_process_local_nonce any w.
Proof. intros Hw. unfold smp_process_local_nonce. ty. Qed.

Lemma ty_nonce_justworks w : world_ok w → safe peer_nonce_justworks_or_nc any w.
Proof. intros Hw. unfold peer_nonce_justworks_or_nc. ty. Qed.

Lemma ty_nonce_passkey w : world_ok w → safe peer_nonce_passkey any w.
Proof. intros Hw. unfold peer_nonce_passkey, smp_start_nonce_generation. ty. Qed.
Hint Resolve ty_nonce_justworks ty_nonce_passkey : smpq.

Lemma ty_peer_nonce w : world_ok w → safe smp_process_peer_nonce any w.
Proof. intros Hw. unfold smp_process_peer_nonce. ty. Qed.

Lemma ty_match_dhkey d w : world_ok w → data_typed d → key_data d w → state (smp_cb w) = SMP_STATE_DHK_CHECK →
  safe (smp_match_dhkey_checks d) any w.
Proof.
  intros Hw Hd Hk Hs. unfold smp_match_dhkey_checks. apply ty_bind_key; [done..|]. intros l Hl.
  do 2 ty_step; [ty|]. apply ty_smaller_then; [done|]. intros w' Hw' Es Er. ty. congruence.
Qed.

Lemma ty_phase2 w : world_ok w → safe smp_move_to_secure_connections_phase2 any w.
Proof. intros Hw. unfold smp_move_to_secure_connections_phase2. ty. Qed.

Lemma ty_checks_present w : world_ok w → safe smp_phase_2_dhkey_checks_are_present any w.
Proof. intros Hw. unfold smp_phase_2_dhkey_checks_are_present. ty. Qed.

Lemma ty_passkey_verification d w : world_ok w → data_typed d → kind_of d ≠ k_null → safe (smp_start_passkey_verification d) any w.
Proof.
  intros Hw Hd Hk. unfold smp_start_passkey_verification, smp_start_nonce_generation.
  ty; apply (octs_overwrite _ 4); auto with smp; lia.
Qed.

Lemma ty_local_oob_keys w : world_ok w → safe smp_set_local_oob_keys any w.
Proof.
  intros Hw. unfold smp_set_local_oob_keys, smp_start_nonce_generation. ty.
  match goal with Ho : oob_ok _ |- _ => destruct Ho as [[] ? ?] end. by split; [split|..].
Qed.

Lemma ty_local_oob_commitment w : world_ok w → safe smp_set_local_oob_random_commitment any w.
Proof.
  intros Hw. unfold smp_set_local_oob_random_commitment, smp_save_local_oob_data. apply ty_upd_bind; [done|..].
  - cb_solve. match goal with Ho : oob_ok _ |- _ => destruct Ho as [[] ? ?] end.
    split; [split; cb_cbn|..]; try done. apply f4_octs; eauto with smp.
  - by split; left.
  - intros Hw'. eapply ty_bind; [by apply ty_send_app_cback|]. intros ? w2 Hw2 _ _.
    ty_step; [|ty]. ty_step. apply ty_set_saved; [done|].
    match goal with |- loc_oob_ok (loc_oob_data (sc_oob_data (smp_cb ?w'))) =>
      assert (oob_ok (sc_oob_data (smp_cb w'))) as [] by auto with smp end. done.
Qed.
End act.

#[export] Hint Resolve ty_send_pair_req ty_send_pair_rsp ty_send_confirm ty_send_pair_fail
  ty_send_rand_cmd ty_send_enc_info ty_send_id_info ty_send_ltk_reply ty_proc_sec_grant ty_proc_sl_key
  ty_proc_compare ty_io_response ty_start_enc ty_pairing_cmpl ty_decide_association_model
  ty_send_app_cback ty_check_auth_req ty_pair_terminate ty_enc_cmpl ty_sirk_verify ty_proc_discard
  ty_use_oob_private_key ty_send_public_key ty_both_have_keys ty_sc_phase1 ty_local_nonce
  ty_send_commitment ty_peer_nonce ty_send_dhkey_check ty_match_dhkey ty_phase2 ty_checks_present
  ty_wait_both_keys ty_passkey_verification ty_send_keypress ty_sc_oob_data ty_local_oob_keys
  ty_local_oob_commitment ty_idle_terminate ty_br_sec_grant ty_br_check_auth ty_br_pair_response
  : smpq.
#[export] Hint Extern 1 (safe (auth_cmpl _) _ _) => apply ty_auth_cmpl; [assumption|auto with smp] : smpq.
#[export] Hint Extern 1 (safe (br_auth_cmpl _) _ _) =>
  apply ty_br_auth_cmpl; [assumption|auto with smp] : smpq.
#[export] Hint Resolve ty_consent ty_ask_passkey ty_tell_address : smpw.
