(* ===== verification/SmpReach.v ===== *)
(** * The Security Manager never leaves its types

    The state machines pick only actions that fit their event, so whatever happens to SMP
    its state stays well typed, what it sends is well formed, and it reads no more
    octets of a command than were received. *)
From S2P Require Import Prelude SmpDefs SmpTables SmpMonad SmpUtils SmpKeys SmpAct SmpMain SmpTyped SmpSafe SmpSafeKeys SmpSafeAct.

(** ** The tables *)
(** The command an action reads, if it reads one. *)
Definition reads (a : action) : option (list Z) :=
  match a with
  | SMP_PROC_SEC_REQ => Some [SMP_OPCODE_SEC_REQ]
  | SMP_PROC_PAIR_CMD => Some [SMP_OPCODE_PAIRING_REQ; SMP_OPCODE_PAIRING_RSP]
  | SMP_PROC_PAIR_FAIL => Some [SMP_OPCODE_PAIRING_FAILED]
  | SMP_PROC_CONFIRM => Some [SMP_OPCODE_CONFIRM]
  | SMP_PROC_RAND => Some [SMP_OPCODE_RAND]
  | SMP_PROC_ENC_INFO => Some [SMP_OPCODE_ENCRYPT_INFO]
  | SMP_PROC_CENTRAL_ID => Some [SMP_OPCODE_CENTRAL_ID]
  | SMP_PROC_ID_INFO => Some [SMP_OPCODE_IDENTITY_INFO]
  | SMP_PROC_ID_ADDR => Some [SMP_OPCODE_ID_ADDR]
  | SMP_PROC_SRK_INFO => Some [SMP_OPCODE_SIGN_INFO]
  | SMP_PROCESS_PAIR_PUBLIC_KEY => Some [SMP_OPCODE_PAIR_PUBLIC_KEY]
  | SMP_PROCESS_PAIRING_COMMITMENT => Some [SMP_OPCODE_PAIR_COMMITM]
  | SMP_PROCESS_DHKEY_CHECK => Some [SMP_OPCODE_PAIR_DHKEY_CHECK]
  | SMP_PROCESS_KEYPRESS_NOTIFICATION => Some [SMP_OPCODE_PAIR_KEYPR_NOTIF]
  | _ => None
  end.

Definition br_reads (a : br_action) : option (list Z) :=
  match a with
  | SMP_BR_PROC_PAIR_CMD => Some [SMP_OPCODE_PAIRING_REQ; SMP_OPCODE_PAIRING_RSP]
  | BR_SMP_PROC_PAIR_FAIL => Some [SMP_OPCODE_PAIRING_FAILED]
  | BR_SMP_PROC_ID_INFO => Some [SMP_OPCODE_IDENTITY_INFO]
  | BR_SMP_PROC_ID_ADDR => Some [SMP_OPCODE_ID_ADDR]
  | BR_SMP_PROC_SRK_INFO => Some [SMP_OPCODE_SIGN_INFO]
  | _ => None
  end.

(** An action fits an event: it reads no command, or the command of the event. *)
Definition fits_event (r : option (list Z)) (ev : Z) : bool :=
  match r with
  | Some l => existsb (Z.eqb ev) l
  | None => true
  end.

(** What an action needs of the data of its event. *)
Inductive need := n_any | n_data | n_confirm | n_some | n_key | n_no_data_or_key | n_app.

Definition needs (a : action) : need :=
  match a with
  | SMP_PROC_CONFIRM => n_confirm
  | SMP_SEND_PAIR_FAIL | SMP_PROC_SEC_GRANT | SMP_ENC_CMPL | SMP_SIRK_VERIFY | SMP_CHECK_AUTH_REQ
  | SMP_SEND_KEYPRESS_NOTIFICATION | SMP_PROC_SL_KEY | SMP_START_PASSKEY_VERIFICATION => n_some
  | SMP_SEND_LTK_REPLY | SMP_PROC_COMPARE | SMP_MATCH_DHKEY_CHECKS => n_key
  | SMP_START_ENC => n_no_data_or_key
  | SMP_SEND_APP_CBACK => n_app
  | _ => match reads a with Some _ => n_data | None => n_any end
  end.

Definition br_needs (a : br_action) : need :=
  match a with
  | BR_SMP_SEND_PAIR_FAIL | SMP_BR_PROC_SEC_GRANT => n_some
  | BR_SMP_SEND_APP_CBACK => n_app
  | _ => match br_reads a with Some _ => n_data | None => n_any end
  end.

(** The data of that kind will do, in every state. *)
Definition serves (n : need) (k : kind) : bool :=
  match n with
  | n_any => true
  | n_data => is_data k
  | n_confirm => is_data k || is_null k
  | n_some | n_app => negb (is_null k)
  | n_key => match k with k_key => true | _ => false end
  | n_no_data_or_key => match k with k_key | k_null => true | _ => false end
  end.

(** It will do where the state is the one of the row, and what the event promises holds. *)
Definition serves_in (n : need) (ev next : Z) (k : kind) : bool :=
  serves n k ||
  match n with
  | n_app => (ev =? SMP_L2CAP_CONN_EVT) || (ev =? SMP_TK_REQ_EVT) || (ev =? SMP_SC_DSPL_NC_EVT)
  | n_key | n_no_data_or_key =>
      is_key k && ((ev =? SMP_KEY_READY_EVT) && ((next =? SMP_STATE_RAND) || (next =? SMP_STATE_ENCRYPTION_PENDING)) ||
        (ev =? SMP_SC_KEY_READY_EVT) && (next =? SMP_STATE_DHK_CHECK))
  | _ => false
  end.

(** The kinds of data that an event brings to a state. *)
Definition le_brings (role ev st : Z) (k : kind) : bool :=
  le_may ev k && negb (is_null k &&
    ((ev =? SMP_RAND_EVT) && negb ((st =? SMP_STATE_RAND) && (role =? 1)) ||
     (ev =? SMP_PAIR_DHKEY_CHCK_EVT) && negb (st =? SMP_STATE_DHK_CHECK))).

Definition kinds : list kind := [k_null; k_unset; k_data; k_key; k_status; k_passkey; k_oob].

(** The state in which the comparing actions run. *)
Definition in_place (a : action) (next : Z) : bool :=
  match a with
  | SMP_PROC_COMPARE => next =? SMP_STATE_RAND
  | SMP_MATCH_DHKEY_CHECKS => next =? SMP_STATE_DHK_CHECK
  | _ => true
  end.

(** A row of the table fits its event. *)
Definition le_fits (role ev st : Z) (a1 a2 : action) (next : Z) : bool :=
  fits_event (reads a1) ev && fits_event (reads a2) ev && in_place a1 next &&
  in_place a2 SMP_STATE_MAX &&
  forallb (fun k => implb (le_brings role ev st k) (serves_in (needs a1) ev next k && serves (needs a2) k)) kinds.

Definition br_fits (role ev st : Z) (a1 a2 : br_action) (next : Z) : bool :=
  fits_event (br_reads a1) ev && fits_event (br_reads a2) ev &&
  forallb (fun k => implb (br_may ev k)
    ((serves (br_needs a1) k ||
      match br_needs a1 with n_app => ev =? SMP_BR_L2CAP_CONN_EVT | _ => false end) &&
     serves (br_needs a2) k)) kinds.

Section tables.
Context {A : Type} (fits : Z → Z → Z → A → A → Z → bool).
Context (entries : list (list (list Z))) (all : list (A * A * Z)).
Context (tables : list (option (list (A * A * Z)) * option (list (A * A * Z)))).

Definition row_of (entry curr_state role : Z) : option (A * A * Z) :=
  if has entry SMP_ALL_TBL_MASK then
    if 0 <=? clear entry SMP_ALL_TBL_MASK - 1 then all !! Z.to_nat (clear entry SMP_ALL_TBL_MASK - 1)
    else None
  else
    row ← tables !! Z.to_nat curr_state;
    t ← (if role =? 0 then row.1 else row.2);
    if 0 <=? entry - 1 then t !! Z.to_nat (entry - 1) else None.

Definition entry_of (role event curr_state : Z) : option Z :=
  t ← entries !! Z.to_nat role; row ← t !! Z.to_nat (event - 1); row !! Z.to_nat curr_state.

(** Every entry exists, and names a row whose state exists and whose actions fit. *)
Definition table_ok (max states : Z) : bool :=
  forallb (fun role => forallb (fun ev => forallb (fun st =>
    match entry_of role ev st with
    | Some e => if e =? SMP_SM_IGNORE then true else
        match row_of e st role with
        | Some (a1, a2, next) => (0 <=? next) && (next <? states) && fits role ev st a1 a2 next
        | None => false
        end
    | None => false
    end) (seqZ 0 states)) (seqZ 1 max)) (seqZ 0 2).

Lemma table_ok_spec max states role ev st :
  table_ok max states = true → 0 <= role < 2 → 1 <= ev <= max → 0 <= st < states →
  ∃ e, entry_of role ev st = Some e ∧ (e = SMP_SM_IGNORE ∨ e ≠ SMP_SM_IGNORE ∧
    ∃ a1 a2 next, row_of e st role = Some (a1, a2, next) ∧ 0 <= next < states ∧
      fits role ev st a1 a2 next = true).
Proof.
  intros Ht Hr He Hs. unfold table_ok in Ht. rewrite forallb_forall in Ht.
  specialize (Ht role). rewrite <- list_elem_of_In, elem_of_seqZ in Ht. specialize (Ht ltac:(lia)).
  rewrite forallb_forall in Ht. specialize (Ht ev). rewrite <- list_elem_of_In, elem_of_seqZ in Ht.
  specialize (Ht ltac:(lia)). rewrite forallb_forall in Ht. specialize (Ht st).
  rewrite <- list_elem_of_In, elem_of_seqZ in Ht. specialize (Ht ltac:(lia)).
  destruct (entry_of role ev st) as [e|]; [|done]. exists e. split; [done|].
  destruct (Z.eqb_spec e SMP_SM_IGNORE); [by left|right; split; [done|]].
  destruct (row_of e st role) as [[[a1 a2] next]|]; [|done]. exists a1, a2, next.
  apply andb_true_iff in Ht as [[Hn%Z.leb_le Hx%Z.ltb_lt]%andb_true_iff Hf]. auto.
Qed.

(** The dispatchers read the tables as [entry_of] and [row_of] say. *)
Lemma index_run {B} (l : list B) i a : 0 <= i → l !! Z.to_nat i = Some a → index l i = mret a.
Proof. intros Hi E. unfold index. rewrite (proj2 (Z.leb_le 0 i) Hi), E. done. Qed.

Lemma find_entry_run {B} max role ev st e (k : Z → M B) w :
  0 <= role → 1 <= ev <= max → 0 <= st → entry_of role ev st = Some e →
  (t ← index entries role; x ← find_entry t max ev st; k x) w = k e w.
Proof.
  intros Hr He Hs E. unfold entry_of in E. apply bind_Some in E as (t & Et & E).
  apply bind_Some in E as (row & Er & E). rewrite (index_run _ _ t) by done.
  unfold find_entry, mbind at 1, M_bind at 1, mret at 1, M_ret. cbv beta iota.
  rewrite (proj2 (Z.leb_le ev max)) by lia. rewrite (index_run t _ row) by (done || lia).
  unfold mbind at 1 2, M_bind, mret at 1, M_ret. rewrite (index_run row _ e) by done. done.
Qed.

Lemma find_row_run {B} e st role r (k : A * A * Z → M B) w :
  0 <= st → row_of e st role = Some r → (find_row all tables e st role ≫= k) w = k r w.
Proof.
  intros Hs E. unfold find_row, row_of in *. destruct (has e SMP_ALL_TBL_MASK).
  - case_match eqn:E1; [|done]. apply Z.leb_le in E1. by rewrite (index_run _ _ r).
  - apply bind_Some in E as (row & Er & E). apply bind_Some in E as (t & Et & E).
    rewrite (index_run _ _ row) by done. unfold mbind at 1 2, M_bind, mret at 1, M_ret. rewrite Et.
    cbn [of_option]. case_match eqn:E1; [|done]. apply Z.leb_le in E1.
    unfold mbind, M_bind, mret at 1, M_ret. by rewrite (index_run _ _ r).
Qed.
End tables.

Lemma le_table_ok : table_ok le_fits smp_entry_table smp_all_table smp_state_table SMP_MAX_EVT SMP_STATE_MAX = true.
Proof. vm_compute. reflexivity. Qed.

Lemma br_table_ok :
  table_ok br_fits smp_br_entry_table smp_br_all_table smp_br_state_table (SMP_BR_MAX_EVT - 1) SMP_BR_STATE_MAX = true.
Proof. vm_compute. reflexivity. Qed.

(** ** The dispatchers *)
Section dispatch.
Context `{Env} `{!EnvOk} `{CryptoLaws} `{Machines} `{!MachinesOk}.

(** The event of an action that reads one command. *)
Lemma fits_one c ev : fits_event (Some [c]) ev = true → ev = c.
Proof. cbn. rewrite orb_false_r. apply Z.eqb_eq. Qed.

Lemma fits_pairing ev :
  fits_event (Some [SMP_OPCODE_PAIRING_REQ; SMP_OPCODE_PAIRING_RSP]) ev = true →
  ev = SMP_OPCODE_PAIRING_REQ ∨ ev = SMP_OPCODE_PAIRING_RSP.
Proof. cbn. rewrite orb_false_r, orb_true_iff, !Z.eqb_eq. done. Qed.

Hint Resolve mo_key_distribution mo_select_next_key : smpq.
Hint Resolve ty_proc_sec_req ty_proc_pair_cmd ty_proc_pair_fail ty_proc_confirm ty_proc_rand
  ty_proc_enc_info ty_proc_central_id ty_proc_id_info ty_proc_id_addr ty_proc_srk_info ty_public_key
  ty_commitment ty_dhkey_check ty_keypress ty_br_pairing_command fits_pairing : smpq.

(** What a need means for the data at hand. *)
Definition met (n : need) (d : tSMP_INT_DATA) (w : world) : Prop :=
  match n with
  | n_any => True
  | n_data => kind_of d = k_data
  | n_confirm => is_data (kind_of d) || is_null (kind_of d) = true
  | n_some => kind_of d ≠ k_null
  | n_key => key_data d w
  | n_no_data_or_key => d = NULL ∨ key_data d w
  | n_app => app_data d (smp_cb w)
  end.

Lemma serves_met n d w : serves n (kind_of d) = true → met n d w.
Proof. intros Hs. destruct n, d; cbn in *; try done; try (by right); try (by left). Qed.

(** A passkey where a key is expected, in a state where that happens. *)
Lemma passkey_data ev next d c w :
  le_data ev d c → state (smp_cb w) = next → selected_association_model (smp_cb w) = selected_association_model c →
  is_key (kind_of d) && ((ev =? SMP_KEY_READY_EVT) && ((next =? SMP_STATE_RAND) || (next =? SMP_STATE_ENCRYPTION_PENDING)) ||
        (ev =? SMP_SC_KEY_READY_EVT) && (next =? SMP_STATE_DHK_CHECK)) = true → key_data d w.
Proof.
  intros Hd Hs Hm [Hk Hx]%andb_true_iff. split; [done|]. intros Hp.
  apply orb_true_iff in Hx as [[He%Z.eqb_eq Hn]%andb_true_iff|[He%Z.eqb_eq Hn%Z.eqb_eq]%andb_true_iff].
  - apply orb_true_iff in Hn as [Hn%Z.eqb_eq|Hn%Z.eqb_eq]; left;
      (split; [rewrite Hs; auto|rewrite Hm; by eapply ld_passkey]).
  - right. split; [congruence|]. rewrite Hm. by eapply ld_sc_passkey.
Qed.

Lemma serves_in_met n ev next d c w :
  serves_in n ev next (kind_of d) = true → le_data ev d c →
  state (smp_cb w) = next → selected_association_model (smp_cb w) = selected_association_model c →
  cb_evt (smp_cb w) = cb_evt c → met n d w.
Proof.
  intros [Hv|Hv]%orb_true_iff Hd Hs Hm Hc; [by apply serves_met|].
  destruct n; try done; cbn [met].
  - by eapply passkey_data.
  - right. by eapply passkey_data.
  - intros Hn. unfold no_data_event. rewrite Hc. eapply ld_app; [done..|].
    rewrite !orb_true_iff, !Z.eqb_eq in Hv. tauto.
Qed.

(** The kind of the data is one that the event brings. *)
Lemma le_data_brings ev d c : le_data ev d c → le_brings (role c) ev (state c) (kind_of d) = true.
Proof.
  intros []. unfold le_brings. rewrite ld_kind, andb_true_l. apply negb_true_iff, andb_false_iff.
  destruct d; [|by left..]. right. apply orb_false_iff. rewrite !andb_false_iff, !negb_false_iff, !andb_true_iff,
    !Z.eqb_eq, !Z.eqb_neq.
  split; [destruct (Z.eq_dec ev SMP_RAND_EVT)|destruct (Z.eq_dec ev SMP_PAIR_DHKEY_CHCK_EVT)]; auto.
Qed.

Lemma all_kinds (P : kind → bool) k : forallb P kinds = true → P k = true.
Proof. rewrite forallb_forall. intros Hp. apply Hp. destruct k; cbn; tauto. Qed.

Lemma le_fits_spec ev d c a1 a2 next :
  le_fits (role c) ev (state c) a1 a2 next = true → le_data ev d c →
  (fits_event (reads a1) ev = true ∧ in_place a1 next = true ∧ serves_in (needs a1) ev next (kind_of d) = true) ∧
  (fits_event (reads a2) ev = true ∧ in_place a2 SMP_STATE_MAX = true ∧ serves (needs a2) (kind_of d) = true).
Proof.
  intros Hf Hd. unfold le_fits in Hf. rewrite !andb_true_iff in Hf.
  destruct Hf as ((((F1 & F2) & P1) & P2) & Hk). pose proof (all_kinds _ (kind_of d) Hk) as Hs.
  cbv beta in Hs. rewrite le_data_brings in Hs by done. by apply andb_true_iff in Hs as [].
Qed.

Lemma br_fits_spec role ev st d c a1 a2 next :
  br_fits role ev st a1 a2 next = true → br_data ev d c →
  (fits_event (br_reads a1) ev = true ∧ ∀ w, cb_evt (smp_cb w) = cb_evt c → met (br_needs a1) d w) ∧
  (fits_event (br_reads a2) ev = true ∧ serves (br_needs a2) (kind_of d) = true).
Proof.
  intros Hf [Hd Ha]. unfold br_fits in Hf. rewrite !andb_true_iff in Hf.
  destruct Hf as ((F1 & F2) & Hk). pose proof (all_kinds _ (kind_of d) Hk) as Hs.
  cbv beta in Hs. rewrite Hd in Hs. apply andb_true_iff in Hs as [[S1|S1]%orb_true_iff S2].
  - auto using serves_met.
  - split; [split; [done|]|done]. intros w Hc. destruct (br_needs a1); try done. cbn [met].
    intros Hn. unfold no_data_event. rewrite Hc. by apply Ha, Z.eqb_eq.
Qed.

Lemma ty_action a ev d m w :
  world_ok w → role (smp_cb w) < 2 → event_ok SMP_MAX_EVT ev d (smp_cb w) →
  fits_event (reads a) ev = true → met (needs a) d w →
  in_place a (state (smp_cb w)) = true ∨ in_place a SMP_STATE_MAX = true →
  smp_sm_action a d = Some m → safe m any w.
Proof.
  intros Hw Hr He Hf Hn Hi Em. pose proof (proj1 (proj2 He)) as Hd.
  destruct a; cbn [smp_sm_action] in Em; try discriminate Em; injection Em as <-;
    cbn [needs reads met in_place] in *;
    try (apply fits_one in Hf as ->); try (unfold smp_generate_srand_mrand_confirm);
    eauto 3 with smpq.
  - destruct Hi as [Hi%Z.eqb_eq|]; [|done]. by apply ty_proc_compare.
  - destruct Hi as [Hi%Z.eqb_eq|]; [|done]. by apply ty_match_dhkey.
Qed.

Lemma ty_br_action a ev d m w :
  world_ok w → event_ok (SMP_BR_MAX_EVT - 1) ev d (smp_cb w) →
  fits_event (br_reads a) ev = true → met (br_needs a) d w → smp_br_sm_action a d = Some m → safe m any w.
Proof.
  intros Hw He Hf Hn Em. pose proof (proj1 (proj2 He)) as Hd.
  destruct a; cbn [smp_br_sm_action] in Em; try discriminate Em; injection Em as <-;
    cbn [br_needs br_reads met] in *; try (apply fits_one in Hf as ->); eauto 3 with smpq.
Qed.

Lemma ty_run_actions a1 a2 w : world_ok w →
  (∀ m, a1 = Some m → safe m any w) →
  (∀ m w', a2 = Some m → world_ok w' → frame w w' → safe m any w') →
  safe (run_actions a1 a2) any w.
Proof.
  intros Hw Ha1 Ha2. destruct a1 as [m1|]; [|by apply ty_ret]. destruct a2 as [m2|]; [|by apply Ha1].
  eapply ty_bind; [by apply Ha1|]. intros. by apply Ha2.
Qed.

Lemma ty_sm_event ev d w : world_ok w → event_ok SMP_MAX_EVT ev d (smp_cb w) → le_data ev d (smp_cb w) →
  safe (sm_event_body ev d) any w.
Proof.
  intros Hw He Hk. unfold sm_event_body. ty_step.
  destruct (Z.leb_spec 2 (role (smp_cb w))) as [|Hr]; [ty|].
  pose proof (c_role _ (w_cb _ Hw)). pose proof (c_state _ (w_cb _ Hw)) as Hs.
  rewrite (proj2 (Z.leb_gt SMP_STATE_MAX _) (proj2 Hs)).
  destruct (table_ok_spec _ _ _ _ _ _ _ ev _ le_table_ok (conj (c_role _ (w_cb _ Hw)) Hr) (proj1 He) Hs)
    as (e & Ee & Hrow).
  unfold safe. rewrite (find_entry_run _ _ _ _ _ e) by (done || lia || apply He).
  destruct Hrow as [->|[He0%Z.eqb_neq (a1 & a2 & next & Er & Hn & Hf)]]; [by apply ty_ret|].
  rewrite He0. rewrite (find_row_run _ _ _ _ _ (a1, a2, next)) by (done || lia).
  destruct (le_fits_spec _ _ _ _ _ _ Hf Hk) as [(F1 & P1 & S1) (F2 & P2 & S2)].
  unfold smp_set_state. rewrite (proj2 (Z.ltb_lt next SMP_STATE_MAX)) by lia. cbn [when].
  apply ty_upd_bind; [done|cb_solve|by split; left|]. intros Hw1.
  eapply (ty_bind _ _ any); [|intros; by apply ty_ret]. apply ty_run_actions; [done|..].
  - intros m. apply (ty_action _ ev); [done|exact Hr|exact He|done| |by left].
    by apply (serves_in_met _ ev next d (smp_cb w)).
  - intros m w2 Em Hw2 Hfr2. apply (ty_action a2 ev d); eauto using serves_met, role_frame, event_ok_frame.
Qed.

Lemma ty_br_event ev d w : world_ok w → event_ok (SMP_BR_MAX_EVT - 1) ev d (smp_cb w) → br_data ev d (smp_cb w) →
  safe (br_event_body ev d) any w.
Proof.
  intros Hw He Hk. unfold br_event_body. ty_step.
  pose proof (c_role _ (w_cb _ Hw)) as Hr0. pose proof (c_br_state _ (w_cb _ Hw)) as Hs.
  rewrite (proj2 (Z.leb_gt SMP_BR_STATE_MAX _) (proj2 Hs)).
  destruct (Z.ltb_spec HCI_ROLE_PERIPHERAL (role (smp_cb w))) as [|Hr]; [ty|].
  unfold HCI_ROLE_PERIPHERAL in Hr.
  destruct (table_ok_spec _ _ _ _ _ _ (role (smp_cb w)) ev _ br_table_ok ltac:(lia) (proj1 He) Hs)
    as (e & Ee & Hrow).
  assert (1 <= ev <= SMP_BR_MAX_EVT) by (destruct He as [He _]; lia).
  unfold safe. rewrite (find_entry_run _ _ _ _ _ e) by (done || lia).
  destruct Hrow as [->|[He0%Z.eqb_neq (a1 & a2 & next & Er & Hn & Hf)]]; [by apply ty_ret|].
  rewrite He0. rewrite (find_row_run _ _ _ _ _ (a1, a2, next)) by (done || lia).
  destruct (br_fits_spec _ _ _ _ _ _ _ _ Hf Hk) as [(F1 & S1) (F2 & S2)].
  unfold smp_set_br_state. rewrite (proj2 (Z.ltb_lt next SMP_BR_STATE_MAX)) by lia. cbn [when].
  apply ty_upd_bind; [done|cb_solve|by split; left|]. intros Hw1. apply ty_run_actions; [done|..].
  - intros m. apply (ty_br_action _ ev); [done|exact He|done|by apply S1].
  - intros m w2 Em Hw2 Hfr2. apply (ty_br_action a2 ev d); eauto using serves_met, event_ok_frame.
Qed.
End dispatch.

#[export] Instance machines_ok `{Env} `{!EnvOk} `{CryptoLaws} n : @MachinesOk _ (machines n).
Proof.
  induction n as [|n IH]; split; intros; cbn [machines smp_sm_event smp_br_state_machine_event
    smp_key_distribution smp_br_select_next_key]; try done.
  - by apply ty_sm_event.
  - by apply ty_br_event.
  - by apply ty_key_distribution.
  - by apply ty_br_select_next_key.
Qed.

(** ** The inputs *)
(** What the C++ types and the callers' contracts say of an input. *)
Definition input_ok (i : input) : Prop :=
  match i with
  | i_Pair a _ | i_BR_PairWith a => octs 6 a
  | i_SecurityGrant _ r => is_u8 r
  | i_PasskeyReply _ _ k => is_u32 k
  | i_OobDataReply _ n p => is_u8 n ∧ ∀ l, p = Some l → Forall is_u8 l ∧ n <= Z.of_nat (length l)
  | i_SecureConnectionOobDataReply p => ∀ o, p = Some o → oob_ok o
  | i_link_encrypted _ e => is_u8 e
  | i_data _ a p | i_br_data a p => octs 6 a ∧ Forall is_u8 p
  | _ => True
  end.

Section handlers.
Context `{Env} `{!EnvOk} `{CryptoLaws} `{Machines} `{!MachinesOk}.

Lemma u8_le n : 0 <= n → u8 n <= n.
Proof. intros Hn. unfold u8. by apply Z.mod_le. Qed.

(** A command is given to the machine with its code and its length. *)
Lemma keeps_command ev cmd p max (m : M unit) w :
  world_ok w → Forall is_u8 p → 1 <= ev <= max →
  (∀ w', world_ok w' → event_ok max ev (u_p_data p) (smp_cb w') → safe m any w') →
  keeps (upd (fun c => c <| rcvd_cmd_code := ev |>
    <| rcvd_cmd_len := u8 (Z.of_nat (length (cmd :: p))) |>) ;; m) w.
Proof.
  intros Hw Hp Hev Hm. unfold mbind, M_bind, upd, keeps. cbv beta iota.
  eapply keeps_safe, Hm.
  - split; [|by destruct Hw..]. cb_cbn. cb_solve.
  - split; [done|]. split; [done|]. intros _ q [= <-]. left. cb_cbn. split; [done|].
    pose proof (u8_le (Z.of_nat (length (cmd :: p))) ltac:(lia)). cbn [length] in *. lia.
Qed.

Lemma keeps_get {B} (f : tSMP_CB → M B) w : keeps (f (smp_cb w)) w → keeps (get ≫= f) w.
Proof. done. Qed.

Lemma keeps_gets {A B} (g : tSMP_CB → A) (f : A → M B) w : keeps (f (g (smp_cb w))) w → keeps (gets g ≫= f) w.
Proof. done. Qed.

Lemma keeps_history {B} (f : list output → M B) w : keeps (f (trace w)) w → keeps (history ≫= f) w.
Proof. done. Qed.

Lemma keeps_upd_bind {B} (f : tSMP_CB → tSMP_CB) (k : unit → M B) w :
  world_ok w → cb_ok (f (smp_cb w)) →
  (world_ok (w <| smp_cb ::= f |>) → keeps (k ()) (w <| smp_cb ::= f |>)) → keeps (upd f ≫= k) w.
Proof. intros [Hc Hs Hr Ht] Hf Hk. apply Hk. by split. Qed.

Ltac kp_step :=
  lazymatch goal with
  | |- keeps (mret _) _ => assumption
  | |- keeps (get ≫= _) _ => apply keeps_get; cbv beta
  | |- keeps (gets _ ≫= _) _ => apply keeps_gets; cbv beta
  | |- keeps (history ≫= _) _ => apply keeps_history; cbv beta
  | |- keeps (upd _ ≫= _) _ => apply keeps_upd_bind; [assumption|cb_solve|intros ?]
  | |- keeps (_ ≫= _) _ => apply keeps_bind; [|intros ? ? ?]
  | |- keeps (upd _) _ => apply keeps_upd; [assumption|cb_solve]
  | |- keeps (if ?b then _ else _) _ => destruct b eqn:?
  | |- keeps (when ?b _) _ => destruct b eqn:?; cbn [when]
  | |- keeps (ignore _) _ => apply keeps_bind; [|intros ? ? ?]
  | |- keeps (match ?x with _ => _ end) _ => destruct x eqn:?
  | |- keeps _ _ => eapply (keeps_safe _ any); solve [ty]
  end.
Ltac kp := repeat kp_step.

Lemma command_code cmd : (SMP_OPCODE_MAX <? cmd) || (cmd <? SMP_OPCODE_MIN) = false → 1 <= cmd <= 14.
Proof.
  rewrite orb_false_iff, !Z.ltb_ge.
  unfold SMP_OPCODE_MAX, SMP_OPCODE_MIN, SMP_OPCODE_PAIRING_REQ, SMP_OPCODE_PAIR_KEYPR_NOTIF. lia.
Qed.

Lemma command_data ev p c : ev <= SMP_OPCODE_PAIR_COMMITM → le_data ev (u_p_data p) c.
Proof.
  intros Hev. split; try done. unfold le_may. rewrite (proj2 (Z.leb_le ev SMP_OPCODE_PAIR_COMMITM) Hev).
  by case_match.
Qed.

Lemma br_command_data ev p c : 1 <= ev <= 14 → br_data ev (u_p_data p) c.
Proof. intros Hev. split; [|done]. unfold br_may. by rewrite (proj2 (Z.leb_le ev SMP_OPCODE_PAIR_KEYPR_NOTIF) (proj2 Hev)). Qed.

Lemma keeps_data ch a p w : world_ok w → octs 6 a → Forall is_u8 p → keeps (smp_data_received ch a p) w.
Proof.
  intros Hw Ha Hp. destruct p as [|cmd p]; [done|]. cbn [smp_data_received].
  pose proof Hp as [Hc Hp']%Forall_cons. kp_step; [done|]. apply command_code in Heqb.
  do 2 kp_step; [kp; apply eo_role|]. do 3 kp_step; [|kp]. kp_step; [kp|]. kp_step; [kp|].
  apply (keeps_command _ _ _ SMP_MAX_EVT); [done..| |].
  - change SMP_MAX_EVT with 41. change SMP_OPCODE_PAIR_COMMITM with 15. case_match; lia.
  - intros w5 Hw5 He. apply (ty_ignore _ any). apply mo_event; [done..|].
    apply command_data. change SMP_OPCODE_PAIR_COMMITM with 15. case_match; lia.
Qed.

Lemma keeps_br_data a p w : world_ok w → octs 6 a → Forall is_u8 p → keeps (smp_br_data_received a p) w.
Proof.
  intros Hw Ha Hp. destruct p as [|cmd p]; [done|]. cbn [smp_br_data_received].
  pose proof Hp as [Hc Hp']%Forall_cons. kp_step; [done|]. apply command_code in Heqb.
  do 2 kp_step; [kp; unfold HCI_ROLE_PERIPHERAL; lia|]. do 3 kp_step; [|done]. kp_step; [kp|].
  kp_step; [kp|]. apply (keeps_command _ _ _ (SMP_BR_MAX_EVT - 1)); [done..| |].
  - change (SMP_BR_MAX_EVT - 1) with 25. lia.
  - intros w5 Hw5 He. apply mo_br_event; [done..|]. by apply br_command_data.
Qed.

Lemma keeps_init m w : loc_oob_ok (saved_local_oob_data w) →
  Forall (fun k => match k with rand_private_key n => (n <= 3)%nat | _ => True end) (rands w) →
  Forall output_ok (trace w) → keeps (SMP_Init m) w.
Proof.
  intros Hs Hr Ht. unfold SMP_Init, init, smp_l2cap_if_init. apply keeps_bind; [|intros; kp].
  split; [|done..]. cb_cbn.
  exact (zero_cb_ok (zero_tSMP_CB <| init_security_mode := m |>) alarm_idle alarm_idle
    ltac:(done) ltac:(done)).
Qed.

Lemma keeps_oob_reply r n p w : world_ok w → is_u8 n →
  (∀ l, p = Some l → Forall is_u8 l ∧ n <= Z.of_nat (length l)) → keeps (SMP_OobDataReply r n p) w.
Proof.
  intros Hw Hn Hp. unfold SMP_OobDataReply. do 2 kp_step; [|done]. kp_step; [|kp]. kp_step; [kp|].
  destruct (Hp _ eq_refl) as [Hu Hl]. unfold is_u8, OCTET16_LEN in *.
  eapply (keeps_safe _ any). apply ty_bind_stream; [done..|case_match; lia|]. intros l0 q Hl0 _ _.
  ty. apply (octs_overwrite _ (Z.to_nat (if 16 <? n then 16 else n))); [done..|].
  destruct (Z.ltb_spec 16 n); lia.
Qed.

Lemma keeps_sc_oob_reply p w : world_ok w → (∀ o, p = Some o → oob_ok o) →
  keeps (SMP_SecureConnectionOobDataReply p) w.
Proof.
  intros Hw Hp. unfold SMP_SecureConnectionOobDataReply. kp_step; [|kp].
  destruct (Hp _ eq_refl) as [[Hr Hc Hk Hq] Hpr Hpc]. do 2 kp_step; [done|].
  unfold smp_has_local_oob_data. kp_step; [kp; done|]. cbv zeta. kp_step; [kp|].
  apply keeps_upd_bind; [done| |intros; kp]. cb_solve.
  destruct (req_oob_type (smp_cb w) =? SMP_OOB_BOTH); (split; [split|..]; done).
Qed.

Lemma keeps_rand r w : world_ok w → keeps (handle (i_rand r)) w.
Proof.
  intros Hw. unfold keeps, handle, pop_rand, mbind, M_bind. destruct (rands w) as [|k l] eqn:E; [done|].
  pose proof (w_rands _ Hw) as Hr. rewrite E in Hr. apply Forall_cons in Hr as [Hk Hl].
  eapply keeps_safe, ty_rand_callback; [by destruct Hw; split|done].
Qed.

Lemma keeps_handle i w : world_ok w → input_ok i → keeps (handle i) w.
Proof.
  intros Hw Hi. destruct i; cbn [handle input_ok] in *.
  - apply keeps_init; by destruct Hw.
  - unfold SMP_Register. kp.
  - unfold SMP_Pair, L2CA_ConnectFixedChnl_. kp.
  - unfold SMP_BR_PairWith, L2CA_ConnectFixedChnl_. kp. all: unfold HCI_ROLE_CENTRAL; lia.
  - unfold SMP_PairCancel. kp.
  - unfold SMP_SecurityGrant. kp; auto with smp.
  - unfold SMP_PasskeyReply. kp. eapply (keeps_safe _ any). ty. by apply Z.eqb_eq.
  - unfold SMP_ConfirmReply. kp.
  - destruct Hi. by apply keeps_oob_reply.
  - by apply keeps_sc_oob_reply.
  - unfold SMP_CrLocScOobData. kp.
  - unfold SMP_ClearLocScOobData, smp_clear_local_oob_data.
    eapply (keeps_safe _ any), ty_set_saved, zero_oob_ok. done.
  - unfold SMP_SirkConfirmDeviceReply. kp.
  - unfold smp_link_encrypted. kp.
  - unfold smp_cancel_start_encryption_attempt. kp.
  - unfold smp_proc_ltk_request. kp.
  - unfold smp_connect_callback. kp; auto with smp. { apply eo_role. } eapply (keeps_safe _ any). ty. by split.
  - destruct Hi. by apply keeps_data.
  - unfold smp_tx_complete_callback. kp_step; [kp|].
    apply keeps_upd_bind; [done|case_match; [cb_solve|auto with smp]|intros; kp].
  - unfold smp_br_connect_callback. kp; auto with smp. eapply (keeps_safe _ any). ty. by split.
  - destruct Hi. by apply keeps_br_data.
  - unfold fires, smp_rsp_timeout. kp.
  - unfold fires, smp_delayed_auth_complete_timeout. kp.
  - by apply keeps_rand.
Qed.
End handlers.
