(* ===== verification/SmpLive.v ===== *)
(** * The depth of the Security Manager's recursion

    The state machines call the actions, the actions raise events.  [Live n] says for each
    event that is raised from within how deep that can go: with the recursion bound [n]
    the event is handled to its end.  The bound depends on the states of the two machines,
    on the keys still to be distributed ([bits]) and on whether a security request is to
    be discarded ([discards]). *)
From S2P Require Import Prelude SmpDefs SmpTables SmpMonad SmpUtils SmpKeys SmpAct SmpMain SmpTyped SmpReach.

(** ** The program logic *)
Definition live {A} (m : M A) (Q : A → world → Prop) (w : world) : Prop :=
  match m w with
  | Ok (a, w') => Q a w'
  | Fault e _ => e ≠ OutOfFuel
  end.

Section rules.
Context {A B : Type}.

Lemma lv_ret (a : A) (Q : A → world → Prop) w : Q a w → live (mret a) Q w.
Proof. done. Qed.

Lemma lv_bind (m : M A) (f : A → M B) (Q : B → world → Prop) w :
  live m (fun a w' => live (f a) Q w') w → live (m ≫= f) Q w.
Proof. unfold live, mbind, M_bind. by destruct (m w) as [[a w']|]. Qed.

Lemma lv_mono (m : M A) (P Q : A → world → Prop) w :
  live m P w → (∀ a w', P a w' → Q a w') → live m Q w.
Proof. unfold live. intros Hm HQ. destruct (m w) as [[a w']|]; auto. Qed.

Lemma lv_fail (e : fault) (Q : A → world → Prop) w : e ≠ OutOfFuel → live (fail e) Q w.
Proof. done. Qed.

(** A computation that only reads. *)
Class Reader (m : M A) : Prop := reads_only w :
  match m w with
  | Ok (_, w') => w' = w
  | Fault e _ => e ≠ OutOfFuel
  end.

Lemma lv_read (m : M A) `{!Reader m} (Q : A → world → Prop) w : (∀ a, Q a w) → live m Q w.
Proof.
  intros HQ. unfold live. pose proof (reads_only w) as Hr. destruct (m w) as [[a w']|]; [subst|]; auto.
Qed.
End rules.

Lemma lv_upd f (Q : () → world → Prop) w : Q () (w <| smp_cb ::= f |>) → live (upd f) Q w.
Proof. done. Qed.

Lemma lv_when b (m : M unit) (Q : () → world → Prop) w :
  (b = true → live m Q w) → (b = false → Q () w) → live (when b m) Q w.
Proof. destruct b; cbn; auto. Qed.

Lemma lv_ignore {A} (m : M A) (Q : () → world → Prop) w :
  live m (fun _ w' => Q () w') w → live (ignore m) Q w.
Proof. intros Hm. by apply lv_bind. Qed.

(** ** What only reads *)
#[export] Instance reader_ret {A} (a : A) : Reader (mret a).
Proof. done. Qed.
#[export] Instance reader_bind {A B} (m : M A) (f : A → M B) :
  Reader m → (∀ a, Reader (f a)) → Reader (m ≫= f).
Proof.
  intros Hm Hf w. unfold mbind, M_bind. specialize (Hm w).
  destruct (m w) as [[a w']|]; [subst; apply Hf|done].
Qed.
#[export] Instance reader_get : Reader get.
Proof. done. Qed.
#[export] Instance reader_gets {A} (f : tSMP_CB → A) : Reader (gets f).
Proof. done. Qed.
#[export] Instance reader_history : Reader history.
Proof. done. Qed.
#[export] Instance reader_saved : Reader get_saved_oob.
Proof. done. Qed.
#[export] Instance reader_if {A} (b : bool) (m1 m2 : M A) : Reader m1 → Reader m2 → Reader (if b then m1 else m2).
Proof. by destruct b. Qed.

Lemma reader_option {A} e (o : option A) : e ≠ OutOfFuel → Reader (of_option e o).
Proof. intros He w. by destruct o. Qed.
#[export] Instance reader_index {A} (l : list A) i : Reader (index l i).
Proof. unfold index. destruct (0 <=? i); [by apply reader_option|done]. Qed.
#[export] Instance reader_null {A} (o : option A) : Reader (of_option NullDeref o).
Proof. by apply reader_option. Qed.
#[export] Instance reader_bounds {A} (o : option A) : Reader (of_option OutOfBounds o).
Proof. by apply reader_option. Qed.
#[export] Instance reader_p_data d : Reader (member_p_data d).
Proof. by destruct d. Qed.
#[export] Instance reader_status `{Env} d : Reader (member_status d).
Proof. by destruct d. Qed.
#[export] Instance reader_passkey `{Env} d : Reader (member_passkey d).
Proof. by destruct d. Qed.
#[export] Instance reader_key d : Reader (member_key d).
Proof. by destruct d as [| |p|t [|l]|s|k|t]. Qed.
#[export] Instance reader_stream p n : Reader (stream p n).
Proof. unfold stream. by destruct (n <=? length p)%nat. Qed.
#[export] Instance reader_u8 p : Reader (stream_u8 p).
Proof. by destruct p. Qed.

(** ** What the bounds depend on *)
Definition key_bits (k : Z) : nat :=
  (Nat.b2n (Z.testbit k 0) + Nat.b2n (Z.testbit k 1) + Nat.b2n (Z.testbit k 2) + Nat.b2n (Z.testbit k 3))%nat.

(** How many keys may still be distributed. *)
Definition bits (w : world) : nat :=
  (key_bits (local_i_key (smp_cb w)) + key_bits (local_r_key (smp_cb w)))%nat.

Definition discards (w : world) : bool := discard_sec_req (smp_cb w).

Lemma bits_max w : (bits w <= 8)%nat.
Proof.
  assert (∀ k, (key_bits k <= 4)%nat) as Hk.
  { intros k. unfold key_bits. destruct (Z.testbit _ _), (Z.testbit _ _), (Z.testbit _ _),
      (Z.testbit _ _); cbn; lia. }
  unfold bits. pose proof (Hk (local_i_key (smp_cb w))). pose proof (Hk (local_r_key (smp_cb w))). lia.
Qed.

(** The end of a pairing: a machine becomes idle, or nothing of this changes. *)
Record calm (w w' : world) : Prop := {
  calm_state : state (smp_cb w') = state (smp_cb w) ∨ state (smp_cb w') = SMP_STATE_IDLE;
  calm_br : br_state (smp_cb w') = br_state (smp_cb w) ∨ br_state (smp_cb w') = SMP_BR_STATE_IDLE;
  calm_bits : (bits w' <= bits w)%nat;
  calm_discards : discards w' = true → discards w = true;
}.

(** What does not start the distribution of keys. *)
Record mild (w w' : world) : Prop := {
  mild_state : state (smp_cb w') = SMP_STATE_BOND_PENDING → state (smp_cb w) = SMP_STATE_BOND_PENDING;
  mild_discards : discards w' = true → discards w = true;
}.

Definition kept (w w' : world) : Prop := discards w' = true → discards w = true.

Lemma calm_refl w : calm w w.
Proof. split; auto. Qed.

Lemma calm_trans w1 w2 w3 : calm w1 w2 → calm w2 w3 → calm w1 w3.
Proof.
  intros [S1 B1 K1 D1] [S2 B2 K2 D2]. split; [destruct S2; [rewrite H; auto|auto]|
    destruct B2; [rewrite H; auto|auto]|lia|auto].
Qed.

Lemma calm_mild w w' : calm w w' → mild w w'.
Proof. intros [[S|S] _ _ D]; split; auto; rewrite S; [done|by intros [=]]. Qed.

Lemma mild_refl w : mild w w.
Proof. split; auto. Qed.

Lemma mild_trans w1 w2 w3 : mild w1 w2 → mild w2 w3 → mild w1 w3.
Proof. intros [] []. split; auto. Qed.

Lemma calm_kept w w' : calm w w' → kept w w'.
Proof. by intros []. Qed.

Lemma mild_kept w w' : mild w w' → kept w w'.
Proof. by intros []. Qed.

Lemma kept_trans w1 w2 w3 : kept w1 w2 → kept w2 w3 → kept w1 w3.
Proof. unfold kept. auto. Qed.

(** How deep the end of a pairing goes: either machine may have to become idle. *)
Definition auth_depth (w : world) : nat :=
  (1 + (if (state (smp_cb w) =? SMP_STATE_IDLE)%Z then 0
        else if (state (smp_cb w) =? SMP_STATE_BOND_PENDING)%Z then 2 else 1) +
   (if (br_state (smp_cb w) =? SMP_BR_STATE_IDLE)%Z then 0 else 1))%nat.

Lemma auth_depth_max w : (auth_depth w <= 4)%nat.
Proof. unfold auth_depth. repeat case_match; lia. Qed.

Lemma calm_depth w w' : calm w w' → (auth_depth w' <= auth_depth w)%nat.
Proof.
  intros [[S|S] [B|B] _ _]; unfold auth_depth; rewrite S, B; repeat case_match; try lia; done.
Qed.

(** An application event that SMP does not answer itself. *)
Definition quiet (w : world) : Prop :=
  cb_evt (smp_cb w) ≠ SMP_EVT_NONE ∧ cb_evt (smp_cb w) ≠ SMP_IO_CAP_REQ_EVT ∧
  cb_evt (smp_cb w) ≠ SMP_BR_KEYS_REQ_EVT.

(** ** The bounds *)
Definition bound (w : world) (without with_discard : nat) : nat :=
  if discards w then with_discard else without.

Class Live (n : nat) `{Machines} : Prop := {
  (* the end of a pairing *)
  lv_auth d w : (auth_depth w <= n)%nat → live (smp_sm_event SMP_AUTH_CMPL_EVT d) (fun _ => calm w) w;
  lv_br_auth d w : (auth_depth w <= n)%nat →
    live (smp_br_state_machine_event SMP_BR_AUTH_CMPL_EVT d) (fun _ => calm w) w;
  lv_sirk d w : (auth_depth w <= S n)%nat → (1 <= n)%nat →
    live (smp_sm_event SMP_SIRK_DEVICE_VALID_EVT d) (fun _ => calm w) w;
  (* legacy pairing *)
  lv_confirm d w : (5 <= n)%nat → live (smp_sm_event SMP_CONFIRM_EVT d) (fun _ => mild w) w;
  lv_send_rand d w : (5 <= n)%nat → state (smp_cb w) = SMP_STATE_RAND → role (smp_cb w) = 1 →
    live (smp_sm_event SMP_RAND_EVT d) (fun _ => mild w) w;
  lv_enc_req d w : (6 <= n)%nat → live (smp_sm_event SMP_ENC_REQ_EVT d) (fun _ => mild w) w;
  lv_key_ready d w :
    state (smp_cb w) = SMP_STATE_ENCRYPTION_PENDING ∧ (5 <= n)%nat ∨
    state (smp_cb w) ≠ SMP_STATE_BOND_PENDING ∧ (7 <= n)%nat ∨ (29 <= n)%nat →
    live (smp_sm_event SMP_KEY_READY_EVT d) (fun _ => mild w) w;
  (* requests to the application *)
  lv_tk_req d w : quiet w → (1 <= n)%nat → live (smp_sm_event SMP_TK_REQ_EVT d) (fun _ => mild w) w;
  lv_tk_req_br d w : br_state (smp_cb w) = SMP_BR_STATE_BOND_PENDING → (bound w 10 20 <= n)%nat →
    live (smp_sm_event SMP_TK_REQ_EVT d) (fun _ => kept w) w;
  lv_display_nc d w : quiet w → (1 <= n)%nat → live (smp_sm_event SMP_SC_DSPL_NC_EVT d) (fun _ => mild w) w;
  lv_io_rsp d w : (9 <= n)%nat → live (smp_sm_event SMP_IO_RSP_EVT d) (fun _ => mild w) w;
  lv_discard d w : discards w = false → (19 <= n)%nat →
    live (smp_sm_event SMP_DISCARD_SEC_REQ_EVT d) (fun _ => kept w) w;
  (* secure connections *)
  lv_publ_key_exch d w : (8 <= n)%nat → live (smp_sm_event SMP_PUBL_KEY_EXCH_REQ_EVT d) (fun _ => mild w) w;
  lv_loc_publ_key d w : (7 <= n)%nat → live (smp_sm_event SMP_LOC_PUBL_KEY_CRTD_EVT d) (fun _ => mild w) w;
  lv_both_keys d w : (6 <= n)%nat → live (smp_sm_event SMP_BOTH_PUBL_KEYS_RCVD_EVT d) (fun _ => mild w) w;
  lv_dhkey_cmplt d w : (5 <= n)%nat → live (smp_sm_event SMP_SC_DHKEY_CMPLT_EVT d) (fun _ => mild w) w;
  lv_phase1_cmplt d w : (9 <= n)%nat → live (smp_sm_event SMP_SC_PHASE1_CMPLT_EVT d) (fun _ => mild w) w;
  lv_calc_nc d w : (5 <= n)%nat → live (smp_sm_event SMP_SC_CALC_NC_EVT d) (fun _ => mild w) w;
  lv_checks_present d w : (8 <= n)%nat → live (smp_sm_event SMP_SC_2_DHCK_CHKS_PRES_EVT d) (fun _ => mild w) w;
  lv_sc_key_ready d w : (7 <= n)%nat → live (smp_sm_event SMP_SC_KEY_READY_EVT d) (fun _ => mild w) w;
  lv_dhkey_check d w : state (smp_cb w) = SMP_STATE_DHK_CHECK → (5 <= n)%nat →
    live (smp_sm_event SMP_PAIR_DHKEY_CHCK_EVT d) (fun _ => mild w) w;
  (* the distribution of keys *)
  lv_bond_req d w : (29 <= n)%nat → live (smp_sm_event SMP_BOND_REQ_EVT d) (fun _ => kept w) w;
  lv_distribution w : (bound w 10 20 + bits w <= n)%nat → live smp_key_distribution (fun _ => kept w) w;
  lv_next_key w : (bound w 10 20 + bits w <= n)%nat → live smp_br_select_next_key (fun _ => kept w) w;
  lv_br_keys_rsp d w :
    br_state (smp_cb w) = SMP_BR_STATE_BOND_PENDING ∧ (1 <= n)%nat ∨ (bound w 20 30 <= n)%nat →
    live (smp_br_state_machine_event SMP_BR_KEYS_RSP_EVT d) (fun _ => kept w) w;
  lv_br_bond_req d w : (bound w 19 29 <= n)%nat →
    live (smp_br_state_machine_event SMP_BR_BOND_REQ_EVT d) (fun _ => kept w) w;
  (* everything *)
  lv_any ev d w : 1 <= ev <= SMP_MAX_EVT → (31 <= n)%nat → live (smp_sm_event ev d) (fun _ _ => True) w;
  lv_br_any ev d w : 1 <= ev <= SMP_BR_MAX_EVT - 1 → (31 <= n)%nat →
    live (smp_br_state_machine_event ev d) (fun _ _ => True) w;
}.

(** ** The dispatchers *)
(** The rows of the tables that an event leads to, by role and state. *)
Definition rows {A} (entries : list (list (list Z))) (all : list (A * A * Z))
    (tables : list (option (list (A * A * Z)) * option (list (A * A * Z)))) (states ev : Z)
    : list (Z * Z * (A * A * Z)) :=
  flat_map (fun role => flat_map (fun st =>
    match entry_of entries role ev st with
    | Some e => if e =? SMP_SM_IGNORE then [] else
        match row_of all tables e st role with
        | Some r => [(role, st, r)]
        | None => []
        end
    | None => []
    end) (seqZ 0 states)) (seqZ 0 2).

Lemma rows_complete {A} entries (all : list (A * A * Z)) tables states role ev st e r :
  0 <= role < 2 → 0 <= st < states → entry_of entries role ev st = Some e → e ≠ SMP_SM_IGNORE →
  row_of all tables e st role = Some r → In (role, st, r) (rows entries all tables states ev).
Proof.
  intros Hr Hs Ee He Er. unfold rows. apply in_flat_map. exists role.
  split; [apply list_elem_of_In, elem_of_seqZ; lia|]. apply in_flat_map. exists st.
  split; [apply list_elem_of_In, elem_of_seqZ; lia|]. rewrite Ee, (proj2 (Z.eqb_neq _ _) He), Er. by left.
Qed.

Definition le_rows : Z → list (Z * Z * (action * action * Z)) :=
  rows smp_entry_table smp_all_table smp_state_table SMP_STATE_MAX.
Definition br_rows : Z → list (Z * Z * (br_action * br_action * Z)) :=
  rows smp_br_entry_table smp_br_all_table smp_br_state_table SMP_BR_STATE_MAX.

Section dispatch.
Context `{Env} `{Crypto} `{Machines}.

Definition in_state (w : world) (s : Z) : world := w <| smp_cb ::= fun c => c <| state := s |> |>.
Definition in_br_state (w : world) (s : Z) : world := w <| smp_cb ::= fun c => c <| br_state := s |> |>.

(** Outside the tables the code indexes an array below its start. *)
Lemma lv_below {B} max ev st (k : Z → M B) entries role Q w : ev <= max → st < 0 →
  live (t ← index entries role; x ← find_entry t max ev st; k x) Q w.
Proof.
  intros He Hs. apply lv_bind, lv_read; [apply _|]. intros t. apply lv_bind. unfold find_entry.
  rewrite (proj2 (Z.leb_le ev max)) by done. apply lv_bind, lv_read; [apply _|]. intros row.
  unfold index. by rewrite (proj2 (Z.leb_gt 0 st)) by done.
Qed.

Lemma lv_no_role {B} l role (k : list (list Z) → M B) Q w : role < 0 → live (t ← index l role; k t) Q w.
Proof. intros Hr. unfold index. by rewrite (proj2 (Z.leb_gt 0 role)) by done. Qed.

Lemma lv_sm_event ev d Q w : 1 <= ev <= SMP_MAX_EVT → Q false w →
  (∀ a1 a2 next, In (role (smp_cb w), state (smp_cb w), (a1, a2, next)) (le_rows ev) →
    live (run_actions (smp_sm_action a1 d) (smp_sm_action a2 d)) (fun _ => Q true) (in_state w next)) →
  live (sm_event_body ev d) Q w.
Proof.
  intros He Hi Hrows. unfold sm_event_body. apply lv_bind.
  change (live get ?f w) with (f (smp_cb w) w). cbv beta.
  destruct (Z.leb_spec 2 (role (smp_cb w))) as [|Hr]; [done|].
  destruct (Z.ltb_spec (role (smp_cb w)) 0) as [|Hr0]; [by apply lv_no_role|].
  destruct (Z.leb_spec SMP_STATE_MAX (state (smp_cb w))) as [|Hs]; [by apply lv_bind, lv_read; [apply _|]|].
  destruct (Z.ltb_spec (state (smp_cb w)) 0) as [|Hs0]; [apply lv_below; [apply He|done]|].
  destruct (table_ok_spec _ _ _ _ _ _ _ ev _ le_table_ok (conj Hr0 Hr) He (conj Hs0 Hs)) as (e & Ee & Hrow).
  unfold live. rewrite (find_entry_run _ _ _ _ _ e) by done.
  destruct Hrow as [->|[He0 (a1 & a2 & next & Er & Hn & _)]]; [done|].
  rewrite (proj2 (Z.eqb_neq _ _) He0), (find_row_run _ _ _ _ _ (a1, a2, next)) by done.
  apply lv_bind. unfold smp_set_state. rewrite (proj2 (Z.ltb_lt next _)) by lia. cbn [when].
  apply lv_upd, lv_bind, Hrows. by eapply rows_complete.
Qed.

Lemma lv_br_event ev d Q w : 1 <= ev <= SMP_BR_MAX_EVT - 1 → Q () w →
  (∀ a1 a2 next, In (role (smp_cb w), br_state (smp_cb w), (a1, a2, next)) (br_rows ev) →
    live (run_actions (smp_br_sm_action a1 d) (smp_br_sm_action a2 d)) Q (in_br_state w next)) →
  live (br_event_body ev d) Q w.
Proof.
  intros He Hi Hrows. unfold br_event_body. apply lv_bind.
  change (live get ?f w) with (f (smp_cb w) w). cbv beta.
  destruct (Z.leb_spec SMP_BR_STATE_MAX (br_state (smp_cb w))) as [|Hs]; [done|].
  destruct (Z.ltb_spec HCI_ROLE_PERIPHERAL (role (smp_cb w))) as [|Hr]; [done|].
  unfold HCI_ROLE_PERIPHERAL in Hr.
  destruct (Z.ltb_spec (role (smp_cb w)) 0) as [|Hr0]; [by apply lv_no_role|].
  destruct (Z.ltb_spec (br_state (smp_cb w)) 0) as [|Hs0]; [apply lv_below; lia|].
  destruct (table_ok_spec _ _ _ _ _ _ (role (smp_cb w)) ev _ br_table_ok ltac:(lia) He (conj Hs0 Hs))
    as (e & Ee & Hrow).
  unfold live. rewrite (find_entry_run _ _ _ _ _ e) by (done || lia).
  destruct Hrow as [->|[He0 (a1 & a2 & next & Er & Hn & _)]]; [done|].
  rewrite (proj2 (Z.eqb_neq _ _) He0), (find_row_run _ _ _ _ _ (a1, a2, next)) by done.
  apply lv_bind. unfold smp_set_br_state. rewrite (proj2 (Z.ltb_lt next _)) by lia. cbn [when].
  apply lv_upd, Hrows. eapply rows_complete; [lia|done..].
Qed.
End dispatch.
