(* ===== verification/SmpLiveKeys.v ===== *)
(** * Sending, and the distribution of keys, end

    The tactics that step through a computation, and one lemma per operation of
    [SmpUtils] and [SmpKeys]: with the bounds of [Live n] on the events it raises, it is
    handled to its end.  Each turn of the key distribution clears a bit of the keys that
    are left. *)
From S2P Require Import Prelude SmpDefs SmpTables SmpMonad SmpUtils SmpKeys SmpAct SmpMain SmpTyped SmpReach SmpSafeKeys SmpLive.

(** ** Stepping through a computation *)
Lemma lv_get (Q : tSMP_CB → world → Prop) w : Q (smp_cb w) w → live get Q w.
Proof. done. Qed.
Lemma lv_gets {A} (f : tSMP_CB → A) (Q : A → world → Prop) w : Q (f (smp_cb w)) w → live (gets f) Q w.
Proof. done. Qed.
Lemma lv_emit o (Q : () → world → Prop) w : Q () (w <| trace ::= fun t => t ++ [o] |>) → live (emit o) Q w.
Proof. done. Qed.
Lemma lv_wait k (Q : () → world → Prop) w : Q () (w <| rands ::= fun l => l ++ [k] |>) → live (wait_rand k) Q w.
Proof. done. Qed.
Lemma lv_saved d (Q : () → world → Prop) w : Q () (w <| saved_local_oob_data := d |>) → live (set_saved_oob d) Q w.
Proof. done. Qed.

(** What an update leaves of the control fields. *)
Ltac rel_upd := split; unfold bits, discards; cb_cbn; try solve [auto | by intros [=]].

Ltac rel :=
  cbv beta;
  lazymatch goal with
  | |- calm ?w ?w => apply calm_refl
  | |- mild ?w ?w => apply mild_refl
  | |- kept ?w ?w => exact (fun h => h)
  | R : calm _ ?w' |- calm _ ?w' => eapply calm_trans; [|exact R]; rel
  | R : calm _ ?w' |- mild _ ?w' => eapply mild_trans; [|exact (calm_mild _ _ R)]; rel
  | R : mild _ ?w' |- mild _ ?w' => eapply mild_trans; [|exact R]; rel
  | R : calm _ ?w' |- kept _ ?w' => eapply kept_trans; [|exact (calm_kept _ _ R)]; rel
  | R : mild _ ?w' |- kept _ ?w' => eapply kept_trans; [|exact (mild_kept _ _ R)]; rel
  | R : kept _ ?w' |- kept _ ?w' => eapply kept_trans; [|exact R]; rel
  | |- calm _ (modify _ _ ?w0) => apply (calm_trans _ w0); [rel|rel_upd]
  | |- mild _ (modify _ _ ?w0) => apply (mild_trans _ w0); [rel|rel_upd]
  | |- kept _ (modify _ _ ?w0) => apply (kept_trans _ w0); [rel|unfold kept, discards; cb_cbn; auto]
  | |- _ => idtac
  end.
(** Bounds: a number is large enough, or a machine has become idle. *)
Ltac depth_solve :=
  first [assumption | lia
    | eapply Nat.le_trans; [apply auth_depth_max|lia]
    | match goal with B : (auth_depth ?w <= ?n)%nat |- (auth_depth _ <= ?n)%nat =>
        apply (Nat.le_trans _ (auth_depth w)); [apply calm_depth; solve [rel]|exact B] end].

(** In a state that does not distribute keys. *)
Definition unbonded (w : world) : Prop := state (smp_cb w) ≠ SMP_STATE_BOND_PENDING.

Lemma unbonded_mild w w' : unbonded w → mild w w' → unbonded w'.
Proof. intros Hw [Hs _] E. auto. Qed.

Ltac unbonded_solve :=
  first [assumption
    | by (unfold unbonded; cb_cbn; intros [=])
    | match goal with U : unbonded ?w |- _ => apply (unbonded_mild w); [exact U|solve [rel]] end].

Ltac key_ready_solve :=
  first [right; right; lia
    | right; left; split; [unbonded_solve|lia]
    | left; split; [by cb_cbn|lia]].
Create HintDb smpl.
#[export] Hint Extern 1 (state _ = _ ∧ _ ∨ _) => solve [key_ready_solve] : smpl.
#[export] Hint Extern 1 (_ <= _)%nat => solve [depth_solve] : smpl.
#[export] Hint Extern 1 (quiet _) => solve [unfold quiet; cb_cbn; repeat split; by intros [=]] : smpl.

Ltac lv_step :=
  cbv beta;
  lazymatch goal with
  | |- live (mret _) _ _ => apply lv_ret
  | |- live (_ ≫= _) _ _ => apply lv_bind
  | |- live get _ _ => apply lv_get
  | |- live (gets _) _ _ => apply lv_gets
  | |- live (upd _) _ _ => apply lv_upd
  | |- live (emit _) _ _ => apply lv_emit
  | |- live (wait_rand _) _ _ => apply lv_wait
  | |- live (set_saved_oob _) _ _ => apply lv_saved
  | |- live (when _ _) _ _ => apply lv_when; intros ?
  | |- live (ignore _) _ _ => apply lv_ignore
  | |- live (if ?b then _ else _) _ _ => destruct b eqn:?
  | |- live (match ?x with _ => _ end) _ _ => destruct x eqn:?
  | |- live _ _ _ =>
      first [eapply lv_mono; [solve [eauto 3 with smpl]|cbv beta; intros ? ? ?]
            |apply lv_read; [apply _|intros ?]]
  end.

Ltac lv := repeat lv_step; rel.

#[export] Hint Resolve lv_auth lv_br_auth lv_sirk lv_confirm lv_send_rand lv_enc_req lv_key_ready
  lv_tk_req lv_display_nc lv_io_rsp lv_publ_key_exch lv_loc_publ_key lv_both_keys lv_dhkey_cmplt
  lv_phase1_cmplt lv_calc_nc lv_checks_present lv_sc_key_ready lv_dhkey_check lv_bond_req : smpl.

Section utils.
Context `{Env} `{Crypto} `{Machines} (n : nat) `{!Live n}.

(** ** Sending *)
Lemma lv_log_metrics a o p br w : live (smp_log_metrics a o p br) (fun _ => calm w) w.
Proof. unfold smp_log_metrics. lv. Qed.

Lemma lv_start_rsp_timer w : live start_rsp_timer (fun _ => calm w) w.
Proof.
  unfold start_rsp_timer. do 2 lv_step. lv_step. unfold alarm_set_on_mloop.
  destruct (smp_rsp_timer_ent _); [done|lv..].
Qed.

Lemma lv_send_data cid a p w : live (L2CA_SendFixedChnlData_ cid a p) (fun _ => calm w) w.
Proof. unfold L2CA_SendFixedChnlData_. lv. Qed.
Hint Resolve lv_log_metrics lv_start_rsp_timer lv_send_data : smpl.

Lemma lv_send_msg a p w : (auth_depth w <= n)%nat → live (smp_send_msg_to_L2CAP a p) (fun _ => calm w) w.
Proof. intros Hn. unfold smp_send_msg_to_L2CAP. lv. Qed.
Hint Resolve lv_send_msg : smpl.

Lemma lv_send_cmd code w : (auth_depth w <= n)%nat → live (smp_send_cmd code) (fun _ => calm w) w.
Proof. intros Hn. unfold smp_send_cmd. lv. Qed.
Hint Resolve lv_send_cmd : smpl.

Lemma lv_reject a w : (auth_depth w <= n)%nat →
  live (smp_reject_unexpected_pairing_command a) (fun _ => calm w) w.
Proof. intros Hn. unfold smp_reject_unexpected_pairing_command. lv. Qed.

(** ** The end of a pairing *)
Lemma lv_reset w : live reset (fun _ => calm w) w.
Proof.
  apply lv_upd. split; [by right..| |by intros [=]]. unfold bits. cbn. lia.
Qed.
Hint Resolve lv_reset : smpl.

Lemma lv_call_app cb e a d w : live (call_app cb e a d) (fun _ => calm w) w.
Proof. unfold call_app. lv. Qed.
Hint Resolve lv_call_app : smpl.

Lemma lv_reset_control_value w : live smp_reset_control_value (fun _ => calm w) w.
Proof. unfold smp_reset_control_value, smp_remove_fixed_channel. lv. Qed.
Hint Resolve lv_reset_control_value : smpl.

Lemma lv_proc_pairing_cmpl w : live smp_proc_pairing_cmpl (fun _ => calm w) w.
Proof. unfold smp_proc_pairing_cmpl. lv. Qed.
Hint Resolve lv_proc_pairing_cmpl : smpl.

(** ** What only reads *)
#[export] Instance reader_local_address : Reader smp_collect_local_ble_address.
Proof. intros w. unfold smp_collect_local_ble_address, mbind, M_bind. cbn. by destruct (env_ReadConnectionAddr _ _). Qed.

#[export] Instance reader_peer_address : Reader smp_collect_peer_ble_address.
Proof. done. Qed.

#[export] Instance reader_invalid_length : Reader smp_command_has_invalid_length.
Proof. unfold smp_command_has_invalid_length, smp_command_has_valid_fixed_length. apply _. Qed.

Lemma opcode_readers l i (f : M bool) : Forall (fun m : M bool => Reader m) l → l !! i = Some f → Reader f.
Proof. intros Hl E. by eapply Forall_lookup_1 in Hl. Qed.

Lemma reader_indexed (l : list (M bool)) {B} i (k : M bool → M B) :
  Forall (fun m : M bool => Reader m) l → (∀ m, Reader m → Reader (k m)) → Reader (index l i ≫= k).
Proof.
  intros Hl Hk w. unfold index, mbind, M_bind. destruct (0 <=? i); [|done].
  destruct (l !! Z.to_nat i) as [f|] eqn:E; [|done]. cbn. apply Hk. by eapply opcode_readers.
Qed.

#[export] Instance reader_invalid_parameters : Reader smp_command_has_invalid_parameters.
Proof.
  unfold smp_command_has_invalid_parameters. apply reader_bind; [apply _|]. intros c.
  apply reader_if; [apply _|]. apply reader_indexed.
  { unfold smp_cmd_len_is_valid, smp_command_has_valid_fixed_length. repeat constructor; apply _. }
  intros m Hm. apply reader_bind; [done|]. intros b. apply reader_if; [apply _|]. apply reader_indexed.
  { unfold smp_cmd_param_ranges_are_valid. cbn. repeat constructor; apply _. }
  intros m' Hm'. apply _.
Qed.

#[export] Instance reader_peer_commitment : Reader smp_calculate_peer_commitment.
Proof. unfold smp_calculate_peer_commitment, smp_calculate_random_input. apply _. Qed.

#[export] Instance reader_check_commitment : Reader smp_check_commitment.
Proof. unfold smp_check_commitment. apply _. Qed.

#[export] Instance reader_io_caps t : Reader (model_by_io_caps t).
Proof. unfold model_by_io_caps, index3. apply _. Qed.

#[export] Instance reader_cback_data d : Reader (cback_data d).
Proof. unfold cback_data, member_req_oob_type. apply _. Qed.

Lemma lv_f5 w : live smp_calculate_f5_mackey_and_long_term_key (fun _ => calm w) w.
Proof. unfold smp_calculate_f5_mackey_and_long_term_key. lv. Qed.

Lemma lv_save_sc_ltk w : live smp_save_secure_connections_long_term_key (fun _ => calm w) w.
Proof. unfold smp_save_secure_connections_long_term_key. lv. Qed.

Lemma lv_request_oob_data w : (4 <= n)%nat → live smp_request_oob_data (fun _ => mild w) w.
Proof. intros Hn. unfold smp_request_oob_data. lv. Qed.
End utils.

#[export] Hint Resolve lv_log_metrics lv_start_rsp_timer lv_send_msg lv_send_cmd lv_reject lv_reset
  lv_call_app lv_reset_control_value lv_proc_pairing_cmpl lv_f5 lv_save_sc_ltk lv_request_oob_data : smpl.

Section keys.
Context `{Env} `{Crypto} `{Machines} (n : nat) `{!Live n}.

(** ** Keys *)
Lemma lv_send_rand_req k w : live (send_ble_rand k) (fun _ => calm w) w.
Proof. unfold send_ble_rand. lv. Qed.
Hint Resolve lv_send_rand_req : smpl.

Lemma lv_proc_passkey r w : (29 <= n)%nat → live (smp_proc_passkey r) (fun _ => mild w) w.
Proof.
  intros Hn. unfold smp_proc_passkey. destruct (truncate_passkey_total r) as (k & -> & _). cbn [of_option]. lv.
Qed.

Lemma lv_calculate_confirm r w : live (smp_calculate_confirm r) (fun _ => calm w) w.
Proof. unfold smp_calculate_confirm. lv. Qed.
Hint Resolve lv_calculate_confirm : smpl.

Lemma lv_generate_confirm w : (29 <= n)%nat → live smp_generate_confirm (fun _ => mild w) w.
Proof. intros Hn. unfold smp_generate_confirm. lv. Qed.

Lemma lv_generate_compare w : (7 <= n)%nat → unbonded w ∨ (29 <= n)%nat → live smp_generate_compare (fun _ => mild w) w.
Proof.
  intros Hn [Hs|Hs]; unfold smp_generate_compare; lv.
Qed.

Lemma lv_generate_stk w : (5 <= n)%nat →
  state (smp_cb w) = SMP_STATE_ENCRYPTION_PENDING ∨ (29 <= n)%nat → live smp_generate_stk (fun _ => mild w) w.
Proof. intros Hn [Hs|Hs]; unfold smp_generate_stk, smp_process_stk; lv. Qed.

(** ** Key distribution *)
Lemma has_bit k i : 0 <= i → has k (Z.shiftl 1 i) = Z.testbit k i.
Proof.
  intros Hi. rewrite Z.shiftl_1_l. unfold has, nz. destruct (Z.testbit k i) eqn:E.
  - apply negb_true_iff, Z.eqb_neq. intros Hz.
    apply (f_equal (fun z => Z.testbit z i)) in Hz.
    rewrite Z.land_spec, E, Z.pow2_bits_true, Z.bits_0 in Hz by done. done.
  - apply negb_false_iff, Z.eqb_eq. apply Z.bits_inj_0. intros j.
    rewrite Z.land_spec. destruct (decide (j = i)) as [->|Hne]; [by rewrite E|].
    rewrite Z.pow2_bits_false by done. apply andb_false_r.
Qed.

Lemma key_bits_clear k t : (key_bits (clear k t) <= key_bits k)%nat.
Proof.
  unfold key_bits, clear. rewrite !Z.ldiff_spec.
  destruct (Z.testbit k 0), (Z.testbit k 1), (Z.testbit k 2), (Z.testbit k 3), (Z.testbit t 0),
    (Z.testbit t 1), (Z.testbit t 2), (Z.testbit t 3); cbn; lia.
Qed.

Lemma key_bits_cleared k i : 0 <= i < 4 → Z.testbit k i = true →
  (key_bits (clear k (Z.shiftl 1 i)) < key_bits k)%nat.
Proof.
  intros Hi Hk. unfold key_bits, clear. rewrite !Z.ldiff_spec.
  assert (i = 0 ∨ i = 1 ∨ i = 2 ∨ i = 3) as Hc by lia.
  destruct_or!; subst; destruct (Z.testbit k 0), (Z.testbit k 1), (Z.testbit k 2), (Z.testbit k 3);
    try discriminate Hk; apply Nat.ltb_lt; vm_compute; reflexivity.
Qed.

Lemma lv_update_key_mask t b w : live (smp_update_key_mask t b) (fun _ => calm w) w.
Proof.
  unfold smp_update_key_mask. repeat lv_step; (split; cb_cbn; auto); unfold bits; cb_cbn;
    pose proof (key_bits_clear (local_i_key (smp_cb w)) t);
    pose proof (key_bits_clear (local_r_key (smp_cb w)) t); lia.
Qed.
Hint Resolve lv_update_key_mask : smpl.

(** The key that is distributed, when it is this device's turn. *)
Definition turn_key (c : tSMP_CB) : Z := if role c =? HCI_ROLE_PERIPHERAL then local_r_key c else local_i_key c.

(** Its bit is cleared before anything else is done. *)
Lemma lv_clear_key_bit i w : 0 <= i < 4 → Z.testbit (turn_key (smp_cb w)) i = true →
  live (smp_update_key_mask (Z.shiftl 1 i) false) (fun _ w' => calm w w' ∧ (bits w' < bits w)%nat ∧
    br_state (smp_cb w') = br_state (smp_cb w)) w.
Proof.
  intros Hi Hk. unfold smp_update_key_mask, turn_key in *.
  pose proof (key_bits_clear (local_i_key (smp_cb w)) (Z.shiftl 1 i)).
  pose proof (key_bits_clear (local_r_key (smp_cb w)) (Z.shiftl 1 i)).
  pose proof (key_bits_cleared (local_i_key (smp_cb w)) i Hi).
  pose proof (key_bits_cleared (local_r_key (smp_cb w)) i Hi).
  repeat lv_step; (split; [split; cb_cbn; auto|split; [|done]]); unfold bits; cb_cbn;
    destruct (role (smp_cb w) =? HCI_ROLE_PERIPHERAL) eqn:?; try discriminate; intuition lia.
Qed.

Lemma lv_by_transport w : (bound w 10 20 + bits w <= n)%nat →
  live smp_key_distribution_by_transport (fun _ => kept w) w.
Proof.
  intros Hn. unfold smp_key_distribution_by_transport. do 2 lv_step.
  lv_step; [by apply lv_next_key|by apply lv_distribution].
Qed.

Lemma bound_kept w w' a b : (a <= b)%nat → kept w w' → (bound w' a b <= bound w a b)%nat.
Proof.
  intros Hab Hk. unfold bound, kept in *. destruct (discards w'), (discards w); lia.
Qed.

(** A key less, and the rest can be distributed. *)
Lemma less_keys w w' m : kept w w' → (bits w' < bits w)%nat → (bound w 10 20 + bits w <= S m)%nat →
  (bound w' 10 20 + bits w' <= m)%nat.
Proof. intros Hk Hb Hn. pose proof (bound_kept w w' 10 20 ltac:(lia) Hk). lia. Qed.

Lemma calm_keys w w' m : calm w w' → (bound w 10 20 + bits w <= m)%nat → (bound w' 10 20 + bits w' <= m)%nat.
Proof.
  intros Hc Hn. pose proof (bound_kept w w' 10 20 ltac:(lia) (calm_kept _ _ Hc)). destruct Hc. lia.
Qed.

Lemma turn_bits w i : 0 <= i < 4 → Z.testbit (turn_key (smp_cb w)) i = true → (1 <= bits w)%nat.
Proof.
  intros Hi Hk. unfold turn_key, bits in *.
  case_match; pose proof (key_bits_cleared _ i Hi Hk); lia.
Qed.

(** The key of bit [i] is to be distributed, or the bound is enough for all keys. *)
Definition to_distribute (i : Z) (w : world) : Prop :=
  Z.testbit (turn_key (smp_cb w)) i = true ∧ (bound w 10 20 + bits w <= S n)%nat ∨ (28 <= n)%nat.

Lemma all_keys w : (bound w 10 20 + bits w <= 28)%nat.
Proof. pose proof (bits_max w). unfold bound. case_match; lia. Qed.

Lemma distribute_depth i w : 0 <= i < 4 → to_distribute i w → (bound w 10 20 <= n)%nat ∧ (10 <= n)%nat.
Proof.
  intros Hi [[Hk Hn]|Hn]; unfold bound in *; [pose proof (turn_bits w i Hi Hk)|]; case_match; lia.
Qed.

(** Distributing what is left after a key. *)
Lemma lv_rest_of_keys t i w (m : M unit) :
  t = Z.shiftl 1 i → 0 <= i < 4 → to_distribute i w →
  (∀ w', (bound w' 10 20 + bits w' <= n)%nat → live m (fun _ => kept w') w') →
  live (smp_update_key_mask t false ;; m) (fun _ => kept w) w.
Proof.
  intros -> Hi [[Hk Hn]|Hn] Hm; apply lv_bind.
  - eapply lv_mono; [by apply lv_clear_key_bit|]. intros [] w' (Hc & Hb & _).
    eapply lv_mono; [apply Hm; by eapply less_keys; [apply calm_kept| |]|]. intros [] w'' Hk'. rel.
  - eapply lv_mono; [by apply lv_update_key_mask|]. intros [] w' Hc.
    eapply lv_mono; [apply Hm; pose proof (all_keys w'); lia|]. intros [] w'' Hk'. rel.
Qed.

Hint Resolve lv_by_transport lv_distribution lv_next_key : smpl.
Hint Extern 1 (bound _ 10 20 + bits _ <= _)%nat =>
  match goal with B : (bound ?w 10 20 + bits ?w <= _)%nat |- _ =>
    apply (calm_keys w); [solve [rel]|exact B] end : smpl.

(** Each act of [smp_distribute_act]. *)
Lemma lv_id_info w : to_distribute 1 w → live smp_send_id_info (fun _ => kept w) w.
Proof.
  intros Hd. destruct (distribute_depth 1 w ltac:(lia) Hd). apply (lv_rest_of_keys _ 1); [done|lia|done|].
  intros w' Hn'. lv.
Qed.

Lemma to_distribute_upd i w f :
  turn_key (f (smp_cb w)) = turn_key (smp_cb w) →
  local_i_key (f (smp_cb w)) = local_i_key (smp_cb w) → local_r_key (f (smp_cb w)) = local_r_key (smp_cb w) →
  discard_sec_req (f (smp_cb w)) = discard_sec_req (smp_cb w) →
  to_distribute i w → to_distribute i (w <| smp_cb ::= f |>).
Proof.
  intros Ht E1 E2 E3 Hd. unfold to_distribute, bound, discards, bits in *. cb_cbn. by rewrite Ht, E1, E2, E3.
Qed.

Lemma lv_set_derive_lk w : to_distribute 3 w → live smp_set_derive_link_key (fun _ => kept w) w.
Proof.
  intros Hd. unfold smp_set_derive_link_key. do 2 lv_step.
  eapply lv_mono; [apply (lv_rest_of_keys _ 3); [done|lia|by apply to_distribute_upd|]|].
  - intros w' Hn'. by apply lv_distribution.
  - intros [] w' Hw'. rel.
Qed.

Lemma lv_send_csrk_info w : to_distribute 2 w → live smp_send_csrk_info (fun _ => kept w) w.
Proof.
  intros Hd. destruct (distribute_depth 2 w ltac:(lia) Hd). apply (lv_rest_of_keys _ 2); [done|lia|done|].
  intros w' Hn'. lv.
Qed.

Lemma lv_compute_csrk d w : to_distribute 2 w → live (smp_compute_csrk d) (fun _ => kept w) w.
Proof.
  intros Hd. unfold smp_compute_csrk. do 4 lv_step.
  eapply lv_mono; [apply lv_send_csrk_info; by repeat apply to_distribute_upd|]. intros [] w' Hw'. rel.
Qed.

Lemma lv_generate_csrk w : to_distribute 2 w → live smp_generate_csrk (fun _ => kept w) w.
Proof.
  intros Hd. unfold smp_generate_csrk, btm_get_local_div. repeat lv_step; [|rel].
  eapply lv_mono; [apply lv_compute_csrk; by apply to_distribute_upd|]. intros [] w' Hw'. rel.
Qed.

(** The long term key is saved, and then the other keys are distributed. *)
Lemma lv_save_and_rest w (m : M unit) : to_distribute 0 w →
  (∀ w', (bound w' 10 20 + bits w' <= n)%nat → live m (fun _ => kept w') w') →
  live (smp_save_secure_connections_long_term_key ;;
    smp_update_key_mask SMP_SEC_KEY_TYPE_ENC false ;; m) (fun _ => kept w) w.
Proof.
  intros Hd Hm. unfold smp_save_secure_connections_long_term_key. do 6 lv_step.
  eapply lv_mono; [apply (lv_rest_of_keys _ 0); [done|lia|exact Hd|exact Hm]|].
  intros [] w' Hw'. rel.
Qed.

Lemma lv_br_process_link_key w : to_distribute 0 w → br_state (smp_cb w) = SMP_BR_STATE_BOND_PENDING →
  live smp_br_process_link_key (fun _ => kept w) w.
Proof.
  intros Hd Hb. destruct (distribute_depth 0 w ltac:(lia) Hd) as [Hn _].
  unfold smp_br_process_link_key. lv_step.
  apply (lv_mono _ (fun _ w' => kept w w' ∧ to_distribute 0 w' ∧ (bound w' 10 20 <= n)%nat ∧
    br_state (smp_cb w') = br_state (smp_cb w))).
  - unfold smp_calculate_long_term_key_from_link_key. repeat lv_step; split; try rel;
      (split; [first [done|by apply to_distribute_upd]|done]).
  - intros ok w' (Hk & Hd' & Hn' & Hb'). lv_step.
    + lv_step. eapply lv_mono; [apply lv_tk_req_br; [congruence|done]|]. cbv beta. intros ? w'' Hw''. rel.
    + do 5 lv_step. lv_step; lv_step; cbv beta;
        (eapply lv_mono; [apply lv_save_and_rest; [exact Hd'|apply lv_next_key]|]; intros [] w'' Hw''; rel).
Qed.

Lemma lv_generate_ltk w : to_distribute 0 w → live smp_generate_ltk (fun _ => kept w) w.
Proof.
  intros Hd. unfold smp_generate_ltk, smp_generate_ltk_cont, btm_get_local_div. do 3 lv_step.
  - apply Z.eqb_eq in Heqb. by apply lv_br_process_link_key.
  - lv_step; [|lv]. apply lv_save_and_rest; [done|apply lv_distribution].
Qed.

Lemma lv_pick_if_our_turn w : (bound w 10 20 + bits w <= S n)%nat → live pick_if_our_turn (fun _ => kept w) w.
Proof.
  intros Hn. unfold pick_if_our_turn, smp_key_pick_key. do 2 lv_step. lv_step; [|rel]. do 2 lv_step.
  fold (turn_key (smp_cb w)). cbn [take SMP_KEY_DIST_TYPE_MAX smp_distribute_act pick_key].
  rewrite !has_bit by lia. 
  repeat lv_step; [apply lv_generate_ltk|apply lv_id_info|apply lv_generate_csrk|apply lv_set_derive_lk|rel];
    by left.
Qed.
Hint Resolve lv_pick_if_our_turn : smpl.

Lemma lv_derive_link_key w : (4 <= n)%nat → live smp_derive_link_key_from_long_term_key (fun _ => calm w) w.
Proof.
  intros Hn. unfold smp_derive_link_key_from_long_term_key, smp_calculate_link_key_from_long_term_key. lv.
Qed.
Hint Resolve lv_derive_link_key : smpl.

Lemma lv_alarm_set a ms w : live (alarm_set_on_mloop a ms) (fun _ => calm w) w.
Proof. destruct a; [done|lv..]. Qed.
Hint Resolve lv_alarm_set : smpl.

Lemma lv_key_distribution w : (bound w 10 20 + bits w <= S n)%nat → live key_distribution_body (fun _ => kept w) w.
Proof.
  intros Hn. assert (4 <= n)%nat by (unfold bound in Hn; case_match; lia).
  unfold key_distribution_body. lv.
Qed.

Lemma lv_br_select_next_key w : (bound w 10 20 + bits w <= S n)%nat →
  live br_select_next_key_body (fun _ => kept w) w.
Proof.
  intros Hn. assert (4 <= n)%nat by (unfold bound in Hn; case_match; lia).
  unfold br_select_next_key_body, br_auth_cmpl. lv.
Qed.

(** ** Secure connections *)
Lemma lv_process_private_key w : (7 <= n)%nat → live smp_process_private_key (fun _ => mild w) w.
Proof. intros Hn. unfold smp_process_private_key. lv. Qed.
Hint Resolve lv_process_private_key : smpl.

Lemma lv_create_private_key w : (7 <= n)%nat → live smp_create_private_key (fun _ => mild w) w.
Proof. intros Hn. unfold smp_create_private_key, load_saved_oob_keys. lv. Qed.

Lemma lv_compute_dhkey w : live smp_compute_dhkey (fun _ => calm w) w.
Proof. unfold smp_compute_dhkey. lv. Qed.

Lemma lv_local_commitment w : live smp_calculate_local_commitment (fun _ => calm w) w.
Proof. unfold smp_calculate_local_commitment, smp_calculate_random_input. lv. Qed.

Lemma lv_display_number w : (4 <= n)%nat →
  live smp_calculate_numeric_comparison_display_number (fun _ => mild w) w.
Proof. intros Hn. unfold smp_calculate_numeric_comparison_display_number. lv. Qed.

Lemma lv_local_dhkey_check w : live smp_calculate_local_dhkey_check (fun _ => calm w) w.
Proof. unfold smp_calculate_local_dhkey_check. lv. Qed.

Lemma lv_peer_dhkey_check w : (7 <= n)%nat → live smp_calculate_peer_dhkey_check (fun _ => mild w) w.
Proof. intros Hn. unfold smp_calculate_peer_dhkey_check. lv. Qed.

(** ** The closures *)
Hint Resolve lv_proc_passkey lv_generate_confirm : smpl.

Lemma lv_rand_callback k r w : (31 <= n)%nat → live (run_rand_callback k r) (fun _ _ => True) w.
Proof.
  intros Hn. destruct k; cbn [run_rand_callback];
    unfold set_rand, smp_generate_ltk_cont, smp_generate_y, smp_process_ediv; try (by lv).
  - eapply lv_mono; [apply lv_compute_csrk; right; lia|done].
  - repeat lv_step. by apply lv_any.
Qed.
End keys.

#[export] Hint Resolve lv_send_rand_req lv_generate_compare lv_generate_stk lv_update_key_mask
  lv_by_transport lv_distribution lv_next_key lv_process_private_key lv_create_private_key
  lv_compute_dhkey lv_local_commitment lv_display_number lv_local_dhkey_check lv_peer_dhkey_check : smpl.
#[export] Hint Extern 1 (bound ?w 10 20 + bits ?w <= _)%nat =>
  first [match goal with B : (bound ?v 10 20 + bits ?v <= _)%nat |- _ =>
           apply (calm_keys v); [solve [rel]|exact B] end
        |pose proof (all_keys w); lia] : smpl.
#[export] Hint Extern 1 (unbonded _ ∨ _) => first [right; lia|left; solve [unbonded_solve]] : smpl.
