(* ===== verification/SmpLiveAct.v ===== *)
(** * The actions end

    One lemma per action: with the bounds of [Live n] on the events it raises, it is
    handled to its end. *)
From S2P Require Import Prelude SmpDefs SmpTables SmpMonad SmpUtils SmpKeys SmpAct SmpMain SmpTyped SmpReach SmpLive SmpLiveKeys.

Section act.
Context `{Env} `{Crypto} `{Machines} (n : nat) `{!Live n}.

(** ** Shared steps *)
Lemma lv_auth_cmpl s w : (auth_depth w <= n)%nat → live (auth_cmpl s) (fun _ => calm w) w.
Proof. intros Hn. unfold auth_cmpl. lv. Qed.

Lemma lv_br_auth_cmpl s w : (auth_depth w <= n)%nat → live (br_auth_cmpl s) (fun _ => calm w) w.
Proof. intros Hn. unfold br_auth_cmpl. lv. Qed.
Hint Resolve lv_auth_cmpl lv_br_auth_cmpl : smpl.

Lemma lv_set_flag f w : live (set_flag f) (fun _ => calm w) w.
Proof. unfold set_flag. lv. Qed.

Lemma lv_clear_flag f w : live (clear_flag f) (fun _ => calm w) w.
Proof. unfold clear_flag. lv. Qed.

Lemma lv_fail_pairing s w : (4 <= n)%nat → live (fail_pairing s) (fun _ => calm w) w.
Proof. intros Hn. unfold fail_pairing. lv. Qed.

Lemma lv_pts_failure w : (4 <= n)%nat → live pts_test_send_authentication_complete_failure (fun _ => calm w) w.
Proof. intros Hn. unfold pts_test_send_authentication_complete_failure. lv. Qed.
Hint Resolve lv_set_flag lv_clear_flag lv_fail_pairing lv_pts_failure : smpl.

(** ** Asking the application *)
Lemma lv_take_io_caps io w : live (take_io_caps io) (fun _ => mild w) w.
Proof. unfold take_io_caps. lv. Qed.
Hint Resolve lv_take_io_caps : smpl.

Lemma lv_cback_quiet d w : quiet w → live (smp_send_app_cback d) (fun _ => calm w) w.
Proof.
  intros (E0%Z.eqb_neq & E1%Z.eqb_neq & E2%Z.eqb_neq). unfold smp_send_app_cback, call_app.
  unfold SMP_EVT_NONE in E0. repeat (lv_step; cb_cbn; unfold nz in *; rewrite ?E0, ?E1, ?E2; cbn [negb when]); rel.
  all: cbn in *; congruence.
Qed.

Lemma lv_cback d w :
  br_state (smp_cb w) = SMP_BR_STATE_BOND_PENDING ∧ (bound w 9 19 <= n)%nat ∨ (bound w 20 30 <= n)%nat →
  live (smp_send_app_cback d) (fun _ => kept w) w.
Proof.
  intros Hn. assert (bound w 9 19 <= n)%nat as Hn9 by (unfold bound in *; case_match; lia).
  assert (9 <= n)%nat by (unfold bound in *; case_match; lia).
  unfold smp_send_app_cback. do 3 lv_step.
  apply (lv_mono _ (fun _ => kept w)).
  - unfold call_app, take_br_keys. repeat lv_step; try rel.
    eapply lv_mono; [apply lv_br_keys_rsp|intros [] w' Hw'; rel].
    unfold bound, discards in *; cb_cbn. intuition lia.
  - intros [] w' Hk. do 2 lv_step. lv_step; [|rel]. apply andb_true_iff in H3 as [_ Hd].
    assert (19 <= n)%nat by (unfold bound in Hn9; rewrite (Hk Hd) in Hn9; lia).
    do 3 lv_step. eapply lv_mono; [by apply lv_discard|]. intros [] w'' Hw'' E; by apply Hw'' in E.
Qed.

(** ** The association model *)
Lemma lv_decide_association_model w : (8 <= n)%nat → unbonded w ∨ (29 <= n)%nat →
  live smp_decide_association_model (fun _ => mild w) w.
Proof.
  intros Hn [Hs|Hs]; unfold smp_decide_association_model, smp_generate_passkey, smp_set_state; lv.
Qed.
Hint Resolve lv_decide_association_model : smpl.

Lemma lv_use_oob_private_key w : (8 <= n)%nat → live smp_use_oob_private_key (fun _ => mild w) w.
Proof.
  intros Hn. unfold smp_use_oob_private_key, load_saved_oob_keys, smp_set_state. lv.
Qed.
Hint Resolve lv_use_oob_private_key : smpl.

(** ** Sending *)
Lemma lv_send_pair_fail d w : (auth_depth w <= n)%nat → live (smp_send_pair_fail d) (fun _ => calm w) w.
Proof. intros Hn. unfold smp_send_pair_fail. lv. Qed.

Lemma lv_erase_keys w : live erase_keys (fun _ => calm w) w.
Proof. unfold erase_keys. lv. Qed.
Hint Resolve lv_send_pair_fail lv_erase_keys : smpl.

Lemma lv_restrict_keys w : live restrict_keys (fun _ => mild w) w.
Proof. unfold restrict_keys. lv. Qed.
Hint Resolve lv_restrict_keys : smpl.

Lemma lv_send_pair_req w : (4 <= n)%nat → live smp_send_pair_req (fun _ => calm w) w.
Proof. intros Hn. unfold smp_send_pair_req. lv. Qed.

Lemma lv_send_pair_rsp w : (8 <= n)%nat → unbonded w ∨ (29 <= n)%nat → live smp_send_pair_rsp (fun _ => mild w) w.
Proof. intros Hn [Hs|Hs]; unfold smp_send_pair_rsp; lv. Qed.

Lemma lv_send_confirm w : (4 <= n)%nat → live smp_send_confirm (fun _ => calm w) w.
Proof. intros Hn. unfold smp_send_confirm. lv. Qed.

Lemma lv_send_rand_cmd w : (4 <= n)%nat → live smp_send_rand (fun _ => calm w) w.
Proof. intros Hn. unfold smp_send_rand. lv. Qed.

Lemma lv_send_public_key w : (4 <= n)%nat → live smp_send_pair_public_key (fun _ => calm w) w.
Proof. intros Hn. unfold smp_send_pair_public_key. lv. Qed.

Lemma lv_send_commitment w : (4 <= n)%nat → live smp_send_commitment (fun _ => calm w) w.
Proof. intros Hn. unfold smp_send_commitment. lv. Qed.

Lemma lv_send_dhkey_check w : (4 <= n)%nat → live smp_send_dhkey_check (fun _ => calm w) w.
Proof. intros Hn. unfold smp_send_dhkey_check. lv. Qed.

Lemma lv_send_keypress d w : (4 <= n)%nat → live (smp_send_keypress_notification d) (fun _ => calm w) w.
Proof. intros Hn. unfold smp_send_keypress_notification. lv. Qed.

Lemma lv_send_enc_info w : (28 <= n)%nat → live smp_send_enc_info (fun _ => kept w) w.
Proof. intros Hn. unfold smp_send_enc_info. lv. Qed.

Lemma lv_send_ltk_reply d w : live (smp_send_ltk_reply d) (fun _ => calm w) w.
Proof. unfold smp_send_ltk_reply. lv. Qed.
Hint Resolve lv_send_pair_req lv_send_pair_rsp lv_send_confirm lv_send_rand_cmd lv_send_public_key
  lv_send_commitment lv_send_dhkey_check lv_send_keypress lv_send_enc_info lv_send_ltk_reply : smpl.

(** ** Receiving *)
Lemma lv_proc_sec_req d w : (6 <= n)%nat → live (smp_proc_sec_req d) (fun _ _ => True) w.
Proof. intros Hn. unfold smp_proc_sec_req. by lv. Qed.

Lemma lv_proc_sec_grant d w : (4 <= n)%nat → live (smp_proc_sec_grant d) (fun _ => calm w) w.
Proof. intros Hn. unfold smp_proc_sec_grant. lv. Qed.

Lemma lv_proc_pair_fail d w : live (smp_proc_pair_fail d) (fun _ => calm w) w.
Proof. unfold smp_proc_pair_fail. lv. Qed.

Lemma lv_read_pairing_cmd p w : live (read_pairing_cmd p) (fun _ => calm w) w.
Proof. unfold read_pairing_cmd. lv. Qed.

Lemma lv_select_model w : live select_model (fun _ => calm w) w.
Proof.
  unfold select_model, smp_select_association_model, smp_select_association_model_secure_connections,
    smp_select_legacy_association_model. lv.
Qed.
Hint Resolve lv_read_pairing_cmd lv_select_model lv_proc_sec_grant lv_proc_pair_fail : smpl.

Lemma lv_proc_pair_cmd d w : (8 <= n)%nat → unbonded w ∨ (29 <= n)%nat →
  live (smp_proc_pair_cmd d) (fun _ => mild w) w.
Proof. intros Hn [Hs|Hs]; unfold smp_proc_pair_cmd; lv. Qed.

Lemma lv_proc_confirm d w : (4 <= n)%nat → live (smp_proc_confirm d) (fun _ => calm w) w.
Proof. intros Hn. unfold smp_proc_confirm, with_valid_parameters. lv. Qed.

Lemma lv_proc_rand d w : (4 <= n)%nat → live (smp_proc_rand d) (fun _ => calm w) w.
Proof. intros Hn. unfold smp_proc_rand, with_valid_parameters. lv. Qed.

Lemma lv_wait_both_keys w : (6 <= n)%nat → live smp_wait_for_both_public_keys (fun _ => mild w) w.
Proof. intros Hn. unfold smp_wait_for_both_public_keys, smp_set_state. lv. Qed.
Hint Resolve lv_wait_both_keys : smpl.

Lemma lv_public_key d w : (6 <= n)%nat → live (smp_process_pairing_public_key d) (fun _ => mild w) w.
Proof. intros Hn. unfold smp_process_pairing_public_key, with_valid_parameters. lv. Qed.

Lemma lv_commitment d w : (4 <= n)%nat → live (smp_process_pairing_commitment d) (fun _ => calm w) w.
Proof. intros Hn. unfold smp_process_pairing_commitment, with_valid_parameters. lv. Qed.

Lemma lv_proc_dhkey_check d w : (4 <= n)%nat → live (smp_process_dhkey_check d) (fun _ => calm w) w.
Proof. intros Hn. unfold smp_process_dhkey_check, with_valid_parameters. lv. Qed.

Lemma lv_keypress d w : (4 <= n)%nat → live (smp_process_keypress_notification d) (fun _ => calm w) w.
Proof. intros Hn. unfold smp_process_keypress_notification, with_valid_parameters. lv. Qed.

(** ** Pairing over BR/EDR *)
Lemma lv_br_pairing_command d w : (4 <= n)%nat → live (smp_br_process_pairing_command d) (fun _ => kept w) w.
Proof. intros Hn. unfold smp_br_process_pairing_command. lv. Qed.

Lemma lv_br_sec_grant d w : (4 <= n)%nat → live (smp_br_process_security_grant d) (fun _ => calm w) w.
Proof. intros Hn. unfold smp_br_process_security_grant. lv. Qed.

Lemma bond_keys w w' m : kept w w' → (bound w 19 29 <= m)%nat → (bound w' 10 20 + bits w' <= m)%nat.
Proof.
  intros Hk Hn. pose proof (bits_max w'). unfold bound, kept in *. destruct (discards w'), (discards w); lia.
Qed.

Lemma lv_br_check_auth w : (bound w 19 29 <= n)%nat → live smp_br_check_authorization_request (fun _ => kept w) w.
Proof.
  intros Hn. assert (4 <= n)%nat by (unfold bound in *; case_match; lia).
  unfold smp_br_check_authorization_request. repeat lv_step; try rel;
    (eapply lv_mono; [apply lv_br_bond_req; exact Hn|]); intros [] w' Hw'; repeat lv_step; try rel;
    (eapply lv_mono; [apply (lv_by_transport n), (bond_keys w); [rel|exact Hn]|]); intros [] w'' Hw''; rel.
Qed.

Lemma lv_br_pair_response w : (4 <= n)%nat → live smp_br_send_pair_response (fun _ => mild w) w.
Proof. intros Hn. unfold smp_br_send_pair_response. lv. Qed.

(** ** Key distribution *)
Lemma lv_proc_enc_info d w : (28 <= n)%nat → live (smp_proc_enc_info d) (fun _ => kept w) w.
Proof. intros Hn. unfold smp_proc_enc_info, with_valid_parameters. lv. Qed.

Lemma lv_proc_central_id d w : (28 <= n)%nat → live (smp_proc_central_id d) (fun _ => kept w) w.
Proof. intros Hn. unfold smp_proc_central_id. lv. Qed.

Lemma lv_proc_id_info d w : (28 <= n)%nat → live (smp_proc_id_info d) (fun _ => kept w) w.
Proof. intros Hn. unfold smp_proc_id_info, with_valid_parameters. lv. Qed.
Hint Resolve lv_cback_quiet : smpl.

Lemma lv_proc_id_addr d w : (28 <= n)%nat → live (smp_proc_id_addr d) (fun _ => kept w) w.
Proof. intros Hn. unfold smp_proc_id_addr, with_valid_parameters. lv. Qed.

Lemma lv_proc_srk_info d w : (28 <= n)%nat → live (smp_proc_srk_info d) (fun _ => kept w) w.
Proof. intros Hn. unfold smp_proc_srk_info, with_valid_parameters. lv. Qed.

(** ** Legacy pairing *)
Lemma lv_smaller_key_size w : live save_smaller_key_size (fun _ w' => calm w w' ∧
  state (smp_cb w') = state (smp_cb w) ∧ role (smp_cb w') = role (smp_cb w)) w.
Proof.
  unfold save_smaller_key_size. apply lv_upd. cb_cbn.
  split; [split; unfold bits, discards; cb_cbn|]; case_match; auto.
Qed.

Lemma lv_take_peer_keys w : live take_peer_keys (fun _ => mild w) w.
Proof. unfold take_peer_keys. lv. Qed.
Hint Resolve lv_take_peer_keys : smpl.

Lemma lv_proc_compare d w : (6 <= n)%nat → state (smp_cb w) = SMP_STATE_RAND →
  live (smp_proc_compare d) (fun _ => mild w) w.
Proof.
  intros Hn Hs. unfold smp_proc_compare. do 4 lv_step. lv_step; [|lv]. lv_step.
  eapply lv_mono; [apply lv_smaller_key_size|]. intros [] w1 (Hc & Es & Er). lv_step; [|lv].
  apply Z.eqb_eq in Heqb0. lv_step.
  eapply lv_mono; [apply lv_send_rand; [lia|congruence|by rewrite Er]|]. cbv beta. intros ? w2 Hw2. rel.
Qed.

Lemma lv_proc_sl_key d w : (5 <= n)%nat → live (smp_proc_sl_key d) (fun _ => mild w) w.
Proof.
  intros Hn. unfold smp_proc_sl_key, member_key_type, smp_generate_srand_mrand_confirm, smp_set_state. lv.
Qed.

(** ** Encryption and the end of a pairing *)
Lemma lv_start_encrypt b k w : live (btm_ble_start_encrypt_ b k) (fun _ => calm w) w.
Proof. unfold btm_ble_start_encrypt_. lv. Qed.
Hint Resolve lv_start_encrypt : smpl.

Lemma lv_start_enc d w : (4 <= n)%nat → live (smp_start_enc d) (fun _ => calm w) w.
Proof. intros Hn. unfold smp_start_enc. lv. Qed.

Lemma lv_proc_discard w : live smp_proc_discard (fun _ => calm w) w.
Proof. unfold smp_proc_discard. lv. Qed.

Lemma lv_enc_cmpl d w : (4 <= n)%nat → live (smp_enc_cmpl d) (fun _ => calm w) w.
Proof. intros Hn. unfold smp_enc_cmpl. lv. Qed.

Lemma lv_sirk_verify d w : (auth_depth w <= S n)%nat → (1 <= n)%nat → live (smp_sirk_verify d) (fun _ => calm w) w.
Proof. intros Hd Hn. unfold smp_sirk_verify. lv. Qed.

Lemma lv_check_auth_req d w : (29 <= n)%nat → live (smp_check_auth_req d) (fun _ => kept w) w.
Proof.
  assert (∀ c, discard_sec_req (adjust_keys c) = discard_sec_req c) as Ha.
  { intros c. unfold adjust_keys. cbv zeta. by repeat case_match. }
  intros Hn. unfold smp_check_auth_req. lv; by rewrite Ha.
Qed.

Lemma lv_io_response w : (8 <= n)%nat → unbonded w ∨ (29 <= n)%nat → live smp_process_io_response (fun _ => mild w) w.
Proof. intros Hn [Hs|Hs]; unfold smp_process_io_response, smp_set_state; lv. Qed.

Lemma lv_pairing_cmpl w : live smp_pairing_cmpl (fun _ => calm w) w.
Proof. unfold smp_pairing_cmpl. lv. Qed.

Lemma lv_pair_terminate w : live smp_pair_terminate (fun _ => calm w) w.
Proof. unfold smp_pair_terminate. lv. Qed.

Lemma lv_idle_terminate w : live smp_idle_terminate (fun _ => calm w) w.
Proof. unfold smp_idle_terminate. lv. Qed.

(** ** Secure connections *)
Lemma lv_both_have_keys w : (5 <= n)%nat → live smp_both_have_public_keys (fun _ => mild w) w.
Proof. intros Hn. unfold smp_both_have_public_keys. lv. Qed.

Lemma lv_sc_oob_data w : (4 <= n)%nat → live smp_process_secure_connection_oob_data (fun _ => calm w) w.
Proof. intros Hn. unfold smp_process_secure_connection_oob_data, smp_start_nonce_generation. lv. Qed.
Hint Resolve lv_sc_oob_data : smpl.

Lemma lv_sc_phase1 w : (4 <= n)%nat → live smp_start_secure_connection_phase1 (fun _ => mild w) w.
Proof.
  intros Hn. unfold smp_start_secure_connection_phase1, smp_start_nonce_generation, smp_generate_passkey. lv.
Qed.

Lemma lv_local_nonce w : (4 <= n)%nat → live smp_process_local_nonce (fun _ => mild w) w.
Proof. intros Hn. unfold smp_process_local_nonce, smp_set_state. lv. Qed.

Lemma lv_nonce_justworks w : (9 <= n)%nat → live peer_nonce_justworks_or_nc (fun _ => mild w) w.
Proof. intros Hn. unfold peer_nonce_justworks_or_nc, smp_set_state. lv. Qed.

Lemma lv_nonce_passkey w : (9 <= n)%nat → live peer_nonce_passkey (fun _ => mild w) w.
Proof. intros Hn. unfold peer_nonce_passkey, smp_start_nonce_generation, smp_set_state. lv. Qed.
Hint Resolve lv_nonce_justworks lv_nonce_passkey : smpl.

Lemma lv_peer_nonce w : (9 <= n)%nat → live smp_process_peer_nonce (fun _ => mild w) w.
Proof. intros Hn. unfold smp_process_peer_nonce. lv. Qed.

Lemma lv_match_dhkey d w : (6 <= n)%nat → state (smp_cb w) = SMP_STATE_DHK_CHECK →
  live (smp_match_dhkey_checks d) (fun _ => mild w) w.
Proof.
  intros Hn Hs. unfold smp_match_dhkey_checks. do 4 lv_step. lv_step; [lv|]. lv_step.
  eapply lv_mono; [apply lv_smaller_key_size|]. intros [] w1 (Hc & Es & _). lv_step; [|lv]. lv_step.
  eapply lv_mono; [apply lv_dhkey_check; [congruence|lia]|]. cbv beta. intros ? w2 Hw2. rel.
Qed.

Lemma lv_phase2 w : (9 <= n)%nat → live smp_move_to_secure_connections_phase2 (fun _ => mild w) w.
Proof. intros Hn. unfold smp_move_to_secure_connections_phase2. lv. Qed.

Lemma lv_ph2_checks w : (8 <= n)%nat → live smp_phase_2_dhkey_checks_are_present (fun _ => mild w) w.
Proof. intros Hn. unfold smp_phase_2_dhkey_checks_are_present. lv. Qed.

Lemma lv_passkey_verification d w : live (smp_start_passkey_verification d) (fun _ => calm w) w.
Proof. unfold smp_start_passkey_verification, smp_start_nonce_generation. lv. Qed.

Lemma lv_local_oob_keys w : live smp_set_local_oob_keys (fun _ => calm w) w.
Proof. unfold smp_set_local_oob_keys, smp_start_nonce_generation. lv. Qed.

Lemma lv_local_oob_commitment w : live smp_set_local_oob_random_commitment (fun _ => calm w) w.
Proof. unfold smp_set_local_oob_random_commitment, smp_save_local_oob_data. lv. Qed.
End act.

#[export] Hint Resolve lv_auth_cmpl lv_br_auth_cmpl lv_set_flag lv_clear_flag lv_fail_pairing
  lv_cback_quiet lv_decide_association_model lv_use_oob_private_key lv_send_pair_fail lv_send_pair_req
  lv_send_pair_rsp lv_send_confirm lv_send_rand_cmd lv_send_public_key lv_send_commitment
  lv_send_dhkey_check lv_send_keypress lv_send_enc_info lv_send_ltk_reply lv_proc_sec_req
  lv_proc_sec_grant lv_proc_pair_fail lv_proc_pair_cmd lv_proc_confirm lv_proc_rand
  lv_wait_both_keys lv_public_key lv_commitment lv_proc_dhkey_check lv_keypress lv_br_pairing_command
  lv_br_sec_grant lv_br_check_auth lv_br_pair_response lv_proc_enc_info lv_proc_central_id
  lv_proc_id_info lv_proc_id_addr lv_proc_srk_info lv_proc_compare lv_proc_sl_key lv_start_enc
  lv_proc_discard lv_enc_cmpl lv_sirk_verify lv_check_auth_req lv_io_response lv_pairing_cmpl
  lv_pair_terminate lv_idle_terminate lv_both_have_keys lv_sc_oob_data lv_sc_phase1 lv_local_nonce
  lv_peer_nonce lv_match_dhkey lv_phase2 lv_ph2_checks lv_passkey_verification lv_local_oob_keys
  lv_local_oob_commitment : smpl.
#[export] Hint Extern 1 (state (smp_cb _) = _) => solve [by cb_cbn] : smpl.
#[export] Hint Extern 1 (state (smp_cb _) = _ ∨ _) => first [right; lia|left; by cb_cbn] : smpl.
