(* ===== verification/SmpMono.v ===== *)
(** * The recursion bound only bounds

    A larger bound of the machines gives the same result, unless the smaller one was too
    small. *)
From S2P Require Import Prelude SmpDefs SmpTables SmpMonad SmpUtils SmpKeys SmpAct SmpMain.

(** [m2] does what [m1] does, where [m1] has bound enough. *)
Definition refines {A} (m1 m2 : M A) : Prop :=
  ∀ w, m1 w = m2 w ∨ ∃ w', m1 w = Fault OutOfFuel w'.

Lemma rf_refl {A} (m : M A) : refines m m.
Proof. by left. Qed.

Lemma rf_bind {A B} (m1 m2 : M A) (f1 f2 : A → M B) :
  refines m1 m2 → (∀ a, refines (f1 a) (f2 a)) → refines (m1 ≫= f1) (m2 ≫= f2).
Proof.
  intros Hm Hf w. unfold mbind, M_bind. destruct (Hm w) as [->|[w' ->]]; [|right; by exists w'].
  destruct (m2 w) as [[a w']|]; [apply Hf|by left].
Qed.

Lemma rf_when b (m1 m2 : M unit) : refines m1 m2 → refines (when b m1) (when b m2).
Proof. intros Hm. destruct b; [done|apply rf_refl]. Qed.

Lemma rf_ignore {A} (m1 m2 : M A) : refines m1 m2 → refines (ignore m1) (ignore m2).
Proof. intros Hm. apply rf_bind; [done|]. intros. apply rf_refl. Qed.

Class Refines (M1 M2 : Machines) : Prop := {
  rf_event ev d : refines (@smp_sm_event M1 ev d) (@smp_sm_event M2 ev d);
  rf_br_event ev d : refines (@smp_br_state_machine_event M1 ev d) (@smp_br_state_machine_event M2 ev d);
  rf_distribution : refines (@smp_key_distribution M1) (@smp_key_distribution M2);
  rf_next_key : refines (@smp_br_select_next_key M1) (@smp_br_select_next_key M2);
}.

Create HintDb smpr.
#[export] Hint Resolve rf_event rf_br_event rf_distribution rf_next_key : smpr.

Ltac rf_step :=
  cbv beta zeta;
  lazymatch goal with
  | |- refines ?m ?m => apply rf_refl
  | |- refines (_ ≫= _) _ => apply rf_bind; [|intros ?]
  | |- refines (when _ _) _ => apply rf_when
  | |- refines (ignore _) _ => apply rf_ignore
  | |- refines (if ?b then _ else _) _ => destruct b
  | |- refines (match ?x with _ => _ end) _ => destruct x
  | |- refines _ _ => solve [eauto 2 with smpr]
  end.
Ltac rf := repeat rf_step.

Section mono.
Context `{Env} `{Crypto} (M1 M2 : Machines) `{!Refines M1 M2}.

Lemma rf_send_msg a p : refines (@smp_send_msg_to_L2CAP _ M1 a p) (@smp_send_msg_to_L2CAP _ M2 a p).
Proof. unfold smp_send_msg_to_L2CAP. rf. Qed.
Hint Resolve rf_send_msg : smpr.

Lemma rf_send_cmd c : refines (@smp_send_cmd _ M1 c) (@smp_send_cmd _ M2 c).
Proof. unfold smp_send_cmd. rf. Qed.
Hint Resolve rf_send_cmd : smpr.

Lemma rf_string_to_tk k : refines (@smp_convert_string_to_tk M1 k) (@smp_convert_string_to_tk M2 k).
Proof. unfold smp_convert_string_to_tk. rf. Qed.

Lemma rf_request_oob : refines (@smp_request_oob_data M1) (@smp_request_oob_data M2).
Proof. unfold smp_request_oob_data. rf. Qed.
Hint Resolve rf_string_to_tk rf_request_oob : smpr.

Lemma rf_private_key : refines (@smp_process_private_key _ M1) (@smp_process_private_key _ M2).
Proof. unfold smp_process_private_key. rf. Qed.
Hint Resolve rf_private_key : smpr.

Lemma rf_by_transport : refines (@smp_key_distribution_by_transport M1) (@smp_key_distribution_by_transport M2).
Proof. unfold smp_key_distribution_by_transport. rf. Qed.
Hint Resolve rf_by_transport : smpr.

Lemma rf_send_csrk : refines (@smp_send_csrk_info _ M1) (@smp_send_csrk_info _ M2).
Proof. unfold smp_send_csrk_info. rf. Qed.
Hint Resolve rf_send_csrk : smpr.

Lemma rf_compute_csrk d : refines (@smp_compute_csrk _ _ M1 d) (@smp_compute_csrk _ _ M2 d).
Proof. unfold smp_compute_csrk. rf. Qed.
Hint Resolve rf_compute_csrk : smpr.

Lemma rf_br_link_key : refines (@smp_br_process_link_key _ _ M1) (@smp_br_process_link_key _ _ M2).
Proof. unfold smp_br_process_link_key. rf. Qed.
Hint Resolve rf_br_link_key : smpr.

Lemma rf_send_app_cback d : refines (@smp_send_app_cback _ M1 d) (@smp_send_app_cback _ M2 d).
Proof. unfold smp_send_app_cback. rf. Qed.
Hint Resolve rf_send_app_cback : smpr.

Lemma rf_auth_cmpl s : refines (@auth_cmpl M1 s) (@auth_cmpl M2 s).
Proof. unfold auth_cmpl. rf. Qed.

Lemma rf_br_auth_cmpl s : refines (@br_auth_cmpl M1 s) (@br_auth_cmpl M2 s).
Proof. unfold br_auth_cmpl. rf. Qed.
Hint Resolve rf_auth_cmpl rf_br_auth_cmpl : smpr.

Lemma rf_pts : refines (@pts_test_send_authentication_complete_failure M1) (@pts_test_send_authentication_complete_failure M2).
Proof. unfold pts_test_send_authentication_complete_failure. rf. Qed.
Hint Resolve rf_pts : smpr.

Lemma rf_decide : refines (@smp_decide_association_model _ M1) (@smp_decide_association_model _ M2).
Proof. unfold smp_decide_association_model. rf. Qed.
Hint Resolve rf_decide : smpr.

Lemma rf_use_oob : refines (@smp_use_oob_private_key _ _ M1) (@smp_use_oob_private_key _ _ M2).
Proof. unfold smp_use_oob_private_key. rf. Qed.
Hint Resolve rf_use_oob : smpr.

Lemma rf_send_pair_fail d : refines (@smp_send_pair_fail _ M1 d) (@smp_send_pair_fail _ M2 d).
Proof. unfold smp_send_pair_fail. rf. Qed.

Lemma rf_send_pair_rsp : refines (@smp_send_pair_rsp _ _ M1) (@smp_send_pair_rsp _ _ M2).
Proof. unfold smp_send_pair_rsp. rf. Qed.
Hint Resolve rf_send_pair_fail rf_send_pair_rsp : smpr.

Lemma rf_with_valid (m1 m2 : M unit) : refines m1 m2 →
  refines (@with_valid_parameters M1 m1) (@with_valid_parameters M2 m2).
Proof. intros Hm. unfold with_valid_parameters. rf. Qed.

Lemma rf_wait_both : refines (@smp_wait_for_both_public_keys M1) (@smp_wait_for_both_public_keys M2).
Proof. unfold smp_wait_for_both_public_keys. rf. Qed.

Lemma rf_fail_pairing s : refines (@fail_pairing M1 s) (@fail_pairing M2 s).
Proof. unfold fail_pairing. rf. Qed.
Hint Resolve rf_wait_both rf_fail_pairing : smpr.

(** ** The actions *)
Definition rf_option (o1 o2 : option (M unit)) : Prop :=
  match o1, o2 with
  | Some m1, Some m2 => refines m1 m2
  | None, None => True
  | _, _ => False
  end.

Lemma rf_sc_oob : refines (@smp_process_secure_connection_oob_data _ M1) (@smp_process_secure_connection_oob_data _ M2).
Proof. unfold smp_process_secure_connection_oob_data. rf. Qed.

Lemma rf_nonce_jw : refines (@peer_nonce_justworks_or_nc _ _ M1) (@peer_nonce_justworks_or_nc _ _ M2).
Proof. unfold peer_nonce_justworks_or_nc, smp_send_rand. rf. Qed.

Lemma rf_nonce_pk : refines (@peer_nonce_passkey _ _ M1) (@peer_nonce_passkey _ _ M2).
Proof. unfold peer_nonce_passkey, smp_send_rand. rf. Qed.

Lemma rf_id_info : refines (@smp_send_id_info _ M1) (@smp_send_id_info _ M2).
Proof. unfold smp_send_id_info. rf. Qed.
Hint Resolve rf_sc_oob rf_nonce_jw rf_nonce_pk rf_id_info : smpr.

Lemma rf_derive : refines (@smp_derive_link_key_from_long_term_key _ _ M1) (@smp_derive_link_key_from_long_term_key _ _ M2).
Proof. unfold smp_derive_link_key_from_long_term_key. rf. Qed.

Lemma rf_generate_ltk : refines (@smp_generate_ltk _ _ M1) (@smp_generate_ltk _ _ M2).
Proof. unfold smp_generate_ltk, smp_process_secure_connection_long_term_key. rf. Qed.

Lemma rf_generate_csrk : refines (@smp_generate_csrk _ _ M1) (@smp_generate_csrk _ _ M2).
Proof. unfold smp_generate_csrk. rf. Qed.

Lemma rf_set_derive : refines (@smp_set_derive_link_key M1) (@smp_set_derive_link_key M2).
Proof. unfold smp_set_derive_link_key. rf. Qed.
Hint Resolve rf_derive rf_generate_ltk rf_generate_csrk rf_set_derive : smpr.

Lemma rf_pick : refines (@pick_if_our_turn _ _ M1) (@pick_if_our_turn _ _ M2).
Proof.
  unfold pick_if_our_turn, smp_key_pick_key.
  cbn [take SMP_KEY_DIST_TYPE_MAX smp_distribute_act pick_key]. rf.
Qed.
Hint Resolve rf_pick : smpr.

Ltac act_unfold :=
  unfold smp_proc_sec_req, smp_send_pair_req, smp_send_confirm, smp_send_rand, smp_send_enc_info,
    smp_send_ltk_reply, smp_proc_pair_cmd, smp_proc_pair_fail, smp_proc_confirm, smp_proc_rand,
    smp_proc_enc_info, smp_proc_central_id, smp_proc_id_info, smp_proc_id_addr, smp_proc_srk_info,
    smp_proc_sec_grant, smp_proc_sl_key, smp_proc_compare, smp_process_io_response, smp_generate_compare,
    smp_generate_stk, smp_process_stk, smp_start_enc, smp_pairing_cmpl, smp_check_auth_req,
    smp_pair_terminate, smp_enc_cmpl, smp_sirk_verify, smp_proc_discard, smp_create_private_key,
    smp_send_pair_public_key, smp_process_pairing_public_key, smp_both_have_public_keys,
    smp_start_secure_connection_phase1, smp_process_local_nonce, smp_send_commitment,
    smp_process_pairing_commitment, smp_process_peer_nonce, smp_send_dhkey_check, smp_process_dhkey_check,
    smp_calculate_peer_dhkey_check, smp_match_dhkey_checks, smp_send_rand, smp_send_pair_public_key,
    smp_calculate_numeric_comparison_display_number, smp_move_to_secure_connections_phase2,
    smp_phase_2_dhkey_checks_are_present, smp_start_passkey_verification, smp_send_keypress_notification,
    smp_process_keypress_notification, smp_set_local_oob_keys, smp_set_local_oob_random_commitment,
    smp_idle_terminate, smp_br_process_pairing_command, smp_br_process_security_grant,
    smp_br_check_authorization_request, smp_br_process_peripheral_keys_response,
    smp_br_send_pair_response, smp_br_pairing_complete, with_valid_parameters.

Lemma rf_action a d : rf_option (@smp_sm_action _ _ M1 a d) (@smp_sm_action _ _ M2 a d).
Proof. destruct a; cbn [smp_sm_action rf_option]; try exact I; act_unfold; rf. Qed.

Lemma rf_br_action a d : rf_option (@smp_br_sm_action _ M1 a d) (@smp_br_sm_action _ M2 a d).
Proof. destruct a; cbn [smp_br_sm_action rf_option]; try exact I; act_unfold; rf. Qed.

(** ** The dispatchers *)
Lemma rf_run_actions o1 o2 p1 p2 : rf_option o1 o2 → rf_option p1 p2 →
  refines (run_actions o1 p1) (run_actions o2 p2).
Proof.
  intros Ho Hp. destruct o1, o2; try done; cbn; [|apply rf_refl].
  destruct p1, p2; try done; cbn. by apply rf_bind.
Qed.

Lemma rf_sm_event ev d : refines (@sm_event_body _ _ M1 ev d) (@sm_event_body _ _ M2 ev d).
Proof.
  unfold sm_event_body. rf. apply rf_run_actions; apply rf_action.
Qed.

Lemma rf_br_sm_event ev d : refines (@br_event_body _ M1 ev d) (@br_event_body _ M2 ev d).
Proof.
  unfold br_event_body. rf. apply rf_run_actions; apply rf_br_action.
Qed.

Lemma rf_key_distribution : refines (@key_distribution_body _ _ M1) (@key_distribution_body _ _ M2).
Proof. unfold key_distribution_body. rf. Qed.

Lemma rf_br_select_next_key : refines (@br_select_next_key_body _ _ M1) (@br_select_next_key_body _ _ M2).
Proof. unfold br_select_next_key_body. rf. Qed.

(** ** The inputs *)
Lemma rf_rand_callback k r : refines (@run_rand_callback _ _ M1 k r) (@run_rand_callback _ _ M2 k r).
Proof.
  destruct k; cbn [run_rand_callback];
    unfold smp_proc_passkey, smp_generate_confirm, smp_generate_y, smp_process_ediv; rf.
Qed.
Hint Resolve rf_rand_callback : smpr.

Lemma rf_handle i : refines (@handle _ _ M1 i) (@handle _ _ M2 i).
Proof.
  destruct i; cbn [handle]; unfold SMP_Pair, SMP_BR_PairWith, SMP_PairCancel, SMP_SecurityGrant,
    SMP_PasskeyReply, SMP_ConfirmReply, SMP_OobDataReply, SMP_SecureConnectionOobDataReply,
    SMP_CrLocScOobData, SMP_SirkConfirmDeviceReply, smp_link_encrypted,
    smp_cancel_start_encryption_attempt, smp_proc_ltk_request, smp_connect_callback, smp_data_received,
    smp_tx_complete_callback, smp_br_connect_callback, smp_br_data_received, fires, smp_rsp_timeout,
    smp_delayed_auth_complete_timeout, smp_reject_unexpected_pairing_command; rf.
Qed.
End mono.

Lemma machines_refine `{Env} `{Crypto} n m : (n <= m)%nat → Refines (machines n) (machines m).
Proof.
  revert m. induction n as [|n IH]; intros m Hm.
  - split; intros; intros w; right; by exists w.
  - destruct m as [|m]; [lia|]. pose proof (IH m ltac:(lia)). split; intros; cbn [machines
      smp_sm_event smp_br_state_machine_event smp_key_distribution smp_br_select_next_key].
    + apply rf_sm_event. done.
    + apply rf_br_sm_event. done.
    + apply rf_key_distribution. done.
    + apply rf_br_select_next_key. done.
Qed.
