(* ===== verification/SmpTotal.v ===== *)
(** * The Security Manager always comes to an end

    Event by event: the bounds of [Live] hold of the machines that the knot builds.  So
    with the recursion bound that the development uses every input is handled to its
    end. *)
From S2P Require Import Prelude SmpDefs SmpTables SmpMonad SmpUtils SmpKeys SmpAct SmpMain SmpModel SmpAgreement SmpScenario SmpTyped SmpSafe SmpReach SmpLive SmpLiveKeys SmpLiveAct SmpMono.

(** The rows an event leads to, one by one. *)
Ltac rows_of R :=
  let Hin := fresh "Hin" in
  intros ? ? ? Hin;
  match type of Hin with In _ (R ?ev) =>
    let l := eval vm_compute in (R ev) in
    replace (R ev) with l in Hin by (vm_compute; reflexivity) end;
  cbn [In] in Hin; repeat destruct Hin as [Hin|Hin]; try contradiction Hin;
  let Er := fresh "Er" in let Es := fresh "Es" in
  injection Hin as Er Es <- <- <-; symmetry in Er, Es;
  cbn [run_actions smp_sm_action smp_br_sm_action]; unfold in_state, in_br_state.

Ltac le_event :=
  apply lv_sm_event; [split; vm_compute; discriminate | cbv beta; rel | rows_of le_rows].
Ltac br_event :=
  apply lv_br_event; [split; vm_compute; discriminate | cbv beta; rel | rows_of br_rows].

Section events.
Context `{Env} `{Crypto} `{Machines} (n : nat) `{!Live n}.

Lemma ev_confirm d w : (4 <= n)%nat → live (sm_event_body SMP_CONFIRM_EVT d) (fun _ => mild w) w.
Proof. intros Hn. le_event; lv. Qed.

(** ** The end of a pairing *)
(** A machine that becomes idle needs one turn less. *)
Lemma idle_depth w s : state (smp_cb w) = s → s ≠ 0 → (auth_depth w <= S n)%nat →
  (auth_depth (w <| smp_cb ::= fun c => c <| state := SMP_STATE_IDLE |> |>) <= n)%nat.
Proof.
  intros Es Hs Hn. unfold auth_depth in *. cb_cbn. rewrite Es in Hn.
  change (SMP_STATE_IDLE =? SMP_STATE_IDLE) with true. cbv iota.
  apply Z.eqb_neq in Hs. unfold SMP_STATE_IDLE in *. rewrite Hs in Hn. repeat case_match; lia.
Qed.

Lemma br_idle_depth w s : br_state (smp_cb w) = s → s ≠ 0 → (auth_depth w <= S n)%nat →
  (auth_depth (w <| smp_cb ::= fun c => c <| br_state := SMP_BR_STATE_IDLE |> |>) <= n)%nat.
Proof.
  intros Es Hs Hn. unfold auth_depth in *. cb_cbn. rewrite Es in Hn.
  change (SMP_BR_STATE_IDLE =? SMP_BR_STATE_IDLE) with true. cbv iota.
  apply Z.eqb_neq in Hs. unfold SMP_BR_STATE_IDLE, SMP_STATE_IDLE in *. rewrite Hs in Hn.
  repeat case_match; lia.
Qed.

Lemma sirk_depth w : state (smp_cb w) = SMP_STATE_BOND_PENDING → (auth_depth w <= S (S n))%nat →
  (auth_depth (w <| smp_cb ::= fun c => c <| state := SMP_STATE_IDLE |> |>) <= n)%nat.
Proof.
  intros Es Hn. unfold auth_depth in *. cb_cbn. rewrite Es in Hn. cbn in *. repeat case_match; lia.
Qed.

(** Staying in a state. *)
Lemma stay_calm w s : state (smp_cb w) = s → calm w (w <| smp_cb ::= fun c => c <| state := s |> |>).
Proof. intros Es. split; unfold bits, discards; cb_cbn; auto. Qed.

Lemma ev_auth d w : (auth_depth w <= S n)%nat → live (sm_event_body SMP_AUTH_CMPL_EVT d) (fun _ => calm w) w.
Proof.
  intros Hn. le_event; try (pose proof (idle_depth w _ Es ltac:(done) Hn)); try by lv.
  pose proof (stay_calm w _ Es) as Hc. eapply lv_mono; [apply (lv_sirk_verify n)|intros [] w' Hw'; rel].
  - pose proof (calm_depth _ _ Hc). lia.
  - unfold auth_depth in Hn. rewrite Es in Hn. cbn in Hn. lia.
Qed.

Lemma ev_sirk d w : (auth_depth w <= S (S n))%nat →
  live (sm_event_body SMP_SIRK_DEVICE_VALID_EVT d) (fun _ => calm w) w.
Proof. intros Hn. le_event. pose proof (sirk_depth w Es Hn). lv. Qed.

Lemma ev_br_auth d w : (auth_depth w <= S n)%nat →
  live (br_event_body SMP_BR_AUTH_CMPL_EVT d) (fun _ => calm w) w.
Proof.
  intros Hn. br_event; pose proof (br_idle_depth w _ Es ltac:(done) Hn); unfold smp_br_pairing_complete; lv.
Qed.

(** ** Legacy pairing *)
Lemma ev_send_rand d w : (4 <= n)%nat → state (smp_cb w) = SMP_STATE_RAND → role (smp_cb w) = 1 → live (sm_event_body SMP_RAND_EVT d) (fun _ => mild w) w.
Proof. intros Hn Hs Hr. le_event; rewrite Es in Hs; try discriminate Hs; rewrite Er in Hr; try discriminate Hr. lv. Qed.

Lemma ev_enc_req d w : (5 <= n)%nat → live (sm_event_body SMP_ENC_REQ_EVT d) (fun _ => mild w) w.
Proof. intros Hn. le_event; lv. Qed.

Lemma ev_key_ready d w :
  state (smp_cb w) = SMP_STATE_ENCRYPTION_PENDING ∧ (4 <= n)%nat ∨
  state (smp_cb w) ≠ SMP_STATE_BOND_PENDING ∧ (6 <= n)%nat ∨ (28 <= n)%nat →
  live (sm_event_body SMP_KEY_READY_EVT d) (fun _ => mild w) w.
Proof.
  intros Hn. assert (4 <= n)%nat by intuition lia. le_event; rewrite Es in Hn;
    try (assert (6 <= n)%nat by (destruct Hn as [[E _]|[[_ ?]|?]]; [discriminate E|lia..]));
    try (assert (28 <= n)%nat by (destruct Hn as [[E _]|[[E _]|?]]; [discriminate E|by destruct E|lia])); lv.
  all: split; [by intros _|done].
Qed.

(** ** Requests to the application *)
Lemma ev_tk_req d w : quiet w → live (sm_event_body SMP_TK_REQ_EVT d) (fun _ => mild w) w.
Proof. intros Hn. le_event; (eapply lv_mono; [by apply lv_cback_quiet|]); intros [] w' Hw'; rel. Qed.

Lemma ev_display_nc d w : quiet w → live (sm_event_body SMP_SC_DSPL_NC_EVT d) (fun _ => mild w) w.
Proof. intros Hn. le_event; (eapply lv_mono; [by apply lv_cback_quiet|]); intros [] w' Hw'; rel. Qed.

Lemma ev_tk_req_br d w : br_state (smp_cb w) = SMP_BR_STATE_BOND_PENDING → (bound w 9 19 <= n)%nat → live (sm_event_body SMP_TK_REQ_EVT d) (fun _ => kept w) w.
Proof. intros Hb Hn. le_event; (eapply lv_mono; [apply (lv_cback n); left; split; [exact Hb|exact Hn]|]); intros [] w' Hw'; rel. Qed.

Lemma ev_io_rsp d w : (8 <= n)%nat → live (sm_event_body SMP_IO_RSP_EVT d) (fun _ => mild w) w.
Proof. intros Hn. le_event; lv. Qed.

Lemma ev_discard d w : discards w = false → (18 <= n)%nat →
  live (sm_event_body SMP_DISCARD_SEC_REQ_EVT d) (fun _ => kept w) w.
Proof.
  intros Hd Hn. pose proof (bits_max w). le_event; [by lv|].
  eapply lv_mono; [apply lv_distribution|intros [] w' Hw'; rel].
  unfold bound, discards, bits in *. cb_cbn. rewrite Hd. lia.
Qed.

(** ** Secure connections *)
Lemma ev_publ_key_exch d w : (7 <= n)%nat → live (sm_event_body SMP_PUBL_KEY_EXCH_REQ_EVT d) (fun _ => mild w) w.
Proof. intros Hn. le_event; lv. Qed.

Lemma ev_loc_publ_key d w : (6 <= n)%nat → live (sm_event_body SMP_LOC_PUBL_KEY_CRTD_EVT d) (fun _ => mild w) w.
Proof. intros Hn. le_event; lv. Qed.

Lemma ev_both_keys d w : (5 <= n)%nat → live (sm_event_body SMP_BOTH_PUBL_KEYS_RCVD_EVT d) (fun _ => mild w) w.
Proof. intros Hn. le_event; lv. Qed.

Lemma ev_dhkey_cmplt d w : (4 <= n)%nat → live (sm_event_body SMP_SC_DHKEY_CMPLT_EVT d) (fun _ => mild w) w.
Proof. intros Hn. le_event; lv. Qed.

Lemma ev_phase1_cmplt d w : (8 <= n)%nat → live (sm_event_body SMP_SC_PHASE1_CMPLT_EVT d) (fun _ => mild w) w.
Proof. intros Hn. le_event; lv. Qed.

Lemma ev_calc_nc d w : (4 <= n)%nat → live (sm_event_body SMP_SC_CALC_NC_EVT d) (fun _ => mild w) w.
Proof. intros Hn. le_event; lv. Qed.

Lemma ev_checks_present d w : (7 <= n)%nat → live (sm_event_body SMP_SC_2_DHCK_CHKS_PRES_EVT d) (fun _ => mild w) w.
Proof. intros Hn. le_event; lv. Qed.

Lemma ev_sc_key_ready d w : (6 <= n)%nat → live (sm_event_body SMP_SC_KEY_READY_EVT d) (fun _ => mild w) w.
Proof. intros Hn. le_event; lv. Qed.

Lemma ev_dhkey_check d w : state (smp_cb w) = SMP_STATE_DHK_CHECK → (4 <= n)%nat → live (sm_event_body SMP_PAIR_DHKEY_CHCK_EVT d) (fun _ => mild w) w.
Proof. intros Hs Hn. le_event; rewrite Es in Hs; try discriminate Hs. lv. Qed.

Lemma ev_bond_req d w : (28 <= n)%nat → live (sm_event_body SMP_BOND_REQ_EVT d) (fun _ => kept w) w.
Proof. intros Hn. le_event; lv. Qed.

(** ** Pairing over BR/EDR *)
Lemma ev_br_bond_req d w : (bound w 18 28 <= n)%nat →
  live (br_event_body SMP_BR_BOND_REQ_EVT d) (fun _ => kept w) w.
Proof.
  intros Hn. pose proof (bits_max w). br_event; [by lv|].
  eapply lv_mono; [apply lv_next_key|intros [] w' Hw'; rel].
  unfold bound, discards, bits in *. cb_cbn. case_match; lia.
Qed.

Lemma ev_br_keys_rsp d w :
  br_state (smp_cb w) = SMP_BR_STATE_BOND_PENDING ∨ (bound w 19 29 <= n)%nat →
  live (br_event_body SMP_BR_KEYS_RSP_EVT d) (fun _ => kept w) w.
Proof.
  intros [Hs|Hn]; [br_event; rewrite Es in Hs; discriminate Hs|].
  assert (4 <= n)%nat by (unfold bound in *; case_match; lia). br_event; [by lv|].
  unfold smp_br_process_peripheral_keys_response. lv_step. lv_step.
  eapply lv_mono; [apply (lv_br_check_auth n)|intros [] w'' Hw''; rel].
  etrans; [|exact Hn]. apply bound_kept; [lia|rel].
Qed.

(** ** Everything else *)
Hint Resolve lv_cback : smpl.
Hint Extern 1 (br_state _ = _ ∧ _ ∨ _) => solve [right; unfold bound; case_match; lia] : smpl.
Hint Extern 1 (bound _ _ _ <= _)%nat => solve [unfold bound; case_match; lia] : smpl.

Ltac each ev k max tac :=
  lazymatch eval vm_compute in (k <=? max) with
  | true => destruct (decide (ev = k)) as [->|?];
      [tac | let k' := eval vm_compute in (k + 1) in each ev k' max tac]
  | false => exfalso; lia
  end.

Lemma ev_any ev d w : 1 <= ev <= SMP_MAX_EVT → (30 <= n)%nat →
  live (sm_event_body ev d) (fun _ _ => True) w.
Proof.
  change SMP_MAX_EVT with 41. intros He Hn. each ev 1 41 ltac:(idtac).
  all: apply lv_sm_event; [split; vm_compute; discriminate|done|rows_of le_rows]; by lv.
Qed.

Lemma ev_br_any ev d w : 1 <= ev <= SMP_BR_MAX_EVT - 1 → (30 <= n)%nat →
  live (br_event_body ev d) (fun _ _ => True) w.
Proof.
  change (SMP_BR_MAX_EVT - 1) with 25. intros He Hn. each ev 1 25 ltac:(idtac).
  all: apply lv_br_event; [split; vm_compute; discriminate|done|rows_of br_rows];
    unfold smp_br_process_peripheral_keys_response, smp_br_pairing_complete; by lv.
Qed.
End events.

(** ** The knot *)
Lemma machines_live `{Env} `{Crypto} n : @Live n (machines n).
Proof.
  assert (∀ w, 1 <= auth_depth w)%nat as Ha by (intros w; unfold auth_depth; lia).
  assert (∀ w, 10 <= bound w 10 20)%nat as Hb by (intros w; unfold bound; case_match; lia).
  induction n as [|n IH].
  - split; intros; exfalso; try specialize (Ha w); try specialize (Hb w); unfold bound in *;
      try case_match; intuition lia.
  - split; intros; cbn [machines smp_sm_event smp_br_state_machine_event smp_key_distribution
      smp_br_select_next_key].
    + by apply (ev_auth n).
    + by apply (ev_br_auth n).
    + by apply (ev_sirk n).
    + apply (ev_confirm n); lia.
    + apply (ev_send_rand n); [lia|done..].
    + apply (ev_enc_req n); lia.
    + apply (ev_key_ready n); intuition lia.
    + by apply ev_tk_req.
    + apply (ev_tk_req_br n); [done|]. unfold bound in *. case_match; lia.
    + by apply ev_display_nc.
    + apply (ev_io_rsp n); lia.
    + apply (ev_discard n); [done|lia].
    + apply (ev_publ_key_exch n); lia.
    + apply (ev_loc_publ_key n); lia.
    + apply (ev_both_keys n); lia.
    + apply (ev_dhkey_cmplt n); lia.
    + apply (ev_phase1_cmplt n); lia.
    + apply (ev_calc_nc n); lia.
    + apply (ev_checks_present n); lia.
    + apply (ev_sc_key_ready n); lia.
    + apply (ev_dhkey_check n); [done|lia].
    + apply (ev_bond_req n); lia.
    + by apply (lv_key_distribution n).
    + by apply (lv_br_select_next_key n).
    + apply (ev_br_keys_rsp n). unfold bound in *. case_match; intuition lia.
    + apply (ev_br_bond_req n). unfold bound in *. case_match; lia.
    + apply (ev_any n); [done|lia].
    + apply (ev_br_any n); [done|lia].
Qed.

(** ** The inputs *)
Section handlers.
Context `{Env} `{Crypto} `{Machines} (n : nat) `{!Live n} (Hn : (31 <= n)%nat).

Hint Resolve lv_any lv_br_any : smpl.
Hint Extern 1 (1 <= _ <= _)%Z => split; vm_compute; discriminate : smpl.

Lemma lv_data ch a p w : live (smp_data_received ch a p) (fun _ _ => True) w.
Proof.
  destruct p as [|cmd p]; [done|]. cbn [smp_data_received]. lv_step; [done|].
  apply command_code in Heqb.
  assert (∀ b : bool, 1 <= (if b then SMP_OPCODE_PAIR_COMMITM else cmd) <= SMP_MAX_EVT) as Hr.
  { change SMP_MAX_EVT with 41. unfold SMP_OPCODE_PAIR_COMMITM. intros []; lia. }
  repeat lv_step; try done; by apply lv_any.
Qed.

Lemma lv_br_data a p w : live (smp_br_data_received a p) (fun _ _ => True) w.
Proof.
  destruct p as [|cmd p]; [done|]. cbn [smp_br_data_received]. lv_step; [done|].
  apply command_code in Heqb.
  assert (1 <= cmd <= SMP_BR_MAX_EVT - 1) as Hr by (change (SMP_BR_MAX_EVT - 1) with 25; lia).
  repeat lv_step; try done; by apply lv_br_any.
Qed.

Lemma lv_handle i w : live (handle i) (fun _ _ => True) w.
Proof.
  destruct i; cbn [handle]; try apply lv_data; try apply lv_br_data;
    unfold SMP_Init, init, smp_l2cap_if_init, SMP_Register, SMP_Pair, SMP_BR_PairWith, L2CA_ConnectFixedChnl_,
      SMP_PairCancel, SMP_SecurityGrant, SMP_PasskeyReply, smp_convert_string_to_tk, SMP_ConfirmReply,
      SMP_OobDataReply, SMP_SecureConnectionOobDataReply, smp_has_local_oob_data, SMP_CrLocScOobData,
      SMP_ClearLocScOobData, smp_clear_local_oob_data, SMP_SirkConfirmDeviceReply, smp_link_encrypted,
      smp_cancel_start_encryption_attempt, smp_proc_ltk_request, smp_connect_callback,
      smp_tx_complete_callback, smp_br_connect_callback, fires, smp_rsp_timeout,
      smp_delayed_auth_complete_timeout; try (by lv).
  apply lv_bind. unfold live at 1, pop_rand. destruct (rands w); [done|by apply (lv_rand_callback n)].
Qed.
End handlers.

(** C4: every input is handled to its end, in every state.  The recursion bound of the
    model is never reached from 31 on, and a larger bound changes nothing. *)
Theorem every_input_ends `{Env} `{Crypto} n i w : (31 <= n)%nat →
  (∀ w', @handle _ _ (machines n) i w ≠ Fault OutOfFuel w') ∧
  @handle _ _ (machines n) i w = @handle _ _ (machines 31) i w.
Proof.
  intros Hn.
  assert (∀ m, 31 <= m → ∀ w', @handle _ _ (machines m) i w ≠ Fault OutOfFuel w')%nat as Hl.
  { intros m Hm w' E. pose proof (@lv_handle _ _ _ m (machines_live m) Hm i w) as Hv.
    unfold live in Hv. by rewrite E in Hv. }
  split; [by apply Hl|]. pose proof (machines_refine 31 n Hn).
  destruct (rf_handle (machines 31) (machines n) i w) as [E|[w' E]]; [done|]. by apply Hl in E.
Qed.

Lemma every_input_ends_witness :
  @handle initiator_env zero_crypto (@machines initiator_env zero_crypto 40) (i_Pair peer 0) init_world =
  @handle initiator_env zero_crypto (@machines initiator_env zero_crypto 31) (i_Pair peer 0) init_world.
Proof.
  exact (proj2 (@every_input_ends initiator_env zero_crypto 40 (i_Pair peer 0) init_world
    (proj1 (Nat.leb_le 31 40) eq_refl))).
Defined.

(** ** Runs *)
Lemma init_keeps `{Env} `{!EnvOk} `{CryptoLaws} `{Machines} `{!MachinesOk} m :
  keeps (handle (i_Init m)) init_world.
Proof. apply keeps_init; [apply zero_oob_ok|constructor..]. Qed.

(** What a run ends with: a well-typed state, or one of the named faults. *)
Definition run_ok (e : Env) (r : res world) : Prop :=
  match r with
  | Ok w => world_ok w
  | Fault f w => f ≠ OutOfFuel ∧ @fault_ok e f w
  end.

Lemma run_step (e : Env) `{Crypto} i w : @keeps e _ (@handle e _ (@machines e _ 32) i) w →
  run_ok e (run_env e [i] w).
Proof.
  intros Hk. pose proof (@lv_handle e _ _ 32 (machines_live 32) ltac:(lia) i w) as Hv.
  unfold run_env. cbn [fold_left]. unfold keeps in Hk. unfold live in Hv. destruct (handle i w) as [[u w']|f w']; [done|]. by destruct f.
Qed.

Lemma run_app (e : Env) `{Crypto} l1 l2 w :
  run_env e (l1 ++ l2) w = match run_env e l1 w with Ok w' => run_env e l2 w' | Fault f w' => Fault f w' end.
Proof.
  unfold run_env at 1 2. rewrite fold_left_app. destruct (fold_left _ l1 _) as [w'|f w']; [done|].
  by induction l2.
Qed.

Lemma run_keeps (e : Env) `{!EnvOk} `{CryptoLaws} l w :
  world_ok w → Forall input_ok l → run_ok e (run_env e l w).
Proof.
  intros Hw Hl. revert w Hw. induction Hl as [|i l Hi Hl IH]; intros w Hw; [done|].
  change (i :: l) with ([i] ++ l). rewrite run_app.
  pose proof (run_step e i w ltac:(by apply keeps_handle)) as Hs.
  destruct (run_env e [i] w) as [w'|f w']; [by apply IH|done].
Qed.

(** C3: SMP stays well typed, whatever happens to it.  From [SMP_Init] on, after any
    sequence of calls, packets and timeouts, every buffer of the control block has its
    size and holds octets, the states are states of their machines, and every packet
    handed to L2CAP has the octets its opcode asks for.  A fault can only be one of four.
    A device record that the security manager does not have is dereferenced.  A passkey
    is taken for the pointer to a key, in three states.  The scalar of all ones leaves
    the digits of a point multiplication, or the 128th round of the passkey protocol leaves
    the bits of the passkey. *)
Theorem smp_stays_typed (e : Env) `{!EnvOk} `{CryptoLaws} m l : Forall input_ok l →
  match run_env e (i_Init m :: l) init_world with
  | Ok w => world_ok w
  | Fault f w => f ≠ OutOfFuel ∧ fault_ok f w
  end.
Proof.
  intros Hl. change (i_Init m :: l) with ([i_Init m] ++ l). rewrite run_app.
  pose proof (run_step e (i_Init m) init_world (init_keeps m)) as Hs.
  destruct (run_env e [i_Init m] init_world) as [w'|f w']; [by apply (run_keeps e)|done].
Qed.

Lemma plain_env_ok role connects io own t :
  0 <= role → io_req_ok io → octs 6 own.1 → is_u8 own.2 → @EnvOk (plain_env role connects io own t).
Proof.
  intros Hr Hio Ha Ht. split; cbn [plain_env env_find_dev env_ReadRemoteConnectionAddr env_DeviceEncRoot
    env_DeviceIDRoot env_DeviceDHK]; try done; try (split; [done|]; apply Forall_replicate; unfold is_u8; lia).
  - intros _ a d [= <-]. apply octs_zero.
  - by intros _ a b Hb [= <-].
Qed.

Lemma smp_stays_typed_witness :
  let e := plain_env HCI_ROLE_PERIPHERAL true keyboard (self, 0) 0 in
  match @run_env e zero_crypto failed_pairing init_world with
  | Ok w => world_ok w
  | Fault f w => f ≠ OutOfFuel ∧ @fault_ok e f w
  end.
Proof.
  exact (@smp_stays_typed (plain_env HCI_ROLE_PERIPHERAL true keyboard (self, 0) 0)
    (plain_env_ok HCI_ROLE_PERIPHERAL true keyboard (self, 0) 0 ltac:(by vm_compute) ltac:(by split)
      ltac:(split; [done|by repeat constructor]) ltac:(done)) zero_crypto zero_crypto_laws BTM_SEC_MODE_SP
    [i_Register 77; request; acked; i_PasskeyReply peer SMP_PASSKEY_ENTRY_FAIL 0; acked]
    ltac:(repeat (constructor; try done))).
Defined.
